(* ===== verification/_CoqProject ===== *)
-Q . S2P
Prelude.v
GoStrings.v
Sql.v
CPDomain.v
JobRepo.v
WorkerRepo.v
CPService.v
CPHttp.v
JobRepoFacts.v
CPSystem.v
LeaseQueue.v
CPTheorems.v
CPServiceTheorems.v
CPPollTheorems.v
HostFiles.v
WorkerConfig.v
RunnerOutput.v
RunnerTheorems.v
DockerExec.v
FirecrackerExec.v
FirecrackerTheorems.v
WorkerLoop.v
TreeCodec.v
AiDomain.v
AiPrompts.v
AiRepo.v
AiService.v
DriverHeaders.v
Driver.v
DriverTheorems.v
AuthRepo.v
AuthService.v
AuthFacts.v
AuthAccounts.v
AuthTheorems.v
ApiHttp.v
AuthHttp.v
AuthSessions.v
AuthRenewal.v
RbacRepo.v
RbacService.v
RbacHttp.v
RbacFacts.v
CoreRbac.v
RbacTheorems.v
RbacSessions.v
RbacSeed.v
SubRepo.v
SubService.v
SubTheorems.v
SubViewTheorems.v
SubHttp.v
CatalogRepo.v
CatalogService.v
CatalogHttp.v
CatalogFacts.v
CatalogTheorems.v
CatalogSlugs.v
CatalogViews.v
CatalogListings.v
CatalogLinks.v
CatalogPrivacy.v
CatalogExamples.v
ProfileRepo.v
ProfileHttp.v
ProfileFacts.v
ProfileTheorems.v
AiHttp.v
AiTheorems.v
AiSubmissions.v
AiExamples.v
RateLimit.v
Amqp.v
AmqpTheorems.v
JobIntake.v
MailWorker.v
MessageExamples.v
Judge.v
EndToEnd.v
Startup.v
