(* ===== verification/Prelude.v ===== *)
(** * Capstone: a verification development

    Capstone is an online judge written in Go.  A user submits a solution of a
    programming problem to the _API_; the API checks the request, wraps the
    source with a generated driver and publishes a job-creation message; the
    _control plane_ consumes it, keeps the job in its database and hands it to
    a _worker_ that polls; the worker runs the program in a Docker container
    or a Firecracker microVM, reads the runner's output and reports a result;
    the API fetches the result from the control plane when the user looks at
    the submission.  Around that path the API keeps accounts and sessions,
    roles and permissions, the catalogue of problems, the AI service that
    validates code and gives hints, and the users' profiles and statistics.
    This library models these parts in Rocq, translated from the Go sources,
    and proves what makes them correct.

    ** The files

    - [Prelude] (this file): the scope, machine integers, results and errors,
      the state-and-error monad the operations are written in, faults, and
      transition systems.  [Sql]: tables as finite maps, UPDATE, SELECT and
      ORDER BY.  [GoStrings]: the functions of Go's [strings], [strconv] and
      [fmt] the program uses, on strings of bytes.
    - Control plane ([internal/controlplane], [cmd/control-plane]):
      [CPDomain] (data), [JobRepo] and [WorkerRepo] (the repositories, one
      definition per method and per SQL statement), [CPService] (service,
      message handler, sweeps, durations), [CPHttp] (handlers, key check,
      routes, and the worker's client of [internal/worker/client.go]).
      [JobRepoFacts] has the repositories' lemmas, [CPSystem] the transition
      system of all statements with its well-formedness invariant,
      [LeaseQueue] the abstract specification.  [CPTheorems],
      [CPServiceTheorems] and [CPPollTheorems] hold the theorems.
    - Worker ([internal/worker], [cmd/worker], [cmd/fc-agent]): [HostFiles]
      (names and inodes, and [copyFile] on them), [WorkerConfig] (language
      list, intervals, runtimes), [RunnerOutput] and [RunnerTheorems] (the
      result parsers, the escape detector, Docker's stream headers),
      [DockerExec] and [FirecrackerExec] (the two executors, the snapshot
      pool, the guest agent and the choice of executor) with
      [FirecrackerTheorems], [WorkerLoop] (the process as a transition system
      over its loops and job goroutines).
    - Submissions ([internal/api/submissions]): [TreeCodec]
      (the codecs in the generated code, over a heap of nodes),
      [DriverHeaders] and [Driver] with [DriverTheorems] (the driver
      generator), [SubRepo], [SubService], [SubHttp] (repository, service and
      control-plane client, handlers) with [SubTheorems] and
      [SubViewTheorems].
    - AI service ([internal/api/ai]): [AiDomain], [AiPrompts], [AiRepo],
      [AiService] (with the Ollama model) and [AiHttp], with [AiTheorems];
      [AiSubmissions] is its interface to the submissions (the class
      [Validates]) and what they gain from it; [AiExamples] are runs.
    - Accounts and sessions ([internal/api/auth], [cmd/api/routes.go]):
      [AuthRepo], [AuthService] (service, tokens, middlewares) and [AuthHttp]
      (handlers, cookie); [AuthFacts] has histories of calls and their
      invariant, [AuthAccounts], [AuthTheorems], [AuthSessions] (a browser
      with its cookie) and [AuthRenewal] the theorems.  [ApiHttp]: responses,
      permission checks and numbers, shared by all handlers of the API.
    - Access control ([internal/api/rbac]): [RbacRepo], [RbacService],
      [RbacHttp], with [RbacFacts], the abstract specification [CoreRbac],
      [RbacTheorems], [RbacSessions] and the seeded roles [RbacSeed].
    - Catalogue ([internal/api/problems], [tags], [languages]):
      [CatalogRepo], [CatalogService], [CatalogHttp], with [CatalogFacts]
      (well-formed tables), [CatalogTheorems], [CatalogSlugs],
      [CatalogViews], [CatalogListings], [CatalogLinks], [CatalogPrivacy] and
      [CatalogExamples].
    - Profiles and statistics (the rest of [internal/api/auth]):
      [ProfileRepo], [ProfileHttp], with [ProfileFacts] and
      [ProfileTheorems].
    - [RateLimit] ([internal/api/middleware/ratelimit.go]).
    - Messages ([pkg/rabbitmq], [internal/controlplane/consumer],
      [internal/email], [cmd/email]): [Amqp] (publishers, consumer and its
      loop over a log of the broker's calls) and [AmqpTheorems] (with the
      abstract consumer that the loop refines); its two clients, [JobIntake]
      (the control plane's consumer and its start-up) and [MailWorker] (the
      sender over a log of SMTP commands, and the process), with their
      theorems; [MessageExamples].
    - [Judge]: the submission service, the broker, the control plane and its
      reading back composed into one transition system; [EndToEnd]: the judge
      with any number of worker processes.
    - [Startup]: [main] of the API and of the control plane, from the
      configuration to the deferred calls ([cmd/api/main.go],
      [cmd/control-plane/main.go], [pkg/database], [pkg/migrations]).

    ** How state and operations correspond to the code

    A repository method is a function [M db error A], which returns the new
    database whether or not it succeeds; one SQL statement is one atomic
    change.  What the outside decides is an argument: [io : faults] says which
    statements of a call fail, [now] is the database's clock, [fresh] an
    identifier it draws, [tie] its order of equal rows, [locked] the rows
    concurrent transactions hold, and the answers of HTTP servers, Docker,
    the hypervisor, the validator and the broker are fields of environments.
    The theorems quantify over all of these.  Rows carry the columns the
    statements touch, and the CHECK, PRIMARY KEY, UNIQUE and FOREIGN KEY
    constraints that can reject a statement are modelled.  Errors keep Go's
    chain of wrapped errors, so that [errors.Is] decides as in the code.
    Integers keep their width where it matters ([wrap64], PostgreSQL's INT);
    durations are nanoseconds, and the numbers of a decoded tree pass through
    [float64] ([TreeCodec.round53]).  JSON codecs, [uuid.Parse] and the Unicode
    tables are parameters, with the laws a theorem needs as its hypotheses.
    What JSON carries is not the identity: [GoStrings.json_text] is what
    becomes of a string, bytes that are no UTF-8 replaced, the class [ViaJSON]
    extends it to requests and replies, and the HTTP clients and the message
    codecs of the judge pass their values through it.  Clean-up can fail where
    it can in the code: removals, stops and creations answer as the
    environment says, and what then remains is part of the model.
    Concurrency is modelled where the code has it: the control plane's
    requests as interleavings of statements ([CPSystem]), the worker's
    goroutines as a step relation ([WorkerLoop]), the rate limiter's map as
    pointers into a heap.

    ** What is proved

    - End to end ([Judge], [EndToEnd]): the API takes its requests one after the other,
      the control plane moves at any time, also between the two questions of
      one reading, and the broker delivers, as often as it likes, what was
      published.  What a worker is handed is the wrapped source, the limits
      and the test cases of an admitted submission; a verdict that the API
      stores is that of a completed job of the same submission.  With the
      worker processes, which start, die, lose answers and report late, it is
      what an executor returned for that submission's assignment; with Docker
      executors an accepted submission has passed in a sandboxed container.
    - Start-up ([Startup]): both servers serve only with their database
      reached and migrated, the API only with the core roles seeded, and both
      only with the broker connected when one is configured; a returning
      [main] leaves nothing open; sweep intervals that are not positive end
      the control plane; the defaults of the four programs fit together.
    - Control plane: reachable databases are well formed; the repositories
      refine the abstract lease queue; attempts are bounded; finished jobs
      never change; jobs are claimed first come, first served; a report is
      accepted exactly from the holder, once, as a whole; the sweep moves
      exactly the expired leases; a poll hands out the selected job and the
      client reads it; what a job carries is what was asked for; capacity is
      kept by polls that do not overlap, and not by ones that do; refused
      requests change nothing.
    - Worker: verdicts, containment of both executors (what may be left
      behind, and when), escape detection, header stripping as the inverse of framing, agreement of the
      two backends on workspace and result, the snapshots that concurrent
      executions share, the protocol of each job goroutine, the bound on
      active jobs and where it ends.
    - Submissions: the codecs round-trip, as far as float64 carries the
      values, and end; imports are merged; only
      admitted code is published; repeated violations suspend; a submission
      is shown to its owner with hidden outputs removed; a result is settled
      once; a page lists the caller's own.
    - AI service: only an explicit permission of the model passes; refused
      code is blocked and its refusal recorded; hints carry and extend the
      stored conversation.
    - Accounts and sessions: accounts are told apart; a session is given to
      who knows the password of a verified, unbanned account; refresh tokens
      and verification links work once; a browser's session lasts as long as
      it is renewed before its token and its cookie expire, and its spent
      cookies are dead.
    - Access control: every endpoint refines the abstract role-based access
      control; a session can do what its user's roles allow.
    - Catalogue: its tables stay well formed and their rows valid; slugs are
      the first free ones; pages cut one list in order of time, whose equal
      times each query orders anew; unpublished problems stay hidden; links
      are replaced as a whole; the lists of test cases agree.
    - Profiles: statistics, profile and catalogue agree on what is solved;
      profiles are those of active users; the administrators' pages tile.
    - Rate limiter: on the map that all limited routes share it decides as
      the exact sliding-window log.
    - Messages: the messages acknowledged by the control plane are its new
      jobs, one to one, and carry their requests; each acknowledged
      verification message has handed over one mail, and a rejected one a mail
      only when its own QUIT failed or an answer was lost; connections are
      released on every path.

    Where the code falls short of what it says (a capacity check that is not
    atomic, outputs that leak when a statement fails, a sweep that removes
    nothing, import names that are lost, ...) a theorem or lemma states the
    behaviour the code has.

    ** Fuel

    [RunnerOutput.strip_loop] takes the length of its input and every
    iteration removes at least eight bytes; [TreeCodec.fill_loop] takes the
    length of the array and consumes an element per iteration;
    [level_loop] and [serializeList] are given a fuel by their callers, and
    the round-trip theorems show that a bound computed from the data is
    enough (the code itself would not end on a cyclic structure);
    [FirecrackerExec.wait_loop] takes the number of looks, one every 200 ms,
    that its deadline allows; [CatalogService.create_attempts] takes the ten
    attempts that the code makes; [Amqp.serve] takes the turns in which the
    outside moves its loop on, and stops where they end.

    ** What is not modelled

    The broker and the mail server themselves (what they deliver and answer
    is an argument) and the standard library's renderers of mails; the
    database's driver and pool, the migration files, the library that reads
    the environment, and the choice of a logger ([pkg/logger]); Firecracker's
    SDK, the jailer and the kernel and drives they put into a
    chroot; the builds for other systems than Linux; the runner scripts, which
    are Python and JavaScript; the web front end; mocks; the
    control plane's /healthz, which touches no state.  Text with a NUL byte,
    which PostgreSQL rejects, is a rule of the tables of the AI service and of
    the profiles, and elsewhere one of the faults a statement may have.  Texts of HTTP errors that no caller looks at are left out. *)

From stdpp Require Export base gmap strings list fin_maps fin_sets option relations.
From Stdlib Require Export ZArith Lia.

#[export] Set Default Proof Using "Type".

(** The hint database of the development. *)
Create HintDb capstone.

(** ** Scope and small notations of the development *)

Declare Scope go_scope.
Delimit Scope go_scope with go.

(** Two strings joined, as Go's [+]. *)
Notation "a ++s b" := (String.append a b)
  (at level 60, right associativity) : go_scope.
#[global] Arguments String.append !_ _ / : simpl nomatch.

#[global] Open Scope go_scope.
#[global] Open Scope Z_scope.

(** ** Identifiers and time

    A [uuid.UUID] is sixteen bytes: it is kept as the 128-bit number they
    spell.  An instant ([time.Time], TIMESTAMPTZ) and a [time.Duration] are
    counted in nanoseconds. *)

Definition uuid : Type := N.
Definition uuid_Nil : uuid := 0%N.

Definition time_Millisecond : Z := 1000000.
Definition time_Second : Z := 1000000000.
Definition time_Minute : Z := 60 * time_Second.

(** ** Machine integers

    Go's [int], [int64] and [time.Duration] are 64-bit two's complement
    numbers on the platforms the services run on; PostgreSQL's INT is a
    32-bit number whose overflow is an error, not a wrap. *)

Definition wrap64 (z : Z) : Z := (z + 2^63) `mod` 2^64 - 2^63.

Definition int64_range (z : Z) : Prop := - 2^63 <= z < 2^63.

Definition int4_ok (z : Z) : bool := (- 2^31 <=? z) && (z <? 2^31).

Definition int4_opt_ok (z : option Z) : bool :=
  match z with None => true | Some z => int4_ok z end.

Lemma wrap64_id z : int64_range z -> wrap64 z = z.
Proof. unfold int64_range, wrap64; intros; rewrite Z.mod_small; lia. Qed.

Lemma wrap64_range z : int64_range (wrap64 z).
Proof.
  unfold int64_range, wrap64.
  pose proof (Z.mod_pos_bound (z + 2^63) (2^64)); lia.
Qed.

Lemma wrap64_add_l a b : wrap64 (wrap64 a + b) = wrap64 (a + b).
Proof.
  unfold wrap64.
  replace ((a + 2 ^ 63) `mod` 2 ^ 64 - 2 ^ 63 + b + 2 ^ 63)
    with ((a + 2^63) `mod` 2^64 + b) by lia.
  rewrite Z.add_mod_idemp_l by lia.
  f_equal; f_equal; lia.
Qed.

Lemma int4_ok_spec z : int4_ok z = true <-> - 2^31 <= z < 2^31.
Proof. unfold int4_ok; rewrite andb_true_iff, Z.leb_le, Z.ltb_lt; lia. Qed.

(** ** Results and errors

    A Go function that returns [(T, error)] returns a [result].  An error is
    one of the package's sentinel values, a sentinel or another error wrapped
    with [fmt.Errorf("...%w...")], or an opaque error whose text is all that
    is known of it. *)

Inductive result (E A : Type) : Type :=
  | Ok (a : A)
  | Err (e : E).
Arguments Ok {E A} _.
Arguments Err {E A} _.

Inductive goerr (S : Type) : Type :=
  | Sentinel (s : S)
  | Wrapf (pre : string) (e : goerr S) (post : string)
  | Opaque (msg : string).
Arguments Sentinel {S} _.
Arguments Wrapf {S} _ _ _.
Arguments Opaque {S} _.

(** The text of each sentinel, [errors.New("...")]. *)
Class SentinelText (S : Type) := sentinel_text : S -> string.

Fixpoint error_text {S} `{SentinelText S} (e : goerr S) : string :=
  match e with
  | Sentinel s => sentinel_text s
  | Wrapf pre e post => pre ++s error_text e ++s post
  | Opaque m => m
  end.

(** [errors.Is]: follow the chain of wrapped errors. *)
Fixpoint errors_Is {S} `{EqDecision S} (e : goerr S) (target : S) : bool :=
  match e with
  | Sentinel s => bool_decide (s = target)
  | Wrapf _ e _ => errors_Is e target
  | Opaque _ => false
  end.

(** ** The state and error monad

    An operation on a state [S] (a database, a process) returns the new state
    in every case: a failed call keeps what it wrote before it failed, unless
    its transaction rolls it back. *)

Definition M (S E A : Type) : Type := S -> S * result E A.

#[export] Instance M_ret {S E} : MRet (M S E) := fun _ a s => (s, Ok a).

#[export] Instance M_bind {S E} : MBind (M S E) := fun _ _ k m s =>
  match m s with
  | (s', Ok a) => k a s'
  | (s', Err e) => (s', Err e)
  end.

Definition fail {S E A} (e : E) : M S E A := fun s => (s, Err e).
Definition get {S E} : M S E S := fun s => (s, Ok s).
Definition put {S E} (s : S) : M S E () := fun _ => (s, Ok tt).

(** [if err := m; err != nil { return wrap(err) }] *)
Definition map_err {S E E' A} (f : E -> E') (m : M S E A) : M S E' A := fun s =>
  match m s with
  | (s', Ok a) => (s', Ok a)
  | (s', Err e) => (s', Err (f e))
  end.

(** The result as a value, for callers that look at the error and go on. *)
Definition attempt {S E E' A} (m : M S E A) : M S E' (result E A) := fun s =>
  let '(s', r) := m s in (s', Ok r).

(** [_ = m]: the error is dropped. *)
Definition ignore {S E E' A} (m : M S E A) : M S E' () := fun s => ((m s).1, Ok tt).

(** Lifting a pure fallible computation. *)
Definition lift {S E A} (r : result E A) : M S E A := fun s => (s, r).

(** [defer cleanup()] before the rest of a function. *)
Definition with_defer {S E A} (cleanup : S -> S) (m : M S E A) : M S E A := fun s =>
  let '(s', r) := m s in (cleanup s', r).

(** An operation on one of two states kept side by side. *)
Definition on_first {S T E A} (m : M S E A) : M (S * T) E A := fun st =>
  let '(s, r) := m st.1 in ((s, st.2), r).
Definition on_second {S T E A} (m : M T E A) : M (S * T) E A := fun st =>
  let '(t, r) := m st.2 in ((st.1, t), r).

(** Evaluate the monad's combinators on a known computation. *)
Ltac mrun :=
  unfold mbind, M_bind, mret, M_ret, fail, get, put, map_err, attempt, lift in *;
  cbn beta iota in *.

Lemma bind_run {S E A B} (m : M S E A) (k : A -> M S E B) s :
  (m ≫= k) s = match m s with (s', Ok a) => k a s' | (s', Err e) => (s', Err e) end.
Proof. unfold mbind, M_bind. by destruct (m s) as [s' [a | e]]. Qed.

(** Split every match of the goal and of the hypotheses, closing the branches
    that contradict an equation. *)
Ltac split_matches := repeat (case_match; simplify_eq/=).

(** Sequencing in the monad, backwards. *)
Lemma bind_ok {S E A B} (m : M S E A) (k : A -> M S E B) s s' b :
  (a ← m; k a) s = (s', Ok b) <-> exists s1 a, m s = (s1, Ok a) /\ k a s1 = (s', Ok b).
Proof. mrun. destruct (m s) as [s1 [a | e]]; naive_solver. Qed.

Lemma bind_ok_unit {S E B} (m : M S E ()) (k : M S E B) s s' b :
  (_ ← m; k) s = (s', Ok b) <-> exists s1, m s = (s1, Ok tt) /\ k s1 = (s', Ok b).
Proof. rewrite bind_ok. split; [intros (? & [] & ?); eauto | naive_solver]. Qed.

Lemma map_err_ok {S E E' A} (f : E -> E') (m : M S E A) s s' a :
  map_err f m s = (s', Ok a) <-> m s = (s', Ok a).
Proof. unfold map_err. destruct (m s) as [s1 [b | e]]; naive_solver. Qed.

(** ** Operations that only read *)

Definition readonly {S E A} (m : M S E A) : Prop := forall s, (m s).1 = s.

Lemma readonly_ret {S E A} (a : A) : readonly (mret a : M S E A).
Proof. done. Qed.

Lemma readonly_fail {S E A} (e : E) : readonly (fail e : M S E A).
Proof. done. Qed.

Lemma readonly_lift {S E A} (r : result E A) : readonly (lift r : M S E A).
Proof. done. Qed.

Lemma readonly_bind {S E A B} (m : M S E A) (k : A -> M S E B) :
  readonly m -> (forall a, readonly (k a)) -> readonly (m ≫= k).
Proof.
  intros Hm Hk s. unfold mbind, M_bind. specialize (Hm s).
  destruct (m s) as [s' [a | e]]; simpl in *; subst; [apply Hk | done].
Qed.

Lemma readonly_attempt {S E E' A} (m : M S E A) : readonly m -> readonly (attempt (E' := E') m).
Proof. intros Hm s. unfold attempt. specialize (Hm s). by destruct (m s). Qed.

#[export] Hint Resolve readonly_ret readonly_fail readonly_lift readonly_bind readonly_attempt : capstone.

Lemma readonly_bind_ok {S E A B} (m : M S E A) (k : A -> M S E B) s s' b :
  readonly m -> (a ← m; k a) s = (s', Ok b) -> exists a, m s = (s, Ok a) /\ k a s = (s', Ok b).
Proof.
  intros Hm. rewrite bind_ok. intros (s1 & a & E1 & E2). specialize (Hm s). rewrite E1 in Hm.
  simpl in Hm. subst. eauto.
Qed.

(** A read-only operation that ended one way ended in the same state. *)
Lemma readonly_run {S E A} (m : M S E A) s s' r : readonly m -> m s = (s', r) -> s' = s.
Proof. intros Hm E1. specialize (Hm s). by rewrite E1 in Hm. Qed.

(** ** The same operation on two states

    Results that are errors alike, or values that are related. *)

Inductive result_rel {E A A'} (R : A -> A' -> Prop) : result E A -> result E A' -> Prop :=
  | Ok_related a a' : R a a' -> result_rel R (Ok a) (Ok a')
  | Err_related e : result_rel R (Err e) (Err e).

Lemma result_rel_eq {E A} (r r' : result E A) : result_rel eq r r' <-> r = r'.
Proof. split; [by destruct 1; congruence | intros ->; destruct r'; by constructor]. Qed.

Lemma result_rel_refl {E A} (R : relation A) `{!Reflexive R} (r : result E A) : result_rel R r r.
Proof. by destruct r; constructor. Qed.

Lemma bind_related {S E A A' B} (R : A -> A' -> Prop) (m : M S E A) (m' : M S E A')
    (k : A -> M S E B) (k' : A' -> M S E B) s s' :
  readonly m -> readonly m' -> result_rel R (m s).2 (m' s').2 ->
  (forall a a', R a a' -> (k a s).2 = (k' a' s').2) ->
  ((m ≫= k) s).2 = ((m' ≫= k') s').2.
Proof.
  intros Hm Hm' Hrel Hk. unfold mbind, M_bind. specialize (Hm s). specialize (Hm' s').
  destruct (m s) as [s1 [a | e]], (m' s') as [s1' [a' | e']]; simpl in *; subst;
    inversion Hrel; subst; auto.
Qed.

(** ** Operations that change nothing when they fail *)

Definition atomic {S E A} (m : M S E A) : Prop := forall s s' e, m s = (s', Err e) -> s' = s.

Lemma atomic_readonly {S E A} (m : M S E A) : readonly m -> atomic m.
Proof. intros Hm s s' e. apply (readonly_run m s s' _ Hm). Qed.

Lemma atomic_bind {S E A B} (m : M S E A) (k : A -> M S E B) :
  readonly m -> (forall a, atomic (k a)) -> atomic (m ≫= k).
Proof.
  intros Hm Hk s s' e. unfold mbind, M_bind. specialize (Hm s).
  destruct (m s) as [s1 [a | e1]]; simpl in *; subst; [apply Hk | by intros [= <- <-]].
Qed.

(** A change at the end of an operation, whose result is then computed. *)
Lemma atomic_then {S E A B} (m : M S E A) (f : A -> B) : atomic m -> atomic (a ← m; mret (f a)).
Proof.
  intros Hm s s' e. mrun. destruct (m s) as [s1 [a | e1]] eqn:E1; [done |].
  intros [= <- <-]. by eapply Hm.
Qed.

Lemma atomic_map_err {S E E' A} (f : E -> E') (m : M S E A) : atomic m -> atomic (map_err f m).
Proof.
  intros Hm s s' e. unfold map_err. destruct (m s) as [s1 [a | e1]] eqn:E1; [done |].
  intros [= <- <-]. by eapply Hm.
Qed.

#[export] Hint Resolve atomic_readonly atomic_bind atomic_then atomic_map_err : capstone.

(** ** Operations that keep an invariant of the state, however they end *)

Definition keeps {S E A} (P : S -> Prop) (m : M S E A) : Prop := forall s, P s -> P (m s).1.

Lemma keeps_readonly {S E A} (P : S -> Prop) (m : M S E A) : readonly m -> keeps P m.
Proof. intros Hm s Hs. by rewrite Hm. Qed.

Lemma keeps_bind {S E A B} (P : S -> Prop) (m : M S E A) (k : A -> M S E B) :
  keeps P m -> (forall a, keeps P (k a)) -> keeps P (m ≫= k).
Proof.
  intros Hm Hk s Hs. unfold mbind, M_bind. specialize (Hm s Hs).
  destruct (m s) as [s' [a | e]]; [by apply Hk | done].
Qed.

(** A reading operation in front: what it has found may be used. *)
Lemma keeps_guarded {S E A B} (P : S -> Prop) (m : M S E A) (k : A -> M S E B) s :
  readonly m -> P s -> (forall a, m s = (s, Ok a) -> P (k a s).1) -> P ((m ≫= k) s).1.
Proof.
  intros Hm Hs Hk. unfold mbind, M_bind. specialize (Hm s).
  destruct (m s) as [s' [a | e]]; simpl in *; subst; [by apply Hk | done].
Qed.

Lemma keeps_attempt {S E E' A} (P : S -> Prop) (m : M S E A) :
  keeps P m -> keeps P (attempt (E' := E') m).
Proof. intros Hm s Hs. unfold attempt. specialize (Hm s Hs). by destruct (m s). Qed.

Lemma keeps_map_err {S E E' A} (P : S -> Prop) (f : E -> E') (m : M S E A) :
  keeps P m -> keeps P (map_err f m).
Proof. intros Hm s Hs. unfold map_err. specialize (Hm s Hs). by destruct (m s) as [? []]. Qed.

Lemma readonly_map_err {S E E' A} (f : E -> E') (m : M S E A) : readonly m -> readonly (map_err f m).
Proof. intros Hm s. unfold map_err. specialize (Hm s). by destruct (m s) as [? []]. Qed.

Lemma readonly_on_first {S T E A} (m : M S E A) : readonly m -> readonly (on_first (T := T) m).
Proof. intros Hm [s t]. unfold on_first. specialize (Hm s). simpl. destruct (m s). by simpl in *; subst. Qed.

Lemma readonly_on_second {S T E A} (m : M T E A) : readonly m -> readonly (on_second (S := S) m).
Proof. intros Hm [s t]. unfold on_second. specialize (Hm t). simpl. destruct (m t). by simpl in *; subst. Qed.

#[export] Hint Resolve readonly_on_first readonly_on_second : capstone.

#[export] Hint Resolve keeps_readonly keeps_bind keeps_attempt keeps_map_err readonly_map_err : capstone.

(** ** Calls to the outside

    [io n] tells what happens to the [n]-th statement an operation sends to
    its database or broker: [None] when it is executed, [Some msg] when the
    driver reports an error and nothing is executed. *)

Definition faults : Type := nat -> option string.
Definition no_faults : faults := fun _ => None.
Definition shift_faults (n : nat) (io : faults) : faults := fun k => io (n + k)%nat.

(** Calls of a library kept in a log, in order: [io n] tells what the [n]-th
    call of the log answers, as above, and a call that fails is logged too. *)
Definition logged {C E} (io : faults) (c : C) : M (list C) (goerr E) () := fun log =>
  (log ++ [c], match io (length log) with Some e => Err (Opaque e) | None => Ok tt end).

(** What a logged history amounts to, call by call. *)
Fixpoint history {C A} (f : A -> option string -> C -> A) (io : faults) (n : nat) (a : A)
    (log : list C) : A :=
  match log with [] => a | c :: log => history f io (S n) (f a (io n) c) log end.

Lemma history_app {C A} (f : A -> option string -> C -> A) io n a log log' :
  history f io n a (log ++ log') = history f io (n + length log) (history f io n a log) log'.
Proof.
  revert n a. induction log as [| c log IH]; intros n a; simpl; [by rewrite Nat.add_0_r |].
  rewrite IH. by rewrite Nat.add_succ_r.
Qed.

Lemma history_snoc {C A} (f : A -> option string -> C -> A) io a log c :
  history f io 0 a (log ++ [c]) = f (history f io 0 a log) (io (length log)) c.
Proof. by rewrite history_app. Qed.

(** ** Transition systems *)

Lemma rtc_preserves {A} (R : relation A) (P : A -> Prop) :
  (forall x y, R x y -> P x -> P y) ->
  forall x y, rtc R x y -> P x -> P y.
Proof. intros HR x y H; induction H; eauto. Qed.

(** The labels of a run, oldest first. *)
Inductive run {A L : Type} (R : A -> L -> A -> Prop) : A -> list L -> A -> Prop :=
  | run_nil x : run R x [] x
  | run_cons x l y ls z : R x l y -> run R y ls z -> run R x (l :: ls) z.
#[export] Hint Constructors run : capstone.

Lemma run_app {A L} (R : A -> L -> A -> Prop) x ls y ls' z :
  run R x ls y -> run R y ls' z -> run R x (ls ++ ls') z.
Proof. induction 1; simpl; eauto with capstone. Qed.

(** Induction along a run, with what has happened so far. *)
Lemma run_history {A L} (R : A -> L -> A -> Prop) x0 (P : list L -> A -> Prop) :
  P [] x0 -> (forall ls x l y, run R x0 ls x -> P ls x -> R x l y -> P (ls ++ [l]) y) ->
  forall ls x, run R x0 ls x -> P ls x.
Proof.
  intros H0 Hstep.
  assert (forall y ls x, run R y ls x -> forall ls0, run R x0 ls0 y -> P ls0 y -> P (ls0 ++ ls) x)
    as Hall.
  { induction 1 as [y | y l y1 ls x Hy Hrun IH]; intros ls0 Hrun0 HP; [by rewrite app_nil_r |].
    rewrite cons_middle, app_assoc. apply IH; [| by eapply Hstep].
    eapply run_app; [done |]. econstructor; [done | constructor]. }
  intros ls x Hrun. apply (Hall x0 ls x Hrun []); [constructor | done].
Qed.

Lemma run_preserves {A L} (R : A -> L -> A -> Prop) (P : A -> Prop) :
  (forall x l y, R x l y -> P x -> P y) ->
  forall x ls y, run R x ls y -> P x -> P y.
Proof. intros HR x ls y H; induction H; eauto. Qed.
