(* ===== verification/GoStrings.v ===== *)
(** * Go strings

    The functions of Go's [strings], [strconv] and [fmt] packages the program
    uses, on strings as sequences of bytes.  Where such a function depends on
    the Unicode tables (a string with a byte above 127), the table-driven
    branch is a member of the class [GoUnicode]; the ASCII branch, which Go
    takes first, is written out. *)

From Stdlib Require Export Ascii.
From stdpp Require Import pretty.
From S2P Require Import Prelude.

(** ** Bytes and lengths *)

Definition byte_of (c : ascii) : nat := Ascii.nat_of_ascii c.
Definition is_byte (n : nat) (c : ascii) : bool := (byte_of c =? n)%nat.
Definition byte_between (lo hi : nat) (c : ascii) : bool :=
  (lo <=? byte_of c)%nat && (byte_of c <=? hi)%nat.

(** The double quote, backslash, line feed and tab as one-byte strings. *)
Definition dq : string := String (Ascii.ascii_of_nat 34) "".
Definition nl : string := String (Ascii.ascii_of_nat 10) "".
Definition tab : string := String (Ascii.ascii_of_nat 9) "".
Definition quoted (s : string) : string := dq ++s s ++s dq.

Definition len (s : string) : Z := Z.of_nat (String.length s).

(** [s[n:]] and [s[:n]], for [n] up to the length of [s]. *)
Fixpoint sdrop (n : nat) (s : string) : string :=
  match n, s with
  | O, _ => s
  | S n, String _ s => sdrop n s
  | S _, EmptyString => ""
  end.

Fixpoint stake (n : nat) (s : string) : string :=
  match n, s with
  | S n, String c s => String c (stake n s)
  | _, _ => ""
  end.

(** ** Searching *)

Fixpoint HasPrefix (s prefix : string) : bool :=
  match prefix, s with
  | EmptyString, _ => true
  | String p prefix', String c s' => bool_decide (p = c) && HasPrefix s' prefix'
  | String _ _, EmptyString => false
  end.

(** [strings.Index]; Go's -1 is [None]. *)
Fixpoint Index (s substr : string) : option nat :=
  if HasPrefix s substr then Some 0%nat
  else match s with
       | EmptyString => None
       | String _ s' => S <$> Index s' substr
       end.

Definition Contains (s substr : string) : bool :=
  match Index s substr with Some _ => true | None => false end.

(** ** Splitting and joining *)

(** [strings.Split(s, sep)] for a separator of one byte. *)
Fixpoint Split (sep : ascii) (s : string) : list string :=
  match s with
  | EmptyString => [""]
  | String c s' =>
      if bool_decide (c = sep) then "" :: Split sep s'
      else match Split sep s' with
           | [] => [String c ""]
           | piece :: rest => String c piece :: rest
           end
  end.

Fixpoint Join (pieces : list string) (sep : string) : string :=
  match pieces with
  | [] => ""
  | [p] => p
  | p :: rest => p ++s sep ++s Join rest sep
  end.

(** [strings.Cut(s, sep)] for a separator of one byte. *)
Fixpoint Cut (sep : ascii) (s : string) : option (string * string) :=
  match s with
  | EmptyString => None
  | String c s' =>
      if bool_decide (c = sep) then Some ("", s')
      else match Cut sep s' with
           | Some (a, b) => Some (String c a, b)
           | None => None
           end
  end.

(** ** Mapping and filtering bytes *)

Fixpoint map_bytes (f : ascii -> ascii) (s : string) : string :=
  match s with
  | EmptyString => ""
  | String c s' => String (f c) (map_bytes f s')
  end.

Fixpoint filter_bytes (p : ascii -> bool) (s : string) : string :=
  match s with
  | EmptyString => ""
  | String c s' => if p c then String c (filter_bytes p s') else filter_bytes p s'
  end.

Fixpoint all_bytes (p : ascii -> bool) (s : string) : bool :=
  match s with
  | EmptyString => true
  | String c s' => p c && all_bytes p s'
  end.

Definition is_ascii (c : ascii) : bool := (byte_of c <? 128)%nat.
Definition isASCII (s : string) : bool := all_bytes is_ascii s.

(** [strings.ReplaceAll(s, old, new)] for one-byte strings. *)
Definition replace_byte (old new : ascii) (s : string) : string :=
  map_bytes (fun c => if bool_decide (c = old) then new else c) s.

(** ** Trimming *)

Fixpoint trim_left (p : ascii -> bool) (s : string) : string :=
  match s with
  | EmptyString => ""
  | String c s' => if p c then trim_left p s' else s
  end.

Fixpoint trim_right (p : ascii -> bool) (s : string) : string :=
  match s with
  | EmptyString => ""
  | String c s' => if all_bytes p s then "" else String c (trim_right p s')
  end.

(** [unicode.IsSpace]: the number of bytes of a white-space character at the
    head of [s], in UTF-8, or 0. *)
Definition space_width (s : string) : nat :=
  match s with
  | EmptyString => 0
  | String a s1 =>
      if byte_between 9 13 a || is_byte 32 a then 1
      else match s1 with
      | EmptyString => 0
      | String b s2 =>
          if is_byte 194 a && (is_byte 133 b || is_byte 160 b) then 2
          else match s2 with
          | EmptyString => 0
          | String c _ =>
              if (is_byte 225 a && is_byte 154 b && is_byte 128 c)
                 || (is_byte 226 a && is_byte 128 b &&
                       (byte_between 128 138 c || is_byte 168 c || is_byte 169 c
                        || is_byte 175 c))
                 || (is_byte 226 a && is_byte 129 b && is_byte 159 c)
                 || (is_byte 227 a && is_byte 128 b && is_byte 128 c)
              then 3 else 0
          end
      end
  end.

(** [skip] counts the bytes left of the white-space character being passed. *)
Fixpoint TrimLeftSpace (skip : nat) (s : string) : string :=
  match s with
  | EmptyString => ""
  | String _ s' =>
      match skip with
      | S k => TrimLeftSpace k s'
      | O => match space_width s with
             | O => s
             | S k => TrimLeftSpace k s'
             end
      end
  end.

Fixpoint TrimRightSpace (s : string) : string :=
  match s with
  | EmptyString => ""
  | String c s' =>
      if bool_decide (TrimLeftSpace 0 s = "") then "" else String c (TrimRightSpace s')
  end.

Definition TrimSpace (s : string) : string := TrimRightSpace (TrimLeftSpace 0 s).

(** ** Runes

    The number of bytes [for range] and [fmt] take as one rune at the head of
    a string: a well-formed UTF-8 sequence, or a single byte where there is
    none; 0 at the end. *)

Definition is_cont (c : ascii) : bool := byte_between 128 191 c.

Definition rune_width (s : string) : nat :=
  match s with
  | EmptyString => 0
  | String a s1 =>
      match s1 with
      | String b s2 =>
          if byte_between 194 223 a && is_cont b then 2
          else match s2 with
          | String c s3 =>
              if ((is_byte 224 a && byte_between 160 191 b)
                  || (is_byte 237 a && byte_between 128 159 b)
                  || ((byte_between 225 236 a || byte_between 238 239 a) && is_cont b))
                 && is_cont c then 3
              else match s3 with
              | String d _ =>
                  if ((is_byte 240 a && byte_between 144 191 b)
                      || (is_byte 244 a && byte_between 128 143 b)
                      || (byte_between 241 243 a && is_cont b))
                     && is_cont c && is_cont d then 4 else 1
              | EmptyString => 1
              end
          | EmptyString => 1
          end
      | EmptyString => 1
      end
  end.

(** [fmt.Sprintf("%.<n>s", s)]: at most [n] runes; [skip] bytes are left of
    the rune being copied. *)
Fixpoint truncate_runes (n skip : nat) (s : string) : string :=
  match s with
  | EmptyString => ""
  | String c s' =>
      match skip with
      | S k => String c (truncate_runes n k s')
      | O => match n with
             | O => ""
             | S n' => String c (truncate_runes n' (pred (rune_width s)) s')
             end
      end
  end.

(** *** What [encoding/json] carries

    A JSON text holds no stray bytes: the encoder replaces each byte that
    belongs to no UTF-8 sequence by U+FFFD, and the decoder then delivers the
    three bytes of that character; every other character arrives unchanged.
    [skip] bytes are left of the rune being copied. *)
Definition replacement : string :=
  String (Ascii.ascii_of_nat 239) (String (Ascii.ascii_of_nat 191) (String (Ascii.ascii_of_nat 189) "")).

Definition stray (s : string) : bool :=
  match s with String a _ => (128 <=? byte_of a)%nat && (rune_width s =? 1)%nat | EmptyString => false end.

Fixpoint json_text_from (skip : nat) (s : string) : string :=
  match s with
  | EmptyString => ""
  | String c s' =>
      match skip with
      | S k => String c (json_text_from k s')
      | O => if stray s then replacement ++s json_text_from 0 s'
             else String c (json_text_from (pred (rune_width s)) s')
      end
  end.
Definition json_text (s : string) : string := json_text_from 0 s.

(** The head of a non-empty string: a sequence of two to four bytes, an ASCII
    byte, or a stray one.  The sequences do not depend on what follows them. *)
Inductive head_rune : string -> Prop :=
  | head_ascii c s : (byte_of c < 128)%nat -> head_rune (String c s)
  | head_stray c s : stray (String c s) = true -> head_rune (String c s)
  | head_two a b s : (forall t, rune_width (String a (String b t)) = 2%nat) ->
      head_rune (String a (String b s))
  | head_three a b c s : (forall t, rune_width (String a (String b (String c t))) = 3%nat) ->
      head_rune (String a (String b (String c s)))
  | head_four a b c d s : (forall t, rune_width (String a (String b (String c (String d t)))) = 4%nat) ->
      head_rune (String a (String b (String c (String d s)))).

Lemma single_byte_head c s : rune_width (String c s) = 1%nat -> head_rune (String c s).
Proof.
  intros Hw. destruct (Nat.lt_ge_cases (byte_of c) 128); [by apply head_ascii | apply head_stray].
  unfold stray. rewrite Hw, (proj2 (Nat.leb_le _ _)) by done. reflexivity.
Qed.

Lemma head_rune_cases c s : head_rune (String c s).
Proof.
  destruct s as [| b s]; [by apply single_byte_head |].
  destruct (byte_between 194 223 c && is_cont b) eqn:E2; [apply head_two; simpl; by rewrite E2 |].
  destruct s as [| c3 s]; [apply single_byte_head; simpl; by rewrite E2 |].
  destruct (((is_byte 224 c && byte_between 160 191 b) || (is_byte 237 c && byte_between 128 159 b)
    || ((byte_between 225 236 c || byte_between 238 239 c) && is_cont b)) && is_cont c3) eqn:E3;
    [apply head_three; simpl; by rewrite E2, E3 |].
  destruct s as [| d s]; [apply single_byte_head; simpl; by rewrite E2, E3 |].
  destruct (((is_byte 240 c && byte_between 144 191 b) || (is_byte 244 c && byte_between 128 143 b)
    || (byte_between 241 243 c && is_cont b)) && is_cont c3 && is_cont d) eqn:E4;
    [apply head_four | apply single_byte_head]; simpl; by rewrite E2, E3, E4.
Qed.

Lemma rune_width_ascii c s : (byte_of c < 128)%nat -> rune_width (String c s) = 1%nat.
Proof.
  intros Hc. assert (forall lo hi, (128 <= lo)%nat -> byte_between lo hi c = false) as Hb.
  { intros lo hi Hlo. unfold byte_between. rewrite (proj2 (Nat.leb_gt _ _)) by lia. done. }
  assert (forall n, (128 <= n)%nat -> is_byte n c = false) as Hi.
  { intros n Hn. unfold is_byte. apply Nat.eqb_neq. lia. }
  unfold rune_width. destruct s as [| b [| d [| e s]]]; [done | ..];
    rewrite ?Hb, ?Hi by lia; reflexivity.
Qed.

Lemma stray_ascii c s : (byte_of c < 128)%nat -> stray (String c s) = false.
Proof. intros Hc. unfold stray. by rewrite (proj2 (Nat.leb_gt _ _)) by done. Qed.

Lemma stray_rune s n : rune_width s = S (S n) -> stray s = false.
Proof. intros Hw. unfold stray. rewrite Hw. destruct s; [done |]. apply andb_false_r. Qed.

Lemma json_text_ascii c s : (byte_of c < 128)%nat -> json_text (String c s) = String c (json_text s).
Proof. intros Hc. unfold json_text. cbn [json_text_from]. by rewrite stray_ascii, rune_width_ascii. Qed.

Lemma json_text_stray c s : stray (String c s) = true -> json_text (String c s) = replacement ++s json_text s.
Proof. intros Hc. unfold json_text. cbn [json_text_from]. by rewrite Hc. Qed.

Lemma json_text_rune c s n :
  rune_width (String c s) = S (S n) -> json_text (String c s) = String c (json_text_from (S n) s).
Proof. intros Hw. unfold json_text. cbn [json_text_from]. by rewrite (stray_rune _ n Hw), Hw. Qed.

Lemma json_text_replacement s : json_text (replacement ++s s) = replacement ++s json_text s.
Proof. reflexivity. Qed.

(** What has been carried once is carried unchanged. *)
Lemma json_text_idemp s : json_text (json_text s) = json_text s.
Proof.
  enough (forall n, (String.length s <= n)%nat -> json_text (json_text s) = json_text s) by eauto.
  intros n. revert s. induction n as [| n IH]; intros s Hs; [by destruct s; [| simpl in Hs; lia] |].
  destruct s as [| a0 s0]; [done |].
  destruct (head_rune_cases a0 s0) as [c s Hc | c s Hc | a b s Hw | a b c s Hw | a b c d s Hw];
    simpl in Hs.
  - rewrite (json_text_ascii c s Hc), json_text_ascii by done. f_equal. apply IH. lia.
  - rewrite (json_text_stray c s Hc), json_text_replacement. f_equal. apply IH. lia.
  - rewrite !(json_text_rune _ _ 0) by apply Hw. simpl. do 2 f_equal. apply IH. lia.
  - rewrite !(json_text_rune _ _ 1) by apply Hw. simpl. do 3 f_equal. apply IH. lia.
  - rewrite !(json_text_rune _ _ 2) by apply Hw. simpl. do 4 f_equal. apply IH. lia.
Qed.

(** ASCII text is carried unchanged, and nothing else is taken for it. *)
Lemma json_text_isASCII s : isASCII s = true -> json_text s = s.
Proof.
  induction s as [| c s IH]; [done |]. unfold isASCII, is_ascii. cbn [all_bytes].
  intros [Hc%Nat.ltb_lt Hs]%andb_prop.
  rewrite json_text_ascii by done. f_equal. by apply IH.
Qed.

Lemma json_text_ascii_inv s t : isASCII t = true -> json_text s = t -> s = t.
Proof.
  revert s. induction t as [| x t IH]; intros s Ht Heq.
  - destruct s as [| c s]; [done |]. unfold json_text in Heq. cbn [json_text_from] in Heq.
    by destruct (stray (String c s)).
  - unfold isASCII, is_ascii in Ht. cbn [all_bytes] in Ht. apply andb_prop in Ht as [Hx%Nat.ltb_lt Ht]. destruct s as [| c s]; [done |].
    destruct (Nat.lt_ge_cases (byte_of c) 128) as [Hc | Hc].
    + rewrite (json_text_ascii c s Hc) in Heq. injection Heq as -> Heq. f_equal. by apply IH.
    + exfalso. unfold json_text in Heq. cbn [json_text_from] in Heq.
      destruct (stray (String c s)); injection Heq as <- _; [| lia].
      change (239 < 128)%nat in Hx. lia.
Qed.

(** A type of values that are sent as JSON: what the reader decodes. *)
Class ViaJSON (A : Type) := via_json : A -> A.
Class ViaJSONLaw (A : Type) `{ViaJSON A} := via_json_idemp (a : A) : via_json (via_json a) = via_json a.

#[export] Instance string_via_json : ViaJSON string := json_text.
#[export] Instance option_via_json `{ViaJSON A} : ViaJSON (option A) := fmap via_json.
#[export] Instance list_via_json `{ViaJSON A} : ViaJSON (list A) := fmap via_json.

#[export] Instance string_via_json_law : ViaJSONLaw string := json_text_idemp.
#[export] Instance option_via_json_law `{ViaJSONLaw A} : ViaJSONLaw (option A).
Proof. intros [a |]; [| done]. unfold via_json, option_via_json. simpl. by rewrite via_json_idemp. Qed.
#[export] Instance list_via_json_law `{ViaJSONLaw A} : ViaJSONLaw (list A).
Proof.
  intros l. unfold via_json, list_via_json. rewrite <- list_fmap_compose.
  apply list_fmap_ext. intros i a _. apply via_json_idemp.
Qed.

(** [fmt.Sprintf(format, args...)] for formats whose only verbs are [%d] and
    [%%]. *)
Fixpoint Sprintf_d (format : string) (args : list Z) : string :=
  match format with
  | String a ((String b s2) as s1) =>
      if is_byte 37 a && is_byte 100 b then
        match args with
        | [] => "%!d(MISSING)" ++s Sprintf_d s2 []
        | z :: args' => pretty z ++s Sprintf_d s2 args'
        end
      else if is_byte 37 a && is_byte 37 b then String a (Sprintf_d s2 args)
      else String a (Sprintf_d s1 args)
  | _ => format
  end.

(** ** Letter case and quoting *)

Class GoUnicode := {
  unicode_ToLower : string -> string;
  unicode_ToUpper : string -> string;
  unicode_Quote : string -> string
}.

(** For witnesses: a table that knows no character above 127. *)
Definition ascii_tables : GoUnicode :=
  {| unicode_ToLower s := s; unicode_ToUpper s := s; unicode_Quote s := s |}.

Definition lower_byte (c : ascii) : ascii :=
  if byte_between 65 90 c then Ascii.ascii_of_nat (byte_of c + 32) else c.
Definition upper_byte (c : ascii) : ascii :=
  if byte_between 97 122 c then Ascii.ascii_of_nat (byte_of c - 32) else c.

Definition hex_digit (n : nat) : string := stake 1 (sdrop n "0123456789abcdef").

(** One ASCII character as [strconv.Quote] writes it. *)
Definition quote_byte (c : ascii) : string :=
  let n := byte_of c in
  if (n =? 34)%nat then "\" ++s dq
  else if (n =? 92)%nat then "\\"
  else if (n =? 7)%nat then "\a"
  else if (n =? 8)%nat then "\b"
  else if (n =? 12)%nat then "\f"
  else if (n =? 10)%nat then "\n"
  else if (n =? 13)%nat then "\r"
  else if (n =? 9)%nat then "\t"
  else if (n =? 11)%nat then "\v"
  else if (n <? 32)%nat || (n =? 127)%nat then
    "\x" ++s hex_digit (n / 16) ++s hex_digit (n `mod` 16)
  else String c "".

Fixpoint quote_bytes (s : string) : string :=
  match s with
  | EmptyString => ""
  | String c s' => quote_byte c ++s quote_bytes s'
  end.

Section Unicode.
Context `{GoUnicode}.

Definition ToLower (s : string) : string :=
  if isASCII s then map_bytes lower_byte s else unicode_ToLower s.

Definition ToUpper (s : string) : string :=
  if isASCII s then map_bytes upper_byte s else unicode_ToUpper s.

(** [fmt.Sprintf("%q", s)] *)
Definition Quote (s : string) : string :=
  if isASCII s then quoted (quote_bytes s) else unicode_Quote s.
End Unicode.

(** [fmt.Sprintf("%d", z)] *)
Definition show_int (z : Z) : string := pretty z.

(** [time.Duration.String]: hours, minutes and seconds from one second up,
    milli-, micro- or nanoseconds below; the fraction without trailing
    zeros. *)
Fixpoint show_frac (digits : nat) (v : Z) : string :=
  match digits with
  | O => ""
  | S k =>
      let rest := show_frac k (v `mod` 10 ^ Z.of_nat k) in
      let d := v `div` 10 ^ Z.of_nat k in
      if bool_decide (rest = "") && (d =? 0) then "" else pretty d ++s rest
  end.

Definition with_point (frac : string) : string :=
  if bool_decide (frac = "") then "" else "." ++s frac.

Definition show_units (digits : nat) (u : Z) : string :=
  pretty (u `div` 10 ^ Z.of_nat digits) ++s
  with_point (show_frac digits (u `mod` 10 ^ Z.of_nat digits)).

Definition show_duration (d : Z) : string :=
  let u := Z.abs d in
  let text :=
    if u =? 0 then "0s"
    else if u <? 1000 then pretty u ++s "ns"
    else if u <? 1000000 then show_units 3 u ++s "µs"
    else if u <? time_Second then show_units 6 u ++s "ms"
    else
      let secs := u `div` time_Second in
      let tail := pretty (secs `mod` 60) ++s
                  with_point (show_frac 9 (u `mod` time_Second)) ++s "s" in
      let mins := secs `div` 60 in
      if mins =? 0 then tail
      else
        let tail := pretty (mins `mod` 60) ++s "m" ++s tail in
        let hours := mins `div` 60 in
        if hours =? 0 then tail else pretty hours ++s "h" ++s tail in
  if d <? 0 then "-" ++s text else text.

(** ** Lemmas *)

Lemma sapp_nil_r s : s ++s "" = s.
Proof. induction s; simpl; congruence. Qed.

Lemma sapp_assoc a b c : (a ++s b) ++s c = a ++s b ++s c.
Proof. induction a; simpl; congruence. Qed.

Lemma length_sapp a b : String.length (a ++s b) = (String.length a + String.length b)%nat.
Proof. induction a; simpl; congruence. Qed.

Lemma sapp_inv_head a b c : a ++s b = a ++s c -> b = c.
Proof. induction a; simpl; [done |]. intros [=]. auto. Qed.

Lemma sapp_inj a b p q :
  String.length p = String.length q -> a ++s p = b ++s q -> a = b /\ p = q.
Proof.
  intros Hlen. revert b. induction a as [| c a IH]; intros [| d b]; simpl; intros Heq.
  - done.
  - exfalso. apply (f_equal String.length) in Heq. simpl in Heq. rewrite length_sapp in Heq. lia.
  - exfalso. apply (f_equal String.length) in Heq. simpl in Heq. rewrite length_sapp in Heq. lia.
  - injection Heq as -> Heq. by destruct (IH b Heq) as [-> ->].
Qed.

(** Induction on the last byte. *)
Lemma rev_string_ind (P : string -> Prop) :
  P "" -> (forall s c, P s -> P (s ++s String c "")) -> forall s, P s.
Proof.
  intros H0 Hs s. cut (forall p, P p -> P (p ++s s)); [intros Hc; by apply (Hc "") |].
  induction s as [| c s IH]; intros p Hp; [by rewrite sapp_nil_r |].
  replace (p ++s String c s) with ((p ++s String c "") ++s s) by by rewrite sapp_assoc.
  by apply IH, Hs.
Qed.

(** Normalise concatenations. *)
Ltac sapp_simpl := rewrite ?sapp_assoc, ?sapp_nil_r.

Lemma stake_sdrop n s : stake n s ++s sdrop n s = s.
Proof. revert s; induction n; intros [| c s]; simpl; congruence. Qed.

Lemma sdrop_app p t : sdrop (String.length p) (p ++s t) = t.
Proof. induction p; simpl; done. Qed.

Lemma stake_app p t : stake (String.length p) (p ++s t) = p.
Proof. induction p; simpl; congruence. Qed.

Lemma length_sdrop n p : String.length (sdrop n p) = (String.length p - n)%nat.
Proof. revert p. induction n; intros [| c p]; simpl; try done. Qed.

Lemma HasPrefix_spec s p : HasPrefix s p = true <-> exists t, s = p ++s t.
Proof.
  revert s; induction p as [| c p IH]; intros s; simpl.
  - split; eauto. by destruct s.
  - destruct s as [| d s]; simpl.
    + split; [done | intros [t Ht]; done].
    + rewrite andb_true_iff, bool_decide_eq_true, IH. split.
      * intros [-> [t ->]]. eauto.
      * intros [t Ht]. simplify_eq. eauto.
Qed.

Lemma HasPrefix_app p t : HasPrefix (p ++s t) p = true.
Proof. apply HasPrefix_spec; eauto. Qed.

Lemma Index_prefix s p : HasPrefix s p = true -> Index s p = Some 0%nat.
Proof. destruct s; cbn [Index]; by intros ->. Qed.

Lemma Index_Some s p n :
  Index s p = Some n -> s = stake n s ++s p ++s sdrop (n + String.length p) s.
Proof.
  revert n; induction s as [| c s IH]; intros n; cbn [Index].
  - destruct p; simpl; [| done]. intros [= <-]. done.
  - destruct (HasPrefix (String c s) p) eqn:E.
    + intros Hn. simplify_eq. apply HasPrefix_spec in E as [t Ht]. rewrite Ht.
      simpl. by rewrite sdrop_app.
    + destruct (Index s p) as [m |] eqn:Em; simpl; [| done].
      intros Hn. simplify_eq. simpl. f_equal. by apply IH.
Qed.

Lemma Contains_spec s p : Contains s p = true <-> exists a b, s = a ++s p ++s b.
Proof.
  unfold Contains. split.
  - destruct (Index s p) as [n |] eqn:E; [| done]. intros _.
    eexists _, _. by apply Index_Some.
  - intros (a & b & ->). induction a as [| c a IH].
    + simpl. by rewrite Index_prefix by apply HasPrefix_app.
    + cbn [String.append Index]. destruct (HasPrefix _ p); [done |].
      destruct (Index (a ++s p ++s b) p); done.
Qed.

Lemma all_bytes_spec p s :
  all_bytes p s = true <-> Forall (fun c => p c = true) (String.list_ascii_of_string s).
Proof.
  induction s as [| c s IH]; simpl; [by split |].
  rewrite andb_true_iff, IH. split; [intros []; by constructor | by inversion 1].
Qed.

Lemma all_bytes_app p s t : all_bytes p (s ++s t) = all_bytes p s && all_bytes p t.
Proof. induction s; simpl; [done |]. by rewrite IHs, andb_assoc. Qed.

Lemma all_bytes_impl (p q : ascii -> bool) s :
  (forall c, p c = true -> q c = true) -> all_bytes p s = true -> all_bytes q s = true.
Proof.
  intros Hpq. induction s as [| c s IH]; simpl; [done |].
  rewrite !andb_true_iff. intros []; eauto.
Qed.

Lemma all_bytes_map p f s :
  all_bytes p (map_bytes f s) = all_bytes (fun c => p (f c)) s.
Proof. induction s; simpl; congruence. Qed.

Lemma map_bytes_id f s : all_bytes (fun c => bool_decide (f c = c)) s = true ->
  map_bytes f s = s.
Proof.
  induction s as [| c s IH]; simpl; [done |].
  rewrite andb_true_iff, bool_decide_eq_true. intros [-> Hs]. by rewrite IH.
Qed.

Lemma filter_bytes_all p s : all_bytes p (filter_bytes p s) = true.
Proof. induction s as [| c s IH]; simpl; [done |]. destruct (p c) eqn:E; simpl; by rewrite ?E. Qed.

Lemma filter_bytes_id p s : all_bytes p s = true -> filter_bytes p s = s.
Proof.
  induction s as [| c s IH]; simpl; [done |].
  rewrite andb_true_iff. intros [-> Hs]. by rewrite IH.
Qed.

Lemma Split_nonempty sep s : Split sep s <> [].
Proof. induction s; simpl; repeat case_match; done. Qed.

Lemma Join_cons p q rest sep : Join (p :: q :: rest) sep = p ++s sep ++s Join (q :: rest) sep.
Proof. done. Qed.

(** Splitting at a byte and joining with it gives the string back. *)
Lemma Join_Split sep s : Join (Split sep s) (String sep "") = s.
Proof.
  induction s as [| c s IH]; simpl; [done |].
  pose proof (Split_nonempty sep s) as Hne.
  destruct (Split sep s) as [| p rest]; [done |].
  case_bool_decide as Hc.
  - rewrite Join_cons, IH, Hc. done.
  - destruct rest as [| q rest]; simpl in *; by rewrite <- IH.
Qed.

(** No piece of a split contains the separator. *)
Lemma Split_no_sep sep s :
  Forall (fun p => all_bytes (fun c => negb (bool_decide (c = sep))) p = true) (Split sep s).
Proof.
  induction s as [| c s IH]; simpl; [by repeat constructor |].
  case_bool_decide as Hc; [by constructor |].
  pose proof (Split_nonempty sep s) as Hne.
  destruct (Split sep s) as [| p rest]; [done |].
  apply Forall_cons in IH as [Hp Hrest]. constructor; [| done].
  simpl. by rewrite bool_decide_eq_false_2.
Qed.

(** A prefix without the separator only lengthens the first piece. *)
Lemma Split_app sep p s :
  all_bytes (fun c => negb (bool_decide (c = sep))) p = true ->
  Split sep (p ++s s) =
  match Split sep s with q :: rest => (p ++s q) :: rest | [] => [] end.
Proof.
  induction p as [| c p IH]; simpl.
  - intros _. pose proof (Split_nonempty sep s). by destruct (Split sep s).
  - intros [Hc%negb_true_iff Hp]%andb_true_iff. rewrite Hc, IH by done.
    pose proof (Split_nonempty sep s). by destruct (Split sep s).
Qed.

Lemma Split_Join sep ps :
  ps <> [] ->
  Forall (fun p => all_bytes (fun c => negb (bool_decide (c = sep))) p = true) ps ->
  Split sep (Join ps (String sep "")) = ps.
Proof.
  induction ps as [| p ps IH]; [done |]. intros _ [Hp Hps]%Forall_cons.
  destruct ps as [| q ps].
  - simpl. rewrite <- (sapp_nil_r p) at 1. rewrite Split_app by done. simpl. by sapp_simpl.
  - rewrite Join_cons, Split_app by done. cbn [String.append Split].
    rewrite bool_decide_eq_true_2 by done. rewrite IH by done. by rewrite sapp_nil_r.
Qed.

Lemma all_bytes_trim_left p q s :
  all_bytes q s = true -> all_bytes q (trim_left p s) = true.
Proof.
  induction s as [| c s IH]; simpl; [done |]. intros [Hc Hs]%andb_true_iff.
  destruct (p c); [auto |]. simpl. by rewrite Hc.
Qed.

Lemma all_bytes_trim_right p q s :
  all_bytes q s = true -> all_bytes q (trim_right p s) = true.
Proof.
  induction s as [| c s IH]; simpl; [done |]. intros [Hc Hs]%andb_true_iff.
  destruct (p c && all_bytes p s); [done |]. simpl. rewrite Hc. auto.
Qed.

Lemma trim_left_idem p s : trim_left p (trim_left p s) = trim_left p s.
Proof. induction s as [| c s IH]; simpl; [done |]. destruct (p c) eqn:E; simpl; by rewrite ?E. Qed.

Lemma trim_right_idem p s : trim_right p (trim_right p s) = trim_right p s.
Proof.
  induction s as [| c s IH]; simpl; [done |].
  destruct (p c && all_bytes p s) eqn:E; [done |]. simpl. rewrite IH.
  destruct (p c && all_bytes p (trim_right p s)) eqn:E'; [| done].
  exfalso. apply andb_true_iff in E' as [Hc Hs]. rewrite Hc in E. simpl in E.
  enough (all_bytes p s = true) by congruence. clear E IH.
  induction s as [| d s IH]; simpl in *; [done |].
  destruct (p d && all_bytes p s) eqn:Ed; [done |]. simpl in Hs.
  apply andb_true_iff in Hs as [Hd Hs]. rewrite Hd in Ed. rewrite IH in Ed by done. done.
Qed.

(** Trimming on the right does not uncover anything on the left. *)
Lemma trim_left_right p s :
  trim_left p s = s -> trim_left p (trim_right p s) = trim_right p s.
Proof.
  destruct s as [| c s]; simpl; [done |]. destruct (p c) eqn:E.
  - intros Hs. exfalso.
    assert (String.length (trim_left p s) <= String.length s)%nat as Hl.
    { clear. induction s as [| d s IH]; simpl; [lia |]. destruct (p d); simpl; lia. }
    rewrite Hs in Hl. simpl in Hl. lia.
  - intros _. simpl. by rewrite E.
Qed.
