(* ===== verification/Sql.v ===== *)
(** * Tables

    The parts of SQL the repositories rely on, over a table kept as a finite
    map from primary key to row: UPDATE of one row by key, UPDATE of all rows
    that match, SELECT with a filter, ORDER BY with LIMIT 1, and the row
    counts the driver reports.  Where PostgreSQL leaves the order of rows
    open (ties of ORDER BY), the order is an argument. *)

From stdpp Require Import sorting.
From S2P Require Import Prelude GoStrings.

Section Table.
Context {K V : Type} `{Countable K}.
Implicit Types (t : gmap K V) (P : V -> bool) (f : V -> V).

(** UPDATE t SET f WHERE key = k AND P; the count is RowsAffected. *)
Definition update_key (k : K) (P : V -> bool) (f : V -> V) (t : gmap K V)
  : gmap K V * nat :=
  match t !! k with
  | Some v => if P v then (<[k := f v]> t, 1%nat) else (t, 0%nat)
  | None => (t, 0%nat)
  end.

(** UPDATE t SET f WHERE P. *)
Definition update_where (P : V -> bool) (f : V -> V) (t : gmap K V) : gmap K V :=
  (fun v => if P v then f v else v) <$> t.

Definition rows (t : gmap K V) : list V := (map_to_list t).*2.

(** SELECT * FROM t WHERE P. *)
Definition select_where (P : V -> bool) (t : gmap K V) : list V :=
  List.filter P (rows t).

(** SELECT COUNT( * ) FROM t WHERE P, and RowsAffected of [update_where]. *)
Definition count_where (P : V -> bool) (t : gmap K V) : nat :=
  length (select_where P t).

Lemma elem_of_rows t v : v ∈ rows t <-> exists k, t !! k = Some v.
Proof.
  unfold rows. rewrite list_elem_of_fmap. split.
  - intros ([k v'] & -> & Hin). exists k. by apply elem_of_map_to_list.
  - intros [k Hk]. exists (k, v). split; [done |]. by apply elem_of_map_to_list.
Qed.

Lemma elem_of_select_where P t v :
  v ∈ select_where P t <-> P v = true /\ exists k, t !! k = Some v.
Proof.
  unfold select_where. rewrite list_elem_of_In, filter_In, <- list_elem_of_In.
  rewrite elem_of_rows. tauto.
Qed.

Lemma lookup_update_where P f t k :
  update_where P f t !! k = (fun v => if P v then f v else v) <$> (t !! k).
Proof. apply lookup_fmap. Qed.

Lemma lookup_update_where_Some P f t k v :
  t !! k = Some v -> update_where P f t !! k = Some (if P v then f v else v).
Proof. intros E. by rewrite lookup_update_where, E. Qed.

Lemma count_where_0 P t :
  count_where P t = 0%nat <-> forall k v, t !! k = Some v -> P v = false.
Proof.
  unfold count_where. rewrite length_zero_iff_nil. split.
  - intros E k v Hk. destruct (P v) eqn:HP; [| done].
    assert (v ∈ select_where P t) as Hin by (apply elem_of_select_where; eauto).
    rewrite E in Hin. by apply not_elem_of_nil in Hin.
  - intros HP. destruct (select_where P t) as [| v l] eqn:E; [done |].
    assert (v ∈ select_where P t) as Hin by (rewrite E; apply list_elem_of_here).
    apply elem_of_select_where in Hin as (HPv & k & Hk). apply HP in Hk. congruence.
Qed.

Lemma count_update_where_stable P f t :
  (forall v, P v = true -> P (f v) = false) ->
  count_where P (update_where P f t) = 0%nat.
Proof.
  intros Hf. apply count_where_0. intros k v.
  rewrite lookup_update_where. destruct (t !! k) as [w |]; [simpl | done].
  intros [= <-]. destruct (P w) eqn:E; auto.
Qed.

Lemma update_where_none P f t :
  (forall k v, t !! k = Some v -> P v = false) -> update_where P f t = t.
Proof.
  intros HP. apply map_eq. intros k. rewrite lookup_update_where.
  destruct (t !! k) as [v |] eqn:E; [simpl | done]. by rewrite (HP k v E).
Qed.

Lemma update_key_hit k P f t v :
  t !! k = Some v -> P v = true -> update_key k P f t = (<[k := f v]> t, 1%nat).
Proof. unfold update_key. by intros -> ->. Qed.

Lemma update_key_miss k P f t :
  (forall v, t !! k = Some v -> P v = false) -> update_key k P f t = (t, 0%nat).
Proof.
  unfold update_key. intros HP. destruct (t !! k) as [v |] eqn:E; [| done].
  by rewrite (HP v eq_refl).
Qed.

(** Filters of filters, and filters that agree. *)
Lemma filter_filter_and {A} (P Q : A -> bool) (l : list A) :
  List.filter P (List.filter Q l) = List.filter (fun a => Q a && P a) l.
Proof.
  induction l as [| a l IH]; [done |]. simpl. destruct (Q a); simpl; [destruct (P a) |]; by rewrite IH.
Qed.

Lemma filter_agree {A} (P Q : A -> bool) (l : list A) :
  (forall a, a ∈ l -> P a = Q a) -> List.filter P l = List.filter Q l.
Proof. intros HPQ. apply filter_ext_in. intros a Ha. by apply HPQ, list_elem_of_In. Qed.

(** Two SELECTs of the same rows. *)
Lemma select_where_pairs P t : select_where P t = (List.filter (fun kv => P kv.2) (map_to_list t)).*2.
Proof.
  unfold select_where, rows. induction (map_to_list t) as [| [k v] l IH]; [done |].
  rewrite fmap_cons. cbn [List.filter snd]. rewrite IH. by destruct (P v).
Qed.

Lemma select_perm t t' P P' :
  (forall k v, t !! k = Some v /\ P v = true <-> t' !! k = Some v /\ P' v = true) ->
  select_where P t ≡ₚ select_where P' t'.
Proof.
  intros Hkv. rewrite !select_where_pairs. apply Permutation_map, NoDup_Permutation.
  1, 2: apply NoDup_ListNoDup, List.NoDup_filter, NoDup_ListNoDup, NoDup_map_to_list.
  intros [k v]. rewrite !list_elem_of_In, !filter_In, <- !list_elem_of_In, !elem_of_map_to_list. apply Hkv.
Qed.

(** The three outcomes of a keyed UPDATE, for case analysis. *)
Lemma update_key_cases k P f t :
  (exists v, t !! k = Some v /\ P v = true /\
     update_key k P f t = (<[k := f v]> t, 1%nat)) \/
  ((forall v, t !! k = Some v -> P v = false) /\ update_key k P f t = (t, 0%nat)).
Proof.
  unfold update_key. destruct (t !! k) as [v |] eqn:E; [| by right].
  destruct (P v) eqn:HP; [left; eauto | right; split; [congruence | done]].
Qed.
End Table.

(** ** ORDER BY key LIMIT 1

    [min_by key tie l] is the row of [l] with the smallest key; [tie] is the
    server's choice between rows with equal keys. *)

Section MinBy.
Context {V : Type} (key : V -> Z) (tie : V -> V -> bool).

Definition before (x y : V) : bool :=
  (key x <? key y) || ((key x =? key y) && tie x y).

Fixpoint min_by (l : list V) : option V :=
  match l with
  | [] => None
  | x :: l' =>
      match min_by l' with
      | None => Some x
      | Some y => if before x y then Some x else Some y
      end
  end.

Lemma min_by_None l : min_by l = None <-> l = [].
Proof.
  split; [| by intros ->]. destruct l as [| x l]; [done |]. simpl.
  destruct (min_by l) as [y |]; [destruct (before x y) |]; done.
Qed.

Lemma min_by_elem l x : min_by l = Some x -> x ∈ l.
Proof.
  revert x. induction l as [| y l IH]; intros x; simpl; [done |].
  destruct (min_by l) as [z |] eqn:E.
  - destruct (before y z); intros [= <-]; [apply list_elem_of_here |].
    apply list_elem_of_further. by apply IH.
  - intros [= <-]. apply list_elem_of_here.
Qed.

Lemma min_by_le l x y : min_by l = Some x -> y ∈ l -> key x <= key y.
Proof.
  revert x. induction l as [| z l IH]; intros x; simpl.
  - done.
  - destruct (min_by l) as [w |] eqn:E.
    + unfold before. intros Hx [<- | Hy]%elem_of_cons.
      * case_match eqn:B; simplify_eq; lia.
      * specialize (IH w eq_refl Hy). case_match eqn:B; simplify_eq; [| lia].
        apply orb_true_iff in B as [B | [B _]%andb_true_iff]; lia.
    + apply min_by_None in E as ->. intros [= <-] Hy%list_elem_of_singleton.
      subst. lia.
Qed.
End MinBy.

(** ** ORDER BY *)

Section OrderBy.
Context {V : Type} (leb : V -> V -> bool).

Definition order_by : list V -> list V :=
  @merge_sort V (fun x y => leb x y = true) (fun x y => decide (leb x y = true)).

Lemma order_by_perm l : order_by l ≡ₚ l.
Proof. apply merge_sort_Permutation. Qed.

Lemma elem_of_order_by l v : v ∈ order_by l <-> v ∈ l.
Proof. by rewrite order_by_perm. Qed.

Lemma length_order_by l : length (order_by l) = length l.
Proof. by rewrite order_by_perm. Qed.
End OrderBy.

(** An order that decides between rows with different keys leaves the server
    no choice over a table, whose rows have keys of their own. *)
Class TotalOrder {V K} (key : V -> K) (leb : V -> V -> bool) : Prop := {
  order_total x y : leb x y = true \/ leb y x = true;
  order_trans x y z : leb x y = true -> leb y z = true -> leb x z = true;
  order_antisym x y : leb x y = true -> leb y x = true -> key x = key y
}.

Definition injective_on {V K} (key : V -> K) (l : list V) : Prop :=
  forall x y, x ∈ l -> y ∈ l -> key x = key y -> x = y.

Section Ordered.
Context {V K : Type} (key : V -> K) (leb : V -> V -> bool).

Lemma order_by_sorted `{!TotalOrder key leb} l : StronglySorted (fun x y => leb x y = true) (order_by leb l).
Proof.
  apply StronglySorted_merge_sort.
  - intros x y z. apply order_trans.
  - intros x y. apply order_total.
Qed.

Lemma ordered_unique `{!TotalOrder key leb} l1 l2 :
  injective_on key l1 -> StronglySorted (fun x y => leb x y = true) l1 ->
  StronglySorted (fun x y => leb x y = true) l2 -> l1 ≡ₚ l2 -> l1 = l2.
Proof.
  intros Hinj H1 H2 Hp. eapply StronglySorted_unique_strong; [| done..].
  intros x y Hx Hy Hxy Hyx. apply Hinj; [done | by rewrite Hp | by apply order_antisym].
Qed.

Lemma injective_on_perm l l' : l ≡ₚ l' -> injective_on key l -> injective_on key l'.
Proof. intros Hp Hinj x y. rewrite <- Hp. apply Hinj. Qed.

Lemma order_by_canonical `{!TotalOrder key leb} l l' :
  injective_on key l -> l ≡ₚ l' -> order_by leb l = order_by leb l'.
Proof.
  intros Hinj Hl. apply ordered_unique; try apply order_by_sorted.
  - eapply injective_on_perm; [| exact Hinj]. by rewrite order_by_perm.
  - by rewrite !order_by_perm.
Qed.
End Ordered.

Lemma sorted_weaken {A} (R R' : relation A) l :
  (forall x y, R x y -> R' x y) -> StronglySorted R l -> StronglySorted R' l.
Proof. intros HR. induction 1; constructor; eauto using Forall_impl. Qed.

Lemma sorted_filter {A} (R : relation A) (P : A -> bool) l :
  StronglySorted R l -> StronglySorted R (List.filter P l).
Proof.
  induction 1 as [| a l Hl IH Ha]; simpl; [constructor |]. destruct (P a); [| done].
  constructor; [done |]. rewrite Forall_forall in Ha |- *. intros x Hx. apply Ha.
  rewrite list_elem_of_In, filter_In in Hx. by apply list_elem_of_In, Hx.
Qed.

Lemma sorted_fmap {A B} (R : relation A) (R' : relation B) (f : A -> B) l :
  (forall x y, R x y -> R' (f x) (f y)) -> StronglySorted R l -> StronglySorted R' (f <$> l).
Proof.
  intros Hf. induction 1 as [| a l Hl IH Ha]; [constructor |]. rewrite fmap_cons. constructor; [done |].
  apply Forall_fmap. apply (Forall_impl _ _ _ Ha). intros x. apply Hf.
Qed.

Lemma filter_Permutation {A} (P : A -> bool) (l l' : list A) :
  l ≡ₚ l' -> List.filter P l ≡ₚ List.filter P l'.
Proof.
  induction 1 as [| x l l' _ IH | x y l | l1 l2 l3 _ IH1 _ IH2]; simpl; [done | | | by etrans].
  - destruct (P x); [by constructor | done].
  - destruct (P x), (P y); try done. constructor.
Qed.

(** ORDER BY commutes with a filter and with a change of rows. *)
Lemma order_by_filter {V K} (key : V -> K) (leb : V -> V -> bool) `{!TotalOrder key leb} P l :
  injective_on key l -> order_by leb (List.filter P l) = List.filter P (order_by leb l).
Proof.
  intros Hinj. apply (ordered_unique key leb).
  - intros x y. rewrite !elem_of_order_by, !list_elem_of_In, !filter_In, <- !list_elem_of_In.
    intros [? _] [? _]. by apply Hinj.
  - by apply (order_by_sorted key).
  - by apply sorted_filter, (order_by_sorted key).
  - rewrite order_by_perm. apply filter_Permutation. by rewrite order_by_perm.
Qed.

Lemma order_by_fmap {V W K K'} (key : V -> K) (key' : W -> K') (leb : V -> V -> bool) (leb' : W -> W -> bool)
    `{!TotalOrder key leb, !TotalOrder key' leb'} (f : V -> W) l :
  injective_on key' (f <$> l) -> (forall x y, leb' (f x) (f y) = leb x y) ->
  order_by leb' (f <$> l) = f <$> order_by leb l.
Proof.
  intros Hinj Hf. apply (ordered_unique key' leb').
  - eapply injective_on_perm; [| exact Hinj]. by rewrite order_by_perm.
  - by apply (order_by_sorted key').
  - apply (sorted_fmap (fun x y => leb x y = true)); [intros x y; by rewrite Hf | by apply (order_by_sorted key)].
  - by rewrite !order_by_perm.
Qed.

(** The order of the rows by a key that is an identifier. *)
Definition by_id {V} (key : V -> uuid) (x y : V) : bool := (key x <=? key y)%N.

Lemma by_id_order {V} (key : V -> uuid) : TotalOrder key (by_id key).
Proof.
  split; unfold by_id; intros *; rewrite ?N.leb_le; try lia.
Qed.

(** Rows that all come after the others. *)
Lemma order_by_append {V K} (key : V -> K) (leb : V -> V -> bool) `{!TotalOrder key leb} l l1 l2 :
  injective_on key l -> l ≡ₚ l1 ++ l2 -> (forall x y, x ∈ l1 -> y ∈ l2 -> leb x y = true) ->
  order_by leb l = order_by leb l1 ++ order_by leb l2.
Proof.
  intros Hinj Hl Hle. apply (ordered_unique key leb).
  - eapply injective_on_perm; [| exact Hinj]. by rewrite order_by_perm.
  - by apply (order_by_sorted key).
  - apply StronglySorted_app_2; [| by apply (order_by_sorted key) ..].
    intros x y. rewrite !elem_of_order_by. apply Hle.
  - by rewrite !order_by_perm.
Qed.

(** ** DISTINCT ON (key)

    The first row of each run of rows with equal keys. *)

Section DistinctOn.
Context {V : Type} (key : V -> uuid).

Fixpoint distinct_from (prev : option uuid) (l : list V) : list V :=
  match l with
  | [] => []
  | v :: l =>
      if bool_decide (Some (key v) = prev) then distinct_from prev l
      else v :: distinct_from (Some (key v)) l
  end.
Definition distinct_on : list V -> list V := distinct_from None.

(** Of rows that are sorted by the key, it keeps one of each: the first. *)
Lemma distinct_from_spec (R : relation V) prev l :
  StronglySorted R l -> (forall x y, R x y -> (key x <= key y)%N) ->
  (forall k y, prev = Some k -> y ∈ l -> (k <= key y)%N) ->
  NoDup (key <$> distinct_from prev l) /\
  (forall x, x ∈ distinct_from prev l ->
     x ∈ l /\ Some (key x) <> prev /\ forall y, y ∈ l -> key y = key x -> y = x \/ R x y) /\
  (forall y, y ∈ l -> Some (key y) = prev \/ exists x, x ∈ distinct_from prev l /\ key x = key y).
Proof.
  intros Hl HR. revert prev. induction Hl as [| v l Hl IH Hv]; intros prev Hprev; simpl.
  { split_and!; [constructor | by intros x ?%not_elem_of_nil | by intros y ?%not_elem_of_nil]. }
  rewrite Forall_forall in Hv. destruct (bool_decide_reflect (Some (key v) = prev)) as [Heq | Hne].
  - destruct (IH prev) as (Hnd & Hin & Hall).
    { intros k y Hk Hy. apply (Hprev k y Hk). by apply list_elem_of_further. }
    split_and!; [done | |].
    + intros x Hx. destruct (Hin x Hx) as (Hxl & Hxp & Hfirst).
      split_and!; [by apply list_elem_of_further | done |].
      intros y [-> | Hy]%elem_of_cons Hk; [congruence | by apply Hfirst].
    + intros y [-> | Hy]%elem_of_cons; [by left | by apply Hall].
  - destruct (IH (Some (key v))) as (Hnd & Hin & Hall).
    { intros k y [= <-] Hy. by apply HR, Hv. }
    split_and!.
    + simpl. apply NoDup_cons. split; [| done]. intros (x & Hk & Hx)%list_elem_of_fmap.
      destruct (Hin x Hx) as (_ & Hxk & _). by rewrite Hk in Hxk.
    + intros x [-> | Hx]%elem_of_cons.
      * split_and!; [apply list_elem_of_here | done |].
        intros y [-> | Hy]%elem_of_cons _; [by left | right; by apply Hv].
      * destruct (Hin x Hx) as (Hxl & Hxk & Hfirst). split_and!; [by apply list_elem_of_further | |].
        -- intros Hp. assert (key x <= key v)%N by
             (apply (Hprev (key x) v (eq_sym Hp)), list_elem_of_here).
           pose proof (HR _ _ (Hv x Hxl)). apply Hxk. f_equal. lia.
        -- intros y [-> | Hy]%elem_of_cons Hk; [congruence | by apply Hfirst].
    + intros y [-> | Hy]%elem_of_cons.
      * right. exists v. split; [apply list_elem_of_here | done].
      * right. destruct (Hall y Hy) as [[= Hk] | (x & Hx & Hk)].
        -- exists v. split; [apply list_elem_of_here | done].
        -- exists x. split; [by apply list_elem_of_further | done].
Qed.

Lemma distinct_on_spec (R : relation V) l :
  StronglySorted R l -> (forall x y, R x y -> (key x <= key y)%N) ->
  NoDup (key <$> distinct_on l) /\
  (forall x, x ∈ distinct_on l ->
     x ∈ l /\ forall y, y ∈ l -> key y = key x -> y = x \/ R x y) /\
  (forall y, y ∈ l -> exists x, x ∈ distinct_on l /\ key x = key y).
Proof.
  intros Hl HR. destruct (distinct_from_spec R None l Hl HR) as (Hnd & Hin & Hall); [done |].
  split_and!; [done | |].
  - intros x Hx. by destruct (Hin x Hx) as (? & _ & ?).
  - intros y Hy. by destruct (Hall y Hy).
Qed.
End DistinctOn.

(** A key, and an order of the rows whose keys are equal. *)
Lemma order_then {V C K} (lt : C -> C -> bool) (eqb : C -> C -> bool) (col : V -> C) (key : V -> K)
    (tie : V -> V -> bool) :
  (forall a b, eqb a b = true <-> a = b) ->
  (forall a b, lt a b = true \/ a = b \/ lt b a = true) ->
  (forall a, lt a a = false) -> (forall a b c, lt a b = true -> lt b c = true -> lt a c = true) ->
  TotalOrder key tie ->
  TotalOrder key (fun x y => lt (col x) (col y) || (eqb (col x) (col y) && tie x y)).
Proof.
  intros Heqb Htri Hirr Htrans Htie.
  assert (forall x y, lt (col x) (col y) || (eqb (col x) (col y) && tie x y) = true <->
    lt (col x) (col y) = true \/ (col x = col y /\ tie x y = true)) as Hspec
    by (intros x y; by rewrite orb_true_iff, andb_true_iff, Heqb).
  split; [intros x y | intros x y z | intros x y]; rewrite !Hspec.
  - destruct (Htri (col x) (col y)) as [? | [? | ?]]; [by auto | | by auto].
    destruct (order_total x y); auto.
  - intros [Hxy | [Hxy Txy]] [Hyz | [Hyz Tyz]]; [left | left | left | right]; try congruence; eauto.
    split; [congruence | by eapply order_trans].
  - intros [Hxy | [Hxy Txy]] [Hyx | [Hyx Tyx]].
    + pose proof (Htrans _ _ _ Hxy Hyx). congruence.
    + rewrite Hyx in Hxy. congruence.
    + rewrite Hxy in Hyx. congruence.
    + by apply order_antisym.
Qed.

(** ** Statements

    A statement is executed, or the driver reports an error, which the
    repository passes on as it is ([Opaque]) or wraps. *)

Definition failed_to {E} (what text : string) : goerr E :=
  Wrapf ("failed to " ++s what ++s ": ") (Opaque text) "".

Definition failed {S E A} (what text : string) (s : S) : S * result (goerr E) A :=
  (s, Err (failed_to what text)).

Definition statement {S E A} (fails : string -> E) (io : faults) (run : M S E A) : M S E A := fun s =>
  match io 0%nat with
  | Some e => (s, Err (fails e))
  | None => run s
  end.

Section Statement.
Context {S E A : Type}.
Implicit Types (m : M S E A) (fails : string -> E).

Lemma statement_ok fails io m s s' a :
  statement fails io m s = (s', Ok a) <-> io 0%nat = None /\ m s = (s', Ok a).
Proof. unfold statement. case_match; naive_solver. Qed.

Lemma statement_err fails io m s s' e :
  statement fails io m s = (s', Err e) ->
  (exists t, io 0%nat = Some t /\ s' = s /\ e = fails t) \/ (io 0%nat = None /\ m s = (s', Err e)).
Proof. unfold statement. case_match; naive_solver. Qed.

Lemma statement_none fails io m s : io 0%nat = None -> statement fails io m s = m s.
Proof. unfold statement. by intros ->. Qed.

Lemma readonly_statement fails io m : readonly m -> readonly (statement fails io m).
Proof. intros Hm s. unfold statement. case_match; [done | apply Hm]. Qed.

Lemma readonly_select fails io (f : S -> result E A) :
  readonly (statement fails io (fun s => (s, f s))).
Proof. by apply readonly_statement. Qed.

Lemma keeps_statement (P : S -> Prop) fails io m : keeps P m -> keeps P (statement fails io m).
Proof. intros Hm s Hs. unfold statement. case_match; [done | by apply Hm]. Qed.
End Statement.

#[export] Hint Resolve readonly_statement keeps_statement : capstone.

(** A query of many rows; the second answer of [io] is that of reading them. *)
Definition query_rows {S E A} (what : string) (io : faults) (f : S -> A) : M S (goerr E) A :=
  statement (failed_to what) io (fun s =>
    (s, match io 1%nat with
        | Some e => Err (Wrapf "rows iteration error: " (Opaque e) "")
        | None => Ok (f s)
        end)).

(** The row count of an UPDATE or DELETE, which the second answer of [io] may
    withhold; none at all means that the row is missing. *)
Definition affected {E} (io : faults) (n : nat) (missing : E) : result (goerr E) () :=
  match io 1%nat with
  | Some e => Err (failed_to "get rows affected" e)
  | None => if (n =? 0)%nat then Err (Sentinel missing) else Ok tt
  end.

Lemma readonly_query_rows {S E A} what io (f : S -> A) : readonly (query_rows (E := E) what io f).
Proof. apply readonly_statement. intros s. by case_match. Qed.

Lemma query_rows_ok {S E A} what io (f : S -> A) s s' a :
  query_rows (E := E) what io f s = (s', Ok a) <-> io 0%nat = None /\ io 1%nat = None /\ s' = s /\ a = f s.
Proof. unfold query_rows. rewrite statement_ok. case_match; naive_solver. Qed.

Lemma query_rows_fine {S E A} what io (f : S -> A) s :
  io 0%nat = None -> io 1%nat = None -> query_rows (E := E) what io f s = (s, Ok (f s)).
Proof. intros H0 H1. by apply query_rows_ok. Qed.

#[export] Hint Resolve readonly_query_rows readonly_select : capstone.

(** ** Rows in the way of a statement *)

(** The driver's text for a broken UNIQUE or PRIMARY KEY constraint: the
    server's message, which names the constraint, after the driver's mark. *)
Definition unique_violation (constraint : string) : string :=
  "pq: duplicate key value violates unique constraint " ++s quoted constraint.
Definition foreign_key_violation (table constraint : string) : string :=
  "pq: insert or update on table " ++s quoted table ++s
  " violates foreign key constraint " ++s quoted constraint.

Definition isUniqueViolation (text : string) : bool :=
  bool_decide (text = "pq: duplicate key value violates unique constraint") ||
  bool_decide (text = "UNIQUE constraint failed").

Definition no_row `{Countable K} {V} (P : V -> bool) (t : gmap K V) : bool :=
  (count_where P t =? 0)%nat.

(** A SELECT of one row. *)
Definition select_one `{Countable K} {V S} (P : V -> bool) (t : gmap K V) (missing : S)
  : result (goerr S) V :=
  match select_where P t with
  | [] => Err (Sentinel missing)
  | v :: _ => Ok v
  end.

Definition references `{Countable K} {V} (t : gmap K V) (id : option K) : bool :=
  match id with None => true | Some id => bool_decide (is_Some (t !! id)) end.

Lemma no_row_spec `{Countable K} {V} P (t : gmap K V) :
  no_row P t = true <-> forall k v, t !! k = Some v -> P v = false.
Proof. unfold no_row. by rewrite Nat.eqb_eq, count_where_0. Qed.

Lemma select_one_ok `{Countable K} {V S} P (t : gmap K V) (missing : S) v :
  select_one P t missing = Ok v -> P v = true /\ exists k, t !! k = Some v.
Proof.
  unfold select_one. intros Hs. apply elem_of_select_where. destruct (select_where P t); [done |].
  injection Hs as <-. apply list_elem_of_here.
Qed.

(** A lookup by hash that has to miss. *)
Lemma select_one_none `{Countable K} {V S} P (t : gmap K V) (missing : S) :
  (forall k v, t !! k = Some v -> P v = false) -> select_one P t missing = Err (Sentinel missing).
Proof.
  intros HP. unfold select_one. apply count_where_0 in HP. unfold count_where in HP.
  by destruct (select_where P t).
Qed.

(** The server's message names the constraint, so the comparison of whole
    texts never recognises it. *)
Lemma unique_violations_are_not_recognised constraint :
  isUniqueViolation (unique_violation constraint) = false.
Proof.
  unfold isUniqueViolation, unique_violation. by rewrite !bool_decide_eq_false_2 by (cbn; congruence).
Qed.

(** ** Statements that the server rejects *)

(** A condition of the server, with the text of its error. *)
Definition demand {S} (b : bool) (text : string) : M S string () :=
  if b then mret tt else fail text.

Definition out_of_range (z : Z) : string :=
  "pq: value " ++s quoted (show_int z) ++s " is out of range for type integer".
Definition bad_enum (type value : string) : string :=
  "pq: invalid input value for enum " ++s type ++s ": " ++s quoted value.
Definition check_violation (table constraint : string) : string :=
  "pq: new row for relation " ++s quoted table ++s " violates check constraint " ++s quoted constraint.

(** TEXT holds no NUL byte. *)
Definition text_ok (s : string) : bool := all_bytes (fun c => negb (is_byte 0 c)) s.
Definition bad_text : string := "pq: invalid byte sequence for encoding " ++s quoted "UTF8" ++s ": 0x00".
Definition text_input {S} (s : string) : M S string () := demand (text_ok s) bad_text.

(** A condition on a column that may be NULL. *)
Definition nullable {S A} (input : A -> M S string ()) (a : option A) : M S string () :=
  match a with None => mret tt | Some a => input a end.

(** A statement whose conditions and driver fail alike. *)
Definition execute {S E A} (fails : string -> E) (io : faults) (run : M S string A) : M S E A :=
  statement fails io (map_err fails run).

(** A SELECT that nothing is in the way of. *)
Definition select {S E A} (f : S -> A) : M S E A := fun s => (s, Ok (f s)).

(** A query, and the reading of its rows, whose errors come separately. *)
Definition select_rows {S E A} (fails iterating : string -> E) (io : faults) (f : S -> A) : M S E A :=
  statement fails io (statement iterating (shift_faults 1 io) (select f)).

(** [defer tx.Rollback()]: a failed transaction leaves nothing. *)
Definition transaction {S E A} (m : M S E A) : M S E A := fun s =>
  match m s with
  | (s', Ok a) => (s', Ok a)
  | (_, Err e) => (s, Err e)
  end.

Lemma readonly_gets {S E A} (f : S -> A) : readonly (select (E := E) f).
Proof. done. Qed.

Lemma readonly_demand {S} b text : readonly (demand (S := S) b text).
Proof. by destruct b. Qed.

Lemma demand_ok {S} b text (s s' : S) u : demand b text s = (s', Ok u) <-> b = true /\ s' = s.
Proof. destruct b, u; split; by intros [=] || intros [? ->] || intros [? ?]. Qed.

Lemma readonly_select_rows {S E A} fails iterating io (f : S -> A) :
  readonly (select_rows (E := E) fails iterating io f).
Proof. intros s. unfold select_rows, statement. by repeat case_match. Qed.

Lemma select_rows_ok {S E A} (fails iterating : string -> E) io (f : S -> A) s s' a :
  select_rows fails iterating io f s = (s', Ok a) <->
  io 0%nat = None /\ io 1%nat = None /\ s' = s /\ a = f s.
Proof. unfold select_rows. rewrite !statement_ok. unfold shift_faults, select. simpl. naive_solver. Qed.

(** The same query over two databases. *)
Lemma select_rows_related {S E A A'} (R : A -> A' -> Prop) (fails iterating : string -> E) io f f' (s s' : S) :
  R (f s) (f' s') ->
  result_rel R (select_rows fails iterating io f s).2 (select_rows fails iterating io f' s').2.
Proof. intros HR. unfold select_rows, statement. by repeat case_match; constructor. Qed.

Lemma keeps_execute {S E A} (P : S -> Prop) (fails : string -> E) io (m : M S string A) :
  keeps P m -> keeps P (execute fails io m).
Proof. intros Hm. by apply keeps_statement, keeps_map_err. Qed.

Lemma atomic_execute {S E A} (fails : string -> E) io (m : M S string A) :
  atomic m -> atomic (execute fails io m).
Proof.
  intros Hm s s' e. unfold execute, statement. case_match; [by intros [= <- <-] |].
  by apply atomic_map_err.
Qed.

Lemma execute_ok {S E A} (fails : string -> E) io (m : M S string A) s s' a :
  execute fails io m s = (s', Ok a) <-> io 0%nat = None /\ m s = (s', Ok a).
Proof. unfold execute. rewrite statement_ok. unfold map_err. destruct (m s) as [? []]; naive_solver. Qed.

Lemma keeps_transaction {S E A} (P : S -> Prop) (m : M S E A) : keeps P m -> keeps P (transaction m).
Proof. intros Hm s Hs. unfold transaction. specialize (Hm s Hs). by destruct (m s) as [? []]. Qed.

(** Conditions in front of a statement's effect. *)
Lemma demand_then {S B} (b : bool) text (k : M S string B) s :
  (_ ← demand b text; k) s = if b then k s else (s, Err text).
Proof. by destruct b. Qed.

Lemma demand_then_ok {S B} b text (k : M S string B) s s' x :
  (_ ← demand b text; k) s = (s', Ok x) <-> b = true /\ k s = (s', Ok x).
Proof. rewrite demand_then. destruct b; naive_solver. Qed.

Lemma nullable_demand {S A} (ok : A -> bool) (text : A -> string) (a : option A) :
  nullable (fun a => demand (ok a) (text a)) a =
  demand (S := S) (match a with None => true | Some a => ok a end)
    (match a with None => "" | Some a => text a end).
Proof. by destruct a. Qed.

Lemma readonly_nullable {S A} (input : A -> M S string ()) a :
  (forall a, readonly (input a)) -> readonly (nullable input a).
Proof. intros Hi. destruct a; [apply Hi | apply readonly_ret]. Qed.

Lemma readonly_text_input {S} t : readonly (text_input (S := S) t).
Proof. apply readonly_demand. Qed.

#[export] Hint Resolve readonly_gets readonly_nullable readonly_text_input readonly_demand readonly_select_rows keeps_execute keeps_transaction : capstone.

(** The order of TEXT columns in the database's collation, and [ILIKE]. *)
Class DbCollation := db_collate : string -> string -> bool.
Class DbILike := ilike : string -> string -> bool.

(** ** Counting rows *)

(** An injective way from the rows of one map to the keys of another. *)
Lemma size_le_inj `{Countable K1} `{Countable K2} {V1 V2} (f : K1 -> V1 -> K2)
    (m1 : gmap K1 V1) (m2 : gmap K2 V2) :
  (forall k v, m1 !! k = Some v -> is_Some (m2 !! f k v)) ->
  (forall k v k' v', m1 !! k = Some v -> m1 !! k' = Some v' -> f k v = f k' v' -> k = k') ->
  (size m1 <= size m2)%nat.
Proof.
  intros Hin Hinj.
  assert (NoDup ((fun kv => f kv.1 kv.2) <$> map_to_list m1)) as Hnd.
  { apply NoDup_fmap_2_strong; [| apply NoDup_map_to_list].
    intros [k v] [k' v'] Hk%elem_of_map_to_list Hk'%elem_of_map_to_list Heq. simpl in *.
    pose proof (Hinj _ _ _ _ Hk Hk' Heq). subst. congruence. }
  rewrite <- (length_map_to_list m1), <- (length_fmap (fun kv => f kv.1 kv.2)).
  rewrite <- (length_map_to_list m2), <- (length_fmap fst).
  apply submseteq_length, NoDup_submseteq; [done |].
  intros x (kv & -> & Hkv)%list_elem_of_fmap. destruct kv as [k v].
  apply elem_of_map_to_list in Hkv. apply Hin in Hkv as [y Hy]. simpl.
  apply list_elem_of_fmap. exists (f k v, y). split; [done |]. by apply elem_of_map_to_list.
Qed.

(** A SELECT that only one row satisfies. *)
Lemma select_only `{Countable K} {V} (P : V -> bool) (t : gmap K V) k v :
  t !! k = Some v -> P v = true -> (forall k' w, t !! k' = Some w -> P w = true -> k' = k) ->
  select_where P t = [v].
Proof.
  intros Hv HPv Honly. rewrite select_where_pairs.
  assert (List.filter (fun kv : K * V => P kv.2) (map_to_list t) ≡ₚ [(k, v)]) as Hp.
  { apply NoDup_Permutation.
    - apply NoDup_ListNoDup, List.NoDup_filter, NoDup_ListNoDup, NoDup_map_to_list.
    - apply NoDup_singleton.
    - intros [k' w]. rewrite list_elem_of_In, filter_In, <- list_elem_of_In, elem_of_map_to_list,
        list_elem_of_singleton. simpl. split; [| by intros [= -> ->]].
      intros [Hw HPw]. assert (k' = k) as -> by eauto. congruence. }
  apply Permutation_singleton_r in Hp. by rewrite Hp.
Qed.

(** ** Primary keys and UNIQUE columns

    [keyed key col t]: every row is stored under its key column, and no two
    rows agree in the column [col]. *)

Section Keyed.
Context {K V U : Type} `{Countable K} (key : V -> K) (col : V -> U).
Implicit Types (t : gmap K V).

Record keyed (t : gmap K V) : Prop := {
  keyed_key k v : t !! k = Some v -> key v = k;
  keyed_unique k v k' v' : t !! k = Some v -> t !! k' = Some v' -> col v = col v' -> k = k'
}.

Lemma keyed_empty : keyed ∅.
Proof. by split; intros *; rewrite lookup_empty. Qed.

Lemma keyed_insert t v :
  keyed t -> (forall k w, t !! k = Some w -> col w <> col v) -> keyed (<[key v := v]> t).
Proof.
  intros [Hk Hu] Hnew. split.
  - intros k w [[<- <-] | [_ Hw]]%lookup_insert_Some; eauto.
  - intros k w k' w' [[<- <-] | [? Hw]]%lookup_insert_Some
      [[<- <-] | [? Hw']]%lookup_insert_Some Heq; eauto; exfalso; naive_solver.
Qed.

(** Changes that keep both columns of each row, and may drop rows. *)
Lemma keyed_changed t t' :
  keyed t ->
  (forall k v', t' !! k = Some v' -> exists v, t !! k = Some v /\ key v' = key v /\ col v' = col v) ->
  keyed t'.
Proof.
  intros [Hk Hu] Hch. split.
  - intros k v' (v & Hv & -> & _)%Hch. eauto.
  - intros k v k' v' (w & Hw & _ & Hc)%Hch (w' & Hw' & _ & Hc')%Hch Heq.
    apply (Hu k w k' w' Hw Hw'). congruence.
Qed.

Lemma keyed_update_key t k P f :
  (forall v, key (f v) = key v /\ col (f v) = col v) -> keyed t -> keyed (update_key k P f t).1.
Proof.
  intros Hf Ht. apply (keyed_changed t); [done |]. intros k' v'.
  destruct (update_key_cases k P f t) as [(v & Hv & _ & ->) | [_ ->]]; simpl; [| eauto].
  intros [[<- <-] | [? ?]]%lookup_insert_Some; [| eauto]. exists v. naive_solver.
Qed.

Lemma keyed_update_where t P f :
  (forall v, key (f v) = key v /\ col (f v) = col v) -> keyed t -> keyed (update_where P f t).
Proof.
  intros Hf Ht. apply (keyed_changed t); [done |]. intros k v'.
  rewrite lookup_update_where. destruct (t !! k) as [v |]; [| done]. simpl. intros [= <-].
  exists v. destruct (P v); naive_solver.
Qed.

Lemma keyed_delete t k : keyed t -> keyed (delete k t).
Proof.
  intros Ht. apply (keyed_changed t); [done |].
  intros k' v [_ Hv]%lookup_delete_Some. eauto.
Qed.

(** A UNIQUE column of the rows of a SELECT has no duplicates. *)
Lemma NoDup_column t P : keyed t -> NoDup (col <$> select_where P t).
Proof.
  intros [_ Hu]. unfold select_where, rows.
  assert (NoDup ((fun kv => col kv.2) <$> map_to_list t)) as Hnd.
  { apply NoDup_fmap_2_strong; [| apply NoDup_map_to_list].
    intros [k v] [k' v'] Hk%elem_of_map_to_list Hk'%elem_of_map_to_list Heq. simpl in *.
    pose proof (Hu _ _ _ _ Hk Hk' Heq). subst. congruence. }
  revert Hnd. induction (map_to_list t) as [| [k v] l IH]; simpl; [done |].
  rewrite NoDup_cons. intros [Hv Hl]. destruct (P v); simpl; [| auto].
  apply NoDup_cons. split; [| auto]. intros (w & Hw & Hin)%list_elem_of_fmap. apply Hv.
  apply list_elem_of_In, filter_In in Hin as [Hin _]. apply list_elem_of_In in Hin.
  apply list_elem_of_fmap in Hin as (kv & -> & Hkv). apply list_elem_of_fmap. by exists kv.
Qed.

Lemma NoDup_select t P : keyed t -> NoDup (select_where P t).
Proof. intros Ht. apply (NoDup_fmap_1 col), NoDup_column, Ht. Qed.

(** The rows of a SELECT have keys of their own. *)
Lemma keyed_injective t P : keyed t -> injective_on key (select_where P t).
Proof.
  intros [Hk _] v w. rewrite !elem_of_select_where. intros [_ [k Hv]] [_ [k' Hw]] Heq.
  pose proof (Hk _ _ Hv). pose proof (Hk _ _ Hw). congruence.
Qed.

(** A SELECT by a UNIQUE column finds the one row. *)
Lemma select_unique t P k v :
  keyed t -> (forall w, P w = true -> col w = col v) ->
  t !! k = Some v -> P v = true -> select_where P t = [v].
Proof. intros [_ Hu] HP Hv HPv. apply (select_only P t k); [done .. |]. eauto. Qed.
End Keyed.

(** A SELECT after an INSERT. *)
Lemma select_insert `{Countable K} {V} (P : V -> bool) (t : gmap K V) k v :
  t !! k = None ->
  select_where P (<[k := v]> t) ≡ₚ (if P v then [v] else []) ++ select_where P t.
Proof.
  intros Hk. unfold select_where, rows.
  rewrite (filter_Permutation P _ (((k, v) :: map_to_list t).*2)) by by rewrite map_to_list_insert.
  simpl. by destruct (P v).
Qed.

(** Rows stored under their own keys are told apart by them. *)
Lemma own_keys_injective `{Countable K} {V} (key : V -> K) (P : V -> bool) (t : gmap K V) :
  (forall k v, t !! k = Some v -> key v = k) -> injective_on key (select_where P t).
Proof.
  intros Hk v w. rewrite !elem_of_select_where. intros [_ [k Hv]] [_ [k' Hw]] Heq.
  pose proof (Hk _ _ Hv). pose proof (Hk _ _ Hw). congruence.
Qed.

Lemma order_by_one {V} (leb : V -> V -> bool) x : order_by leb [x] = [x].
Proof. apply Permutation_singleton_r, order_by_perm. Qed.

Lemma id_insert `{Countable K} {V} (key : V -> K) (t : gmap K V) v :
  (forall k w, t !! k = Some w -> key w = k) -> forall k w, <[key v := v]> t !! k = Some w -> key w = k.
Proof. intros Ht k w [[<- <-] | [_ Hw]]%lookup_insert_Some; eauto. Qed.

Lemma id_update `{Countable K} {V} (key : V -> K) (t : gmap K V) id P f :
  (forall v, key (f v) = key v) ->
  (forall k w, t !! k = Some w -> key w = k) ->
  forall k w, (update_key id P f t).1 !! k = Some w -> key w = k.
Proof.
  intros Hf Ht k w.
  destruct (update_key_cases id P f t) as [(v & Hv & _ & ->) | [_ ->]]; simpl; [| eauto].
  intros [[<- <-] | [_ Hw]]%lookup_insert_Some; [| eauto]. rewrite Hf. eauto.
Qed.
#[export] Hint Resolve keyed_empty keyed_insert keyed_delete : capstone.

#[export] Hint Resolve min_by_elem lookup_update_where_Some : capstone.
