(* ===== verification/CPDomain.v ===== *)
(** * Control plane: data

    The types of [internal/controlplane/domain/models.go] and the rows of the
    control plane's own database
    ([internal/controlplane/migrations/000001_init.up.sql]). *)

From S2P Require Import Prelude GoStrings.

(** ** Jobs *)

Inductive JobState :=
  | JobStateQueued
  | JobStateAssigned
  | JobStateRunning
  | JobStateCompleted
  | JobStateFailed
  | JobStateRetryPending.

#[export] Instance JobState_eq_dec : EqDecision JobState.
Proof. solve_decision. Defined.

(** A worker holds the job: [state IN ('assigned','running')]. *)
Definition is_active (s : JobState) : bool :=
  match s with JobStateAssigned | JobStateRunning => true | _ => false end.

(** The job has ended: no statement of the repository moves it on. *)
Definition is_final (s : JobState) : bool :=
  match s with JobStateCompleted | JobStateFailed => true | _ => false end.

Record TestCase := mkTestCase {
  tc_ID : string;
  tc_Input : string;
  tc_Expected : string
}.

#[export] Instance TestCase_eq_dec : EqDecision TestCase.
Proof. solve_decision. Defined.

Record Job := mkJob {
  j_ID : uuid;
  j_SubmissionID : uuid;
  j_Language : string;
  j_SourceText : option string;
  j_SourceRef : option string;
  j_SourceSHA256 : option string;
  j_TimeLimitMs : Z;
  j_MemoryLimitMb : Z;
  j_TestCases : list TestCase;
  j_State : JobState;
  j_WorkerID : option string;
  j_LeaseExpiresAt : option Z;
  j_RetryCount : Z;
  j_MaxRetries : Z;
  j_FailureReason : option string;
  j_QueuedAt : Z;
  j_AssignedAt : option Z;
  j_StartedAt : option Z;
  j_FinishedAt : option Z
}.

(** ** Workers *)

Inductive WorkerHealth :=
  | WorkerHealthy
  | WorkerDraining
  | WorkerOffline.

#[export] Instance WorkerHealth_eq_dec : EqDecision WorkerHealth.
Proof. solve_decision. Defined.

Definition health_text (h : WorkerHealth) : string :=
  match h with
  | WorkerHealthy => "healthy"
  | WorkerDraining => "draining"
  | WorkerOffline => "offline"
  end.

(** A request carries the health as free text; these are the values the
    enumeration has. *)
Definition health_of_text (s : string) : option WorkerHealth :=
  if bool_decide (s = "healthy") then Some WorkerHealthy
  else if bool_decide (s = "draining") then Some WorkerDraining
  else if bool_decide (s = "offline") then Some WorkerOffline
  else None.

Lemma health_of_text_text h : health_of_text (health_text h) = Some h.
Proof. by destruct h. Qed.

Record Worker := mkWorker {
  w_ID : string;
  w_Languages : list string;
  w_Capacity : Z;
  w_ActiveJobs : Z;
  w_HealthStatus : WorkerHealth;
  w_LastHeartbeat : Z;
  w_RegisteredAt : Z
}.

(** ** Assignments and results *)

Record Assignment := mkAssignment {
  a_JobID : uuid;
  a_SubmissionID : uuid;
  a_Language : string;
  a_SourceText : option string;
  a_SourceRef : option string;
  a_SourceSHA256 : option string;
  a_TimeLimitMs : Z;
  a_MemoryLimitMb : Z;
  a_LeaseExpiresAt : Z;
  a_TestCases : list TestCase
}.

Record TestcaseResult := mkTestcaseResult {
  tr_TestcaseID : string;
  tr_Verdict : string;
  tr_TimeMs : option Z;
  tr_MemoryKb : option Z;
  tr_ActualOutput : option string;
  tr_StdoutRef : option string;
  tr_StderrRef : option string
}.

Record JobResult := mkJobResult {
  jr_JobID : uuid;
  jr_OverallVerdict : string;
  jr_TotalTimeMs : option Z;
  jr_MaxMemoryKb : option Z;
  jr_WallTimeMs : option Z;
  jr_CompilerOutput : option string;
  jr_TestcaseResults : list TestcaseResult;
  jr_CreatedAt : Z
}.

(** ** Requests *)

Record CreateJobRequest := mkCreateJobRequest {
  cr_SubmissionID : uuid;
  cr_Language : string;
  cr_SourceText : option string;
  cr_SourceRef : option string;
  cr_SourceSHA256 : option string;
  cr_TimeLimitMs : Z;
  cr_MemoryLimitMb : Z;
  cr_TestCases : list TestCase;
  cr_MaxRetries : Z
}.

Record HeartbeatRequest := mkHeartbeatRequest {
  hb_WorkerID : string;
  hb_Languages : list string;
  hb_Capacity : Z;
  hb_ActiveJobs : Z;
  hb_HealthStatus : string
}.

Record PollRequest := mkPollRequest {
  pr_WorkerID : string;
  pr_Languages : list string
}.

Record TestcaseResultInput := mkTestcaseResultInput {
  ti_TestcaseID : string;
  ti_Verdict : string;
  ti_TimeMs : option Z;
  ti_MemoryKb : option Z;
  ti_ActualOutput : option string;
  ti_StdoutRef : option string;
  ti_StderrRef : option string
}.

Record ReportResultRequest := mkReportResultRequest {
  rr_WorkerID : string;
  rr_OverallVerdict : string;
  rr_TotalTimeMs : option Z;
  rr_MaxMemoryKb : option Z;
  rr_WallTimeMs : option Z;
  rr_CompilerOutput : option string;
  rr_TestcaseResults : list TestcaseResultInput
}.

Record RenewLeaseRequest := mkRenewLeaseRequest {
  rl_WorkerID : string
}.

(** ** On the wire

    The messages go as JSON; every string in them arrives as [json_text] has
    it, and the numbers, times, identifiers and enumerations as they are. *)

#[export] Instance TestCase_via_json : ViaJSON TestCase := fun t =>
  mkTestCase (via_json (tc_ID t)) (via_json (tc_Input t)) (via_json (tc_Expected t)).

#[export] Instance CreateJobRequest_via_json : ViaJSON CreateJobRequest := fun r =>
  mkCreateJobRequest (cr_SubmissionID r) (via_json (cr_Language r)) (via_json (cr_SourceText r))
    (via_json (cr_SourceRef r)) (via_json (cr_SourceSHA256 r)) (cr_TimeLimitMs r)
    (cr_MemoryLimitMb r) (via_json (cr_TestCases r)) (cr_MaxRetries r).

#[export] Instance Assignment_via_json : ViaJSON Assignment := fun a =>
  mkAssignment (a_JobID a) (a_SubmissionID a) (via_json (a_Language a)) (via_json (a_SourceText a))
    (via_json (a_SourceRef a)) (via_json (a_SourceSHA256 a)) (a_TimeLimitMs a)
    (a_MemoryLimitMb a) (a_LeaseExpiresAt a) (via_json (a_TestCases a)).

#[export] Instance TestcaseResultInput_via_json : ViaJSON TestcaseResultInput := fun t =>
  mkTestcaseResultInput (via_json (ti_TestcaseID t)) (via_json (ti_Verdict t)) (ti_TimeMs t)
    (ti_MemoryKb t) (via_json (ti_ActualOutput t)) (via_json (ti_StdoutRef t))
    (via_json (ti_StderrRef t)).

#[export] Instance ReportResultRequest_via_json : ViaJSON ReportResultRequest := fun r =>
  mkReportResultRequest (via_json (rr_WorkerID r)) (via_json (rr_OverallVerdict r))
    (rr_TotalTimeMs r) (rr_MaxMemoryKb r) (rr_WallTimeMs r) (via_json (rr_CompilerOutput r))
    (via_json (rr_TestcaseResults r)).

#[export] Instance TestcaseResult_via_json : ViaJSON TestcaseResult := fun t =>
  mkTestcaseResult (via_json (tr_TestcaseID t)) (via_json (tr_Verdict t)) (tr_TimeMs t)
    (tr_MemoryKb t) (via_json (tr_ActualOutput t)) (via_json (tr_StdoutRef t))
    (via_json (tr_StderrRef t)).

#[export] Instance JobResult_via_json : ViaJSON JobResult := fun r =>
  mkJobResult (jr_JobID r) (via_json (jr_OverallVerdict r)) (jr_TotalTimeMs r) (jr_MaxMemoryKb r)
    (jr_WallTimeMs r) (via_json (jr_CompilerOutput r)) (via_json (jr_TestcaseResults r))
    (jr_CreatedAt r).

#[export] Instance Job_via_json : ViaJSON Job := fun j =>
  mkJob (j_ID j) (j_SubmissionID j) (via_json (j_Language j)) (via_json (j_SourceText j))
    (via_json (j_SourceRef j)) (via_json (j_SourceSHA256 j)) (j_TimeLimitMs j)
    (j_MemoryLimitMb j) (via_json (j_TestCases j)) (j_State j) (via_json (j_WorkerID j))
    (j_LeaseExpiresAt j) (j_RetryCount j) (j_MaxRetries j) (via_json (j_FailureReason j))
    (j_QueuedAt j) (j_AssignedAt j) (j_StartedAt j) (j_FinishedAt j).

#[export] Instance Worker_via_json : ViaJSON Worker := fun w =>
  mkWorker (via_json (w_ID w)) (via_json (w_Languages w)) (w_Capacity w) (w_ActiveJobs w)
    (w_HealthStatus w) (w_LastHeartbeat w) (w_RegisteredAt w).

#[export] Instance TestCase_via_json_law : ViaJSONLaw TestCase.
Proof. intros []. unfold via_json, TestCase_via_json. simpl. by rewrite !via_json_idemp. Qed.
#[export] Instance CreateJobRequest_via_json_law : ViaJSONLaw CreateJobRequest.
Proof. intros []. unfold via_json, CreateJobRequest_via_json. simpl. by rewrite !via_json_idemp. Qed.
#[export] Instance Assignment_via_json_law : ViaJSONLaw Assignment.
Proof. intros []. unfold via_json, Assignment_via_json. simpl. by rewrite !via_json_idemp. Qed.
#[export] Instance TestcaseResultInput_via_json_law : ViaJSONLaw TestcaseResultInput.
Proof. intros []. unfold via_json, TestcaseResultInput_via_json. simpl. by rewrite !via_json_idemp. Qed.
#[export] Instance ReportResultRequest_via_json_law : ViaJSONLaw ReportResultRequest.
Proof. intros []. unfold via_json, ReportResultRequest_via_json. simpl. by rewrite !via_json_idemp. Qed.
#[export] Instance TestcaseResult_via_json_law : ViaJSONLaw TestcaseResult.
Proof. intros []. unfold via_json, TestcaseResult_via_json. simpl. by rewrite !via_json_idemp. Qed.
#[export] Instance JobResult_via_json_law : ViaJSONLaw JobResult.
Proof. intros []. unfold via_json, JobResult_via_json. simpl. by rewrite !via_json_idemp. Qed.
