(* ===== verification/JobRepo.v ===== *)
(** * Control plane: the job repository

    [internal/controlplane/repository/job_repo.go] over the [jobs],
    [job_results] and [job_tc_results] tables.  Each SQL statement is one
    atomic change of the database; the CHECK, PRIMARY KEY and FOREIGN KEY
    constraints of the migration that can reject a statement are modelled,
    and any other failure is an answer of [io]. *)

From S2P Require Import Prelude Sql GoStrings CPDomain.

(** ** Errors *)

Inductive cp_sentinel :=
  | ErrJobNotFound
  | ErrNoJobAvailable
  | ErrLeaseMismatch
  | ErrInvalidInput.

#[export] Instance cp_sentinel_eq_dec : EqDecision cp_sentinel.
Proof. solve_decision. Defined.

#[export] Instance cp_sentinel_text : SentinelText cp_sentinel := fun s =>
  match s with
  | ErrJobNotFound => "job not found"
  | ErrNoJobAvailable => "no job available for the requested languages"
  | ErrLeaseMismatch => "lease renewal rejected: worker_id does not match current holder"
  | ErrInvalidInput => "invalid input"
  end.

Abbreviation cp_error := (goerr cp_sentinel).

(** ** The database *)

(** One row of [jobs]; the JSONB column [test_cases] is kept as its text. *)
Record job_row := mkRow {
  r_ID : uuid;
  r_SubmissionID : uuid;
  r_Language : string;
  r_SourceText : option string;
  r_SourceRef : option string;
  r_SourceSHA256 : option string;
  r_TimeLimitMs : Z;
  r_MemoryLimitMb : Z;
  r_TestCases : option string;
  r_State : JobState;
  r_WorkerID : option string;
  r_LeaseExpiresAt : option Z;
  r_RetryCount : Z;
  r_MaxRetries : Z;
  r_FailureReason : option string;
  r_QueuedAt : Z;
  r_AssignedAt : option Z;
  r_StartedAt : option Z;
  r_FinishedAt : option Z
}.

Record result_row := mkResultRow {
  res_OverallVerdict : string;
  res_TotalTimeMs : option Z;
  res_MaxMemoryKb : option Z;
  res_WallTimeMs : option Z;
  res_CompilerOutput : option string;
  res_CreatedAt : Z
}.

Record cpdb := mkDb {
  db_jobs : gmap uuid job_row;
  db_workers : gmap string Worker;
  db_results : gmap uuid result_row;
  db_tc_results : gmap (uuid * string) TestcaseResult
}.

Definition empty_db : cpdb := mkDb ∅ ∅ ∅ ∅.

Definition set_jobs (db : cpdb) jobs : cpdb :=
  mkDb jobs (db_workers db) (db_results db) (db_tc_results db).
Definition set_workers (db : cpdb) workers : cpdb :=
  mkDb (db_jobs db) workers (db_results db) (db_tc_results db).

(** The columns that statements of the repository change. *)
Definition row_with (r : job_row) (state : JobState) (worker : option string)
    (lease : option Z) (retries : Z) (reason : option string)
    (assigned started finished : option Z) : job_row :=
  mkRow (r_ID r) (r_SubmissionID r) (r_Language r)
    (r_SourceText r) (r_SourceRef r) (r_SourceSHA256 r)
    (r_TimeLimitMs r) (r_MemoryLimitMb r) (r_TestCases r)
    state worker lease retries (r_MaxRetries r) reason
    (r_QueuedAt r) assigned started finished.

(** The text an error of the server has; nothing inspects it. *)
Definition pq_error : string := "pq: constraint violation".

(** ** JSONB helpers

    [encoding/json] on a list of test cases, both ways; [Unmarshal] is applied
    to the text the server sends back for what was stored. *)

Class TestCaseJSON := {
  json_Marshal_tcs : list TestCase -> result string string;
  json_Unmarshal_tcs : string -> result string (list TestCase)
}.

Section Repository.
Context `{TestCaseJSON}.

Definition marshalTestCases (tcs : list TestCase) : result cp_error (option string) :=
  match tcs with
  | [] => Ok None
  | _ =>
      match json_Marshal_tcs tcs with
      | Err e => Err (Wrapf "marshal test_cases: " (Opaque e) "")
      | Ok b => Ok (Some b)
      end
  end.

(** ** scanJob *)

Definition job_of_row (r : job_row) (tcs : list TestCase) : Job :=
  mkJob (r_ID r) (r_SubmissionID r) (r_Language r)
    (r_SourceText r) (r_SourceRef r) (r_SourceSHA256 r)
    (r_TimeLimitMs r) (r_MemoryLimitMb r) tcs
    (r_State r) (r_WorkerID r) (r_LeaseExpiresAt r)
    (r_RetryCount r) (r_MaxRetries r) (r_FailureReason r)
    (r_QueuedAt r) (r_AssignedAt r) (r_StartedAt r) (r_FinishedAt r).

Definition scan_error (e : string) : cp_error := Wrapf "scan job: " (Opaque e) "".

Definition scanJob (row : option job_row) : result cp_error Job :=
  match row with
  | None => Err (Sentinel ErrJobNotFound)
  | Some r =>
      match r_TestCases r with
      | None => Ok (job_of_row r [])
      | Some tcJSON =>
          if bool_decide (tcJSON = "") then Ok (job_of_row r [])
          else match json_Unmarshal_tcs tcJSON with
               | Err e => Err (Wrapf "unmarshal test_cases: " (Opaque e) "")
               | Ok tcs => Ok (job_of_row r tcs)
               end
      end
  end.

(** ** Create *)

Definition jobs_check (r : job_row) : bool :=
  int4_ok (r_TimeLimitMs r) && (0 <? r_TimeLimitMs r) &&
  int4_ok (r_MemoryLimitMb r) && (0 <? r_MemoryLimitMb r) &&
  int4_ok (r_MaxRetries r) &&
  match r_SourceText r, r_SourceRef r with
  | Some _, None | None, Some _ => true
  | _, _ => false
  end.

Definition new_row (now : Z) (fresh : uuid) (req : CreateJobRequest)
    (tcJSON : option string) (maxRetries : Z) : job_row :=
  mkRow fresh (cr_SubmissionID req) (cr_Language req)
    (cr_SourceText req) (cr_SourceRef req) (cr_SourceSHA256 req)
    (cr_TimeLimitMs req) (cr_MemoryLimitMb req) tcJSON
    JobStateQueued None None 0 maxRetries None now None None None.

Definition max_retries_of (req : CreateJobRequest) : Z :=
  if 0 <? cr_MaxRetries req then cr_MaxRetries req else 3.

(** [fresh] is the identifier [gen_random_uuid()] draws, [now] is NOW(). *)
Definition Create (io : faults) (now : Z) (fresh : uuid) (req : CreateJobRequest)
  : M cpdb cp_error Job := fun db =>
  let maxRetries := max_retries_of req in
  match marshalTestCases (cr_TestCases req) with
  | Err e => (db, Err e)
  | Ok tcJSON =>
      let row := new_row now fresh req tcJSON maxRetries in
      match io 0%nat with
      | Some e => (db, Err (scan_error e))
      | None =>
          if jobs_check row && bool_decide (db_jobs db !! fresh = None) then
            (set_jobs db (<[fresh := row]> (db_jobs db)), scanJob (Some row))
          else (db, Err (scan_error pq_error))
      end
  end.

(** ** GetByID, GetBySubmissionID *)

(** [errors.Is(err, ErrJobNotFound)] turned into another sentinel. *)
Definition not_found_as (s : cp_sentinel) (r : result cp_error Job) : result cp_error Job :=
  match r with
  | Err e => if errors_Is e ErrJobNotFound then Err (Sentinel s) else Err e
  | Ok j => Ok j
  end.

Definition GetByID (io : faults) (id : uuid) : M cpdb cp_error Job := fun db =>
  match io 0%nat with
  | Some e => (db, Err (scan_error e))
  | None => (db, not_found_as ErrJobNotFound (scanJob (db_jobs db !! id)))
  end.

Definition GetBySubmissionID (io : faults) (tie : job_row -> job_row -> bool)
    (submissionID : uuid) : M cpdb cp_error Job := fun db =>
  match io 0%nat with
  | Some e => (db, Err (scan_error e))
  | None =>
      let latest := min_by (fun r => - r_QueuedAt r) tie
        (select_where (fun r => bool_decide (r_SubmissionID r = submissionID))
           (db_jobs db)) in
      (db, not_found_as ErrJobNotFound (scanJob latest))
  end.

(** ** AssignNext *)

(** [fmt.Sprintf("%d seconds", int(leaseDuration.Seconds()))]: whole seconds,
    truncated towards zero. *)
Definition interval (leaseDuration : Z) : Z :=
  Z.quot leaseDuration time_Second * time_Second.

Definition claimable (locked : gset uuid) (languages : list string) (r : job_row) : bool :=
  bool_decide (r_State r = JobStateQueued) &&
  bool_decide (r_Language r ∈ languages) &&
  bool_decide (r_ID r ∉ locked).

(** The CTE [next]: the oldest claimable row; SKIP LOCKED leaves out the rows
    that concurrent transactions hold. *)
Definition select_next (tie : job_row -> job_row -> bool) (locked : gset uuid)
    (languages : list string) (jobs : gmap uuid job_row) : option job_row :=
  min_by r_QueuedAt tie (select_where (claimable locked languages) jobs).

Definition claim_row (now : Z) (workerID : string) (leaseDuration : Z) (r : job_row)
  : job_row :=
  row_with r JobStateAssigned (Some workerID) (Some (now + interval leaseDuration))
    (r_RetryCount r) (r_FailureReason r) (Some now) (r_StartedAt r) (r_FinishedAt r).

Definition AssignNext (io : faults) (tie : job_row -> job_row -> bool)
    (locked : gset uuid) (now : Z) (workerID : string) (languages : list string)
    (leaseDuration : Z) : M cpdb cp_error Job := fun db =>
  match io 0%nat with
  | Some e => (db, Err (scan_error e))
  | None =>
      match select_next tie locked languages (db_jobs db) with
      | None => (db, not_found_as ErrNoJobAvailable (scanJob None))
      | Some r =>
          (* worker_id REFERENCES workers(id) *)
          match db_workers db !! workerID with
          | None => (db, Err (scan_error pq_error))
          | Some _ =>
              let r' := claim_row now workerID leaseDuration r in
              (set_jobs db (<[r_ID r := r']> (db_jobs db)),
               not_found_as ErrNoJobAvailable (scanJob (Some r')))
          end
      end
  end.

(** ** MarkRunning, RenewLease *)

(** [res.RowsAffected() == 0] *)
Definition rows_or_mismatch (n : nat) : result cp_error () :=
  if (n =? 0)%nat then Err (Sentinel ErrLeaseMismatch) else Ok tt.

Definition running_row (now : Z) (r : job_row) : job_row :=
  row_with r JobStateRunning (r_WorkerID r) (r_LeaseExpiresAt r)
    (r_RetryCount r) (r_FailureReason r) (r_AssignedAt r) (Some now) (r_FinishedAt r).

Definition MarkRunning (io : faults) (now : Z) (jobID : uuid) (workerID : string)
  : M cpdb cp_error () := fun db =>
  match io 0%nat with
  | Some e => (db, Err (Wrapf "mark running: " (Opaque e) ""))
  | None =>
      let '(jobs, n) := update_key jobID
        (fun r => bool_decide (r_WorkerID r = Some workerID) &&
                  bool_decide (r_State r = JobStateAssigned))
        (running_row now) (db_jobs db) in
      (set_jobs db jobs, rows_or_mismatch n)
  end.

(** [worker_id = $2 AND state IN ('assigned','running')] *)
Definition held_by (workerID : string) (r : job_row) : bool :=
  bool_decide (r_WorkerID r = Some workerID) && is_active (r_State r).

Definition renewed_row (now leaseDuration : Z) (r : job_row) : job_row :=
  row_with r (r_State r) (r_WorkerID r) (Some (now + interval leaseDuration))
    (r_RetryCount r) (r_FailureReason r) (r_AssignedAt r) (r_StartedAt r) (r_FinishedAt r).

Definition RenewLease (io : faults) (now : Z) (jobID : uuid) (workerID : string)
    (leaseDuration : Z) : M cpdb cp_error () := fun db =>
  match io 0%nat with
  | Some e => (db, Err (Wrapf "renew lease: " (Opaque e) ""))
  | None =>
      let '(jobs, n) := update_key jobID (held_by workerID)
        (renewed_row now leaseDuration) (db_jobs db) in
      (set_jobs db jobs, rows_or_mismatch n)
  end.

(** ** Complete *)

Definition completed_row (now : Z) (r : job_row) : job_row :=
  row_with r JobStateCompleted (r_WorkerID r) None
    (r_RetryCount r) (r_FailureReason r) (r_AssignedAt r) (r_StartedAt r) (Some now).

(** A transaction: the changes of its body are kept when it commits and
    undone by the deferred Rollback otherwise. *)
Definition transaction {S E A} (body : M S E A) : M S E A := fun s =>
  match body s with
  | (s', Ok a) => (s', Ok a)
  | (_, Err e) => (s, Err e)
  end.

(** A step of a transaction that only succeeds or fails (BEGIN, COMMIT). *)
Definition exec_nothing (fault : option string) (wrap : string) : M cpdb cp_error () :=
  match fault with
  | Some e => fail (Wrapf wrap (Opaque e) "")
  | None => mret tt
  end.

Definition insert_result (io : option string) (now : Z) (jobID : uuid)
    (req : ReportResultRequest) : M cpdb cp_error () := fun db =>
  let error := Wrapf "insert job_result: " in
  match io with
  | Some e => (db, Err (error (Opaque e) ""))
  | None =>
      if bool_decide (db_results db !! jobID = None) &&
         int4_opt_ok (rr_TotalTimeMs req) && int4_opt_ok (rr_MaxMemoryKb req) &&
         int4_opt_ok (rr_WallTimeMs req)
      then
        let row := mkResultRow (rr_OverallVerdict req) (rr_TotalTimeMs req)
          (rr_MaxMemoryKb req) (rr_WallTimeMs req) (rr_CompilerOutput req) now in
        (mkDb (db_jobs db) (db_workers db) (<[jobID := row]> (db_results db))
           (db_tc_results db), Ok tt)
      else (db, Err (error (Opaque pq_error) ""))
  end.

Definition insert_tc (io : option string) (jobID : uuid) (tc : TestcaseResultInput)
  : M cpdb cp_error () := fun db =>
  let error := Wrapf ("insert job_tc_result (testcase " ++s ti_TestcaseID tc ++s "): ") in
  match io with
  | Some e => (db, Err (error (Opaque e) ""))
  | None =>
      if bool_decide (db_tc_results db !! (jobID, ti_TestcaseID tc) = None) &&
         int4_opt_ok (ti_TimeMs tc) && int4_opt_ok (ti_MemoryKb tc)
      then
        let row := mkTestcaseResult (ti_TestcaseID tc) (ti_Verdict tc) (ti_TimeMs tc)
          (ti_MemoryKb tc) (ti_ActualOutput tc) (ti_StdoutRef tc) (ti_StderrRef tc) in
        (mkDb (db_jobs db) (db_workers db) (db_results db)
           (<[(jobID, ti_TestcaseID tc) := row]> (db_tc_results db)), Ok tt)
      else (db, Err (error (Opaque pq_error) ""))
  end.

Fixpoint insert_tcs (io : faults) (jobID : uuid) (tcs : list TestcaseResultInput)
  : M cpdb cp_error () :=
  match tcs with
  | [] => mret tt
  | tc :: tcs' =>
      _ ← insert_tc (io 0%nat) jobID tc;
      insert_tcs (shift_faults 1 io) jobID tcs'
  end.

Definition complete_update (io : option string) (now : Z) (jobID : uuid)
    (workerID : string) : M cpdb cp_error () := fun db =>
  match io with
  | Some e => (db, Err (Wrapf "complete job update: " (Opaque e) ""))
  | None =>
      let '(jobs, n) := update_key jobID (held_by workerID) (completed_row now)
        (db_jobs db) in
      (set_jobs db jobs, rows_or_mismatch n)
  end.

Definition Complete (io : faults) (now : Z) (jobID : uuid) (workerID : string)
    (req : ReportResultRequest) : M cpdb cp_error () :=
  transaction (
    _ ← exec_nothing (io 0%nat) "begin tx: ";
    _ ← complete_update (io 1%nat) now jobID workerID;
    _ ← insert_result (io 2%nat) now jobID req;
    _ ← insert_tcs (shift_faults 3 io) jobID (rr_TestcaseResults req);
    exec_nothing (io (3 + length (rr_TestcaseResults req))%nat) "").

(** ** RequeueExpiredLeases *)

Definition lease_expired (now : Z) (r : job_row) : bool :=
  is_active (r_State r) &&
  match r_LeaseExpiresAt r with Some t => t <? now | None => false end.

Definition requeued_row (r : job_row) : job_row :=
  let more := r_RetryCount r + 1 <? r_MaxRetries r in
  row_with r (if more then JobStateQueued else JobStateFailed) None None
    (r_RetryCount r + 1)
    (if r_MaxRetries r <=? r_RetryCount r + 1
     then Some "lease expired – retries exhausted" else None)
    (r_AssignedAt r) (r_StartedAt r) (r_FinishedAt r).

Definition RequeueExpiredLeases (io : faults) (now : Z) : M cpdb cp_error Z := fun db =>
  match io 0%nat with
  | Some e => (db, Err (Wrapf "requeue expired leases: " (Opaque e) ""))
  | None =>
      (set_jobs db (update_where (lease_expired now) requeued_row (db_jobs db)),
       Ok (Z.of_nat (count_where (lease_expired now) (db_jobs db))))
  end.

(** ** GetResult *)

(** [collate] is the server's ordering of TEXT (ORDER BY testcase_id); the
    second and third answers of [io] are the query's and the iteration's. *)
Definition GetResult (io : faults) (collate : string -> string -> bool) (jobID : uuid)
  : M cpdb cp_error JobResult := fun db =>
  match io 0%nat with
  | Some e => (db, Err (Wrapf "get job result: " (Opaque e) ""))
  | None =>
      match db_results db !! jobID with
      | None => (db, Err (Sentinel ErrJobNotFound))
      | Some r =>
          match io 1%nat with
          | Some e => (db, Err (Wrapf "get tc results: " (Opaque e) ""))
          | None =>
              match io 2%nat with
              | Some e => (db, Err (Wrapf "iter tc results: " (Opaque e) ""))
              | None =>
                  let mine := filter (fun kv => kv.1.1 = jobID) (db_tc_results db) in
                  let tcs := order_by (fun x y => collate (tr_TestcaseID x) (tr_TestcaseID y))
                               (rows mine) in
                  (db, Ok (mkJobResult jobID (res_OverallVerdict r) (res_TotalTimeMs r)
                             (res_MaxMemoryKb r) (res_WallTimeMs r) (res_CompilerOutput r)
                             tcs (res_CreatedAt r)))
              end
          end
      end
  end.

End Repository.
