(* ===== verification/WorkerRepo.v ===== *)
(** * Control plane: the worker repository

    [internal/controlplane/repository/worker_repo.go] over the [workers]
    table. *)

From S2P Require Import Prelude Sql GoStrings CPDomain JobRepo.

(** CHECK (capacity > 0), CHECK (active_jobs >= 0), and the range of INT. *)
Definition workers_check (w : Worker) : bool :=
  int4_ok (w_Capacity w) && (0 <? w_Capacity w) &&
  int4_ok (w_ActiveJobs w) && (0 <=? w_ActiveJobs w).

Definition scan_worker_error (e : string) : cp_error := Wrapf "scan worker: " (Opaque e) "".

(** ** Upsert *)

(** The row that INSERT ... ON CONFLICT (id) DO UPDATE leaves behind; the
    enumeration type rejects a health text it does not have. *)
Definition upserted (now : Z) (old : option Worker) (req : HeartbeatRequest)
    (health : WorkerHealth) : Worker :=
  mkWorker (hb_WorkerID req) (hb_Languages req) (hb_Capacity req) (hb_ActiveJobs req)
    health now
    (match old with Some w => w_RegisteredAt w | None => now end).

Definition Upsert (io : faults) (now : Z) (req : HeartbeatRequest)
  : M cpdb cp_error Worker := fun db =>
  match io 0%nat with
  | Some e => (db, Err (scan_worker_error e))
  | None =>
      match health_of_text (hb_HealthStatus req) with
      | None => (db, Err (scan_worker_error pq_error))
      | Some h =>
          let w := upserted now (db_workers db !! hb_WorkerID req) req h in
          if workers_check w then
            (set_workers db (<[hb_WorkerID req := w]> (db_workers db)), Ok w)
          else (db, Err (scan_worker_error pq_error))
      end
  end.

(** ** GetByID *)

Definition Worker_GetByID `{GoUnicode} (io : faults) (id : string)
  : M cpdb cp_error Worker := fun db =>
  match io 0%nat with
  | Some e => (db, Err (scan_worker_error e))
  | None =>
      match db_workers db !! id with
      | None => (db, Err (Opaque ("worker " ++s Quote id ++s " not found")))
      | Some w => (db, Ok w)
      end
  end.

(** ** ListHealthy *)

Definition overlap (xs ys : list string) : bool :=
  existsb (fun x => bool_decide (x ∈ ys)) xs.

Definition ListHealthy (io : faults) (languages : list string)
  : M cpdb cp_error (list Worker) := fun db =>
  match io 0%nat with
  | Some e => (db, Err (Wrapf "list healthy workers: " (Opaque e) ""))
  | None =>
      let wanted w :=
        bool_decide (w_HealthStatus w = WorkerHealthy) &&
        match languages with
        | [] => true
        | _ => overlap (w_Languages w) languages
        end in
      match io 1%nat with
      | Some e => (db, Err (Wrapf "iter workers: " (Opaque e) ""))
      | None =>
          (db, Ok (order_by (fun v w => w_ActiveJobs v <=? w_ActiveJobs w)
                     (select_where wanted (db_workers db))))
      end
  end.

(** ** IncrementActiveJobs *)

Definition bump_worker (delta : Z) (w : Worker) : Worker :=
  mkWorker (w_ID w) (w_Languages w) (w_Capacity w)
    (Z.max 0 (w_ActiveJobs w + delta))
    (w_HealthStatus w) (w_LastHeartbeat w) (w_RegisteredAt w).

(** An UPDATE that touches no row is no error here. *)
Definition IncrementActiveJobs `{GoUnicode} (io : faults) (workerID : string) (delta : Z)
  : M cpdb cp_error () := fun db =>
  let error msg := Wrapf ("increment active_jobs for worker " ++s Quote workerID ++s ": ")
                     (Opaque msg) "" in
  match io 0%nat with
  | Some e => (db, Err (error e))
  | None =>
      match db_workers db !! workerID with
      | None => (db, Ok tt)
      | Some w =>
          if int4_ok (w_ActiveJobs w + delta) then
            (set_workers db (<[workerID := bump_worker delta w]> (db_workers db)), Ok tt)
          else (db, Err (error pq_error))
      end
  end.

(** ** MarkStaleOffline *)

Definition stale (threshold : Z) (w : Worker) : bool :=
  (w_LastHeartbeat w <? threshold) && negb (bool_decide (w_HealthStatus w = WorkerOffline)).

Definition set_offline (w : Worker) : Worker :=
  mkWorker (w_ID w) (w_Languages w) (w_Capacity w) (w_ActiveJobs w)
    WorkerOffline (w_LastHeartbeat w) (w_RegisteredAt w).

Definition MarkStaleOffline (io : faults) (threshold : Z) : M cpdb cp_error Z := fun db =>
  match io 0%nat with
  | Some e => (db, Err (Wrapf "mark stale workers offline: " (Opaque e) ""))
  | None =>
      (set_workers db (update_where (stale threshold) set_offline (db_workers db)),
       Ok (Z.of_nat (count_where (stale threshold) (db_workers db))))
  end.

(** ** Facts *)

Lemma workers_check_spec w :
  workers_check w = true <->
  0 < w_Capacity w < 2^31 /\ 0 <= w_ActiveJobs w < 2^31.
Proof.
  unfold workers_check. rewrite !andb_true_iff, !int4_ok_spec, Z.ltb_lt, Z.leb_le. lia.
Qed.

Lemma stale_set_offline threshold w : stale threshold (set_offline w) = false.
Proof. unfold stale; simpl. by rewrite andb_false_r. Qed.
#[export] Hint Resolve stale_set_offline : capstone.
