(* ===== verification/CPService.v ===== *)
(** * Control plane: the service layer

    [internal/controlplane/service/service.go], the queue consumer of
    [internal/controlplane/consumer/job_consumer.go], the durations of
    [internal/controlplane/config.go] and the background sweeps of
    [cmd/control-plane/main.go].

    An operation sends its statements one after the other; [io] answers them
    in that order. *)

From S2P Require Import Prelude Sql GoStrings CPDomain JobRepo WorkerRepo.

(** ** Durations and configuration *)

Definition DefaultLeaseDuration : Z := 60 * time_Second.
Definition DefaultLeaseCheckInterval : Z := 10 * time_Second.
Definition DefaultHeartbeatTimeout : Z := 30 * time_Second.

Record Config := mkConfig {
  cfg_LeaseDuration : Z;
  cfg_HeartbeatTimeout : Z
}.

(** [New]: zero fields take their defaults. *)
Definition New (cfg : Config) : Config :=
  mkConfig
    (if cfg_LeaseDuration cfg =? 0 then DefaultLeaseDuration else cfg_LeaseDuration cfg)
    (if cfg_HeartbeatTimeout cfg =? 0 then DefaultHeartbeatTimeout
     else cfg_HeartbeatTimeout cfg).

(** [time.Duration(c.LeaseDurationSec) * time.Second], in 64 bits; the other
    intervals of the configuration are computed the same way. *)
Definition LeaseDuration (leaseDurationSec : Z) : Z := wrap64 (leaseDurationSec * time_Second).
Definition LeaseCheckInterval (sec : Z) : Z := wrap64 (sec * time_Second).
Definition HeartbeatTimeout (sec : Z) : Z := wrap64 (sec * time_Second).
Definition WorkerSweepInterval (sec : Z) : Z := wrap64 (sec * time_Second).

(** [fmt.Errorf("%w: ...", ErrInvalidInput)] *)
Definition invalid (why : string) : cp_error :=
  Wrapf "" (Sentinel ErrInvalidInput) (": " ++s why).

(** What dereferencing a nil pointer does. *)
Definition nil_dereference : cp_error :=
  Opaque "panic: invalid memory address or nil pointer dereference".

Section Service.
Context `{TestCaseJSON} `{GoUnicode} (cfg : Config).

(** ** CreateJob *)

Definition validateCreateJobRequest (req : CreateJobRequest) : option string :=
  if bool_decide (cr_SubmissionID req = uuid_Nil) then Some "submission_id is required"
  else if bool_decide (cr_Language req = "") then Some "language is required"
  else match cr_SourceText req, cr_SourceRef req with
  | None, None | Some _, Some _ =>
      Some "exactly one of source_text or source_ref must be provided"
  | _, _ =>
      if cr_TimeLimitMs req <=? 0 then Some "time_limit_ms must be positive"
      else if cr_MemoryLimitMb req <=? 0 then Some "memory_limit_mb must be positive"
      else None
  end.

Definition CreateJob (io : faults) (now : Z) (fresh : uuid) (req : CreateJobRequest)
  : M cpdb cp_error Job :=
  match validateCreateJobRequest req with
  | Some why => fail (invalid why)
  | None => map_err (fun e => Wrapf "create job: " e "") (Create io now fresh req)
  end.

(** ** GetJob, GetJobBySubmission, GetJobResult *)

Definition GetJob (io : faults) (jobID : uuid) : M cpdb cp_error Job := GetByID io jobID.

Definition GetJobBySubmission (io : faults) (tie : job_row -> job_row -> bool)
    (submissionID : uuid) : M cpdb cp_error Job := GetBySubmissionID io tie submissionID.

Definition GetJobResult (io : faults) (collate : string -> string -> bool)
    (jobID : uuid) : M cpdb cp_error JobResult := GetResult io collate jobID.

(** ** Heartbeat *)

Definition Heartbeat (io : faults) (now : Z) (req : HeartbeatRequest)
  : M cpdb cp_error Worker :=
  if bool_decide (hb_WorkerID req = "") then fail (invalid "worker_id is required")
  else if hb_Capacity req <=? 0 then fail (invalid "capacity must be positive")
  else match health_of_text (hb_HealthStatus req) with
  | None => fail (invalid ("unknown health_status " ++s Quote (hb_HealthStatus req)))
  | Some _ => map_err (fun e => Wrapf "heartbeat upsert: " e "") (Upsert io now req)
  end.

(** ** PollJob

    The four numbered stages of the comment above [PollJob]; each stage after
    the validation is one statement, and other requests may run between
    them. *)

Definition poll_validate (req : PollRequest) : result cp_error () :=
  if bool_decide (pr_WorkerID req = "") then Err (invalid "worker_id is required")
  else match pr_Languages req with
  | [] => Err (invalid "languages must not be empty")
  | _ => Ok tt
  end.

Definition poll_check (io : faults) (req : PollRequest) : M cpdb cp_error () :=
  w ← map_err (fun e => Wrapf ("unknown worker " ++s Quote (pr_WorkerID req) ++s ": ") e "")
        (Worker_GetByID io (pr_WorkerID req));
  if negb (bool_decide (w_HealthStatus w = WorkerHealthy)) then
    fail (invalid ("worker " ++s Quote (pr_WorkerID req) ++s " is " ++s
                     health_text (w_HealthStatus w)))
  else if w_Capacity w <=? w_ActiveJobs w then fail (Sentinel ErrNoJobAvailable)
  else mret tt.

Definition poll_claim (io : faults) (tie : job_row -> job_row -> bool)
    (locked : gset uuid) (now : Z) (req : PollRequest) : M cpdb cp_error Job :=
  AssignNext io tie locked now (pr_WorkerID req) (pr_Languages req) (cfg_LeaseDuration cfg).

(** Best effort: a failure is logged and dropped. *)
Definition poll_bump (io : faults) (workerID : string) (delta : Z) : M cpdb cp_error () :=
  _ ← attempt (E := cp_error) (IncrementActiveJobs io workerID delta); mret tt.

Definition assignment_of (job : Job) : result cp_error Assignment :=
  match j_LeaseExpiresAt job with
  | None => Err nil_dereference
  | Some lease =>
      Ok (mkAssignment (j_ID job) (j_SubmissionID job) (j_Language job)
            (j_SourceText job) (j_SourceRef job) (j_SourceSHA256 job)
            (j_TimeLimitMs job) (j_MemoryLimitMb job) lease (j_TestCases job))
  end.

Definition PollJob (io : faults) (tie : job_row -> job_row -> bool) (locked : gset uuid)
    (now : Z) (req : PollRequest) : M cpdb cp_error Assignment :=
  _ ← lift (poll_validate req);
  _ ← poll_check io req;
  job ← poll_claim (shift_faults 1 io) tie locked now req;
  _ ← poll_bump (shift_faults 2 io) (pr_WorkerID req) 1;
  lift (assignment_of job).

(** ** MarkRunning, RenewLease, ReportResult *)

Definition Service_MarkRunning (io : faults) (now : Z) (jobID : uuid) (workerID : string)
  : M cpdb cp_error () :=
  if bool_decide (workerID = "") then fail (invalid "worker_id is required")
  else MarkRunning io now jobID workerID.

Definition Service_RenewLease (io : faults) (now : Z) (jobID : uuid)
    (req : RenewLeaseRequest) : M cpdb cp_error () :=
  if bool_decide (rl_WorkerID req = "") then fail (invalid "worker_id is required")
  else RenewLease io now jobID (rl_WorkerID req) (cfg_LeaseDuration cfg).

(** The statements [Complete] sends: BEGIN, the UPDATE, the result row, one
    row per test case, COMMIT. *)
Definition complete_statements (req : ReportResultRequest) : nat :=
  4 + length (rr_TestcaseResults req).

Definition ReportResult (io : faults) (now : Z) (jobID : uuid)
    (req : ReportResultRequest) : M cpdb cp_error () :=
  if bool_decide (rr_WorkerID req = "") then fail (invalid "worker_id is required")
  else if bool_decide (rr_OverallVerdict req = "") then
    fail (invalid "overall_verdict is required")
  else
    _ ← Complete io now jobID (rr_WorkerID req) req;
    poll_bump (shift_faults (complete_statements req) io) (rr_WorkerID req) (-1).

(** ** Background sweeps *)

Definition Service_RequeueExpiredLeases (io : faults) (now : Z) : M cpdb cp_error Z :=
  RequeueExpiredLeases io now.

(** [now] is the service's clock here, not the database's. *)
Definition MarkStaleWorkers (io : faults) (now : Z) : M cpdb cp_error Z :=
  MarkStaleOffline io (now - cfg_HeartbeatTimeout cfg).

(** One run of a sweep's loop: the ticks received before ctx is done; an
    error is logged and the loop goes on. *)
Definition sweep_loop (sweep : faults -> Z -> M cpdb cp_error Z)
    (ticks : list (faults * Z)) (db : cpdb) : cpdb :=
  fold_left (fun db tick => (sweep tick.1 tick.2 db).1) ticks db.

Definition runLeaseExpirySweep := sweep_loop Service_RequeueExpiredLeases.
Definition runWorkerHealthSweep := sweep_loop MarkStaleWorkers.

(** ** The queue consumer

    [decode] is [json.Unmarshal] of the message body.  Whoever delivers the
    message looks only at whether an error comes back. *)

Definition handle (decode : string -> result string CreateJobRequest) (io : faults)
    (now : Z) (fresh : uuid) (body : string) : M cpdb cp_error () :=
  match decode body with
  | Err e => fail (Wrapf "unmarshal job creation: " (Opaque e) "")
  | Ok req => _ ← CreateJob io now fresh req; mret tt
  end.

End Service.
