(* ===== verification/CPHttp.v ===== *)
(** * Control plane: HTTP

    The handlers of [internal/controlplane/http/jobs.go] and [workers.go], the
    key check of [cmd/control-plane/main.go], and the worker's client of
    [internal/worker/client.go].  A handler is given its path parameter and
    body as [uuid.Parse] and the JSON decoder deliver them ([None] when they
    fail) and answers with a status and a body. *)

From S2P Require Import Prelude Sql GoStrings CPDomain JobRepo WorkerRepo.
From S2P Require Import CPService.

Definition StatusOK : Z := 200.
Definition StatusCreated : Z := 201.
Definition StatusNoContent : Z := 204.
Definition StatusBadRequest : Z := 400.
Definition StatusUnauthorized : Z := 401.
Definition StatusNotFound : Z := 404.
Definition StatusConflict : Z := 409.
Definition StatusInternalServerError : Z := 500.
Definition StatusNotImplemented : Z := 501.

Inductive payload :=
  | NoBody
  | ErrorBody (message : string)
  | JobBody (job : Job)
  | ResultBody (result : JobResult)
  | WorkerBody (worker : Worker)
  | AssignmentBody (assignment : Assignment).

(** What the reader of a body decodes. *)
#[export] Instance payload_via_json : ViaJSON payload := fun p =>
  match p with
  | NoBody => NoBody
  | ErrorBody message => ErrorBody (via_json message)
  | JobBody job => JobBody (via_json job)
  | ResultBody result => ResultBody (via_json result)
  | WorkerBody worker => WorkerBody (via_json worker)
  | AssignmentBody assignment => AssignmentBody (via_json assignment)
  end.

Record response := mkResponse { status : Z; body : payload }.

Definition respondJSON (status : Z) (data : payload) : response := mkResponse status data.
Definition respondError (status : Z) (msg : string) : response :=
  respondJSON status (ErrorBody msg).

Section Handlers.
Context `{TestCaseJSON} `{GoUnicode} (cfg : Config).

(** A handler ends by answering: its state change and its response. *)
Definition finish {A} (m : M cpdb cp_error A) (on_ok : A -> response)
    (on_err : cp_error -> response) : cpdb -> cpdb * response := fun db =>
  match m db with
  | (db', Ok a) => (db', on_ok a)
  | (db', Err e) => (db', on_err e)
  end.

Definition answer (r : response) : cpdb -> cpdb * response := fun db => (db, r).

Definition CreateJob_handler (io : faults) (now : Z) (fresh : uuid)
    (req : option CreateJobRequest) : cpdb -> cpdb * response :=
  match req with
  | None => answer (respondError StatusBadRequest "invalid request body")
  | Some req =>
      finish (CreateJob io now fresh req)
        (fun job => respondJSON StatusCreated (JobBody job))
        (fun err =>
           if errors_Is err ErrInvalidInput then
             respondError StatusBadRequest (error_text err)
           else respondError StatusInternalServerError "failed to create job")
  end.

Definition GetJob_handler (io : faults) (jobID : option uuid) : cpdb -> cpdb * response :=
  match jobID with
  | None => answer (respondError StatusBadRequest "invalid job id")
  | Some jobID =>
      finish (GetJob io jobID)
        (fun job => respondJSON StatusOK (JobBody job))
        (fun err =>
           if errors_Is err ErrJobNotFound then
             respondError StatusNotFound "job not found"
           else respondError StatusInternalServerError "failed to get job")
  end.

Definition GetJobBySubmission_handler (io : faults) (tie : job_row -> job_row -> bool)
    (submissionID : option uuid) : cpdb -> cpdb * response :=
  match submissionID with
  | None => answer (respondError StatusBadRequest "invalid submission id")
  | Some submissionID =>
      finish (GetJobBySubmission io tie submissionID)
        (fun job => respondJSON StatusOK (JobBody job))
        (fun err =>
           if errors_Is err ErrJobNotFound then
             respondError StatusNotFound "job not found for submission"
           else respondError StatusInternalServerError "failed to get job")
  end.

Definition GetJobResult_handler (io : faults) (collate : string -> string -> bool)
    (jobID : option uuid) : cpdb -> cpdb * response :=
  match jobID with
  | None => answer (respondError StatusBadRequest "invalid job id")
  | Some jobID =>
      finish (GetJobResult io collate jobID)
        (fun result => respondJSON StatusOK (ResultBody result))
        (fun err =>
           if errors_Is err ErrJobNotFound then
             respondError StatusNotFound "result not found (job may not be complete)"
           else respondError StatusInternalServerError "failed to get result")
  end.

Definition Heartbeat_handler (io : faults) (now : Z) (req : option HeartbeatRequest)
  : cpdb -> cpdb * response :=
  match req with
  | None => answer (respondError StatusBadRequest "invalid request body")
  | Some req =>
      finish (Heartbeat io now req)
        (fun worker => respondJSON StatusOK (WorkerBody worker))
        (fun err =>
           if errors_Is err ErrInvalidInput then
             respondError StatusBadRequest (error_text err)
           else respondError StatusInternalServerError "heartbeat failed")
  end.

Definition PollJob_handler (io : faults) (tie : job_row -> job_row -> bool)
    (locked : gset uuid) (now : Z) (req : option PollRequest) : cpdb -> cpdb * response :=
  match req with
  | None => answer (respondError StatusBadRequest "invalid request body")
  | Some req =>
      finish (PollJob cfg io tie locked now req)
        (fun assignment => respondJSON StatusOK (AssignmentBody assignment))
        (fun err =>
           if errors_Is err ErrNoJobAvailable then mkResponse StatusNoContent NoBody
           else if errors_Is err ErrInvalidInput then
             respondError StatusBadRequest (error_text err)
           else respondError StatusInternalServerError "poll failed")
  end.

(** The answer of the three endpoints a lease holder calls. *)
Definition holder_answer (internal : string) (m : M cpdb cp_error ())
  : cpdb -> cpdb * response :=
  finish m
    (fun _ => mkResponse StatusNoContent NoBody)
    (fun err =>
       if errors_Is err ErrLeaseMismatch then
         respondError StatusConflict "worker does not hold the lease for this job"
       else if errors_Is err ErrInvalidInput then
         respondError StatusBadRequest (error_text err)
       else respondError StatusInternalServerError internal).

Definition MarkRunning_handler (io : faults) (now : Z) (jobID : option uuid)
    (workerID : option string) : cpdb -> cpdb * response :=
  match jobID with
  | None => answer (respondError StatusBadRequest "invalid job id")
  | Some jobID =>
      match workerID with
      | None => answer (respondError StatusBadRequest "invalid request body")
      | Some workerID =>
          holder_answer "failed to mark job as running"
            (Service_MarkRunning io now jobID workerID)
      end
  end.

Definition RenewLease_handler (io : faults) (now : Z) (jobID : option uuid)
    (req : option RenewLeaseRequest) : cpdb -> cpdb * response :=
  match jobID with
  | None => answer (respondError StatusBadRequest "invalid job id")
  | Some jobID =>
      match req with
      | None => answer (respondError StatusBadRequest "invalid request body")
      | Some req =>
          holder_answer "failed to renew lease" (Service_RenewLease cfg io now jobID req)
      end
  end.

Definition ReportResult_handler (io : faults) (now : Z) (jobID : option uuid)
    (req : option ReportResultRequest) : cpdb -> cpdb * response :=
  match jobID with
  | None => answer (respondError StatusBadRequest "invalid job id")
  | Some jobID =>
      match req with
      | None => answer (respondError StatusBadRequest "invalid request body")
      | Some req =>
          holder_answer "failed to report result" (ReportResult io now jobID req)
      end
  end.

Definition GetWorker_handler (workerID : string) : cpdb -> cpdb * response :=
  if bool_decide (workerID = "") then
    answer (respondError StatusBadRequest "worker id is required")
  else answer (respondError StatusNotImplemented "not yet implemented").

End Handlers.

(** ** The shared key *)

(** An empty configured key switches the check off. *)
Definition internalKeyMiddleware (expectedKey presented : string)
    (next : cpdb -> cpdb * response) : cpdb -> cpdb * response :=
  if bool_decide (presented = expectedKey) then next
  else fun db => (db, respondError StatusUnauthorized "unauthorized").

Definition guarded (internalKey presented : string) (next : cpdb -> cpdb * response) :=
  if bool_decide (internalKey = "") then next
  else internalKeyMiddleware internalKey presented next.

(** ** The routes

    [setupRoutes] of [cmd/control-plane/routes.go]: one constructor per
    endpoint, with the path parameter and body the handler is given. *)

Inductive cp_request :=
  | POST_jobs (req : option CreateJobRequest)
  | GET_job (jobID : option uuid)
  | GET_job_by_submission (submissionID : option uuid)
  | GET_job_result (jobID : option uuid)
  | POST_job_running (jobID : option uuid) (workerID : option string)
  | POST_job_lease (jobID : option uuid) (req : option RenewLeaseRequest)
  | POST_job_result (jobID : option uuid) (req : option ReportResultRequest)
  | POST_workers_heartbeat (req : option HeartbeatRequest)
  | POST_workers_poll (req : option PollRequest)
  | GET_worker (workerID : string).

(** What the outside chooses while a request is served: the faults, the
    clock, a fresh identifier, the locks held and the server's orderings. *)
Record surroundings := mkSurroundings {
  s_io : faults;
  s_now : Z;
  s_fresh : uuid;
  s_tie : job_row -> job_row -> bool;
  s_locked : gset uuid;
  s_collate : string -> string -> bool
}.

Definition setupRoutes `{TestCaseJSON} `{GoUnicode} (cfg : Config) (env : surroundings)
    (req : cp_request) : cpdb -> cpdb * response :=
  match req with
  | POST_jobs req => CreateJob_handler (s_io env) (s_now env) (s_fresh env) req
  | GET_job jobID => GetJob_handler (s_io env) jobID
  | GET_job_by_submission id => GetJobBySubmission_handler (s_io env) (s_tie env) id
  | GET_job_result jobID => GetJobResult_handler (s_io env) (s_collate env) jobID
  | POST_job_running jobID w => MarkRunning_handler (s_io env) (s_now env) jobID w
  | POST_job_lease jobID req => RenewLease_handler cfg (s_io env) (s_now env) jobID req
  | POST_job_result jobID req => ReportResult_handler (s_io env) (s_now env) jobID req
  | POST_workers_heartbeat req => Heartbeat_handler (s_io env) (s_now env) req
  | POST_workers_poll req =>
      PollJob_handler cfg (s_io env) (s_tie env) (s_locked env) (s_now env) req
  | GET_worker workerID => GetWorker_handler workerID
  end.

(** ** The worker's client *)

(** What the HTTP transport gives: no reply, or the server's response. *)
Inductive reply := NoReply (error : string) | Reply (r : response).

(** [post] with a destination that [decode] fills, or without one: an error
    (in [errNoContent]'s case the sentinel), or the decoded value. *)
(** The error text of a status from 400 up ends with the body, which no caller
    looks at and which is left out. *)
Inductive post_error := errNoContent | PostError (msg : string).

Definition post {A} (decode : option (payload -> result string A)) (rep : reply)
  : result post_error (option A) :=
  match rep with
  | NoReply e => Err (PostError ("http do: " ++s e))
  | Reply r =>
      if status r =? StatusNoContent then
        match decode with
        | None => Ok None
        | Some _ => Err errNoContent
        end
      else if 400 <=? status r then
        Err (PostError ("control-plane returned " ++s show_int (status r)))
      else match decode with
      | None => Ok None
      | Some f =>
          match f (via_json (body r)) with
          | Err e => Err (PostError ("decode response: " ++s e))
          | Ok a => Ok (Some a)
          end
      end
  end.

(** The body of a reply is a value that the server encodes; the decoders are
    given what its JSON text amounts to. *)
Definition decode_assignment (p : payload) : result string Assignment :=
  match p with
  | AssignmentBody a => Ok a
  | _ => Err "unexpected body"
  end.

Definition decode_worker (p : payload) : result string Worker :=
  match p with
  | WorkerBody w => Ok w
  | _ => Err "unexpected body"
  end.

Definition Client_Heartbeat (rep : reply) : result string (option Worker) :=
  match post (Some decode_worker) rep with
  | Ok w => Ok w
  | Err errNoContent => Err "heartbeat: no content"
  | Err (PostError e) => Err ("heartbeat: " ++s e)
  end.

(** [(nil, nil)] when there is no work. *)
Definition Client_Poll (rep : reply) : result string (option Assignment) :=
  match post (Some decode_assignment) rep with
  | Ok (Some a) => Ok (Some a)
  | Ok None => Ok None
  | Err errNoContent => Ok None
  | Err (PostError e) => Err ("poll: " ++s e)
  end.

Definition post_nothing (rep : reply) : result string () :=
  match post (A := ()) None rep with
  | Ok _ => Ok tt
  | Err errNoContent => Err "no content"
  | Err (PostError e) => Err e
  end.

Definition Client_MarkRunning := post_nothing.
Definition Client_RenewLease := post_nothing.
Definition Client_ReportResult := post_nothing.
