(* ===== verification/JobRepoFacts.v ===== *)
(** * Control plane: what each statement of the job repository does

    The outcomes of the operations of [JobRepo], in the form the invariants
    and the service's theorems use. *)

From S2P Require Import Prelude Sql GoStrings CPDomain JobRepo.

(** ** Rows *)

Lemma held_by_spec w r :
  held_by w r = true <-> r_WorkerID r = Some w /\ is_active (r_State r) = true.
Proof. unfold held_by. by rewrite andb_true_iff, bool_decide_eq_true. Qed.

Lemma claimable_spec locked langs r :
  claimable locked langs r = true <->
  r_State r = JobStateQueued /\ r_Language r ∈ langs /\ r_ID r ∉ locked.
Proof. unfold claimable. rewrite !andb_true_iff, !bool_decide_eq_true. tauto. Qed.

Lemma lease_expired_spec now r :
  lease_expired now r = true <->
  is_active (r_State r) = true /\ exists t, r_LeaseExpiresAt r = Some t /\ t < now.
Proof.
  unfold lease_expired. rewrite andb_true_iff. destruct (r_LeaseExpiresAt r) as [t |].
  - rewrite Z.ltb_lt. naive_solver.
  - naive_solver.
Qed.

Lemma requeued_not_expired now r : lease_expired now (requeued_row r) = false.
Proof. unfold lease_expired, requeued_row; simpl. by destruct (_ <? _). Qed.
#[export] Hint Resolve requeued_not_expired : capstone.

Lemma set_jobs_id db : set_jobs db (db_jobs db) = db.
Proof. by destruct db. Qed.

(** ** The queue *)

Section Queue.
Context (tie : job_row -> job_row -> bool) (locked : gset uuid) (langs : list string).

Lemma select_next_Some jobs r :
  select_next tie locked langs jobs = Some r ->
  (exists id, jobs !! id = Some r) /\
  r_State r = JobStateQueued /\ r_Language r ∈ langs /\ r_ID r ∉ locked.
Proof.
  intros E%min_by_elem. apply elem_of_select_where in E as [Hc Hj].
  by apply claimable_spec in Hc.
Qed.

Lemma select_next_oldest jobs r id r' :
  select_next tie locked langs jobs = Some r ->
  jobs !! id = Some r' -> r_State r' = JobStateQueued -> r_Language r' ∈ langs ->
  r_ID r' ∉ locked -> r_QueuedAt r <= r_QueuedAt r'.
Proof.
  intros E Hid Hq Hl Hk. eapply min_by_le; [exact E |].
  apply elem_of_select_where. split; [by apply claimable_spec | eauto].
Qed.

Lemma select_next_None jobs :
  select_next tie locked langs jobs = None <->
  forall id r, jobs !! id = Some r ->
    ~ (r_State r = JobStateQueued /\ r_Language r ∈ langs /\ r_ID r ∉ locked).
Proof.
  unfold select_next. rewrite min_by_None. split.
  - intros E id r Hid Hc. apply claimable_spec in Hc.
    assert (r ∈ select_where (claimable locked langs) jobs) as Hin
      by (apply elem_of_select_where; eauto).
    rewrite E in Hin. by apply not_elem_of_nil in Hin.
  - intros Hno. destruct (select_where _ _) as [| r l] eqn:E; [done |].
    assert (r ∈ select_where (claimable locked langs) jobs) as Hin
      by (rewrite E; apply list_elem_of_here).
    apply elem_of_select_where in Hin as [Hc [id Hid]].
    apply claimable_spec in Hc. by destruct (Hno _ _ Hid).
Qed.
End Queue.

Section Facts.
Context `{TestCaseJSON}.

Lemma scanJob_not_NoJob r : scanJob (Some r) <> Err (Sentinel ErrNoJobAvailable).
Proof. simpl. repeat case_match; naive_solver. Qed.

(** ** Outcomes of the operations *)

Lemma Create_cases io now fresh req db :
  ((Create io now fresh req db).1 = db /\ exists e, (Create io now fresh req db).2 = Err e) \/
  (exists tcJSON,
     let row := new_row now fresh req tcJSON (max_retries_of req) in
     io 0%nat = None /\ marshalTestCases (cr_TestCases req) = Ok tcJSON /\
     jobs_check row = true /\ db_jobs db !! fresh = None /\
     Create io now fresh req db =
       (set_jobs db (<[fresh := row]> (db_jobs db)), scanJob (Some row))).
Proof.
  unfold Create. destruct (marshalTestCases _) as [tcJSON | e]; [| left; eauto].
  destruct (io 0%nat); [left; eauto |].
  case_match eqn:Hc; [| left; eauto].
  apply andb_true_iff in Hc as [? ?%bool_decide_eq_true].
  right. exists tcJSON. by repeat split.
Qed.

Lemma AssignNext_cases io tie locked now w langs d db :
  ((AssignNext io tie locked now w langs d db).1 = db /\
   exists e, (AssignNext io tie locked now w langs d db).2 = Err e) \/
  (exists r wk, io 0%nat = None /\ select_next tie locked langs (db_jobs db) = Some r /\
     db_workers db !! w = Some wk /\
     AssignNext io tie locked now w langs d db =
       (set_jobs db (<[r_ID r := claim_row now w d r]> (db_jobs db)),
        not_found_as ErrNoJobAvailable (scanJob (Some (claim_row now w d r))))).
Proof.
  unfold AssignNext. destruct (io 0%nat); [left; eauto |].
  destruct (select_next _ _ _ _) as [r |]; [| left; simpl; eauto].
  destruct (db_workers db !! w) eqn:E; [right; eauto 10 | left; eauto].
Qed.

(** The three keyed updates have the same two outcomes: the holder's row is
    changed, or nothing is changed and the call fails. *)
Definition guarded_update (guard : job_row -> bool) (f : job_row -> job_row)
    (jobID : uuid) (db db' : cpdb) (res : result cp_error ()) : Prop :=
  (exists r, db_jobs db !! jobID = Some r /\ guard r = true /\ res = Ok tt /\
     db' = set_jobs db (<[jobID := f r]> (db_jobs db))) \/
  (db' = db /\ exists e, res = Err e).

Lemma guarded_update_intro guard f jobID db :
  let '(jobs, n) := update_key jobID guard f (db_jobs db) in
  guarded_update guard f jobID db (set_jobs db jobs) (rows_or_mismatch n).
Proof.
  destruct (update_key_cases jobID guard f (db_jobs db)) as [(r & Hr & Hg & ->) | [Hn ->]].
  - left. eauto 10.
  - right. rewrite set_jobs_id. simpl. eauto.
Qed.

Definition running_guard (w : string) (r : job_row) : bool :=
  bool_decide (r_WorkerID r = Some w) && bool_decide (r_State r = JobStateAssigned).

Lemma MarkRunning_cases io now id w db :
  guarded_update (running_guard w) (running_row now) id db
    (MarkRunning io now id w db).1 (MarkRunning io now id w db).2.
Proof.
  unfold MarkRunning. destruct (io 0%nat); [right; eauto |].
  pose proof (guarded_update_intro (running_guard w) (running_row now) id db) as Hu.
  unfold running_guard in Hu. by destruct (update_key _ _ _ _).
Qed.

Lemma RenewLease_cases io now id w d db :
  guarded_update (held_by w) (renewed_row now d) id db
    (RenewLease io now id w d db).1 (RenewLease io now id w d db).2.
Proof.
  unfold RenewLease. destruct (io 0%nat); [right; eauto |].
  pose proof (guarded_update_intro (held_by w) (renewed_row now d) id db) as Hu.
  by destruct (update_key _ _ _ _).
Qed.

(** Without faults the guard alone decides. *)
Lemma RenewLease_spec now id w d db :
  RenewLease no_faults now id w d db =
  match db_jobs db !! id with
  | Some r => if held_by w r
              then (set_jobs db (<[id := renewed_row now d r]> (db_jobs db)), Ok tt)
              else (db, Err (Sentinel ErrLeaseMismatch))
  | None => (db, Err (Sentinel ErrLeaseMismatch))
  end.
Proof.
  unfold RenewLease, update_key. simpl.
  destruct (db_jobs db !! id) as [r |]; [destruct (held_by w r) |]; simpl;
    by rewrite ?set_jobs_id.
Qed.

(** ** Complete *)

Definition tc_row (tc : TestcaseResultInput) : TestcaseResult :=
  mkTestcaseResult (ti_TestcaseID tc) (ti_Verdict tc) (ti_TimeMs tc)
    (ti_MemoryKb tc) (ti_ActualOutput tc) (ti_StdoutRef tc) (ti_StderrRef tc).

Definition tc_ints_ok (tc : TestcaseResultInput) : bool :=
  int4_opt_ok (ti_TimeMs tc) && int4_opt_ok (ti_MemoryKb tc).

Definition result_ints_ok (req : ReportResultRequest) : bool :=
  int4_opt_ok (rr_TotalTimeMs req) && int4_opt_ok (rr_MaxMemoryKb req) &&
  int4_opt_ok (rr_WallTimeMs req).

Definition insert_all (id : uuid) (tcs : list TestcaseResultInput)
    (m : gmap (uuid * string) TestcaseResult) : gmap (uuid * string) TestcaseResult :=
  fold_left (fun m tc => <[(id, ti_TestcaseID tc) := tc_row tc]> m) tcs m.

Definition set_tc_results (db : cpdb) m : cpdb :=
  mkDb (db_jobs db) (db_workers db) (db_results db) m.

(** An insertion guarded by a boolean check that amounts to [P] and [Q]. *)
Lemma check_spec {E} (b : bool) (P Q : Prop) (db1 db db' : cpdb) (e : E) :
  (b = true <-> P /\ Q) ->
  (if b then (db1, Ok tt) else (db, Err e)) = (db', Ok tt) <->
  @None string = None /\ P /\ Q /\ db' = db1.
Proof.
  intros Hb. destruct b.
  - destruct Hb as [Hb _]. destruct (Hb eq_refl). split; [by intros [= <-] |].
    by intros (_ & _ & _ & ->).
  - split; [done |]. intros (_ & HP & HQ & _). pose proof (proj2 Hb (conj HP HQ)); done.
Qed.

Lemma insert_tc_spec io id tc db db' :
  insert_tc io id tc db = (db', Ok tt) <->
  io = None /\ db_tc_results db !! (id, ti_TestcaseID tc) = None /\
  tc_ints_ok tc = true /\
  db' = set_tc_results db (<[(id, ti_TestcaseID tc) := tc_row tc]> (db_tc_results db)).
Proof.
  unfold insert_tc, tc_ints_ok. destruct io; [by split; [done | intros [? _]] |].
  rewrite <- andb_assoc. apply check_spec. by rewrite andb_true_iff, bool_decide_eq_true.
Qed.

Lemma lookup_insert_all id tcs m id' t :
  insert_all id tcs m !! (id', t) =
  match List.find (fun tc => bool_decide (id = id' /\ ti_TestcaseID tc = t)) (reverse tcs) with
  | Some tc => Some (tc_row tc)
  | None => m !! (id', t)
  end.
Proof.
  unfold insert_all. revert m. induction tcs as [| tc tcs IH] using rev_ind; intros m; [done |].
  rewrite fold_left_app, reverse_snoc. simpl.
  case_bool_decide as Hk.
  - destruct Hk as [-> ->]. by rewrite lookup_insert_eq.
  - rewrite lookup_insert_ne by naive_solver. apply IH.
Qed.

Lemma insert_tcs_spec io id tcs db db' :
  insert_tcs io id tcs db = (db', Ok tt) <->
  (forall k, (k < length tcs)%nat -> io k = None) /\
  NoDup (ti_TestcaseID <$> tcs) /\
  Forall (fun tc => db_tc_results db !! (id, ti_TestcaseID tc) = None /\
                    tc_ints_ok tc = true) tcs /\
  db' = set_tc_results db (insert_all id tcs (db_tc_results db)).
Proof.
  revert io db. induction tcs as [| tc tcs IH]; intros io db.
  - simpl. mrun. split.
    + intros [= <-]. destruct db. split_and!; [lia | constructor | constructor | done].
    + intros (_ & _ & _ & ->). by destruct db.
  - cbn [insert_tcs]. mrun.
    destruct (insert_tc (io 0%nat) id tc db) as [db1 [[] | e]] eqn:E1.
    + apply insert_tc_spec in E1 as (Hio & Hfree & Hint & ->).
      rewrite IH. cbn [fmap list_fmap length insert_all fold_left set_tc_results db_tc_results].
      rewrite NoDup_cons, Forall_cons. unfold shift_faults. split.
      * intros (Hk & Hnd & Hall & ->). split_and!; [| | done | done | done | | done].
        -- intros [| k] Hlt; [done | apply Hk; lia].
        -- intros Hin. apply list_elem_of_fmap in Hin as (tc' & Heq & Hin').
           rewrite Forall_forall in Hall. apply Hall in Hin' as [Hin' _].
           rewrite Heq, lookup_insert_eq in Hin'. done.
        -- eapply Forall_impl; [exact Hall |]. intros tc' [Hl ?]. split; [| done].
           destruct (decide (ti_TestcaseID tc' = ti_TestcaseID tc)) as [Heq | Hne].
           ++ rewrite Heq, lookup_insert_eq in Hl. done.
           ++ rewrite lookup_insert_ne in Hl; [done | naive_solver].
      * intros (Hk & [Hni Hnd] & [_ Hall] & ->). split_and!; [| done | | done].
        -- intros k Hlt. apply (Hk (S k)). lia.
        -- rewrite Forall_forall in Hall |- *. intros tc' Hin. destruct (Hall _ Hin).
           split; [| done]. rewrite lookup_insert_ne; [done |]. intros [= Heq].
           apply Hni. rewrite Heq. by apply list_elem_of_fmap_2.
    + split; [done |]. intros (Hk & _ & Hall & _).
      apply Forall_cons in Hall as [[Hf Hi] _].
      assert (insert_tc (io 0%nat) id tc db =
        (set_tc_results db (<[(id, ti_TestcaseID tc) := tc_row tc]> (db_tc_results db)), Ok tt))
        as E2.
      { apply insert_tc_spec. split_and!; try done. apply Hk. simpl; lia. }
      congruence.
Qed.

Definition report_row (now : Z) (req : ReportResultRequest) : result_row :=
  mkResultRow (rr_OverallVerdict req) (rr_TotalTimeMs req)
    (rr_MaxMemoryKb req) (rr_WallTimeMs req) (rr_CompilerOutput req) now.

(** The database after a report is accepted. *)
Definition completed_db (now : Z) (id : uuid) (req : ReportResultRequest) (r : job_row)
    (db : cpdb) : cpdb :=
  mkDb (<[id := completed_row now r]> (db_jobs db)) (db_workers db)
    (<[id := report_row now req]> (db_results db))
    (insert_all id (rr_TestcaseResults req) (db_tc_results db)).

(** What a report must satisfy to be accepted. *)
Definition acceptable (w : string) (id : uuid) (req : ReportResultRequest) (db : cpdb)
    (r : job_row) : Prop :=
  db_jobs db !! id = Some r /\ held_by w r = true /\
  db_results db !! id = None /\ result_ints_ok req = true /\
  NoDup (ti_TestcaseID <$> rr_TestcaseResults req) /\
  Forall (fun tc => db_tc_results db !! (id, ti_TestcaseID tc) = None /\
                    tc_ints_ok tc = true) (rr_TestcaseResults req).

Lemma complete_update_spec io now id w db db' :
  complete_update io now id w db = (db', Ok tt) <->
  io = None /\ exists r, db_jobs db !! id = Some r /\ held_by w r = true /\
    db' = set_jobs db (<[id := completed_row now r]> (db_jobs db)).
Proof.
  unfold complete_update, update_key. destruct io; [by split; [done | intros [? _]] |].
  split.
  - destruct (db_jobs db !! id) as [r |]; [destruct (held_by w r) eqn:Hh |]; simpl;
      intros Heq; simplify_eq. eauto 10.
  - by intros (_ & r & -> & -> & ->).
Qed.

Lemma insert_result_spec io now id req db db' :
  insert_result io now id req db = (db', Ok tt) <->
  io = None /\ db_results db !! id = None /\ result_ints_ok req = true /\
  db' = mkDb (db_jobs db) (db_workers db) (<[id := report_row now req]> (db_results db))
          (db_tc_results db).
Proof.
  unfold insert_result, result_ints_ok. destruct io; [by split; [done | intros [? _]] |].
  rewrite <- !andb_assoc. apply check_spec. by rewrite andb_true_iff, bool_decide_eq_true.
Qed.

Lemma transaction_err {S E A} (body : M S E A) s s' e :
  transaction body s = (s', Err e) -> s' = s.
Proof. unfold transaction. destruct (body s) as [? [|]]; naive_solver. Qed.

Lemma exec_nothing_spec fault wrap db db' :
  exec_nothing fault wrap db = (db', Ok tt) <-> fault = None /\ db' = db.
Proof. unfold exec_nothing. destruct fault; mrun; naive_solver. Qed.

Lemma Complete_ok io now id w req db db' :
  Complete io now id w req db = (db', Ok tt) <->
  (forall k, (k < 4 + length (rr_TestcaseResults req))%nat -> io k = None) /\
  exists r, acceptable w id req db r /\ db' = completed_db now id req r db.
Proof.
  unfold Complete, transaction. split.
  - match goal with |- context [match ?m db with _ => _ end] =>
      destruct (m db) as [s [[] | e]] eqn:E end; [intros [= <-] | done].
    apply bind_ok_unit in E as (s0 & [H0 ->]%exec_nothing_spec & E).
    apply bind_ok_unit in E as (s1 & (H1 & r & Hr & Hh & ->)%complete_update_spec & E).
    apply bind_ok_unit in E as (s2 & (H2 & Hres & Hint & ->)%insert_result_spec & E).
    apply bind_ok_unit in E as (s3 & (Hk & Hnd & Hall & ->)%insert_tcs_spec & E).
    apply exec_nothing_spec in E as [H3 ->]. split.
    + intros [| [| [| k]]] Hlt; try done.
      destruct (decide (k < length (rr_TestcaseResults req))%nat); [by apply Hk |].
      replace k with (length (rr_TestcaseResults req)) by lia. done.
    + exists r. done.
  - intros (Hk & r & (Hr & Hh & Hres & Hint & Hnd & Hall) & ->).
    assert (forall X : M cpdb cp_error (), X db = (completed_db now id req r db, Ok tt) ->
      match X db with (s', Ok a) => (s', Ok a) | (_, Err e) => (db, Err e) end =
      (completed_db now id req r db, Ok tt)) as HX by (by intros X ->).
    apply HX. apply bind_ok_unit. exists db. split; [apply exec_nothing_spec; split; [apply Hk; lia | done] |].
    apply bind_ok_unit. eexists. split; [apply complete_update_spec; split; [apply Hk; lia | eauto] |].
    apply bind_ok_unit. eexists. split; [apply insert_result_spec; split_and!; [apply Hk; lia | done..] |].
    apply bind_ok_unit. eexists. split; [apply insert_tcs_spec; split_and!; try done |].
    + intros k Hlt. apply Hk. lia.
    + apply exec_nothing_spec. split; [apply Hk; lia | done].
Qed.

(** A report is recorded as a whole or not at all. *)
Lemma Complete_err io now id w req db db' e :
  Complete io now id w req db = (db', Err e) -> db' = db.
Proof. apply transaction_err. Qed.

Lemma Complete_cases io now id w req db :
  (exists r, acceptable w id req db r /\
     Complete io now id w req db = (completed_db now id req r db, Ok tt)) \/
  (exists e, Complete io now id w req db = (db, Err e)).
Proof.
  destruct (Complete io now id w req db) as [db' [[] | e]] eqn:E.
  - left. pose proof E as (_ & r & Ha & ->)%Complete_ok. eauto.
  - right. apply Complete_err in E as ->. eauto.
Qed.

End Facts.
