(* ===== verification/LeaseQueue.v ===== *)
(** * Control plane: the abstract lease queue

    What the job table promises, without rows, statements or retry columns:
    each job waits with a number of attempts left, is held by one worker until
    an instant, is done, or is dead.  [CPTheorems] proves that the
    repositories implement these steps. *)

From S2P Require Import Prelude Sql GoStrings CPDomain JobRepo.

Inductive ajob :=
  | AWaiting (left : Z)
  | AHeld (holder : string) (until : Z) (left : Z)
  | ADone (holder : string)
  | ADead.

(** Losing the lease costs one attempt; the last one is fatal. *)
Definition expire (now : Z) (a : ajob) : ajob :=
  match a with
  | AHeld _ t n => if t <? now then (if 1 <? n then AWaiting (n - 1) else ADead) else a
  | _ => a
  end.

Inductive astep : gmap uuid ajob -> gmap uuid ajob -> Prop :=
  | a_enqueue m id n : m !! id = None -> 1 <= n -> astep m (<[id := AWaiting n]> m)
  | a_claim m id w t n : m !! id = Some (AWaiting n) -> astep m (<[id := AHeld w t n]> m)
  | a_extend m id w t t' n :
      m !! id = Some (AHeld w t n) -> astep m (<[id := AHeld w t' n]> m)
  | a_finish m id w t n : m !! id = Some (AHeld w t n) -> astep m (<[id := ADone w]> m)
  | a_expire m now : astep m (expire now <$> m).

(** The queue a [jobs] table stands for. *)
Definition abs_row (r : job_row) : ajob :=
  let left := r_MaxRetries r - r_RetryCount r in
  match r_State r with
  | JobStateQueued | JobStateRetryPending => AWaiting left
  | JobStateAssigned | JobStateRunning =>
      match r_WorkerID r, r_LeaseExpiresAt r with
      | Some w, Some t => AHeld w t left
      | _, _ => ADead
      end
  | JobStateCompleted => ADone (default "" (r_WorkerID r))
  | JobStateFailed => ADead
  end.

Definition abs (db : cpdb) : gmap uuid ajob := abs_row <$> db_jobs db.

Lemma lookup_abs db id r : db_jobs db !! id = Some r -> abs db !! id = Some (abs_row r).
Proof. intros E. unfold abs. by rewrite lookup_fmap, E. Qed.

Lemma abs_insert db id r :
  abs (set_jobs db (<[id := r]> (db_jobs db))) = <[id := abs_row r]> (abs db).
Proof. unfold abs; simpl. apply fmap_insert. Qed.

(** A job that is done or dead stays so. *)
Lemma astep_final m m' id a :
  astep m m' -> m !! id = Some a -> (a = ADead \/ exists w, a = ADone w) ->
  m' !! id = Some a.
Proof.
  intros Hs Hid Ha. destruct Hs as [m id' | m id' | m id' | m id' | m now];
    try (destruct (decide (id' = id)) as [-> | Hne];
         [naive_solver | by rewrite lookup_insert_ne]).
  rewrite lookup_fmap, Hid. naive_solver.
Qed.
