(* ===== verification/CPTheorems.v ===== *)
(** * Control plane: theorems

    The properties of the job queue and of the service built on it. *)

From S2P Require Import Prelude Sql GoStrings CPDomain JobRepo WorkerRepo.
From S2P Require Import JobRepoFacts CPService CPHttp CPSystem LeaseQueue.

(** ** Definitions used in the statements *)

(** A codec for witnesses: every list of test cases has the same text. *)
Definition unit_json (tcs : list TestCase) : TestCaseJSON :=
  {| json_Marshal_tcs _ := Ok "[...]"; json_Unmarshal_tcs _ := Ok tcs |}.

(** The job a statement hands to a worker, if any. *)
Definition claimed (op : cp_op) (db : cpdb) : option uuid :=
  match op with
  | OpClaim io tie locked now w langs d =>
      match io 0%nat, select_next tie locked langs (db_jobs db), db_workers db !! w with
      | None, Some r, Some _ => Some (r_ID r)
      | _, _, _ => None
      end
  | _ => None
  end.

Section Attempts.
Context `{TestCaseJSON} `{GoUnicode}.

(** How often a run hands out the job [id]. *)
Fixpoint handouts (id : uuid) (ops : list cp_op) (db : cpdb) : Z :=
  match ops with
  | [] => 0
  | op :: ops' =>
      (if decide (claimed op db = Some id) then 1 else 0) + handouts id ops' (exec_op op db)
  end.

(** Attempts a row has used: the ones that failed and the one under way or
    completed. *)
Definition used (r : job_row) : Z :=
  r_RetryCount r +
  match r_State r with
  | JobStateAssigned | JobStateRunning | JobStateCompleted => 1
  | _ => 0
  end.

Definition used_at (db : cpdb) (id : uuid) : Z :=
  match db_jobs db !! id with Some r => used r | None => 0 end.

(** ** Lemmas *)

Lemma used_requeued known stored id now r :
  row_wf known stored id r -> lease_expired now r = true -> used (requeued_row r) = used r.
Proof.
  intros Hwf [Ha _]%lease_expired_spec. unfold used, requeued_row. simpl.
  destruct (r_State r); try done; destruct (_ <? _); lia.
Qed.

Lemma used_at_insert db id r id' :
  used_at (set_jobs db (<[id := r]> (db_jobs db))) id' =
  if decide (id = id') then used r else used_at db id'.
Proof. unfold used_at; simpl. rewrite lookup_insert. by case_decide. Qed.

Lemma used_at_guarded guard f id db db' res id' :
  (forall r, guard r = true -> used (f r) = used r) ->
  guarded_update guard f id db db' res -> used_at db' id' = used_at db id'.
Proof.
  intros Hf [(r & Hr & Hg & _ & ->) | [-> _]]; [| done].
  rewrite used_at_insert. case_decide as Hid; [| done]. subst id'.
  unfold used_at. by rewrite Hr, Hf.
Qed.

Lemma used_claim now w d r : r_State r = JobStateQueued -> used (claim_row now w d r) = used r + 1.
Proof. intros Hq. unfold used; simpl. rewrite Hq. lia. Qed.

(** Each statement uses exactly the attempts it hands out. *)
Lemma used_at_step op db id :
  db_wf db ->
  used_at (exec_op op db) id =
  (if decide (claimed op db = Some id) then 1 else 0) + used_at db id.
Proof.
  intros Hwf. destruct op; cbn [exec_op claimed]; rewrite ?(decide_False _ _ (None ≠ Some id));
    try (rewrite decide_False by done; rewrite Z.add_0_l).
  - destruct (Create_cases io now fresh req db) as [[-> _] | (tc & _ & _ & _ & Hf & ->)]; [done |].
    simpl. rewrite used_at_insert. case_decide as Hid; [| done]. subst.
    unfold used_at. by rewrite Hf.
  - unfold AssignNext. destruct (io 0%nat); [by rewrite decide_False |].
    destruct (select_next _ _ _ _) as [r |] eqn:Hs; [| by rewrite decide_False].
    destruct (db_workers db !! w); [| by rewrite decide_False].
    apply select_next_Some in Hs as ((k & Hk) & Hq & _). simpl.
    rewrite used_at_insert, used_claim by done.
    assert (r_ID r = k) as Hid by apply (wf_jobs db Hwf k r Hk).
    destruct (decide (r_ID r = id)) as [Heq | Hne].
    + rewrite decide_True by congruence. unfold used_at. rewrite <- Heq, Hid, Hk. lia.
    + by rewrite decide_False by congruence.
  - eapply used_at_guarded; [| apply MarkRunning_cases].
    intros r [_ Hg%bool_decide_eq_true]%andb_true_iff. unfold used; simpl. by rewrite Hg.
  - eapply used_at_guarded; [| apply RenewLease_cases]. by intros r _.
  - destruct (Complete_cases io now id0 w req db) as [(r & (Hr & [_ Ha]%held_by_spec & _) & ->) | [e ->]];
      [| done].
    simpl. unfold used_at; simpl. rewrite lookup_insert. case_decide as Hid; [| done].
    subst. rewrite Hr. unfold used; simpl. by destruct (r_State r).
  - unfold RequeueExpiredLeases. destruct (io 0%nat); [done |]. unfold used_at; simpl.
    rewrite lookup_update_where. destruct (db_jobs db !! id) as [r |] eqn:Hr; [simpl | done].
    destruct (lease_expired now r) eqn:He; [| done].
    eapply used_requeued; [by apply (wf_jobs db Hwf) | done].
  - unfold Upsert. by repeat case_match.
  - unfold IncrementActiveJobs. by repeat case_match.
  - unfold MarkStaleOffline. by repeat case_match.
Qed.

Lemma used_at_run db ops db' id :
  run cp_step db ops db' -> db_wf db -> used_at db' id = handouts id ops db + used_at db id.
Proof.
  induction 1 as [db | db op db1 ops db2 Hstep Hrun IH]; intros Hwf; simpl; [lia |].
  destruct Hstep.
  rewrite IH by auto using exec_op_wf. rewrite used_at_step by done. lia.
Qed.

(** One statement leaves a row that is final, and what is stored with it,
    untouched. *)
Definition frozen (db db' : cpdb) (id : uuid) : Prop :=
  db_jobs db' !! id = db_jobs db !! id /\ db_results db' !! id = db_results db !! id /\
  forall t, db_tc_results db' !! (id, t) = db_tc_results db !! (id, t).

Lemma frozen_refl db id : frozen db db id.
Proof. done. Qed.

Lemma frozen_set_jobs db id r id' :
  id <> id' -> frozen db (set_jobs db (<[id := r]> (db_jobs db))) id'.
Proof. intros Hne. split; simpl; [by rewrite lookup_insert_ne | done]. Qed.

Lemma frozen_guarded guard f id db db' res id' r' :
  (forall r, guard r = true -> is_final (r_State r) = false) ->
  db_jobs db !! id' = Some r' -> is_final (r_State r') = true ->
  guarded_update guard f id db db' res -> frozen db db' id'.
Proof.
  intros Hg Hr Hf [(r & Hr' & Hgr & _ & ->) | [-> _]]; [| done].
  apply frozen_set_jobs. intros ->. apply Hg in Hgr. congruence.
Qed.

Lemma active_not_final s : is_active s = true -> is_final s = false.
Proof. by destruct s. Qed.

Lemma insert_all_other id tcs m id' t :
  id <> id' -> insert_all id tcs m !! (id', t) = m !! (id', t).
Proof.
  intros Hne. rewrite lookup_insert_all. case_match eqn:E; [| done].
  apply find_some in E as [_ [-> _]%bool_decide_eq_true]. done.
Qed.

Lemma frozen_step op db id r :
  db_wf db -> db_jobs db !! id = Some r -> is_final (r_State r) = true ->
  frozen db (exec_op op db) id.
Proof.
  intros Hwf Hr Hf. destruct op; simpl.
  - destruct (Create_cases io now fresh req db) as [[-> _] | (tc & _ & _ & _ & Hn & ->)]; [done |].
    apply frozen_set_jobs. congruence.
  - destruct (AssignNext_cases io tie locked now w langs d db)
      as [[-> _] | (r0 & wk & _ & Hs & _ & ->)]; [done |].
    apply select_next_Some in Hs as ((k & Hk) & Hq & _).
    apply frozen_set_jobs. rewrite (wf_id _ _ _ _ (wf_jobs db Hwf k r0 Hk)).
    intros ->. rewrite Hr in Hk. simplify_eq. by rewrite Hq in Hf.
  - eapply frozen_guarded; [| done | done | apply MarkRunning_cases].
    intros r0 [_ Hg%bool_decide_eq_true]%andb_true_iff. by rewrite Hg.
  - eapply frozen_guarded; [| done | done | apply RenewLease_cases].
    intros r0 [_ Hg]%held_by_spec. by apply active_not_final.
  - destruct (Complete_cases io now id0 w req db)
      as [(r0 & (Hr0 & [_ Ha]%held_by_spec & _) & ->) | [e ->]]; [| done].
    assert (id0 <> id) as Hne.
    { intros ->. apply active_not_final in Ha. congruence. }
    split; simpl; [by rewrite lookup_insert_ne |].
    split; [by rewrite lookup_insert_ne | intros t; by apply insert_all_other].
  - unfold RequeueExpiredLeases. destruct (io 0%nat); [done |]. split; [simpl | done].
    rewrite lookup_update_where, Hr. simpl.
    destruct (lease_expired now r) eqn:He; [| done].
    apply lease_expired_spec in He as [Ha _]. apply active_not_final in Ha. congruence.
  - unfold Upsert. by repeat case_match.
  - unfold IncrementActiveJobs. by repeat case_match.
  - unfold MarkStaleOffline. by repeat case_match.
Qed.

Lemma frozen_run db ops db' id r :
  run cp_step db ops db' -> db_wf db -> db_jobs db !! id = Some r ->
  is_final (r_State r) = true -> frozen db db' id.
Proof.
  intros Hrun. revert r. induction Hrun as [db | db op db1 ops db2 Hstep Hrun IH];
    intros r Hwf Hr Hf; [done |]. destruct Hstep as [db op].
  destruct (frozen_step op db id r Hwf Hr Hf) as (Hj & Hres & Htc).
  destruct (IH r) as (Hj' & Hres' & Htc'); [by apply exec_op_wf | by rewrite Hj | done |].
  split; [congruence |]. split; [congruence |]. intros t. by rewrite Htc', Htc.
Qed.

(** *** The abstract queue *)

Lemma abs_held known stored id r :
  row_wf known stored id r -> is_active (r_State r) = true ->
  exists w t, r_WorkerID r = Some w /\ r_LeaseExpiresAt r = Some t /\
    abs_row r = AHeld w t (r_MaxRetries r - r_RetryCount r).
Proof.
  intros [_ _ _ Hs] Ha. unfold state_wf, abs_row in *.
  destruct (r_State r); try done; destruct Hs as ((w & -> & _) & [t ->] & _); eauto.
Qed.

Lemma abs_requeued known stored id r now :
  row_wf known stored id r ->
  abs_row (if lease_expired now r then requeued_row r else r) = expire now (abs_row r).
Proof.
  intros Hwf. destruct (is_active (r_State r)) eqn:Ha.
  - destruct (abs_held known stored id r Hwf Ha) as (w & t & Hw & Ht & ->). simpl.
    unfold lease_expired. rewrite Ha, Ht. simpl.
    destruct (t <? now) eqn:Hlt.
    + unfold abs_row, requeued_row; simpl.
      destruct (Z.ltb_spec (r_RetryCount r + 1) (r_MaxRetries r));
        destruct (Z.ltb_spec 1 (r_MaxRetries r - r_RetryCount r)); try lia; [| done].
      f_equal. lia.
    + unfold abs_row. rewrite Hw, Ht. by destruct (r_State r).
  - unfold lease_expired. rewrite Ha. simpl. unfold abs_row. by destruct (r_State r).
Qed.

Lemma abs_step op db :
  db_wf db -> abs (exec_op op db) = abs db \/ astep (abs db) (abs (exec_op op db)).
Proof.
  intros Hwf. destruct op; simpl.
  - destruct (Create_cases io now fresh req db) as [[-> _] | (tc & _ & _ & _ & Hn & ->)];
      [by left | right].
    simpl. rewrite abs_insert. apply a_enqueue; [by unfold abs; rewrite lookup_fmap, Hn |].
    simpl. unfold max_retries_of. case_match; lia.
  - destruct (AssignNext_cases io tie locked now w langs d db)
      as [[-> _] | (r & wk & _ & Hs & _ & ->)]; [by left | right].
    apply select_next_Some in Hs as ((k & Hk) & Hq & _). simpl. rewrite abs_insert.
    rewrite (wf_id _ _ _ _ (wf_jobs db Hwf k r Hk)).
    apply (a_claim _ k w). rewrite (lookup_abs _ _ _ Hk). unfold abs_row. by rewrite Hq.
  - left. destruct (MarkRunning_cases io now id w db) as [(r & Hr & Hg & _ & ->) | [-> _]];
      [| done].
    apply andb_true_iff in Hg as [_ Hg%bool_decide_eq_true].
    rewrite abs_insert. apply insert_id. rewrite (lookup_abs _ _ _ Hr).
    unfold abs_row; simpl. by rewrite Hg.
  - destruct (RenewLease_cases io now id w d db) as [(r & Hr & Hg & _ & ->) | [-> _]];
      [right | by left].
    apply held_by_spec in Hg as [_ Ha].
    destruct (abs_held _ _ _ _ (wf_jobs db Hwf _ _ Hr) Ha) as (w' & t & Hw & Ht & Habs).
    rewrite abs_insert. replace (abs_row (renewed_row now d r)) with
      (AHeld w' (now + interval d) (r_MaxRetries r - r_RetryCount r))
      by (unfold abs_row; simpl; rewrite Hw; by destruct (r_State r)).
    eapply a_extend. by rewrite (lookup_abs _ _ _ Hr), Habs.
  - destruct (Complete_cases io now id w req db)
      as [(r & (Hr & [Hw Ha]%held_by_spec & _) & ->) | [e ->]]; [right | by left].
    destruct (abs_held _ _ _ _ (wf_jobs db Hwf _ _ Hr) Ha) as (w' & t & Hw' & Ht & Habs).
    unfold abs; simpl. rewrite fmap_insert.
    unfold abs_row at 2; simpl. rewrite Hw. simpl.
    eapply a_finish. rewrite lookup_fmap, Hr. simpl. rewrite Habs. by simplify_eq.
  - unfold RequeueExpiredLeases. destruct (io 0%nat); [by left | right].
    cbn [fst]. match goal with |- astep _ (abs ?db') =>
      replace (abs db') with (expire now <$> abs db); [apply a_expire |] end.
    apply map_eq. intros id. unfold abs; simpl.
    rewrite !lookup_fmap, lookup_update_where.
    destruct (db_jobs db !! id) as [r |] eqn:Hr; [simpl | done].
    f_equal. symmetry. eapply abs_requeued. by apply (wf_jobs db Hwf).
  - left. unfold Upsert. by repeat case_match.
  - left. unfold IncrementActiveJobs. by repeat case_match.
  - left. unfold MarkStaleOffline. by repeat case_match.
Qed.

(** ** The queue's theorems *)

(** C4. Whatever requests, clocks, faults and interleavings the control plane
    has seen, every row of its database is well formed: a queued job has no
    holder and no lease, a held job has a registered holder and a lease, a
    completed job has its result stored and only a completed job has one, a
    failed job has used all its retries, no job is 'retry_pending', and the
    retry counter stays within its limit. *)
Theorem reachable_databases_are_well_formed ops db :
  run cp_step empty_db ops db -> db_wf db.
Proof. intros Hrun. apply reachable_wf. by exists ops. Qed.

(** C5. The [jobs] table implements the abstract lease queue: each statement
    of a run is one step of the queue or changes nothing of it. *)
Theorem repository_refines_lease_queue ops db op :
  run cp_step empty_db ops db ->
  abs (exec_op op db) = abs db \/ astep (abs db) (abs (exec_op op db)).
Proof. intros Hrun. apply abs_step, reachable_wf. by exists ops. Qed.

(** C6. No job is handed to workers more than [max_retries] times, over any
    run from the empty database. *)
Theorem attempts_are_bounded ops db id r :
  run cp_step empty_db ops db -> db_jobs db !! id = Some r ->
  handouts id ops empty_db <= r_MaxRetries r.
Proof.
  intros Hrun Hr. assert (db_wf db) as Hwf by (apply reachable_wf; by exists ops).
  pose proof (used_at_run _ _ _ id Hrun empty_db_wf) as Hu.
  unfold used_at in Hu. rewrite Hr in Hu. simpl in Hu. rewrite lookup_empty in Hu.
  pose proof (wf_state _ _ _ _ (wf_jobs db Hwf id r Hr)) as Hs.
  unfold state_wf, used in *. destruct (r_State r); destruct_and?; try done; lia.
Qed.

(** C7. Once a job is completed or failed, nothing that happens later changes
    its row, its result or its test case results. *)
Theorem final_jobs_never_change ops db ops' db' id r :
  run cp_step empty_db ops db -> run cp_step db ops' db' ->
  db_jobs db !! id = Some r -> is_final (r_State r) = true ->
  db_jobs db' !! id = Some r /\ db_results db' !! id = db_results db !! id /\
  forall t, db_tc_results db' !! (id, t) = db_tc_results db !! (id, t).
Proof.
  intros Hrun Hrun' Hr Hf.
  destruct (frozen_run db ops' db' id r Hrun') as (Hj & ?); [| done | done |].
  - apply reachable_wf. by exists ops.
  - by rewrite Hj.
Qed.

End Attempts.

(** ** Witnesses *)

Module QueueWitness.
Definition tc : TestCase := mkTestCase "1" "in" "out".
#[export] Instance json : TestCaseJSON := unit_json [tc].
#[export] Instance tables : GoUnicode := ascii_tables.

Definition req : CreateJobRequest :=
  mkCreateJobRequest 7%N "python" (Some "print(1)") None None 1000 64 [tc] 2.
Definition hb : HeartbeatRequest := mkHeartbeatRequest "w1" ["python"] 1 0 "healthy".
Definition fifo (_ _ : job_row) : bool := true.
Definition report : ReportResultRequest :=
  mkReportResultRequest "w1" "Accepted" (Some 5) None None None
    [mkTestcaseResultInput "1" "Accepted" (Some 5) None (Some "out") None None].
Definition minute : Z := time_Minute.

(** Registered, created, claimed, expired, claimed again. *)
Definition ops : list cp_op :=
  [OpHeartbeat no_faults 0 hb; OpCreate no_faults 1 9%N req;
   OpClaim no_faults fifo ∅ 2 "w1" ["python"] minute;
   OpSweep no_faults (3 + minute);
   OpClaim no_faults fifo ∅ (4 + minute) "w1" ["python"] minute].
Definition claimed_db : cpdb := fold_left (fun db op => exec_op op db) ops empty_db.
Definition finished_db : cpdb :=
  exec_op (OpComplete no_faults (5 + minute) 9%N "w1" report) claimed_db.
Definition later_db : cpdb := exec_op (OpSweep no_faults (9 * minute)) finished_db.
End QueueWitness.

Import QueueWitness.

Lemma run_fold `{TestCaseJSON} `{GoUnicode} ops db :
  run cp_step db ops (fold_left (fun db op => exec_op op db) ops db).
Proof. revert db. induction ops; simpl; econstructor; [constructor | done]. Qed.

Lemma reachable_databases_are_well_formed_witness :
  db_wf claimed_db /\ size (db_jobs claimed_db) = 1%nat.
Proof.
  split; [| vm_compute; reflexivity].
  apply (reachable_databases_are_well_formed (H := json) (H0 := tables) ops). apply run_fold.
Defined.

Lemma repository_refines_lease_queue_witness :
  abs claimed_db !! 9%N = Some (AHeld "w1" (4 + 2 * minute) 1) /\
  (abs finished_db = abs claimed_db \/ astep (abs claimed_db) (abs finished_db)).
Proof.
  split; [vm_compute; reflexivity |].
  apply (repository_refines_lease_queue (H := json) (H0 := tables) ops). apply run_fold.
Defined.

Lemma attempts_are_bounded_witness :
  handouts 9%N ops empty_db = 2 /\ handouts 9%N ops empty_db <= 2.
Proof.
  split; [vm_compute; reflexivity |].
  destruct (db_jobs claimed_db !! 9%N) as [r |] eqn:E; [| vm_compute in E; discriminate].
  apply (attempts_are_bounded (H := json) (H0 := tables) ops claimed_db) in E as Hb;
    [| apply run_fold].
  vm_compute in E. injection E as <-. exact Hb.
Defined.

Lemma final_jobs_never_change_witness :
  db_jobs later_db !! 9%N = db_jobs finished_db !! 9%N.
Proof.
  destruct (db_jobs finished_db !! 9%N) as [r |] eqn:E; [| vm_compute in E; discriminate].
  apply (final_jobs_never_change (H := json) (H0 := tables)
    (ops ++ [OpComplete no_faults (5 + minute) 9%N "w1" report]) finished_db
    [OpSweep no_faults (9 * minute)] later_db 9%N r).
  - eapply run_app; [apply run_fold |]. repeat econstructor.
  - repeat econstructor.
  - exact E.
  - vm_compute in E. injection E as <-. reflexivity.
Defined.
