(* ===== verification/CPServiceTheorems.v ===== *)
(** * Control plane: theorems about the service

    What the operations of the service promise to the API server and to the
    workers: first-come claims without double assignment, reports recorded as
    a whole and once, the expiry sweep, polling, and the HTTP statuses. *)

From S2P Require Import Prelude Sql GoStrings CPDomain JobRepo WorkerRepo.
From S2P Require Import JobRepoFacts CPService CPHttp CPSystem LeaseQueue CPTheorems.

(** No error of this chain is opaque at its head: it is a sentinel or wraps. *)
Definition is_opaque (e : cp_error) : bool :=
  match e with Opaque _ => true | _ => false end.

Section ServiceTheorems.
Context `{TestCaseJSON} `{GoUnicode}.

(** ** Lemmas *)

Lemma scanJob_Ok r job :
  scanJob (Some r) = Ok job -> exists tcs, job = job_of_row r tcs.
Proof. simpl. repeat case_match; intros; simplify_eq; eauto. Qed.

Lemma scanJob_Err_head r e : scanJob (Some r) = Err e -> is_opaque e = false.
Proof. simpl. repeat case_match; intros; by simplify_eq. Qed.

Lemma not_found_as_Ok s r job : not_found_as s r = Ok job -> r = Ok job.
Proof. unfold not_found_as. repeat case_match; intros; by simplify_eq. Qed.

Lemma not_found_as_scan_Err s r e :
  not_found_as s (scanJob (Some r)) = Err e -> is_opaque e = false.
Proof.
  destruct (scanJob (Some r)) as [j | e'] eqn:E; simpl; [done |].
  apply scanJob_Err_head in E. case_match; intros; by simplify_eq.
Qed.

Lemma AssignNext_Ok io tie locked now w langs d db db' job :
  AssignNext io tie locked now w langs d db = (db', Ok job) ->
  exists r wk tcs, select_next tie locked langs (db_jobs db) = Some r /\
    db_workers db !! w = Some wk /\
    db' = set_jobs db (<[r_ID r := claim_row now w d r]> (db_jobs db)) /\
    scanJob (Some (claim_row now w d r)) = Ok job /\
    job = job_of_row (claim_row now w d r) tcs.
Proof.
  intros E. destruct (AssignNext_cases io tie locked now w langs d db)
    as [[_ [e He]] | (r & wk & _ & Hs & Hw & Heq)]; rewrite E in *; [done |].
  simplify_eq. match goal with Hr : Ok job = _ |- _ =>
    symmetry in Hr; apply not_found_as_Ok in Hr as Hscan end.
  destruct (scanJob_Ok _ _ Hscan) as [tcs ->]. eauto 10.
Qed.

Lemma poll_check_Ok io req db db' :
  poll_check io req db = (db', Ok tt) ->
  db' = db /\ exists wk, db_workers db !! pr_WorkerID req = Some wk /\
    w_HealthStatus wk = WorkerHealthy /\ w_ActiveJobs wk < w_Capacity wk.
Proof.
  unfold poll_check, Worker_GetByID. mrun.
  destruct (io 0%nat); [done |].
  destruct (db_workers db !! pr_WorkerID req) as [wk |]; [| done].
  destruct (bool_decide (w_HealthStatus wk = WorkerHealthy)) eqn:Hh; [| done].
  apply bool_decide_eq_true in Hh. simpl.
  destruct (Z.leb_spec (w_Capacity wk) (w_ActiveJobs wk)); [done |].
  intros [= <-]. eauto.
Qed.

Lemma poll_check_db io req db : (poll_check io req db).1 = db.
Proof.
  unfold poll_check, Worker_GetByID. mrun. repeat case_match; by simplify_eq/=.
Qed.

Lemma poll_check_Err io req db db' e :
  poll_check io req db = (db', Err e) -> is_opaque e = false.
Proof.
  unfold poll_check, Worker_GetByID. mrun.
  repeat case_match; intros; by simplify_eq/=.
Qed.

Lemma poll_bump_ok io w delta db :
  poll_bump io w delta db = ((IncrementActiveJobs io w delta db).1, Ok tt).
Proof. unfold poll_bump. mrun. by destruct (IncrementActiveJobs io w delta db). Qed.

Lemma IncrementActiveJobs_jobs io w delta db :
  let db' := (IncrementActiveJobs io w delta db).1 in
  db_jobs db' = db_jobs db /\ db_results db' = db_results db /\
  db_tc_results db' = db_tc_results db.
Proof. unfold IncrementActiveJobs. by repeat case_match. Qed.

(** A poll that succeeds, stage by stage. *)
Lemma PollJob_Ok cfg io tie locked now req db db' a :
  PollJob cfg io tie locked now req db = (db', Ok a) ->
  exists wk db1 job,
    db_workers db !! pr_WorkerID req = Some wk /\
    w_HealthStatus wk = WorkerHealthy /\ w_ActiveJobs wk < w_Capacity wk /\
    poll_claim cfg (shift_faults 1 io) tie locked now req db = (db1, Ok job) /\
    db' = (IncrementActiveJobs (shift_faults 2 io) (pr_WorkerID req) 1 db1).1 /\
    assignment_of job = Ok a.
Proof.
  unfold PollJob. intros E.
  apply bind_ok_unit in E as (s0 & Hv & E).
  unfold lift in Hv. simplify_eq.
  apply bind_ok_unit in E as (s1 & [-> (wk & ? & ? & ?)]%poll_check_Ok & E).
  apply bind_ok in E as (db1 & job & Hc & E).
  apply bind_ok_unit in E as (s2 & Hb & E). rewrite poll_bump_ok in Hb.
  unfold lift in E. simplify_eq. eauto 10.
Qed.

Lemma ReportResult_cases io now id req db :
  (exists r, rr_WorkerID req <> "" /\ rr_OverallVerdict req <> "" /\
     acceptable (rr_WorkerID req) id req db r /\
     ReportResult io now id req db =
       ((IncrementActiveJobs (shift_faults (complete_statements req) io) (rr_WorkerID req) (-1)
           (completed_db now id req r db)).1, Ok tt)) \/
  (exists e, ReportResult io now id req db = (db, Err e)).
Proof.
  unfold ReportResult. case_bool_decide as Hw; [right; unfold fail; eauto |].
  case_bool_decide as Hv; [right; unfold fail; eauto |].
  destruct (Complete_cases io now id (rr_WorkerID req) req db) as [(r & Ha & Hc) | [e Hc]].
  - left. exists r. split_and!; try done. mrun. rewrite Hc. apply poll_bump_ok.
  - right. exists e. mrun. by rewrite Hc.
Qed.

(** In a well-formed database the holder's report meets no stored result. *)
Lemma wf_acceptable db id w req r :
  db_wf db -> db_jobs db !! id = Some r -> held_by w r = true ->
  result_ints_ok req = true -> NoDup (ti_TestcaseID <$> rr_TestcaseResults req) ->
  Forall (fun tc => tc_ints_ok tc = true) (rr_TestcaseResults req) ->
  acceptable w id req db r.
Proof.
  intros Hwf Hr Hh Hi Hnd Hall.
  assert (db_results db !! id = None) as Hn.
  { pose proof (wf_state _ _ _ _ (wf_jobs db Hwf id r Hr)) as Hs.
    apply held_by_spec in Hh as [_ Ha]. unfold state_wf in Hs.
    apply eq_None_not_Some. destruct (r_State r); try done; naive_solver. }
  split_and!; try done. eapply Forall_impl; [exact Hall |]. intros tc Htc. split; [| done].
  destruct (db_tc_results db !! (id, ti_TestcaseID tc)) as [x |] eqn:E; [| done].
  apply (wf_tcs db Hwf) in E as [[y Hy] _]. congruence.
Qed.

(** ** Theorems *)

(** A claim takes the oldest queued job in one of the worker's languages
    that no concurrent transaction has locked, gives it to that worker alone,
    and sets its lease to the requested whole seconds from now. *)
Theorem claims_are_first_come_first_served io tie locked now w langs d db db' job :
  db_wf db -> AssignNext io tie locked now w langs d db = (db', Ok job) ->
  exists r, db_jobs db !! j_ID job = Some r /\
    r_State r = JobStateQueued /\ r_Language r ∈ langs /\ j_ID job ∉ locked /\
    (forall id r', db_jobs db !! id = Some r' -> r_State r' = JobStateQueued ->
       r_Language r' ∈ langs -> id ∉ locked -> r_QueuedAt r <= r_QueuedAt r') /\
    db' = set_jobs db (<[j_ID job := claim_row now w d r]> (db_jobs db)) /\
    j_State job = JobStateAssigned /\ j_WorkerID job = Some w /\
    j_LeaseExpiresAt job = Some (now + interval d).
Proof.
  intros Hwf (r & wk & tcs & Hs & Hw & -> & _ & ->)%AssignNext_Ok. simpl.
  pose proof (select_next_Some _ _ _ _ _ Hs) as ((id & Hid) & Hq & Hl & Hk).
  pose proof (wf_id _ _ _ _ (wf_jobs db Hwf id r Hid)) as Heq.
  exists r. rewrite Heq in *. split_and!; try done.
  intros id' r' Hr' Hq' Hl' Hk'.
  rewrite <- (wf_id _ _ _ _ (wf_jobs db Hwf id' r' Hr')) in Hk'.
  by eapply select_next_oldest.
Qed.

(** Two workers that poll at the same moment never get the same job: the
    second statement skips the row the first has locked, and the two claims
    commute. *)
Theorem concurrent_claims_are_disjoint tie1 tie2 locked1 locked2 langs1 langs2
    now1 now2 w1 w2 d1 d2 db r1 r2 :
  select_next tie1 locked1 langs1 (db_jobs db) = Some r1 ->
  select_next tie2 ({[r_ID r1]} ∪ locked2) langs2 (db_jobs db) = Some r2 ->
  r_ID r1 <> r_ID r2 /\
  <[r_ID r1 := claim_row now1 w1 d1 r1]> (<[r_ID r2 := claim_row now2 w2 d2 r2]> (db_jobs db)) =
  <[r_ID r2 := claim_row now2 w2 d2 r2]> (<[r_ID r1 := claim_row now1 w1 d1 r1]> (db_jobs db)).
Proof.
  intros _ (_ & _ & _ & Hk)%select_next_Some.
  assert (r_ID r1 <> r_ID r2) as Hne by set_solver.
  split; [done |]. by apply insert_insert_ne.
Qed.

(** C8. A report is accepted exactly when it names a worker and a verdict,
    that worker holds the job, its numbers fit their columns and no test case
    is reported twice; otherwise nothing at all is stored. *)
Theorem report_accepted_iff_holder now id req db :
  db_wf db ->
  ((ReportResult no_faults now id req db).2 = Ok tt <->
   rr_WorkerID req <> "" /\ rr_OverallVerdict req <> "" /\
   result_ints_ok req = true /\
   NoDup (ti_TestcaseID <$> rr_TestcaseResults req) /\
   Forall (fun tc => tc_ints_ok tc = true) (rr_TestcaseResults req) /\
   exists r, db_jobs db !! id = Some r /\ held_by (rr_WorkerID req) r = true) /\
  ((ReportResult no_faults now id req db).2 <> Ok tt ->
   (ReportResult no_faults now id req db).1 = db).
Proof.
  intros Hwf.
  destruct (ReportResult_cases no_faults now id req db)
    as [(r & Hw & Hv & (Hr & Hh & _ & Hi & Hnd & Hall) & ->) | [e E]].
  - split; [| done]. split; [intros _ | done]. split_and!; eauto.
    eapply Forall_impl; [exact Hall |]. by intros tc [_ ?].
  - rewrite E. split; [split; [done |] | done].
    intros (Hw & Hv & Hi & Hnd & Hall & r & Hr & Hh). exfalso.
    pose proof (wf_acceptable db id _ req r Hwf Hr Hh Hi Hnd Hall) as Ha.
    assert (Complete no_faults now id (rr_WorkerID req) req db =
              (completed_db now id req r db, Ok tt)) as Hc
      by (apply Complete_ok; split; [done | eauto]).
    unfold ReportResult in E.
    rewrite !bool_decide_eq_false_2 in E by done. revert E. mrun. rewrite Hc.
    by rewrite poll_bump_ok.
Qed.

(** At most one report is ever accepted for a job: whatever happens after
    the first, every later report of any worker is refused and stores
    nothing. *)
Theorem reports_are_accepted_once ops io now id req db db1 ops' db2 io' now' req' :
  run cp_step empty_db ops db ->
  ReportResult io now id req db = (db1, Ok tt) ->
  run cp_step db1 ops' db2 ->
  exists e, ReportResult io' now' id req' db2 = (db2, Err e).
Proof.
  intros Hrun E Hrun'.
  destruct (ReportResult_cases io now id req db) as [(r & _ & _ & Ha & Heq) | [e Heq]];
    rewrite E in Heq; [| done].
  set (io2 := shift_faults (complete_statements req) io) in *.
  set (dbc := completed_db now id req r db) in *.
  assert (db_wf dbc) as Hwfc.
  { assert (reachable db) as Hre by by exists ops.
    assert (Complete no_faults now id (rr_WorkerID req) req db = (dbc, Ok tt)) as Hc
      by (apply Complete_ok; split; [done | eauto]).
    pose proof (exec_op_wf (OpComplete no_faults now id (rr_WorkerID req) req) db
      (reachable_wf db Hre)) as Hwf.
    simpl in Hwf. by rewrite Hc in Hwf. }
  assert (db1 = exec_op (OpBump io2 (rr_WorkerID req) (-1)) dbc) as -> by (simpl; congruence).
  assert (run cp_step dbc (OpBump io2 (rr_WorkerID req) (-1) :: ops') db2) as Hrun2
    by (econstructor; [constructor | done]).
  destruct (frozen_run _ _ _ id (completed_row now r) Hrun2 Hwfc) as (Hj & _ & _);
    [by simpl; rewrite lookup_insert_eq | done |].
  destruct (ReportResult_cases io' now' id req' db2)
    as [(r' & _ & _ & (Hr' & [_ Hact]%held_by_spec & _) & _) | ?]; [exfalso | done].
  rewrite Hj in Hr'. simpl in Hr'. rewrite lookup_insert_eq in Hr'.
  by simplify_eq.
Qed.

(** The expiry sweep moves exactly the held jobs whose lease has passed:
    to 'queued' while an attempt is left and to 'failed' otherwise, never to
    'retry_pending'.  It reports how many it moved, leaves every other row as
    it was, and leaves no expired lease behind. *)
Theorem sweep_moves_exactly_the_expired now db :
  let '(db', res) := RequeueExpiredLeases no_faults now db in
  res = Ok (Z.of_nat (count_where (lease_expired now) (db_jobs db))) /\
  count_where (lease_expired now) (db_jobs db') = 0%nat /\
  forall id r, db_jobs db !! id = Some r ->
    exists r', db_jobs db' !! id = Some r' /\
      (lease_expired now r = false -> r' = r) /\
      (lease_expired now r = true ->
         r_WorkerID r' = None /\ r_LeaseExpiresAt r' = None /\
         r_RetryCount r' = r_RetryCount r + 1 /\
         r_State r' = (if r_RetryCount r' <? r_MaxRetries r then JobStateQueued
                       else JobStateFailed)).
Proof.
  simpl. split; [done |]. split.
  - apply count_update_where_stable. auto with capstone.
  - intros id r Hr. eexists. split; [by apply lookup_update_where_Some |].
    destruct (lease_expired now r); split; done.
Qed.

End ServiceTheorems.

(** ** Witnesses *)

Import QueueWitness.

Definition queued_db : cpdb := fold_left (fun db op => exec_op op db) (take 2 ops) empty_db.
Definition first_claim := AssignNext no_faults fifo ∅ 2 "w1" ["python"] minute queued_db.

Lemma queued_db_wf : db_wf queued_db.
Proof. apply reachable_wf. exists (take 2 ops). apply run_fold. Qed.

Lemma claims_are_first_come_first_served_witness :
  exists job r, first_claim.2 = Ok job /\ db_jobs queued_db !! j_ID job = Some r /\
    j_LeaseExpiresAt job = Some (2 + minute).
Proof.
  destruct first_claim as [db' [job | e]] eqn:E;
    [| exfalso; apply (f_equal (fun x => match x.2 with Ok _ => true | _ => false end)) in E;
       vm_compute in E; discriminate].
  destruct (claims_are_first_come_first_served _ _ _ _ _ _ _ _ _ _ queued_db_wf E)
    as (r & Hr & _ & _ & _ & _ & _ & _ & _ & Hl).
  exists job, r. split; [done |]. split; [done |]. rewrite Hl. reflexivity.
Defined.

(** Two queued jobs for two workers. *)
Definition two_jobs : cpdb := exec_op (OpCreate no_faults 2 10%N req) queued_db.

Lemma concurrent_claims_are_disjoint_witness :
  exists r1 r2, select_next fifo ∅ ["python"] (db_jobs two_jobs) = Some r1 /\
    select_next fifo ({[r_ID r1]} ∪ ∅) ["python"] (db_jobs two_jobs) = Some r2 /\
    r_ID r1 <> r_ID r2.
Proof.
  destruct (select_next fifo ∅ ["python"] (db_jobs two_jobs)) as [r1 |] eqn:E1;
    [| vm_compute in E1; discriminate].
  destruct (select_next fifo ({[r_ID r1]} ∪ ∅) ["python"] (db_jobs two_jobs)) as [r2 |] eqn:E2.
  - exists r1, r2. split; [done |]. split; [done |].
    exact (proj1 (concurrent_claims_are_disjoint _ _ _ _ _ _ 0 0 "a" "b" 0 0 _ _ _ E1 E2)).
  - exfalso. vm_compute in E1. injection E1 as <-. vm_compute in E2. discriminate.
Defined.

Lemma claimed_db_wf : db_wf claimed_db.
Proof. apply reachable_wf. exists ops. apply run_fold. Qed.

Lemma report_accepted_iff_holder_witness :
  (ReportResult no_faults (5 + minute) 9%N report claimed_db).2 = Ok tt.
Proof.
  apply (report_accepted_iff_holder (5 + minute) 9%N report claimed_db claimed_db_wf).
  destruct (db_jobs claimed_db !! 9%N) as [r |] eqn:E; [| vm_compute in E; discriminate].
  split; [discriminate |]. split; [discriminate |]. split; [reflexivity |].
  split; [apply NoDup_singleton |]. split; [repeat constructor |].
  exists r. split; [done |]. vm_compute in E. injection E as <-. reflexivity.
Defined.

Lemma reports_are_accepted_once_witness :
  exists db1, ReportResult no_faults (5 + minute) 9%N report claimed_db = (db1, Ok tt) /\
    exists e, ReportResult no_faults (6 + minute) 9%N report db1 = (db1, Err e).
Proof.
  destruct (ReportResult no_faults (5 + minute) 9%N report claimed_db) as [db1 res] eqn:E.
  assert (res = Ok tt) as -> by (change res with (db1, res).2; rewrite <- E; vm_compute; reflexivity).
  exists db1. split; [done |].
  destruct (reports_are_accepted_once ops _ _ _ _ _ _ [] db1 no_faults (6 + minute) report
    (run_fold _ _) E (run_nil _ _)) as [e He].
  by exists e.
Defined.
