(* ===== verification/CPPollTheorems.v ===== *)
(** * Control plane: polling, capacity, worker health and HTTP

    What a poll answers and changes, what the worker's client makes of the
    answer, how the capacity of a worker is kept (and by which interleaving it
    is exceeded), what the health sweep does, and that a refused request
    changes nothing. *)

From S2P Require Import Prelude Sql GoStrings CPDomain JobRepo WorkerRepo.
From S2P Require Import JobRepoFacts CPService CPHttp CPSystem LeaseQueue CPTheorems.
From S2P Require Import CPServiceTheorems.

(** ** Definitions used in the statements *)

(** Every registered worker runs between none and [capacity] jobs. *)
Definition within_capacity (db : cpdb) : Prop :=
  forall w x, db_workers db !! w = Some x -> 0 <= w_ActiveJobs x <= w_Capacity x.

(** The columns of a row that come from the request that created it. *)
Definition request_part (r : job_row) :=
  (r_ID r, r_SubmissionID r, r_Language r, r_SourceText r, r_SourceRef r, r_SourceSHA256 r,
   r_TimeLimitMs r, r_MemoryLimitMb r, r_TestCases r, r_MaxRetries r).

(** The assignment a job request asks for, under a lease: its test cases have
    been stored as JSON. *)
Definition requested (id : uuid) (req : CreateJobRequest) (lease : Z) : Assignment :=
  mkAssignment id (cr_SubmissionID req) (cr_Language req)
    (cr_SourceText req) (cr_SourceRef req) (cr_SourceSHA256 req)
    (cr_TimeLimitMs req) (cr_MemoryLimitMb req) lease (via_json (cr_TestCases req)).

(** The documented behaviour of [encoding/json]: what Marshal writes is not
    empty, and Unmarshal reads back what a JSON text can carry. *)
Definition json_round_trips `{TestCaseJSON} : Prop :=
  forall tcs s, json_Marshal_tcs tcs = Ok s -> s <> "" /\ json_Unmarshal_tcs s = Ok (via_json tcs).

Section PollTheorems.
Context `{TestCaseJSON} `{GoUnicode}.

(** ** Lemmas *)

(** An error that no [errors.Is] recognises. *)
Definition anonymous (e : cp_error) : Prop := forall s, errors_Is e s = false.

Lemma scanJob_anonymous r e : scanJob (Some r) = Err e -> anonymous e.
Proof. simpl. repeat case_match; intros Heq; simplify_eq; intros x; done. Qed.

Lemma not_found_as_scan_anonymous s r e :
  not_found_as s (scanJob (Some r)) = Err e -> anonymous e.
Proof.
  destruct (scanJob (Some r)) as [j | e'] eqn:E; simpl; [done |].
  apply scanJob_anonymous in E. rewrite E. by intros [= <-].
Qed.

Lemma AssignNext_Err io tie locked now w langs d db db' e :
  AssignNext io tie locked now w langs d db = (db', Err e) ->
  (db' = db /\ e = Sentinel ErrNoJobAvailable) \/ (is_opaque e = false /\ anonymous e).
Proof.
  unfold AssignNext. destruct (io 0%nat); [intros; simplify_eq; by right |].
  destruct (select_next _ _ _ _) as [r |]; [| simpl; intros; simplify_eq; by left].
  destruct (db_workers db !! w); [| intros; simplify_eq; by right].
  intros [= <- He]. right.
  split; [eapply not_found_as_scan_Err; exact He | eapply not_found_as_scan_anonymous; exact He].
Qed.

(** A poll that fails: nothing has changed, or the error is one no handler
    recognises; it is never the panic. *)
Lemma PollJob_Err cfg io tie locked now req db db' e :
  PollJob cfg io tie locked now req db = (db', Err e) ->
  is_opaque e = false /\ (db' = db \/ anonymous e).
Proof.
  unfold PollJob. mrun.
  destruct (poll_validate req) as [[] | ev] eqn:Ev.
  2: { intros [= <- <-]. split; [| by left].
       unfold poll_validate, invalid in Ev. repeat case_match; by simplify_eq. }
  destruct (poll_check io req db) as [s1 [[] | ec]] eqn:Ec.
  2: { pose proof (poll_check_db io req db) as Hdb. rewrite Ec in Hdb. simpl in Hdb. subst s1.
       intros [= <- <-]. apply poll_check_Err in Ec. by split; [| left]. }
  apply poll_check_Ok in Ec as [-> _].
  destruct (poll_claim _ _ _ _ _ _ _) as [s2 [job | ea]] eqn:Ea.
  2: { intros [= <- <-]. apply AssignNext_Err in Ea as [[-> ->] | [? ?]]; eauto. }
  rewrite poll_bump_ok. intros [= <- Hjob].
  apply AssignNext_Ok in Ea as (r & wk & tcs & _ & _ & _ & _ & ->). done.
Qed.

Lemma request_part_step op db id r :
  db_wf db -> db_jobs db !! id = Some r ->
  exists r', db_jobs (exec_op op db) !! id = Some r' /\ request_part r' = request_part r.
Proof.
  intros Hwf Hr.
  assert (forall guard f k db' res, (forall x, request_part (f x) = request_part x) ->
    guarded_update guard f k db db' res ->
    exists r', db_jobs db' !! id = Some r' /\ request_part r' = request_part r) as Hguarded.
  { intros guard f k db' res Hf [(x & Hx & _ & _ & ->) | [-> _]]; [| eauto]. simpl.
    rewrite lookup_insert. case_decide; simplify_eq; eauto. }
  destruct op; cbn [exec_op].
  - destruct (Create_cases io now fresh req db) as [[-> _] | (tc & _ & _ & _ & Hf & ->)];
      [eauto |]. simpl. rewrite lookup_insert_ne by congruence. eauto.
  - destruct (AssignNext_cases io tie locked now w langs d db)
      as [[-> _] | (x & wk & _ & Hs & _ & ->)]; [eauto |]. simpl.
    apply select_next_Some in Hs as ((k & Hk) & _).
    rewrite (wf_id _ _ _ _ (wf_jobs db Hwf k x Hk)), lookup_insert.
    case_decide; simplify_eq; eauto.
  - eapply Hguarded; [| apply MarkRunning_cases]. done.
  - eapply Hguarded; [| apply RenewLease_cases]. done.
  - destruct (Complete_cases io now id0 w req db) as [(x & (Hx & _) & ->) | [e ->]]; [| eauto].
    simpl. rewrite lookup_insert. case_decide; simplify_eq; eauto.
  - unfold RequeueExpiredLeases. destruct (io 0%nat); [eauto |]. simpl.
    rewrite lookup_update_where, Hr. simpl. case_match; eauto.
  - unfold Upsert. repeat case_match; eauto.
  - unfold IncrementActiveJobs. repeat case_match; eauto.
  - unfold MarkStaleOffline. repeat case_match; eauto.
Qed.

Lemma request_part_run db ops db' id r :
  run cp_step db ops db' -> db_wf db -> db_jobs db !! id = Some r ->
  exists r', db_jobs db' !! id = Some r' /\ request_part r' = request_part r.
Proof.
  intros Hrun. revert r. induction Hrun as [db | db op db1 ops db2 Hstep Hrun IH];
    intros r Hwf Hr; [eauto |]. destruct Hstep as [db op].
  destruct (request_part_step op db id r Hwf Hr) as (r1 & Hr1 & Hp1).
  destruct (IH r1) as (r2 & Hr2 & Hp2); [by apply exec_op_wf | done |].
  exists r2. split; [done | congruence].
Qed.

(** A claim leaves the test cases as they are. *)
Lemma scanJob_claimed now w d r tcs :
  scanJob (Some r) = Ok (job_of_row r tcs) ->
  let r' := claim_row now w d r in
  not_found_as ErrNoJobAvailable (scanJob (Some r')) = Ok (job_of_row r' tcs).
Proof.
  simpl. destruct (r_TestCases r) as [s |]; [case_bool_decide; [| case_match] |];
    intros Heq; inversion Heq; subst; reflexivity.
Qed.

(** What [marshalTestCases] stored, [scanJob] reads back, as far as JSON
    carries it. *)
Lemma scanJob_marshalled tcs tcJSON r job :
  json_round_trips -> marshalTestCases tcs = Ok tcJSON -> r_TestCases r = tcJSON ->
  scanJob (Some r) = Ok job -> job = job_of_row r (via_json tcs).
Proof.
  intros Hjson Hm Hr. simpl. rewrite Hr. destruct tcs as [| tc tcs]; simpl in Hm.
  - injection Hm as <-. intros Hs. by injection Hs as <-.
  - destruct (json_Marshal_tcs (tc :: tcs)) as [s | e] eqn:Es; [| done]. simplify_eq.
    apply Hjson in Es as [Hne Hu].
    rewrite <- Hm, bool_decide_eq_false_2, Hu by done. intros Hs. by injection Hs as <-.
Qed.

(** An assignment is the request behind its job's row, under a lease. *)
Lemma PollJob_carries cfg io tie locked now preq db db' a r req tcJSON :
  json_round_trips -> db_wf db ->
  PollJob cfg io tie locked now preq db = (db', Ok a) ->
  db_jobs db !! a_JobID a = Some r -> marshalTestCases (cr_TestCases req) = Ok tcJSON ->
  request_part r = request_part (new_row 0 (a_JobID a) req tcJSON (max_retries_of req)) ->
  a = requested (a_JobID a) req (now + interval (cfg_LeaseDuration cfg)).
Proof.
  intros Hjson Hwf Hpoll Hr Hm Hp.
  apply PollJob_Ok in Hpoll as (wk & db1 & j & _ & _ & _ & Hclaim & _ & Ha).
  unfold poll_claim in Hclaim.
  apply AssignNext_Ok in Hclaim as (r0 & wk0 & tcs & Hs & _ & _ & Hscan & ->).
  apply select_next_Some in Hs as ((k & Hk) & _).
  simpl in Ha. injection Ha as <-. simpl in Hr, Hp |- *.
  assert (r0 = r) as ->.
  { pose proof (wf_id _ _ _ _ (wf_jobs db Hwf k r0 Hk)). congruence. }
  unfold request_part in Hp. simpl in Hp. injection Hp as Hp2 Hp3 Hp4 Hp5 Hp6 Hp7 Hp8 Hp9 _.
  eapply scanJob_marshalled in Hscan; [| done | exact Hm | exact Hp9].
  injection Hscan as ->. unfold requested. simpl. by f_equal.
Qed.

(** ** Theorems *)

(** C9. A poll of a healthy worker below its capacity hands out the job the
    queue selects: the row is claimed under a lease, the worker's count goes
    up by one, nothing else changes, and the assignment carries the row's
    columns and test cases. *)
Theorem poll_hands_out_the_selected_job cfg tie locked now req wk r tcs db :
  db_wf db -> poll_validate req = Ok tt ->
  db_workers db !! pr_WorkerID req = Some wk ->
  w_HealthStatus wk = WorkerHealthy -> w_ActiveJobs wk < w_Capacity wk ->
  select_next tie locked (pr_Languages req) (db_jobs db) = Some r ->
  scanJob (Some r) = Ok (job_of_row r tcs) ->
  let r' := claim_row now (pr_WorkerID req) (cfg_LeaseDuration cfg) r in
  PollJob cfg no_faults tie locked now req db =
    (mkDb (<[r_ID r := r']> (db_jobs db))
       (<[pr_WorkerID req := mkWorker (w_ID wk) (w_Languages wk) (w_Capacity wk)
            (w_ActiveJobs wk + 1) WorkerHealthy (w_LastHeartbeat wk) (w_RegisteredAt wk)]>
          (db_workers db))
       (db_results db) (db_tc_results db),
     Ok (mkAssignment (r_ID r) (r_SubmissionID r) (r_Language r) (r_SourceText r)
           (r_SourceRef r) (r_SourceSHA256 r) (r_TimeLimitMs r) (r_MemoryLimitMb r)
           (now + interval (cfg_LeaseDuration cfg)) tcs)).
Proof.
  intros Hwf Hv Hw Hh Hcap Hsel Hscan r'.
  pose proof (wf_workers db Hwf _ _ Hw) as [_ Hck%workers_check_spec].
  assert (int4_ok (w_ActiveJobs wk + 1) = true) as Hi by (apply int4_ok_spec; lia).
  assert (poll_check no_faults req db = (db, Ok tt)) as Hcheck.
  { unfold poll_check, Worker_GetByID. mrun. unfold no_faults. rewrite Hw, Hh. cbn.
    by destruct (Z.leb_spec (w_Capacity wk) (w_ActiveJobs wk)); [lia |]. }
  assert (poll_claim cfg (shift_faults 1 no_faults) tie locked now req db =
    (set_jobs db (<[r_ID r := r']> (db_jobs db)), Ok (job_of_row r' tcs))) as Hclaim.
  { unfold poll_claim, AssignNext, shift_faults, no_faults. rewrite Hsel, Hw. fold r'.
    f_equal. by apply scanJob_claimed. }
  unfold PollJob. mrun. rewrite Hv, Hcheck, Hclaim, poll_bump_ok.
  unfold IncrementActiveJobs, shift_faults, no_faults, set_jobs, set_workers; simpl.
  rewrite Hw, Hi. unfold bump_worker. simpl. rewrite Hh, Z.max_r by lia. done.
Qed.

(** The worker's client reads a poll's answer back: the assignment when
    there is one (each string as its JSON text has it), nothing when no job is available (and then
    nothing has changed), an error in every other case.  Polling never
    dereferences a nil lease. *)
Theorem client_reads_the_poll cfg io tie locked now req db :
  let '(db', resp) := PollJob_handler cfg io tie locked now (Some req) db in
  match PollJob cfg io tie locked now req db with
  | (db1, Ok a) => db' = db1 /\ Client_Poll (Reply resp) = Ok (Some (via_json a))
  | (db1, Err e) =>
      db' = db1 /\ e <> nil_dereference /\
      (if errors_Is e ErrNoJobAvailable
       then Client_Poll (Reply resp) = Ok None /\ db' = db
       else exists msg, Client_Poll (Reply resp) = Err msg)
  end.
Proof.
  unfold PollJob_handler, finish.
  destruct (PollJob cfg io tie locked now req db) as [db1 [a | e]] eqn:E; [done |].
  apply PollJob_Err in E as [Ho Hdb]. split; [done |].
  split; [by intros -> |].
  destruct (errors_Is e ErrNoJobAvailable) eqn:Hn.
  - split; [done |]. destruct Hdb as [| Ha]; [done |]. by rewrite Ha in Hn.
  - destruct (errors_Is e ErrInvalidInput); eexists; reflexivity.
Qed.

(** From the creation of a job to any later assignment of it, whatever
    the control plane does in between: the worker is given the submission,
    language, source, limits and test cases of the request. *)
Theorem assignments_carry_the_request cfg ops db io now fresh req db1 job ops' db2
    io' tie locked now' preq db3 a :
  json_round_trips ->
  run cp_step empty_db ops db ->
  CreateJob io now fresh req db = (db1, Ok job) ->
  run cp_step db1 ops' db2 ->
  PollJob cfg io' tie locked now' preq db2 = (db3, Ok a) -> a_JobID a = fresh ->
  a = requested fresh req (now' + interval (cfg_LeaseDuration cfg)).
Proof.
  intros Hjson Hrun Hcreate Hrun' Hpoll Hid.
  assert (db_wf db) as Hwf by (apply reachable_wf; by exists ops).
  unfold CreateJob in Hcreate. case_match eqn:Hv; [done |].
  assert (exists tcJSON, marshalTestCases (cr_TestCases req) = Ok tcJSON
    /\ db1 = exec_op (OpCreate io now fresh req) db
    /\ db_jobs db1 !! fresh = Some (new_row now fresh req tcJSON (max_retries_of req)))
    as (tcJSON & Hm & -> & Hnew).
  { revert Hcreate. mrun. cbn [exec_op].
    destruct (Create_cases io now fresh req db) as [[_ [e He]] | (tc & _ & Hm & _ & _ & Heq)];
      [destruct (Create io now fresh req db); simpl in He; by subst |].
    rewrite Heq. destruct (scanJob _); intros [= <- <-].
    exists tc. split_and!; [done | done |]. simpl. apply lookup_insert_eq. }
  assert (db_wf (exec_op (OpCreate io now fresh req) db)) as Hwf1 by by apply exec_op_wf.
  destruct (request_part_run _ _ _ _ _ Hrun' Hwf1 Hnew) as (r & Hr & Hp).
  assert (db_wf db2) as Hwf2.
  { eapply (run_preserves cp_step db_wf); [| exact Hrun' | done].
    intros x l y [] ?. by apply exec_op_wf. }
  subst fresh. by eapply PollJob_carries.
Qed.

(** Polls served one after the other keep every worker within its
    capacity. *)
Theorem sequential_polls_keep_capacity cfg io tie locked now req db :
  within_capacity db -> within_capacity (PollJob cfg io tie locked now req db).1.
Proof.
  intros Hcap.
  destruct (PollJob cfg io tie locked now req db) as [db' [a | e]] eqn:E.
  - apply PollJob_Ok in E as (wk & db1 & job & Hw & _ & Hlt & Hclaim & -> & _).
    apply AssignNext_Ok in Hclaim as (r & wk' & tcs & _ & _ & -> & _). simpl.
    unfold IncrementActiveJobs. destruct (shift_faults 2 io 0%nat); [done |]. simpl.
    rewrite Hw. destruct (int4_ok _); [| done]. simpl.
    intros w x Hx. cbn in Hx.
    apply lookup_insert_Some in Hx as [[<- <-] | [_ Hx]]; [| by eapply Hcap].
    specialize (Hcap _ _ Hw). unfold bump_worker. cbn [w_ActiveJobs w_Capacity]. lia.
  - unfold PollJob in E. revert E. mrun. destruct (poll_validate req) as [[] |]; [| by intros [= <-]].
    destruct (poll_check io req db) as [db1 [[] |]] eqn:Ec.
    2: { pose proof (poll_check_db io req db) as Hdb. rewrite Ec in Hdb. simpl in Hdb.
         subst. by intros [= <-]. }
    apply poll_check_Ok in Ec as [-> (wk & Hw & _ & Hlt)].
    destruct (poll_claim _ _ _ _ _ _ _) as [db2 [job |]] eqn:Ea.
    + apply AssignNext_Ok in Ea as (r & wk' & tcs & _ & _ & _ & _ & ->).
      rewrite poll_bump_ok. done.
    + intros [= <-]. unfold poll_claim in Ea.
      pose proof (AssignNext_cases (shift_faults 1 io) tie locked now (pr_WorkerID req)
        (pr_Languages req) (cfg_LeaseDuration cfg) db)
        as [[Heq _] | (r & wk' & _ & _ & _ & Heq)]; rewrite Ea in Heq; simplify_eq/=; done.
Qed.

(** Two polls of one worker whose capacity checks both run before either
    claim. *)
Definition racing_polls (cfg : Config) (tie : job_row -> job_row -> bool) (now : Z)
    (req : PollRequest) : M cpdb cp_error (Job * Job) :=
  _ ← poll_check no_faults req;
  _ ← poll_check no_faults req;
  job1 ← poll_claim cfg no_faults tie ∅ now req;
  _ ← poll_bump no_faults (pr_WorkerID req) 1;
  job2 ← poll_claim cfg no_faults tie ∅ now req;
  _ ← poll_bump no_faults (pr_WorkerID req) 1;
  mret (job1, job2).

(** The capacity check of a poll is not atomic with its claim: two polls
    of one worker with capacity 1, both started on a database within capacity,
    both succeed and leave it with two jobs. *)
Theorem capacity_check_is_not_atomic cfg tie now :
  exists db req jobs,
    reachable db /\ within_capacity db /\
    (racing_polls cfg tie now req db).2 = Ok jobs /\
    ~ within_capacity (racing_polls cfg tie now req db).1.
Proof.
  set (job sub := mkCreateJobRequest sub "python" (Some "print(1)") None None 1000 64 [] 2).
  set (ops := [OpHeartbeat no_faults 0 (mkHeartbeatRequest "w1" ["python"] 1 0 "healthy");
               OpCreate no_faults 1 9%N (job 7%N); OpCreate no_faults 2 10%N (job 8%N)]).
  set (db := fold_left (fun db op => exec_op op db) ops empty_db).
  exists db, (mkPollRequest "w1" ["python"]).
  assert (exists jobs, (racing_polls cfg tie now (mkPollRequest "w1" ["python"]) db).2 = Ok jobs)
    as [jobs Hjobs] by (eexists; vm_compute; reflexivity).
  exists jobs. split_and!; [exists ops; apply run_fold | | done |].
  - intros w x Hx. apply (elem_of_map_to_list (db_workers db)) in Hx. vm_compute in Hx.
    apply list_elem_of_singleton in Hx. by injection Hx as -> ->.
  - intros Hcap.
    assert (exists x, db_workers (racing_polls cfg tie now (mkPollRequest "w1" ["python"]) db).1
      !! "w1" = Some x /\ w_Capacity x = 1 /\ w_ActiveJobs x = 2) as (x & Hx & Hc & Ha)
      by (eexists; split; [vm_compute; reflexivity | split; reflexivity]).
    apply Hcap in Hx. lia.
Qed.

(** *** The health sweep *)

(** The operation is a heartbeat of the worker. *)
Definition heartbeat_of (w : string) (op : cp_op) : bool :=
  match op with OpHeartbeat _ _ req => bool_decide (hb_WorkerID req = w) | _ => false end.

Definition offline (w : string) (db : cpdb) : Prop :=
  exists wk, db_workers db !! w = Some wk /\ w_HealthStatus wk = WorkerOffline.

Lemma offline_step op w db :
  heartbeat_of w op = false -> offline w db -> offline w (exec_op op db).
Proof.
  intros Hop (wk & Hw & Hoff).
  assert (forall db', db_workers db' = db_workers db -> offline w db') as Hsame.
  { intros db' Heq. exists wk. by rewrite Heq. }
  destruct op; cbn [exec_op heartbeat_of] in *.
  - destruct (Create_cases io now fresh req db) as [[-> _] | (? & _ & _ & _ & _ & ->)]; by apply Hsame.
  - destruct (AssignNext_cases io tie locked now w0 langs d db) as [[-> _] | (? & ? & _ & _ & _ & ->)];
      by apply Hsame.
  - destruct (MarkRunning_cases io now id w0 db) as [(? & _ & _ & _ & ->) | [-> _]]; by apply Hsame.
  - destruct (RenewLease_cases io now id w0 d db) as [(? & _ & _ & _ & ->) | [-> _]]; by apply Hsame.
  - destruct (Complete_cases io now id w0 req db) as [(? & _ & ->) | [? ->]]; by apply Hsame.
  - unfold RequeueExpiredLeases. case_match; by apply Hsame.
  - apply bool_decide_eq_false in Hop. unfold Upsert. repeat case_match; try by apply Hsame.
    exists wk. split; [| done]. simpl. by rewrite lookup_insert_ne.
  - unfold IncrementActiveJobs. destruct (io 0%nat); [by apply Hsame |].
    destruct (db_workers db !! w0) as [x |] eqn:Hx; [| by apply Hsame].
    case_match; [| by apply Hsame]. unfold offline. simpl. rewrite lookup_insert.
    case_decide; [| by eauto]. subst. eexists. split; [done |]. by simplify_eq.
  - unfold MarkStaleOffline. destruct (io 0%nat); [by apply Hsame |].
    unfold offline. simpl. rewrite lookup_update_where, Hw. simpl.
    eexists. split; [done |]. by case_match.
Qed.

Lemma offline_run db ops db' w :
  run cp_step db ops db' -> Forall (fun op => heartbeat_of w op = false) ops ->
  offline w db -> offline w db'.
Proof.
  induction 1 as [db | db op db1 ops db2 Hstep Hrun IH]; [done |].
  intros [Hop Hops]%Forall_cons Hoff. destruct Hstep. eauto using offline_step.
Qed.

Lemma offline_poll_refused cfg tie locked now req db :
  offline (pr_WorkerID req) db ->
  exists msg, PollJob_handler cfg no_faults tie locked now (Some req) db =
    (db, respondError StatusBadRequest msg).
Proof.
  intros (wk & Hw & Hoff). unfold PollJob_handler, finish, PollJob. mrun.
  destruct (poll_validate req) as [[] | e] eqn:Ev.
  - unfold poll_check, Worker_GetByID, no_faults. mrun. rewrite Hw, Hoff. simpl. by eexists.
  - unfold poll_validate, invalid in Ev. repeat case_match; simplify_eq; simpl; by eexists.
Qed.

(** A worker whose last heartbeat is older than the timeout is put
    offline by the health sweep, and from then on every poll of it is refused
    with status 400 and changes nothing, whatever else happens, until its
    next heartbeat. *)
Theorem stale_workers_get_no_jobs cfg now wk ops db db' tie locked now' req :
  db_workers db !! pr_WorkerID req = Some wk ->
  w_LastHeartbeat wk < now - cfg_HeartbeatTimeout cfg ->
  run cp_step (MarkStaleWorkers cfg no_faults now db).1 ops db' ->
  Forall (fun op => heartbeat_of (pr_WorkerID req) op = false) ops ->
  exists msg, PollJob_handler cfg no_faults tie locked now' (Some req) db' =
    (db', respondError StatusBadRequest msg).
Proof.
  intros Hw Hold Hrun Hops. apply offline_poll_refused. eapply offline_run; [done.. |].
  unfold offline. simpl. rewrite lookup_update_where, Hw. simpl.
  eexists. split; [done |].
  destruct (stale (now - cfg_HeartbeatTimeout cfg) wk) eqn:Hs; [done |].
  unfold stale in Hs. apply andb_false_iff in Hs as [Hs%Z.ltb_ge | Hs]; [lia |].
  by apply negb_false_iff, bool_decide_eq_true in Hs.
Qed.

(** *** Statuses *)

Definition client_error (r : response) : Prop := 400 <= status r < 500.

Lemma internal_error msg (P : Prop) :
  client_error (respondError StatusInternalServerError msg) -> P.
Proof. unfold client_error. simpl. unfold StatusInternalServerError. lia. Qed.

(** A handler that keeps the state when its operation fails in a way it
    recognises. *)
Lemma finish_client_error {A} (m : M cpdb cp_error A) on_ok on_err db :
  (forall a, status (on_ok a) < 400) ->
  (forall db' e, m db = (db', Err e) -> client_error (on_err e) -> db' = db) ->
  client_error (finish m on_ok on_err db).2 -> (finish m on_ok on_err db).1 = db.
Proof.
  intros Hok Herr. unfold finish. destruct (m db) as [db' [a | e]] eqn:E; simpl.
  - unfold client_error. specialize (Hok a). lia.
  - by apply Herr.
Qed.

Lemma Create_Err io now fresh req db db' e :
  Create io now fresh req db = (db', Err e) -> db' = db \/ anonymous e.
Proof.
  destruct (Create_cases io now fresh req db) as [[Hdb _] | (tc & _ & _ & _ & _ & ->)].
  - intros E. rewrite E in Hdb. by left.
  - intros [= _ He]. right. exact (scanJob_anonymous _ _ He).
Qed.

Lemma guarded_update_err guard f id db db' res :
  guarded_update guard f id db db' res -> forall e, res = Err e -> db' = db.
Proof. intros [(r & _ & _ & -> & _) | [-> _]]; [by intros e ? | done]. Qed.

Lemma MarkRunning_err io now id w db e :
  (Service_MarkRunning io now id w db).2 = Err e ->
  (Service_MarkRunning io now id w db).1 = db.
Proof.
  unfold Service_MarkRunning. case_bool_decide; [done |].
  apply (guarded_update_err _ _ _ _ _ _ (MarkRunning_cases io now id w db)).
Qed.

Lemma RenewLease_err cfg io now id req db e :
  (Service_RenewLease cfg io now id req db).2 = Err e ->
  (Service_RenewLease cfg io now id req db).1 = db.
Proof.
  unfold Service_RenewLease. case_bool_decide; [done |].
  apply (guarded_update_err _ _ _ _ _ _ (RenewLease_cases io now id _ _ db)).
Qed.

Lemma ReportResult_err io now id req db e :
  (ReportResult io now id req db).2 = Err e -> (ReportResult io now id req db).1 = db.
Proof.
  destruct (ReportResult_cases io now id req db) as [(r & _ & _ & _ & ->) | [e' ->]]; done.
Qed.

Lemma Heartbeat_err io now req db e :
  (Heartbeat io now req db).2 = Err e -> (Heartbeat io now req db).1 = db.
Proof. unfold Heartbeat, Upsert. mrun. by repeat case_match; simplify_eq. Qed.

(** An operation that keeps the state whenever it fails. *)
Lemma holder_answer_client_error internal m db :
  (forall e, (m db).2 = Err e -> (m db).1 = db) ->
  client_error (holder_answer internal m db).2 -> (holder_answer internal m db).1 = db.
Proof.
  intros Hm. apply finish_client_error; [done |]. intros db' e E _.
  specialize (Hm e). rewrite E in Hm. by apply Hm.
Qed.

Definition reads_only (req : cp_request) : bool :=
  match req with
  | GET_job _ | GET_job_by_submission _ | GET_job_result _ | GET_worker _ => true
  | _ => false
  end.

Lemma reads_change_nothing cfg env req db :
  reads_only req = true -> (setupRoutes cfg env req db).1 = db.
Proof.
  destruct req; try done; intros _; unfold setupRoutes.
  - destruct jobID; [| done]. unfold GetJob_handler, GetJob, GetByID, finish. by repeat case_match; simplify_eq.
  - destruct submissionID; [| done].
    unfold GetJobBySubmission_handler, GetJobBySubmission, GetBySubmissionID, finish.
    by repeat case_match; simplify_eq.
  - destruct jobID; [| done].
    unfold GetJobResult_handler, GetJobResult, GetResult, finish. by repeat case_match; simplify_eq.
  - unfold GetWorker_handler. by case_bool_decide.
Qed.

(** C10. With a key configured, a request without it is answered 401 by every
    endpoint; a read never changes the database, and neither does any request
    answered with a 4xx status. *)
Theorem refused_requests_change_nothing cfg env key presented req db :
  let served := guarded key presented (setupRoutes cfg env req) db in
  (key <> "" -> presented <> key -> status served.2 = StatusUnauthorized) /\
  (reads_only req = true \/ client_error served.2 -> served.1 = db).
Proof.
  simpl. unfold guarded, internalKeyMiddleware. split.
  - intros Hk Hp. by rewrite !bool_decide_eq_false_2.
  - assert (reads_only req = true \/ client_error (setupRoutes cfg env req db).2 ->
      (setupRoutes cfg env req db).1 = db) as Hserve.
    2: { case_bool_decide; [done |]. by case_bool_decide. }
    destruct (reads_only req) eqn:Hr; [intros _; by apply reads_change_nothing |].
    intros [? | Hc]; [done |]. revert Hc.
    destruct req as [[req |] | | | | [id |] [w |] | [id |] [req |] | [id |] [req |]
      | [req |] | [req |] |]; unfold setupRoutes; try done.
    + apply finish_client_error; [done |]. intros db' e E. unfold CreateJob in E. revert E.
      case_match; [by intros [= <- _] |]. mrun.
      destruct (Create _ _ _ _ _) as [db1 [j | e']] eqn:Ec; intros [= <- <-].
      apply Create_Err in Ec as [-> | Ha]; [done |]. simpl. rewrite Ha. apply internal_error.
    + apply holder_answer_client_error, MarkRunning_err.
    + apply holder_answer_client_error, RenewLease_err.
    + apply holder_answer_client_error, ReportResult_err.
    + apply finish_client_error; [done |]. intros db' e E _.
      pose proof (Heartbeat_err (s_io env) (s_now env) req db e) as Hh.
      rewrite E in Hh. by apply Hh.
    + apply finish_client_error; [done |]. intros db' e E.
      apply PollJob_Err in E as [_ [-> | Ha]]; [done |]. rewrite !Ha. apply internal_error.
Qed.

End PollTheorems.

(** ** Witnesses *)

Import QueueWitness.

Definition cfg : Config := New (mkConfig 0 0).
Definition poll : PollRequest := mkPollRequest "w1" ["python"].
Definition the_row : job_row := new_row 1 9%N req (Some "[...]") 2.

Lemma poll_hands_out_the_selected_job_witness :
  exists a, (PollJob cfg no_faults fifo ∅ 2 poll queued_db).2 = Ok a /\
    a_JobID a = 9%N /\ a_LeaseExpiresAt a = 2 + minute /\ a_TestCases a = [tc].
Proof.
  rewrite (poll_hands_out_the_selected_job cfg fifo ∅ 2 poll
    (mkWorker "w1" ["python"] 1 0 WorkerHealthy 0 0) the_row [tc] queued_db queued_db_wf);
    [| reflexivity | vm_compute; reflexivity | reflexivity | reflexivity
     | vm_compute; reflexivity | reflexivity].
  eexists. split; [reflexivity |]. repeat split.
Defined.

Definition queued_ops : list cp_op := take 1 ops.
Definition registered_db : cpdb := fold_left (fun db op => exec_op op db) queued_ops empty_db.

(** The codec of the witnesses reads back the one list it is used on. *)
Definition char_json : TestCaseJSON :=
  {| json_Marshal_tcs tcs :=
       match tcs with [t] => if bool_decide (t = tc) then Ok "[...]" else Err "unsupported"
       | _ => Err "unsupported" end;
     json_Unmarshal_tcs _ := Ok [tc] |}.

Lemma assignments_carry_the_request_witness :
  json_round_trips (H := char_json) /\
  exists db1 job db3 a,
    CreateJob (H := char_json) no_faults 1 9%N req registered_db = (db1, Ok job) /\
    PollJob (H := char_json) cfg no_faults fifo ∅ 2 poll db1 = (db3, Ok a) /\
    a = requested 9%N req (2 + minute).
Proof.
  assert (json_round_trips (H := char_json)) as Hjson.
  { intros [| t [| t' tcs]] s; simpl; try discriminate.
    case_bool_decide; [| discriminate]. subst. intros [= <-]. by split. }
  split; [exact Hjson |].
  destruct (CreateJob (H := char_json) no_faults 1 9%N req registered_db) as [db1 j] eqn:Ec.
  destruct j as [job | e];
    [| exfalso; apply (f_equal (fun x => match x.2 with Ok _ => true | _ => false end)) in Ec;
       vm_compute in Ec; discriminate].
  destruct (PollJob (H := char_json) cfg no_faults fifo ∅ 2 poll db1) as [db3 res] eqn:Ep.
  assert (db1 = (CreateJob (H := char_json) no_faults 1 9%N req registered_db).1) as Hdb1
    by by rewrite Ec.
  destruct res as [a | e];
    [| exfalso; rewrite Hdb1 in Ep;
       apply (f_equal (fun x => match x.2 with Ok _ => true | _ => false end)) in Ep;
       vm_compute in Ep; discriminate].
  exists db1, job, db3, a. split; [done |]. split; [done |].
  apply (assignments_carry_the_request (H := char_json) cfg queued_ops registered_db no_faults 1 9%N req
    db1 job [] db1 no_faults fifo ∅ 2 poll db3 a Hjson (run_fold (H := char_json) _ _) Ec (run_nil _ _) Ep).
  rewrite Hdb1 in Ep.
  apply (f_equal (fun x => match x.2 with Ok a => a_JobID a | _ => 0%N end)) in Ep.
  vm_compute in Ep. symmetry. exact Ep.
Defined.

Lemma sequential_polls_keep_capacity_witness :
  within_capacity queued_db /\
  within_capacity (PollJob cfg no_faults fifo ∅ 2 poll queued_db).1.
Proof.
  assert (within_capacity queued_db) as Hcap.
  { intros w x Hx. apply (elem_of_map_to_list (db_workers queued_db)) in Hx. vm_compute in Hx.
    apply list_elem_of_singleton in Hx. injection Hx as -> ->. simpl. lia. }
  split; [done |]. apply sequential_polls_keep_capacity, Hcap.
Defined.

Lemma stale_workers_get_no_jobs_witness :
  exists msg,
    PollJob_handler cfg no_faults fifo ∅ 5 (Some poll)
      (MarkStaleWorkers cfg no_faults minute queued_db).1 =
    ((MarkStaleWorkers cfg no_faults minute queued_db).1, respondError StatusBadRequest msg).
Proof.
  apply (stale_workers_get_no_jobs cfg minute (mkWorker "w1" ["python"] 1 0 WorkerHealthy 0 0)
    [] queued_db); [vm_compute; reflexivity | reflexivity | constructor | constructor].
Defined.

Definition env : surroundings := mkSurroundings no_faults 5 11%N fifo ∅ (fun _ _ => true).

Lemma refused_requests_change_nothing_witness :
  status (guarded "secret" "wrong" (setupRoutes cfg env (POST_workers_poll (Some poll)))
    queued_db).2 = 401 /\
  (guarded "secret" "secret" (setupRoutes cfg env (POST_workers_poll None)) queued_db).1 =
    queued_db.
Proof.
  split.
  - by apply (refused_requests_change_nothing cfg env "secret" "wrong"
      (POST_workers_poll (Some poll)) queued_db).
  - apply (refused_requests_change_nothing cfg env "secret" "secret"
      (POST_workers_poll None) queued_db). right. by vm_compute.
Defined.
