(* ===== verification/HostFiles.v ===== *)
(** * Worker: the files of the host

    [copyFile] of [internal/worker/firecracker_vm.go] and the calls of [os]
    and [io] that it makes.  A path is the list of its components.  A name
    leads to an inode; two names may lead to the same one (hard links), and
    what is written through one is then read through the other.  Files are
    kept as the store of inodes, so that the two ways of copying a file can be
    told apart. *)

From S2P Require Import Prelude GoStrings.

(** ** Paths *)

Notation path := (list string).
Definition path_Dir (p : path) : path := removelast p.
Definition path_Base (p : path) : string := List.last p "".

Lemma path_Dir_snoc p x : path_Dir (p ++ [x]) = p.
Proof. apply removelast_last. Qed.

Lemma path_Base_snoc p x : path_Base (p ++ [x]) = x.
Proof. apply last_last. Qed.

(** ** The store *)

(** [fs_next] is the next inode that is given out. *)
Record files := mkFiles {
  fs_names : gmap path N;
  fs_data : gmap N string;
  fs_next : N
}.

Definition no_files : files := mkFiles ∅ ∅ 0%N.

Definition contents (fs : files) (p : path) : option string :=
  fs_names fs !! p ≫= fun i => fs_data fs !! i.

Record files_wf (fs : files) : Prop := {
  fw_data : forall p i, fs_names fs !! p = Some i -> is_Some (fs_data fs !! i);
  fw_next : forall i, is_Some (fs_data fs !! i) -> (i < fs_next fs)%N
}.

(** ** Calls of the operating system

    Each is given why it refuses, if it does for a reason of its own. *)

Definition ENOENT : string := "no such file or directory".
Definition EEXIST : string := "file exists".

Definition os_Link (refusal : option string) (src dst : path) : M files string () := fun fs =>
  match refusal, fs_names fs !! src, fs_names fs !! dst with
  | Some e, _, _ => (fs, Err e)
  | None, None, _ => (fs, Err ENOENT)
  | None, Some _, Some _ => (fs, Err EEXIST)
  | None, Some i, None => (mkFiles (<[dst := i]> (fs_names fs)) (fs_data fs) (fs_next fs), Ok tt)
  end.

Definition os_Open (refusal : option string) (p : path) : M files string N := fun fs =>
  match refusal, fs_names fs !! p with
  | Some e, _ => (fs, Err e)
  | None, None => (fs, Err ENOENT)
  | None, Some i => (fs, Ok i)
  end.

(** [os.OpenFile(p, O_WRONLY|O_CREATE|O_TRUNC, 0o644)] *)
Definition os_Create (refusal : option string) (p : path) : M files string N := fun fs =>
  match refusal, fs_names fs !! p with
  | Some e, _ => (fs, Err e)
  | None, Some i => (mkFiles (fs_names fs) (<[i := ""]> (fs_data fs)) (fs_next fs), Ok i)
  | None, None =>
      let i := fs_next fs in
      (mkFiles (<[p := i]> (fs_names fs)) (<[i := ""]> (fs_data fs)) (N.succ i), Ok i)
  end.

Definition write_inode (i : N) (c : string) (fs : files) : files :=
  mkFiles (fs_names fs) (<[i := c]> (fs_data fs)) (fs_next fs).

(** [io.Copy]: what the source holds by now, or a part of it. *)
Definition io_Copy (failure : option (nat * string)) (out inn : N) : M files string () := fun fs =>
  let c := default "" (fs_data fs !! inn) in
  match failure with
  | None => (write_inode out c fs, Ok tt)
  | Some (n, e) => (write_inode out (stake n c) fs, Err e)
  end.

(** [os.RemoveAll] of a directory: the names below it. *)
Definition remove_below (dir : path) (fs : files) : files :=
  mkFiles (filter (fun kv => ~ dir `prefix_of` kv.1) (fs_names fs)) (fs_data fs) (fs_next fs).

(** The same when it fails: the names that are kept are still there. *)
Definition remove_some (keep : path -> bool) (dir : path) (fs : files) : files :=
  mkFiles (filter (fun kv => ~ dir `prefix_of` kv.1 \/ keep kv.1 = true) (fs_names fs))
    (fs_data fs) (fs_next fs).

(** ** copyFile *)

Record copy_env := mkCopyEnv {
  cy_MkdirAll : option string;
  cy_Link : option string;
  cy_Open : option string;
  cy_OpenFile : option string;
  cy_Copy : option (nat * string)
}.

(** Nothing is refused; and the same across file systems. *)
Definition plain_copy : copy_env := mkCopyEnv None None None None None.
Definition across_devices : copy_env :=
  mkCopyEnv None (Some "invalid cross-device link") None None None.

Definition copyFile (env : copy_env) (src dst : path) : M files string () :=
  match cy_MkdirAll env with
  | Some e => fail e
  | None =>
      linked ← attempt (os_Link (cy_Link env) src dst);
      match linked with
      | Ok _ => mret tt
      | Err _ =>
          inn ← os_Open (cy_Open env) src;
          out ← os_Create (cy_OpenFile env) dst;
          io_Copy (cy_Copy env) out inn
      end
  end.

(** A file written by another process. *)
Definition write_file_at (p : path) (c : string) (fs : files) : files :=
  match os_Create None p fs with
  | (fs', Ok i) => write_inode i c fs'
  | (fs', Err _) => fs'
  end.

(** ** Lemmas *)

Lemma no_files_wf : files_wf no_files.
Proof.
  split; [intros p i Hp | intros i [c Hc]]; cbn in *; [by rewrite lookup_empty in Hp | by rewrite lookup_empty in Hc].
Qed.

Lemma contents_name fs p i : fs_names fs !! p = Some i -> contents fs p = fs_data fs !! i.
Proof. intros Hp. unfold contents. by rewrite Hp. Qed.

Lemma contents_is_Some fs p : files_wf fs -> is_Some (fs_names fs !! p) -> is_Some (contents fs p).
Proof. intros [Hd _] [i Hi]. rewrite (contents_name _ _ _ Hi). by eapply Hd. Qed.

Lemma wf_below fs p i : files_wf fs -> fs_names fs !! p = Some i -> (i < fs_next fs)%N.
Proof. intros [Hd Hn] Hp. eapply Hn, Hd, Hp. Qed.

(** What a change may do to the names and files other than [dst]: nothing to
    the names, and nothing to the files that [dst] did not lead to. *)
Record touches_only (dst : path) (fs fs' : files) : Prop := {
  to_names : forall p, p <> dst -> fs_names fs' !! p = fs_names fs !! p;
  to_data : forall i, fs_names fs !! dst <> Some i -> is_Some (fs_data fs !! i) ->
    fs_data fs' !! i = fs_data fs !! i
}.

#[export] Instance touches_only_refl dst : Reflexive (touches_only dst).
Proof. by split. Qed.

(** Another name keeps its file, unless it is the one [dst] leads to. *)
Lemma touches_only_contents dst fs fs' p :
  touches_only dst fs fs' -> files_wf fs -> p <> dst ->
  (forall i, fs_names fs !! dst = Some i -> fs_names fs !! p <> Some i) ->
  contents fs' p = contents fs p.
Proof.
  intros [Hn Hd] [Hw _] Hp Hne. unfold contents. rewrite Hn by done.
  destruct (fs_names fs !! p) as [i |] eqn:E; [simpl | done].
  apply Hd; [| by eapply Hw]. intros Hdst. by apply (Hne i).
Qed.

Lemma write_inode_wf fs i c : files_wf fs -> is_Some (fs_data fs !! i) -> files_wf (write_inode i c fs).
Proof.
  intros [Hd Hn] Hi. split; simpl.
  - intros p j Hp. destruct (decide (j = i)) as [-> | Hne].
    + rewrite lookup_insert_eq. by eexists.
    + rewrite lookup_insert_ne by done. by eapply Hd.
  - intros j. destruct (decide (j = i)) as [-> | Hne]; [intros _; by apply Hn |].
    rewrite lookup_insert_ne by done. apply Hn.
Qed.

(** Creating: [dst] leads to an empty file. *)
Lemma os_Create_cases refusal dst fs :
  files_wf fs ->
  (exists e, os_Create refusal dst fs = (fs, Err e)) \/
  exists fs' i, os_Create refusal dst fs = (fs', Ok i) /\ files_wf fs' /\
    fs_names fs' !! dst = Some i /\ touches_only dst fs fs' /\ is_Some (fs_data fs' !! i) /\
    (forall j, j <> i -> fs_data fs' !! j = fs_data fs !! j) /\
    (fs_names fs !! dst = Some i \/ i = fs_next fs /\ fs_data fs !! i = None).
Proof.
  intros Hwf. unfold os_Create. destruct refusal as [e |]; [left; by eexists |]. right.
  destruct (fs_names fs !! dst) as [i |] eqn:Edst.
  - change (mkFiles (fs_names fs) _ _) with (write_inode i "" fs).
    exists (write_inode i "" fs), i. split_and!; try done.
    + apply write_inode_wf; [done |]. by eapply fw_data.
    + split; simpl; [done |]. intros j Hj _. rewrite lookup_insert_ne; [done | congruence].
    + simpl. rewrite lookup_insert_eq. by eexists.
    + intros j Hj. simpl. by rewrite lookup_insert_ne.
    + by left.
  - assert (fs_data fs !! fs_next fs = None) as Hfresh.
    { apply eq_None_not_Some. intros Hs. apply (fw_next _ Hwf) in Hs. lia. }
    eexists _, _. split; [reflexivity |]. simpl. split_and!; try done.
    + split; simpl.
      * intros p i. destruct (decide (i = fs_next fs)) as [-> | Hne].
        { intros _. rewrite lookup_insert_eq. by eexists. }
        rewrite (lookup_insert_ne (fs_data fs)) by done.
        intros [[_ <-] | [_ Hp]]%lookup_insert_Some; [done |]. by eapply fw_data.
      * intros i [c [[<- _] | [_ Hc]]%lookup_insert_Some]; [lia |].
        apply N.lt_lt_succ_r. eapply fw_next; eauto.
    + by rewrite lookup_insert_eq.
    + split; simpl.
      * intros p Hp. by rewrite lookup_insert_ne.
      * intros j _ [c Hc]. apply lookup_insert_ne. intros <-. congruence.
    + rewrite lookup_insert_eq. by eexists.
    + intros j Hj. by rewrite lookup_insert_ne.
    + by right.
Qed.

Lemma os_Link_cases refusal src dst fs :
  (exists e, os_Link refusal src dst fs = (fs, Err e)) \/
  exists i, fs_names fs !! src = Some i /\ fs_names fs !! dst = None /\
    os_Link refusal src dst fs =
      (mkFiles (<[dst := i]> (fs_names fs)) (fs_data fs) (fs_next fs), Ok tt).
Proof.
  unfold os_Link. destruct refusal; [left; by eexists |].
  destruct (fs_names fs !! src) as [i |], (fs_names fs !! dst); eauto 10.
Qed.

(** The inode [dst] leads to in the end: the one it had, the source's, or a
    new one. *)
Definition leads (src dst : path) (fs fs' : files) : Prop :=
  fs_names fs' !! dst = fs_names fs !! dst \/ fs_names fs' !! dst = fs_names fs !! src \/
  fs_names fs' !! dst = Some (fs_next fs).

(** Copying, whatever happens: only [dst] is touched; and when it succeeds,
    [dst] holds what the source holds, unless they were the same file. *)
Lemma copyFile_cases env src dst fs :
  files_wf fs ->
  let '(fs', r) := copyFile env src dst fs in
  files_wf fs' /\ touches_only dst fs fs' /\ leads src dst fs fs' /\
  match r with
  | Err _ => True
  | Ok _ => exists c, contents fs src = Some c /\
      (fs_names fs !! src <> fs_names fs !! dst -> contents fs' dst = Some c)
  end.
Proof.
  intros Hwf. unfold copyFile, leads. destruct (cy_MkdirAll env); [by split_and!; try left |]. mrun.
  destruct (os_Link_cases (cy_Link env) src dst fs) as [[e ->] | (i & Hsrc & Hdst & ->)].
  - unfold os_Open. destruct (cy_Open env); [by split_and!; try left |].
    destruct (fs_names fs !! src) as [i |] eqn:Esrc; [| by split_and!; try left].
    destruct (fw_data _ Hwf _ _ Esrc) as [c Hc].
    destruct (os_Create_cases (cy_OpenFile env) dst fs Hwf)
      as [[e' ->] | (fs1 & o & -> & Hwf1 & Hname & Htouch & Hdata & Hother & Hnew)];
      [by split_and!; try left |].
    assert (forall c', files_wf (write_inode o c' fs1) /\ touches_only dst fs (write_inode o c' fs1))
      as Hw.
    { intros c'. split; [by apply write_inode_wf |]. split; simpl; [apply Htouch |].
      intros j Hj Hs. rewrite lookup_insert_ne; [by apply Htouch |]. intros <-.
      destruct Hnew as [Hnew | [_ Hnew]]; [congruence |]. rewrite Hnew in Hs. by destruct Hs. }
    assert (leads src dst fs fs1) as Hl.
    { unfold leads. rewrite Hname. destruct Hnew as [-> | [-> _]]; eauto. }
    unfold io_Copy. destruct (cy_Copy env) as [[n e'] |].
    + split_and!; [apply Hw | apply Hw | by rewrite <- Esrc | done].
    + split_and!; [apply Hw | apply Hw | by rewrite <- Esrc |]. exists c.
      rewrite (contents_name _ _ _ Esrc). split; [done |]. intros Hne.
      rewrite (contents_name _ dst o) by exact Hname. simpl. rewrite lookup_insert_eq.
      rewrite Hother, Hc; [done |]. intros ->. destruct Hnew as [Hnew | [_ Hnew]]; congruence.
  - split_and!.
    + split; simpl; [| apply Hwf].
      intros p j [[_ <-] | [_ Hp]]%lookup_insert_Some; by eapply fw_data.
    + split; simpl; [intros p Hp; by rewrite lookup_insert_ne | done].
    + simpl. rewrite lookup_insert_eq. by right; left.
    + destruct (fw_data _ Hwf _ _ Hsrc) as [c Hc]. exists c.
      rewrite (contents_name _ _ _ Hsrc). split; [done |]. intros _.
      rewrite (contents_name _ dst i) by (simpl; by rewrite lookup_insert_eq). done.
Qed.

(** When nothing is refused, a new name is a link to the source. *)
Lemma plain_copy_links src dst fs i :
  fs_names fs !! src = Some i -> fs_names fs !! dst = None ->
  copyFile plain_copy src dst fs =
    (mkFiles (<[dst := i]> (fs_names fs)) (fs_data fs) (fs_next fs), Ok tt).
Proof. intros Hsrc Hdst. unfold copyFile, os_Link. cbn. mrun. by rewrite Hsrc, Hdst. Qed.

(** When [dst] is no name yet, no file that existed changes. *)
Lemma touches_new_name dst fs fs' p :
  files_wf fs -> touches_only dst fs fs' -> fs_names fs !! dst = None -> p <> dst ->
  contents fs' p = contents fs p.
Proof. intros Hwf Ht Hdst Hp. eapply touches_only_contents; [done.. |]. congruence. Qed.

(** A copy onto an existing name reaches every other name of its file. *)
Lemma copies_reach_links env src dst link fs fs' c i :
  files_wf fs -> copyFile env src dst fs = (fs', Ok tt) ->
  fs_names fs !! dst = Some i -> fs_names fs !! link = Some i ->
  fs_names fs !! src <> Some i -> contents fs src = Some c -> contents fs' link = Some c.
Proof.
  intros Hwf Hcopy Hdst Hlink Hne Hc.
  pose proof (copyFile_cases env src dst fs Hwf) as Hcases. rewrite Hcopy in Hcases.
  destruct Hcases as (_ & [Hn _] & _ & c' & Hc' & Heq).
  destruct (decide (link = dst)) as [-> | Hl]; [rewrite Heq; congruence |].
  assert (fs_names fs' !! dst = Some i) as Hdst'.
  { revert Hcopy. unfold copyFile. destruct (cy_MkdirAll env); [done |]. mrun.
    unfold os_Link, os_Open, os_Create, io_Copy. intros Hok. split_matches; done. }
  rewrite (contents_name fs' link i) by (rewrite Hn; done).
  rewrite <- (contents_name fs' dst i) by done. rewrite Heq; congruence.
Qed.

(** *** The other changes *)

Lemma write_file_new p c fs :
  files_wf fs -> fs_names fs !! p = None ->
  let fs' := write_file_at p c fs in
  files_wf fs' /\ touches_only p fs fs' /\ fs_names fs' !! p = Some (fs_next fs) /\
  fs_next fs' = N.succ (fs_next fs) /\ contents fs' p = Some c.
Proof.
  intros Hwf Hp. unfold write_file_at.
  destruct (os_Create_cases None p fs Hwf)
    as [[e He] | (fs1 & i & Hc & Hwf1 & Hname & Htouch & Hdata & Hother & Hnew)];
    [unfold os_Create in He; by destruct (fs_names fs !! p) |].
  rewrite Hc. assert (i = fs_next fs /\ fs_next fs1 = N.succ (fs_next fs)) as [-> Hnext].
  { revert Hc. unfold os_Create. rewrite Hp. by intros [= <- <-]. }
  split_and!; [by apply write_inode_wf | | done | done |].
  - split; simpl; [apply Htouch |]. intros j Hj Hs. rewrite lookup_insert_ne; [by apply Htouch |].
    intros <-. apply (fw_next _ Hwf) in Hs. lia.
  - rewrite (contents_name _ p (fs_next fs)) by exact Hname. simpl. by rewrite lookup_insert_eq.
Qed.

Lemma remove_below_names dir fs p :
  fs_names (remove_below dir fs) !! p =
    if decide (dir `prefix_of` p) then None else fs_names fs !! p.
Proof.
  simpl. case_decide as Hd.
  - apply map_lookup_filter_None. right. intros i _ Hn. by apply Hn.
  - destruct (fs_names fs !! p) as [i |] eqn:E.
    + by apply map_lookup_filter_Some.
    + apply map_lookup_filter_None. by left.
Qed.

Lemma remove_below_wf dir fs : files_wf fs -> files_wf (remove_below dir fs).
Proof.
  intros Hwf. split; [| apply Hwf]. intros p i. rewrite remove_below_names. case_decide; [done |].
  intros Hp. by eapply (fw_data _ Hwf).
Qed.

Lemma remove_below_contents dir fs p :
  ~ dir `prefix_of` p -> contents (remove_below dir fs) p = contents fs p.
Proof. intros Hp. unfold contents. rewrite remove_below_names. by rewrite decide_False. Qed.

(** ** Copies into a directory *)

Lemma remove_some_names keep dir fs p :
  fs_names (remove_some keep dir fs) !! p =
  if decide (~ dir `prefix_of` p \/ keep p = true) then fs_names fs !! p else None.
Proof.
  simpl. case_decide as Hd.
  - destruct (fs_names fs !! p) as [i |] eqn:E; [by apply map_lookup_filter_Some |].
    apply map_lookup_filter_None. by left.
  - apply map_lookup_filter_None. right. by intros i _.
Qed.

Lemma remove_some_wf keep dir fs : files_wf fs -> files_wf (remove_some keep dir fs).
Proof.
  intros [Hd Hn]. split; [| exact Hn]. intros p i. rewrite remove_some_names. case_decide; [apply Hd | done].
Qed.

Lemma remove_some_contents keep dir fs p :
  ~ dir `prefix_of` p -> contents (remove_some keep dir fs) p = contents fs p.
Proof. intros Hp. unfold contents. rewrite remove_some_names, decide_True; [done | by left]. Qed.

(** The files of a directory are each a file of their own. *)
Definition unshared (d : path) (fs : files) : Prop :=
  forall x y i, fs_names fs !! (d ++ [x]) = Some i -> fs_names fs !! (d ++ [y]) = Some i -> x = y.

(** No file of the directory is the file named [src]. *)
Definition apart_from (d src : path) (fs : files) : Prop :=
  forall x i, fs_names fs !! (d ++ [x]) = Some i -> fs_names fs !! src <> Some i.

Lemma in_dir_inj (d : path) (x y : string) : d ++ [x] = d ++ [y] -> x = y.
Proof. intros Heq. by apply app_inv_head in Heq; injection Heq. Qed.

(** A copy from elsewhere into the directory. *)
Lemma copy_into_dir env (src d : path) x fs fs' :
  files_wf fs -> unshared d fs -> apart_from d src fs -> is_Some (fs_names fs !! src) ->
  (forall y, src <> d ++ [y]) ->
  copyFile env src (d ++ [x]) fs = (fs', Ok tt) ->
  files_wf fs' /\ unshared d fs' /\ touches_only (d ++ [x]) fs fs' /\
  leads src (d ++ [x]) fs fs' /\
  contents fs' (d ++ [x]) = contents fs src /\
  (forall y, y <> x -> contents fs' (d ++ [y]) = contents fs (d ++ [y])).
Proof.
  intros Hwf Hun Hap [j Hj] Hsrc Hcopy.
  pose proof (copyFile_cases env src (d ++ [x]) fs Hwf) as Hc. rewrite Hcopy in Hc.
  destruct Hc as (Hwf' & Ht & Hl & c & Hc & Hc').
  assert (forall y, y <> x -> d ++ [y] <> d ++ [x]) as Hne by (intros y Hy ?%in_dir_inj; done).
  split_and!; [done | | done | done | |].
  - intros y z i.
    assert (forall y, y <> x -> fs_names fs' !! (d ++ [y]) = Some i ->
      fs_names fs' !! (d ++ [x]) = Some i -> False) as Hold.
    { intros w Hw. rewrite (to_names _ _ _ Ht) by by apply Hne. intros Hi Hx.
      destruct Hl as [Hl | [Hl | Hl]]; rewrite Hx in Hl.
      - symmetry in Hl. by apply Hw, (Hun _ _ i).
      - symmetry in Hl. by apply (Hap _ _ Hi).
      - injection Hl as ->. apply (wf_below _ _ _ Hwf) in Hi. lia. }
    destruct (decide (y = x)) as [-> | Hy], (decide (z = x)) as [-> | Hz]; intros Hiy Hiz; [done | | |].
    + by destruct (Hold z).
    + by destruct (Hold y).
    + rewrite (to_names _ _ _ Ht) in Hiy, Hiz by by apply Hne. by apply (Hun _ _ i).
  - rewrite Hc. apply Hc'. rewrite Hj. intros Heq. by apply (Hap x j).
  - intros y Hy. eapply touches_only_contents; [done | done | by apply Hne |].
    intros i Hi Hi'. by apply Hy, (Hun _ _ i).
Qed.

(** Two new files, written one after the other. *)
Lemma write_two_new sf mf s m fs :
  files_wf fs -> fs_names fs !! sf = None -> fs_names fs !! mf = None -> mf <> sf ->
  let fs' := write_file_at mf m (write_file_at sf s fs) in
  files_wf fs' /\ fs_next fs' = N.succ (N.succ (fs_next fs)) /\
  fs_names fs' !! sf = Some (fs_next fs) /\ fs_names fs' !! mf = Some (N.succ (fs_next fs)) /\
  contents fs' sf = Some s /\ contents fs' mf = Some m /\
  forall p, p <> sf -> p <> mf ->
    fs_names fs' !! p = fs_names fs !! p /\ contents fs' p = contents fs p.
Proof.
  intros Hwf Hs0 Hm0 Hms.
  destruct (write_file_new sf s fs Hwf Hs0) as (Hw1 & Ht1 & Hn1 & Hx1 & Hc1).
  set (fs1 := write_file_at sf s fs) in *.
  assert (fs_names fs1 !! mf = None) as Hm1 by (by rewrite (to_names _ _ _ Ht1)).
  destruct (write_file_new mf m fs1 Hw1 Hm1) as (Hw2 & Ht2 & Hn2 & Hx2 & Hc2).
  rewrite Hx1 in Hn2, Hx2. cbn. split_and!; [done | done | | done | | done |].
  - by rewrite (to_names _ _ _ Ht2).
  - by rewrite (touches_new_name _ _ _ _ Hw1 Ht2 Hm1).
  - intros p Hps Hpm. split.
    + by rewrite (to_names _ _ _ Ht2), (to_names _ _ _ Ht1).
    + by rewrite (touches_new_name _ _ _ _ Hw1 Ht2 Hm1), (touches_new_name _ _ _ _ Hwf Ht1 Hs0).
Qed.

(** Two files of their own, copied into the directory one after the other. *)
Lemma copy_two_into_dir env env' sf mf i j d x y fs fs1 fs2 :
  files_wf fs -> unshared d fs -> apart_from d sf fs -> apart_from d mf fs ->
  fs_names fs !! sf = Some i -> fs_names fs !! mf = Some j -> i <> j ->
  (forall z, sf <> d ++ [z]) -> (forall z, mf <> d ++ [z]) -> x <> y ->
  copyFile env sf (d ++ [x]) fs = (fs1, Ok tt) -> copyFile env' mf (d ++ [y]) fs1 = (fs2, Ok tt) ->
  files_wf fs2 /\ unshared d fs2 /\
  contents fs2 (d ++ [x]) = contents fs sf /\ contents fs2 (d ++ [y]) = contents fs mf /\
  (forall z, z <> x -> z <> y -> contents fs2 (d ++ [z]) = contents fs (d ++ [z])) /\
  (forall p, p <> d ++ [x] -> p <> d ++ [y] -> fs_names fs2 !! p = fs_names fs !! p).
Proof.
  intros Hwf Hun Has Ham Hi Hj Hij Hsd Hmd Hxy Hcopy1 Hcopy2.
  destruct (copy_into_dir _ _ _ _ _ _ Hwf Hun Has (mk_is_Some _ _ Hi) Hsd Hcopy1)
    as (Hw1 & Hun1 & Ht1 & Hl1 & Hc1 & Ho1).
  assert (fs_names fs1 !! mf = Some j) as Hj1 by (by rewrite (to_names _ _ _ Ht1)).
  assert (apart_from d mf fs1) as Ham1.
  { intros z k. rewrite Hj1. destruct (decide (z = x)) as [-> | Hz].
    - intros Hk [= <-]. destruct Hl1 as [Hl | [Hl | Hl]]; rewrite Hk in Hl; symmetry in Hl.
      + by apply (Ham x j Hl).
      + congruence.
      + apply (wf_below _ _ _ Hwf) in Hj. injection Hl. lia.
    - rewrite (to_names _ _ _ Ht1) by (by intros ?%in_dir_inj). intros Hk [= <-].
      by apply (Ham z j Hk). }
  destruct (copy_into_dir _ _ _ _ _ _ Hw1 Hun1 Ham1 (mk_is_Some _ _ Hj1) Hmd Hcopy2)
    as (Hw2 & Hun2 & Ht2 & _ & Hc2 & Ho2).
  split_and!; [done | done | by rewrite Ho2, Hc1 | | |].
  - rewrite Hc2. apply (touches_only_contents _ _ _ _ Ht1 Hwf); [done |].
    intros k Hk. by apply (Ham x).
  - intros z Hzx Hzy. by rewrite Ho2, Ho1.
  - intros p Hpx Hpy. by rewrite (to_names _ _ _ Ht2), (to_names _ _ _ Ht1).
Qed.
