(* ===== verification/WorkerConfig.v ===== *)
(** * Worker: configuration

    [internal/worker/config.go], the language table of
    [internal/worker/docker_executor.go], the tunables of
    [firecracker_executor.go], and the choice of executor of
    [cmd/worker/executor_linux.go]. *)

From S2P Require Import Prelude GoStrings HostFiles.

(** ** Languages the worker offers *)

(** The bounds [lo] and [hi] between which [part] is kept: the loops of
    [splitAndTrim] that step over spaces. *)
Fixpoint scan_lo (part : string) : nat :=
  match part with
  | String c part' => if is_byte 32 c then S (scan_lo part') else 0
  | EmptyString => 0
  end.

Fixpoint scan_hi (lo hi : nat) (part : string) : nat :=
  match hi with
  | S h =>
      if (lo <? hi)%nat &&
         match String.get h part with Some c => is_byte 32 c | None => false end
      then scan_hi lo h part else hi
  | O => O
  end.

(** [part[lo:hi]] *)
Definition trim_part (part : string) : string :=
  let lo := scan_lo part in
  let hi := scan_hi lo (String.length part) part in
  stake (hi - lo) (sdrop lo part).

(** The loop over [i]: [part] is [s[start:i]], [rest] is [s[i:]]. *)
Fixpoint split_loop (part rest : string) : list string :=
  match rest with
  | EmptyString => [trim_part part]
  | String c rest' =>
      if is_byte 44 c then trim_part part :: split_loop "" rest'
      else split_loop (part ++s String c "") rest'
  end.

Definition splitAndTrim (s : string) : list string := split_loop "" s.

Definition LanguageList (languages : string) : list string :=
  if bool_decide (languages = "") then []
  else List.filter (fun s => negb (bool_decide (s = ""))) (splitAndTrim languages).

(** ** Intervals *)

Definition HeartbeatInterval (sec : Z) : Z := wrap64 (sec * time_Second).
Definition PollInterval (ms : Z) : Z := wrap64 (ms * time_Millisecond).
Definition LeaseRenewalInterval (sec : Z) : Z := wrap64 (sec * time_Second).

(** ** Language runtimes *)

Record LangConfig := mkLangConfig {
  lc_Image : string;
  lc_SourceFile : string;
  lc_CompileCmd : list string;
  lc_RunCmd : list string;
  lc_RunnerFile : string;
  lc_RunnerTemplate : string;
  lc_PidsLimit : Z;
  lc_TmpfsOpts : string
}.

(** The four runner scripts embedded in the binary. *)
Record runner_templates := mkRunnerTemplates {
  pythonRunnerTemplate : string;
  jsRunnerTemplate : string;
  goRunnerTemplate : string;
  javaRunnerTemplate : string
}.

Definition DefaultLanguages (t : runner_templates) : gmap string LangConfig :=
  list_to_map
    [("python", mkLangConfig "capstone-python-runner:latest" "solution.py" []
        ["python3"; "/workspace/runner.py"] "runner.py" (pythonRunnerTemplate t) 0 "");
     ("javascript", mkLangConfig "capstone-js-runner:latest" "solution.js" []
        ["node"; "/workspace/runner.js"] "runner.js" (jsRunnerTemplate t) 0 "");
     ("go", mkLangConfig "capstone-go-runner:latest" "solution.go" []
        ["python3"; "/workspace/runner_go.py"] "runner_go.py" (goRunnerTemplate t)
        256 "size=512m,exec");
     ("java", mkLangConfig "capstone-java-runner:latest" "Main.java" []
        ["python3"; "/workspace/runner_java.py"] "runner_java.py" (javaRunnerTemplate t)
        256 "size=512m,exec")].

Definition pidsLimit (lang : LangConfig) : Z :=
  if 0 <? lc_PidsLimit lang then lc_PidsLimit lang else 64.

Definition tmpfsOpts (lang : LangConfig) : string :=
  if bool_decide (lc_TmpfsOpts lang = "") then "size=64m" else lc_TmpfsOpts lang.

(** ** Firecracker tunables *)

Record FCConfig := mkFCConfig {
  fc_FirecrackerBin : string;
  fc_JailerBin : string;
  fc_KernelPath : string;
  fc_ChrootBase : path;
  fc_SnapshotsDir : path;
  fc_JailerUID : Z;
  fc_JailerGID : Z;
  fc_VCPU : Z;
  fc_MemMB : Z
}.

Definition vcpu (c : FCConfig) : Z := if 0 <? fc_VCPU c then fc_VCPU c else 1.
Definition memMB (c : FCConfig) : Z := if 0 <? fc_MemMB c then fc_MemMB c else 128.

(** ** Lemmas *)

Definition is_space_byte : ascii -> bool := is_byte 32.

Lemma get_app_length p c : String.get (String.length p) (p ++s String c "") = Some c.
Proof. induction p; simpl; done. Qed.

Lemma get_app_lt h p q : (h < String.length p)%nat -> String.get h (p ++s q) = String.get h p.
Proof. revert h. induction p; intros [| h]; simpl; try lia; auto with lia. Qed.

Lemma scan_hi_app lo hi p q :
  (hi <= String.length p)%nat -> scan_hi lo hi (p ++s q) = scan_hi lo hi p.
Proof.
  induction hi as [| h IH]; intros Hh; [done |]. cbn [scan_hi].
  rewrite get_app_lt by lia. case_match; [apply IH; lia | done].
Qed.

Lemma trim_right_snoc p c :
  trim_right is_space_byte (p ++s String c "") =
  if is_space_byte c then trim_right is_space_byte p else p ++s String c "".
Proof.
  induction p as [| d p IH]; simpl.
  - by destruct (is_space_byte c).
  - rewrite all_bytes_app. simpl. rewrite IH, andb_true_r.
    destruct (is_space_byte c).
    + rewrite andb_true_r. by destruct (is_space_byte d && _).
    + by rewrite !andb_false_r.
Qed.

Lemma stake_app_le n p q : (n <= String.length p)%nat -> stake n (p ++s q) = stake n p.
Proof. revert n. induction p; intros [| n]; simpl; try lia; try done. intros ?. f_equal. auto with lia. Qed.

Lemma stake_all p : stake (String.length p) p = p.
Proof. induction p; simpl; congruence. Qed.

Lemma scan_hi_le lo hi p : (scan_hi lo hi p <= hi)%nat.
Proof. induction hi; simpl; [lia |]. case_match; lia. Qed.

(** With nothing to skip on the left, the right loop is [trim_right]. *)
Lemma scan_hi_trim_right p :
  stake (scan_hi 0 (String.length p) p) p = trim_right is_space_byte p.
Proof.
  induction p as [| p c IH] using rev_string_ind.
  - done.
  - rewrite trim_right_snoc.
    assert (String.length (p ++s String c "") = S (String.length p)) as Hlen
      by (rewrite length_sapp; simpl; lia).
    rewrite Hlen. cbn [scan_hi].
    rewrite get_app_length. change (is_byte 32 c) with (is_space_byte c).
    destruct (is_space_byte c).
    + rewrite scan_hi_app by done. cbn [Nat.ltb Nat.leb andb].
      rewrite stake_app_le by apply scan_hi_le. done.
    + rewrite andb_false_r, <- Hlen. apply stake_all.
Qed.

Lemma trim_left_drop p : trim_left is_space_byte p = sdrop (scan_lo p) p.
Proof.
  induction p as [| c p IH]; simpl; [done |].
  change (is_space_byte c) with (is_byte 32 c). by destruct (is_byte 32 c).
Qed.

Lemma get_sdrop lo h p : String.get (lo + h) p = String.get h (sdrop lo p).
Proof. revert p. induction lo; intros [| c p]; simpl; try done; by destruct h. Qed.

Lemma scan_hi_shift lo n p :
  scan_hi lo (lo + n) p = (lo + scan_hi 0 n (sdrop lo p))%nat.
Proof.
  induction n as [| n IH].
  - rewrite Nat.add_0_r. simpl. destruct lo; [done |]. cbn [scan_hi].
    by rewrite (proj2 (Nat.ltb_ge _ _)) by lia.
  - rewrite Nat.add_succ_r. cbn [scan_hi]. rewrite get_sdrop.
    replace (lo <? S (lo + n))%nat with (0 <? S n)%nat
      by (symmetry; apply Nat.ltb_lt; lia).
    match goal with |- context [if ?b then _ else _] => destruct b end; [exact IH | lia].
Qed.

Lemma scan_lo_le p : (scan_lo p <= String.length p)%nat.
Proof. induction p; simpl; [lia |]. case_match; lia. Qed.

(** The index loops trim the spaces at both ends. *)
Lemma trim_part_spec p : trim_part p = trim_right is_space_byte (trim_left is_space_byte p).
Proof.
  unfold trim_part. pose proof (scan_lo_le p) as Hle.
  rewrite trim_left_drop, <- scan_hi_trim_right, length_sdrop.
  replace (String.length p) with (scan_lo p + (String.length p - scan_lo p))%nat at 1 by lia.
  rewrite scan_hi_shift. f_equal. lia.
Qed.

Definition no_comma : string -> bool := all_bytes (fun c => negb (bool_decide (c = ","%char))).

Lemma is_comma c : is_byte 44 c = bool_decide (c = ","%char).
Proof.
  unfold is_byte, byte_of. change 44%nat with (Ascii.nat_of_ascii ","%char).
  destruct (Nat.eqb_spec (Ascii.nat_of_ascii c) (Ascii.nat_of_ascii ","%char)) as [E | E].
  - apply (f_equal Ascii.ascii_of_nat) in E. rewrite !Ascii.ascii_nat_embedding in E.
    by rewrite bool_decide_eq_true_2.
  - rewrite bool_decide_eq_false_2; congruence.
Qed.

Lemma split_loop_spec part rest :
  no_comma part = true -> split_loop part rest = trim_part <$> Split ","%char (part ++s rest).
Proof.
  revert part. induction rest as [| c rest IH]; intros part Hp; cbn [split_loop].
  - rewrite Split_app by done. simpl. by rewrite sapp_nil_r.
  - rewrite is_comma. destruct (bool_decide (c = ","%char)) eqn:Hc.
    + rewrite Split_app by done. cbn [Split]. rewrite Hc, IH by done. simpl. by rewrite sapp_nil_r.
    + rewrite IH.
      * by rewrite sapp_assoc.
      * unfold no_comma in *. rewrite all_bytes_app, Hp. simpl. by rewrite Hc.
Qed.

(** ** The language list *)

(** A language name as the control plane stores it. *)
Definition clean_language (l : string) : Prop :=
  l <> "" /\ no_comma l = true /\ trim_left is_space_byte l = l /\
  trim_right is_space_byte l = l.

Lemma trim_part_clean p : no_comma p = true -> trim_part p <> "" -> clean_language (trim_part p).
Proof.
  intros Hc Hne. split; [done |]. rewrite trim_part_spec. split_and!.
  - by apply all_bytes_trim_right, all_bytes_trim_left.
  - apply trim_left_right, trim_left_idem.
  - apply trim_right_idem.
Qed.

Lemma LanguageList_filter s :
  LanguageList s =
  List.filter (fun s => negb (bool_decide (s = ""))) (trim_part <$> Split ","%char s).
Proof.
  unfold LanguageList. case_bool_decide as Hs; [by subst |].
  unfold splitAndTrim. by rewrite split_loop_spec.
Qed.

(** The languages a worker offers are the comma-separated fields of its
    configuration, trimmed, without the empty ones: every entry is a clean
    name, and a list of clean names written with commas is read back as it
    is. *)
Theorem language_list_reads_back s langs :
  Forall clean_language (LanguageList s) /\
  (Forall clean_language langs -> LanguageList (Join langs ",") = langs).
Proof.
  split.
  - rewrite LanguageList_filter. apply Forall_forall. intros l Hl.
    apply list_elem_of_In, filter_In in Hl as [Hl Hne].
    apply list_elem_of_In, list_elem_of_fmap in Hl as (p & -> & Hp).
    apply trim_part_clean.
    + pose proof (Split_no_sep ","%char s) as Hsep. rewrite Forall_forall in Hsep. by apply Hsep.
    + by apply negb_true_iff, bool_decide_eq_false in Hne.
  - intros Hl. rewrite LanguageList_filter. destruct langs as [| l langs]; [done |].
    rewrite Split_Join; [| done |].
    2: { eapply Forall_impl; [exact Hl |]. by intros x (_ & ? & _). }
    induction Hl as [| x xs (Hne & _ & Hlo & Hhi) Hxs IH]; [done |].
    cbn [fmap list_fmap List.filter]. rewrite trim_part_spec, Hlo, Hhi.
    rewrite bool_decide_eq_false_2 by done. simpl. by f_equal.
Qed.

Lemma language_list_reads_back_witness :
  LanguageList "python, go ,,java" = ["python"; "go"; "java"] /\
  LanguageList (Join ["python"; "go"] ",") = ["python"; "go"].
Proof.
  split; [reflexivity |]. apply (language_list_reads_back "" ["python"; "go"]).
  repeat constructor; discriminate.
Defined.
