(* ===== verification/RunnerOutput.v ===== *)
(** * Worker: what a runner printed, and what is reported

    [ExecutionResult] and the stub of [internal/worker/executor.go], the
    escape detector of [escape_detector.go], the two readers of the runner's
    output ([parseResults] of [docker_executor.go] and of
    [firecracker_executor.go]) and the removal of Docker's stream headers. *)

From S2P Require Import Prelude GoStrings CPDomain.

(** ** Results *)

Record ExecutionResult := mkExecutionResult {
  er_OverallVerdict : string;
  er_TotalTimeMs : option Z;
  er_MaxMemoryKb : option Z;
  er_WallTimeMs : option Z;
  er_CompilerOutput : option string;
  er_TestcaseResults : list TestcaseResultInput
}.

Definition failResult (reason : string) : ExecutionResult :=
  mkExecutionResult "InternalError" None None None (Some reason) [].

(** [StubExecutor.Execute] *)
Definition Stub_Execute (a : Assignment) : result string ExecutionResult :=
  Ok (mkExecutionResult "Accepted" (Some 0) (Some 0) None None []).

(** ** The escape detector *)

Definition escapePatterns : list string :=
  ["network is unreachable"; "connection refused"; "connection timed out";
   "no route to host"; "name or service not known"; "socket operation on non-socket";
   "ENETUNREACH"; "ECONNREFUSED"; "java.net.ConnectException";
   "java.net.NoRouteToHostException"; "java.net.UnknownHostException";
   "read-only file system"; "operation not permitted"; "permission denied";
   "/etc/passwd"; "/etc/shadow"; "/etc/hosts"; "/proc/self"; "/proc/1/";
   "/dev/mem"; "/dev/kmem";
   "setuid"; "setgid"; "execve: permission denied"].

Fixpoint first_match `{GoUnicode} (lower : string) (patterns : list string) : string :=
  match patterns with
  | [] => ""
  | p :: rest => if Contains lower (ToLower p) then p else first_match lower rest
  end.

Definition detectEscapeAttempt `{GoUnicode} (stderr : string) : string :=
  first_match (ToLower stderr) escapePatterns.

(** ** Docker's stream headers *)

Definition byte_at (i : nat) (b : string) : Z :=
  match String.get i b with Some c => Z.of_nat (byte_of c) | None => 0 end.

(** [int(b[4])<<24 | int(b[5])<<16 | int(b[6])<<8 | int(b[7])] *)
Definition frame_size (b : string) : Z :=
  Z.lor (Z.lor (Z.lor (Z.shiftl (byte_at 4 b) 24) (Z.shiftl (byte_at 5 b) 16))
           (Z.shiftl (byte_at 6 b) 8)) (byte_at 7 b).

(** The loop; a pass consumes at least eight bytes. *)
Fixpoint strip_loop (fuel : nat) (b : string) : string :=
  match fuel with
  | O => ""
  | S fuel =>
      if (8 <=? String.length b)%nat then
        let frameSize := frame_size b in
        let b := sdrop 8 b in
        let frameSize := if len b <? frameSize then len b else frameSize in
        stake (Z.to_nat frameSize) b ++s strip_loop fuel (sdrop (Z.to_nat frameSize) b)
      else ""
  end.

Definition stripDockerHeaders (b : string) : string := strip_loop (String.length b) b.

(** ** Reading the runner's results *)

Record runnerResult := mkRunnerResult {
  rn_ID : string;
  rn_Verdict : string;
  rn_TimeMs : Z;
  rn_Actual : string;
  rn_Stdout : string;
  rn_Stderr : string
}.

(** [encoding/json] into a list of [runnerResult]. *)
Class RunnerJSON := {
  json_Unmarshal_runner : string -> result string (list runnerResult)
}.

(** The variables of the loop over the results. *)
Record parse_state := mkParse {
  ps_tcResults : list TestcaseResultInput;
  ps_totalTimeMs : Z;
  ps_overallVerdict : string;
  ps_compilerOutput : option string;
  ps_escapeMatch : string
}.

Definition parse_init : parse_state := mkParse [] 0 "Accepted" None "".

Definition entry_of (r : runnerResult) : TestcaseResultInput :=
  mkTestcaseResultInput (rn_ID r) (rn_Verdict r) (Some (rn_TimeMs r)) None
    (Some (rn_Actual r)) (Some (rn_Stdout r)) None.

(** The verdict and compiler output after one more result. *)
Definition next_verdict (s : parse_state) (r : runnerResult) : string * option string :=
  if negb (bool_decide (rn_Verdict r = "Accepted")) &&
     bool_decide (ps_overallVerdict s = "Accepted") then
    (rn_Verdict r,
     if bool_decide (rn_Verdict r = "CompilationError") &&
        negb (bool_decide (rn_Stderr r = "")) then Some (rn_Stderr r)
     else ps_compilerOutput s)
  else (ps_overallVerdict s, ps_compilerOutput s).

Section Parsers.
Context `{GoUnicode} `{RunnerJSON}.

(** One pass of the Docker executor's loop. *)
Definition docker_pass (s : parse_state) (r : runnerResult) : parse_state :=
  let '(verdict, compilerOutput) := next_verdict s r in
  mkParse (ps_tcResults s ++ [entry_of r]) (wrap64 (ps_totalTimeMs s + rn_TimeMs r))
    verdict compilerOutput
    (if bool_decide (ps_escapeMatch s = "") && negb (bool_decide (rn_Stderr r = "")) then
       detectEscapeAttempt (rn_Stderr r)
     else ps_escapeMatch s).

Definition docker_result (raw : list runnerResult) : ExecutionResult :=
  let s := fold_left docker_pass raw parse_init in
  if negb (bool_decide (ps_escapeMatch s = "")) then
    mkExecutionResult "SandboxViolation" None None None
      (Some ("sandbox escape attempt detected: " ++s ps_escapeMatch s)) (ps_tcResults s)
  else
    mkExecutionResult (ps_overallVerdict s) (Some (ps_totalTimeMs s)) None None
      (ps_compilerOutput s) (ps_tcResults s).

(** [(e *DockerExecutor) parseResults]; its error is always nil. *)
Definition docker_parseResults (a : Assignment) (output : string) : ExecutionResult :=
  match json_Unmarshal_runner (TrimSpace output) with
  | Err err =>
      failResult ("runner output parse error: " ++s err ++s " — output: " ++s
                    truncate_runes 200 0 output)
  | Ok raw => docker_result raw
  end.

(** [trimToJSON]: [for i, c := range s]; [skip] bytes are left of the rune
    being passed. *)
Fixpoint trim_loop (whole : string) (skip : nat) (s : string) : string :=
  match s with
  | EmptyString => whole
  | String c s' =>
      match skip with
      | S k => trim_loop whole k s'
      | O => if is_byte 91 c then s else trim_loop whole (pred (rune_width s)) s'
      end
  end.

Definition trimToJSON (s : string) : string := trim_loop s 0 s.

(** One pass of the Firecracker executor's loop. *)
Definition fc_pass (s : parse_state) (r : runnerResult) : parse_state :=
  let '(verdict, compilerOutput) := next_verdict s r in
  mkParse (ps_tcResults s ++ [entry_of r]) (wrap64 (ps_totalTimeMs s + rn_TimeMs r))
    verdict compilerOutput "".

Definition fc_result (raw : list runnerResult) : ExecutionResult :=
  let s := fold_left fc_pass raw parse_init in
  mkExecutionResult (ps_overallVerdict s) (Some (ps_totalTimeMs s)) None None
    (ps_compilerOutput s) (ps_tcResults s).

(** [parseResults] of the Firecracker executor; its error is always nil. *)
Definition parseResults (a : Assignment) (output : string) : ExecutionResult :=
  match json_Unmarshal_runner (trimToJSON output) with
  | Err err =>
      failResult ("output parse error: " ++s err ++s " — output: " ++s
                    truncate_runes 200 0 output)
  | Ok raw => fc_result raw
  end.

End Parsers.
