(* ===== verification/RunnerTheorems.v ===== *)
(** * Worker: theorems about the runner's output

    Which verdict a list of results yields, which standard-error texts are
    taken for an escape attempt, how the two executors differ, and that
    removing the stream headers gives back the payload. *)

From S2P Require Import Prelude GoStrings CPDomain RunnerOutput.

(** ** Definitions used in the statements *)

(** The first result that is not accepted. *)
Definition first_failure (raw : list runnerResult) : option runnerResult :=
  List.find (fun r => negb (bool_decide (rn_Verdict r = "Accepted"))) raw.

Definition verdict_of (raw : list runnerResult) : string :=
  match first_failure raw with Some r => rn_Verdict r | None => "Accepted" end.

(** The compiler's output is the standard error of a compilation error. *)
Definition compiler_output_of (raw : list runnerResult) : option string :=
  match first_failure raw with
  | Some r =>
      if bool_decide (rn_Verdict r = "CompilationError") && negb (bool_decide (rn_Stderr r = ""))
      then Some (rn_Stderr r) else None
  | None => None
  end.

Definition total_time (raw : list runnerResult) : Z :=
  wrap64 (fold_right Z.add 0 (rn_TimeMs <$> raw)).

(** One frame of Docker's multiplexed log: stream type, three zero bytes, the
    payload's length in four bytes, most significant first, and the payload. *)
Definition byte_string (z : Z) : string := String (Ascii.ascii_of_nat (Z.to_nat z)) "".
Definition frame (stream : ascii) (payload : string) : string :=
  let n := len payload in
  let zero := byte_string 0 in
  String stream "" ++s zero ++s zero ++s zero ++s
  byte_string (n / 2^24) ++s byte_string ((n / 2^16) `mod` 2^8) ++s
  byte_string ((n / 2^8) `mod` 2^8) ++s byte_string (n `mod` 2^8) ++s payload.

Fixpoint frames (ps : list (ascii * string)) : string :=
  match ps with [] => "" | (c, p) :: ps' => frame c p ++s frames ps' end.

Fixpoint payloads (ps : list (ascii * string)) : string :=
  match ps with [] => "" | (_, p) :: ps' => p ++s payloads ps' end.

Section Theorems.
Context `{GoUnicode} `{RunnerJSON}.

(** The first pattern found in the standard error of some result. *)
Fixpoint first_escape (raw : list runnerResult) : string :=
  match raw with
  | [] => ""
  | r :: raw' =>
      let found := detectEscapeAttempt (rn_Stderr r) in
      if bool_decide (found = "") then first_escape raw' else found
  end.

(** ** Lemmas: the loop *)

Lemma detect_nothing : detectEscapeAttempt "" = "".
Proof. reflexivity. Qed.

(** The escape match after a pass. *)
Lemma next_escape m stderr :
  (if bool_decide (m = "") && negb (bool_decide (stderr = "")) then detectEscapeAttempt stderr
   else m) = if bool_decide (m = "") then detectEscapeAttempt stderr else m.
Proof.
  case_bool_decide as Hm; [| done]. case_bool_decide as Hs; [| done]. by subst.
Qed.

(** What a loop that has come this far holds, in terms of what it has read. *)
Record summary (raw : list runnerResult) (s : parse_state) : Prop := {
  sm_entries : ps_tcResults s = entry_of <$> raw;
  sm_total : ps_totalTimeMs s = total_time raw;
  sm_verdict : ps_overallVerdict s = verdict_of raw;
  sm_compiler : ps_compilerOutput s = compiler_output_of raw
}.

Lemma find_snoc {A} (p : A -> bool) l x :
  List.find p (l ++ [x]) =
  match List.find p l with Some y => Some y | None => if p x then Some x else None end.
Proof. induction l as [| y l IH]; simpl; [done |]. by destruct (p y). Qed.

Lemma first_failure_verdict raw r : first_failure raw = Some r -> rn_Verdict r <> "Accepted".
Proof. intros [_ Hr%negb_true_iff%bool_decide_eq_false]%find_some. done. Qed.

Lemma summary_init : summary [] parse_init.
Proof. by split. Qed.

Lemma total_time_snoc raw r : total_time (raw ++ [r]) = wrap64 (total_time raw + rn_TimeMs r).
Proof.
  unfold total_time. rewrite wrap64_add_l, fmap_app. apply f_equal.
  change (rn_TimeMs <$> [r]) with [rn_TimeMs r].
  induction (rn_TimeMs <$> raw) as [| z zs IH]; simpl; lia.
Qed.

Lemma next_verdict_spec raw s r :
  summary raw s ->
  next_verdict s r = (verdict_of (raw ++ [r]), compiler_output_of (raw ++ [r])).
Proof.
  intros [_ _ Hv Hc]. unfold next_verdict. rewrite Hv, Hc.
  unfold verdict_of, compiler_output_of, first_failure. rewrite find_snoc.
  destruct (List.find _ raw) as [r0 |] eqn:E.
  - apply first_failure_verdict in E as Hne. rewrite (bool_decide_eq_false_2 _ Hne).
    by rewrite andb_false_r.
  - rewrite (bool_decide_eq_true_2 ("Accepted" = "Accepted")), andb_true_r by done.
    by case_bool_decide.
Qed.

Lemma docker_pass_summary raw s r :
  summary raw s -> summary (raw ++ [r]) (docker_pass s r).
Proof.
  intros Hs. unfold docker_pass. rewrite (next_verdict_spec raw s r Hs).
  destruct Hs as [He Ht _ _]. split; simpl; [| | done | done].
  - by rewrite He, fmap_app.
  - by rewrite Ht, total_time_snoc.
Qed.

Lemma fc_pass_summary raw s r : summary raw s -> summary (raw ++ [r]) (fc_pass s r).
Proof.
  intros Hs. unfold fc_pass. rewrite (next_verdict_spec raw s r Hs).
  destruct Hs as [He Ht _ _]. split; simpl; [| | done | done].
  - by rewrite He, fmap_app.
  - by rewrite Ht, total_time_snoc.
Qed.

Lemma loop_summary (pass : parse_state -> runnerResult -> parse_state) :
  (forall raw s r, summary raw s -> summary (raw ++ [r]) (pass s r)) ->
  forall raw, summary raw (fold_left pass raw parse_init).
Proof.
  intros Hpass raw. induction raw as [| r raw IH] using rev_ind; [apply summary_init |].
  rewrite fold_left_app. by apply Hpass.
Qed.

Lemma first_escape_snoc raw r :
  first_escape (raw ++ [r]) =
  if bool_decide (first_escape raw = "") then detectEscapeAttempt (rn_Stderr r)
  else first_escape raw.
Proof.
  induction raw as [| x raw IH]; simpl.
  - case_bool_decide as Hd; [by rewrite Hd | done].
  - destruct (bool_decide (detectEscapeAttempt (rn_Stderr x) = "")) eqn:Ex; [exact IH |].
    by rewrite Ex.
Qed.

Lemma docker_escape raw :
  ps_escapeMatch (fold_left docker_pass raw parse_init) = first_escape raw.
Proof.
  induction raw as [| r raw IH] using rev_ind; [done |].
  rewrite fold_left_app. cbn [fold_left]. unfold docker_pass at 1.
  destruct (next_verdict _ _). cbn [ps_escapeMatch].
  by rewrite next_escape, IH, first_escape_snoc.
Qed.

(** ** Lemmas: the detector *)

Lemma first_match_spec lower ps :
  "" ∉ ps ->
  (first_match lower ps = "" /\ Forall (fun p => Contains lower (ToLower p) = false) ps) \/
  (first_match lower ps ∈ ps /\ first_match lower ps <> "" /\
   Contains lower (ToLower (first_match lower ps)) = true).
Proof.
  induction ps as [| p ps IH]; intros Hne; simpl; [by left |].
  apply not_elem_of_cons in Hne as [Hp Hps].
  destruct (Contains lower (ToLower p)) eqn:E.
  - right. split; [apply list_elem_of_here |]. by split.
  - destruct (IH Hps) as [[Hm Hall] | (Hin & Hm & Hc)].
    + left. split; [done |]. by constructor.
    + right. split; [by apply list_elem_of_further | done].
Qed.

Lemma patterns_nonempty : "" ∉ escapePatterns.
Proof. apply (bool_decide_unpack _). vm_compute. exact I. Qed.

Lemma map_bytes_app f a b : map_bytes f (a ++s b) = map_bytes f a ++s map_bytes f b.
Proof. induction a; simpl; congruence. Qed.

Lemma isASCII_app a b : isASCII (a ++s b) = isASCII a && isASCII b.
Proof. apply all_bytes_app. Qed.

Lemma ToLower_app a b :
  isASCII (a ++s b) = true -> ToLower (a ++s b) = ToLower a ++s ToLower b.
Proof.
  intros Hab. unfold ToLower. rewrite Hab. rewrite isASCII_app in Hab.
  apply andb_true_iff in Hab as [-> ->]. apply map_bytes_app.
Qed.

Lemma detected a q b p :
  p ∈ escapePatterns -> ToLower q = ToLower p -> isASCII (a ++s q ++s b) = true ->
  detectEscapeAttempt (a ++s q ++s b) <> "".
Proof.
  intros Hp Hq Ha Hnone.
  destruct (first_match_spec (ToLower (a ++s q ++s b)) escapePatterns patterns_nonempty)
    as [[_ Hall] | (_ & Hm & _)]; [| done].
  rewrite Forall_forall in Hall. apply Hall in Hp.
  rewrite ToLower_app in Hp by done. rewrite isASCII_app in Ha.
  apply andb_true_iff in Ha as [_ Ha]. rewrite ToLower_app, Hq in Hp by done.
  enough (Contains (ToLower a ++s ToLower p ++s ToLower b) (ToLower p) = true) by congruence.
  apply Contains_spec. eauto.
Qed.

Lemma first_escape_in raw r :
  r ∈ raw -> detectEscapeAttempt (rn_Stderr r) <> "" -> first_escape raw <> "".
Proof.
  induction raw as [| x raw IH]; [by intros ?%not_elem_of_nil |]. simpl.
  intros [<- | Hin]%elem_of_cons Hd; case_bool_decide; auto.
Qed.

End Theorems.

(** ** Lemmas: stream headers *)

(** Bits side by side. *)
Lemma lor_mul_pow2 x k y : 0 <= k -> 0 <= y < 2^k -> Z.lor (x * 2^k) y = x * 2^k + y.
Proof.
  intros Hk Hy. symmetry. apply Z.add_nocarry_lor. rewrite <- Z.shiftl_mul_pow2 by done.
  apply Z.bits_inj'. intros n Hn. rewrite Z.land_spec, Z.bits_0.
  destruct (Z.lt_ge_cases n k).
  - by rewrite Z.shiftl_spec_low.
  - rewrite <- (Z.mod_small y (2^k)) by done. by rewrite Z.mod_pow2_bits_high, andb_false_r.
Qed.

Lemma four_bytes a b c d :
  0 <= b < 256 -> 0 <= c < 256 -> 0 <= d < 256 ->
  Z.lor (Z.lor (Z.lor (Z.shiftl a 24) (Z.shiftl b 16)) (Z.shiftl c 8)) d =
  a * 2^24 + b * 2^16 + c * 2^8 + d.
Proof.
  intros. rewrite !Z.shiftl_mul_pow2 by done.
  rewrite (lor_mul_pow2 a 24 (b * 2^16)) by lia.
  replace (a * 2^24 + b * 2^16) with ((a * 2^8 + b) * 2^16) by lia.
  rewrite (lor_mul_pow2 _ 16 (c * 2^8)) by lia.
  replace ((a * 2^8 + b) * 2^16 + c * 2^8) with ((a * 2^16 + b * 2^8 + c) * 2^8) by lia.
  rewrite (lor_mul_pow2 _ 8 d) by lia. lia.
Qed.

Lemma byte_of_byte_string z : 0 <= z < 256 ->
  Z.of_nat (byte_of (Ascii.ascii_of_nat (Z.to_nat z))) = z.
Proof. intros. unfold byte_of. rewrite Ascii.nat_ascii_embedding by lia. lia. Qed.

Lemma frame_length c p : String.length (frame c p) = (8 + String.length p)%nat.
Proof. reflexivity. Qed.

Lemma frame_size_frame c p rest :
  len p < 2^32 -> frame_size (frame c p ++s rest) = len p.
Proof.
  intros Hp. assert (0 <= len p) as H0 by (unfold len; lia).
  unfold frame_size, frame. cbn [String.append byte_at String.get byte_string].
  pose proof (Z.mod_pos_bound (len p / 2^16) (2^8)).
  pose proof (Z.mod_pos_bound (len p / 2^8) (2^8)).
  pose proof (Z.mod_pos_bound (len p) (2^8)).
  assert (0 <= len p / 2^24 < 256)
    by (split; [apply Z.div_pos; lia | apply Z.div_lt_upper_bound; lia]).
  rewrite !byte_of_byte_string by lia. rewrite four_bytes by lia.
  Z.to_euclidean_division_equations. lia.
Qed.

Lemma sdrop_frame c p rest : sdrop 8 (frame c p ++s rest) = p ++s rest.
Proof. reflexivity. Qed.

Lemma strip_loop_nil fuel : strip_loop fuel "" = "".
Proof. by destruct fuel. Qed.

Lemma strip_loop_step fuel c p rest :
  len p < 2^32 ->
  strip_loop (S fuel) (frame c p ++s rest) = p ++s strip_loop fuel rest.
Proof.
  intros Hp. cbn [strip_loop].
  rewrite length_sapp, frame_length, (proj2 (Nat.leb_le _ _)) by lia.
  rewrite frame_size_frame, sdrop_frame by done.
  assert (len (p ++s rest) <? len p = false) as ->
    by (apply Z.ltb_ge; unfold len; rewrite length_sapp; lia).
  unfold len. rewrite Nat2Z.id, stake_app, sdrop_app. done.
Qed.

Lemma strip_frames fuel ps :
  (length ps <= fuel)%nat -> Forall (fun cp => len cp.2 < 2^32) ps ->
  strip_loop fuel (frames ps) = payloads ps.
Proof.
  revert ps. induction fuel as [| fuel IH]; intros [| [c p] ps] Hlen Hps; simpl in Hlen; try lia;
    [done | apply strip_loop_nil |].
  apply Forall_cons in Hps as [Hp Hps]. cbn [frames payloads].
  rewrite strip_loop_step by done. f_equal. apply IH; [lia | done].
Qed.

Lemma frames_length ps : (length ps <= String.length (frames ps))%nat.
Proof.
  induction ps as [| [c p] ps IH]; simpl; [lia |]. rewrite length_sapp. simpl. lia.
Qed.

(** More fuel than bytes changes nothing: the loop ends by itself. *)
Lemma strip_loop_fuel fuel fuel' b :
  (String.length b <= fuel)%nat -> (String.length b <= fuel')%nat ->
  strip_loop fuel b = strip_loop fuel' b.
Proof.
  revert fuel' b. induction fuel as [| fuel IH]; intros [| fuel'] b Hf Hf'; [done | | |].
  - destruct b; [done | simpl in *; lia].
  - destruct b; [done | simpl in *; lia].
  - cbn [strip_loop]. destruct (Nat.leb_spec 8 (String.length b)); [| done].
    set (n := Z.to_nat _). clearbody n. f_equal. apply IH.
    + rewrite !length_sdrop. lia.
    + rewrite !length_sdrop. lia.
Qed.

Lemma length_stake n s : (String.length (stake n s) <= String.length s)%nat.
Proof. revert s. induction n; intros [| c s]; simpl; try lia. specialize (IHn s). lia. Qed.

Lemma strip_loop_length fuel b : (String.length (strip_loop fuel b) <= String.length b)%nat.
Proof.
  revert b. induction fuel as [| fuel IH]; intros b; [apply Nat.le_0_l |].
  cbn [strip_loop]. destruct (Nat.leb_spec 8 (String.length b)); [| apply Nat.le_0_l].
  set (n := Z.to_nat _). rewrite length_sapp. specialize (IH (sdrop n (sdrop 8 b))).
  rewrite !length_sdrop in IH.
  pose proof (stake_sdrop n (sdrop 8 b)) as Hs. apply (f_equal String.length) in Hs.
  rewrite length_sapp, !length_sdrop in Hs. lia.
Qed.

Section Properties.
Context `{GoUnicode} `{RunnerJSON}.

Lemma docker_result_spec raw :
  docker_result raw =
  if bool_decide (first_escape raw = "") then
    mkExecutionResult (verdict_of raw) (Some (total_time raw)) None None
      (compiler_output_of raw) (entry_of <$> raw)
  else
    mkExecutionResult "SandboxViolation" None None None
      (Some ("sandbox escape attempt detected: " ++s first_escape raw)) (entry_of <$> raw).
Proof.
  unfold docker_result. rewrite docker_escape.
  destruct (loop_summary docker_pass docker_pass_summary raw) as [-> -> -> ->].
  by case_bool_decide.
Qed.

Lemma fc_result_spec raw :
  fc_result raw =
  mkExecutionResult (verdict_of raw) (Some (total_time raw)) None None
    (compiler_output_of raw) (entry_of <$> raw).
Proof.
  unfold fc_result.
  by destruct (loop_summary fc_pass fc_pass_summary raw) as [-> -> -> ->].
Qed.

Lemma verdict_accepted raw :
  verdict_of raw = "Accepted" <-> Forall (fun r => rn_Verdict r = "Accepted") raw.
Proof.
  unfold verdict_of, first_failure. induction raw as [| r raw IH]; simpl; [by split |].
  rewrite Forall_cons. case_bool_decide as Hr; simpl; [| naive_solver].
  rewrite IH. naive_solver.
Qed.

Lemma first_escape_pattern raw : first_escape raw <> "" -> first_escape raw ∈ escapePatterns.
Proof.
  induction raw as [| r raw IH]; simpl; [done |]. case_bool_decide as Hd; [done |]. intros _.
  destruct (first_match_spec (ToLower (rn_Stderr r)) escapePatterns patterns_nonempty)
    as [[? _] | (? & _)]; done.
Qed.

(** C12. What the Docker executor makes of any output: an internal error when
    it is not JSON; otherwise the entries in order, the verdict of the first
    result that is not accepted, its standard error as compiler output when it
    is a compilation error, and the 64-bit sum of the times; or, when some
    standard error looks like an escape attempt, a sandbox violation.  It
    accepts exactly when every result is accepted and none looks like one. *)
Theorem docker_result_is_the_first_failure a output :
  match json_Unmarshal_runner (TrimSpace output) with
  | Err _ => exists why, docker_parseResults a output = failResult why
  | Ok raw =>
      docker_parseResults a output =
        (if bool_decide (first_escape raw = "") then
           mkExecutionResult (verdict_of raw) (Some (total_time raw)) None None
             (compiler_output_of raw) (entry_of <$> raw)
         else
           mkExecutionResult "SandboxViolation" None None None
             (Some ("sandbox escape attempt detected: " ++s first_escape raw))
             (entry_of <$> raw)) /\
      (er_OverallVerdict (docker_parseResults a output) = "Accepted" <->
       Forall (fun r => rn_Verdict r = "Accepted") raw /\ first_escape raw = "")
  end.
Proof.
  unfold docker_parseResults. destruct (json_Unmarshal_runner _) as [raw | e]; [| by eexists].
  rewrite docker_result_spec. split; [done |].
  case_bool_decide as He; simpl; [| naive_solver].
  rewrite verdict_accepted. naive_solver.
Qed.

(** Any spelling, in any letter case, of an escape pattern in the ASCII
    standard error of any result makes the Docker executor report a sandbox
    violation that names a pattern, whatever the verdicts are. *)
Theorem escape_attempts_are_reported raw r before spelling after pattern :
  r ∈ raw -> pattern ∈ escapePatterns -> ToLower spelling = ToLower pattern ->
  rn_Stderr r = before ++s spelling ++s after -> isASCII (rn_Stderr r) = true ->
  er_OverallVerdict (docker_result raw) = "SandboxViolation" /\
  exists found, found ∈ escapePatterns /\
    er_CompilerOutput (docker_result raw) =
      Some ("sandbox escape attempt detected: " ++s found).
Proof.
  intros Hr Hp Hs Herr Hascii. rewrite Herr in Hascii.
  pose proof (detected before spelling after pattern Hp Hs Hascii) as Hd.
  rewrite <- Herr in Hd. pose proof (first_escape_in raw r Hr Hd) as Hf.
  rewrite docker_result_spec, bool_decide_eq_false_2 by done.
  split; [done |]. exists (first_escape raw). split; [by apply first_escape_pattern | done].
Qed.
(** The Firecracker executor reads the same output as the Docker executor
    as long as no standard error looks like an escape attempt.  It has no
    escape detection: there are results it accepts that the Docker executor
    reports as a sandbox violation. *)
Theorem firecracker_has_no_escape_detection :
  (forall raw, first_escape raw = "" -> fc_result raw = docker_result raw) /\
  (exists raw, er_OverallVerdict (fc_result raw) = "Accepted" /\
     er_OverallVerdict (docker_result raw) = "SandboxViolation").
Proof.
  split.
  - intros raw Hraw. rewrite fc_result_spec, docker_result_spec.
    by rewrite bool_decide_eq_true_2.
  - exists [mkRunnerResult "1" "Accepted" 3 "ok" "ok" "open /etc/shadow: permission denied"].
    split; vm_compute; reflexivity.
Qed.

(** Removing the stream headers gives back the payloads of any sequence
    of frames, and on any bytes whatever the loop ends and gives no more
    bytes than it was given. *)
Theorem stripping_headers_gives_the_payload ps b fuel :
  Forall (fun cp => len cp.2 < 2^32) ps -> (String.length b <= fuel)%nat ->
  stripDockerHeaders (frames ps) = payloads ps /\
  strip_loop fuel b = stripDockerHeaders b /\
  (String.length (stripDockerHeaders b) <= String.length b)%nat.
Proof.
  intros Hps Hfuel. split_and!.
  - apply strip_frames; [apply frames_length | done].
  - by apply strip_loop_fuel.
  - apply strip_loop_length.
Qed.

End Properties.

(** ** Witnesses *)

#[local] Instance tables : GoUnicode := ascii_tables.

Lemma escape_attempts_are_reported_witness :
  er_OverallVerdict (docker_result
    [mkRunnerResult "1" "Accepted" 3 "" "" "open: Permission Denied."]) = "SandboxViolation".
Proof.
  apply (escape_attempts_are_reported _
    (mkRunnerResult "1" "Accepted" 3 "" "" "open: Permission Denied.")
    "open: " "Permission Denied" "." "permission denied");
    [apply list_elem_of_here | | reflexivity | reflexivity | reflexivity].
  apply (bool_decide_unpack _). vm_compute. exact I.
Defined.

Lemma stripping_headers_gives_the_payload_witness :
  stripDockerHeaders (frames [("001"%char, "[{"); ("001"%char, "}]")]) = "[{}]" /\
  stripDockerHeaders "short" = "".
Proof.
  split; [| reflexivity].
  apply (stripping_headers_gives_the_payload [("001"%char, "[{"); ("001"%char, "}]")] "" 0);
    [repeat constructor; reflexivity | apply Nat.le_refl].
Defined.
