(* ===== verification/DockerExec.v ===== *)
(** * Worker: the Docker executor

    [Execute], [buildWorkspace] and [runContainer] of
    [internal/worker/docker_executor.go] over the state of the host they
    leave traces in: the temporary directories and the containers.  What the
    operating system and the Docker daemon answer is [docker_env]. *)

From S2P Require Import Prelude GoStrings CPDomain JobRepo WorkerConfig RunnerOutput.

(** ** The host *)

(** The container and host configuration given to ContainerCreate. *)
Record container_spec := mkContainer {
  ct_Image : string;
  ct_Cmd : list string;
  ct_NetworkDisabled : bool;
  ct_WorkingDir : string;
  ct_User : string;
  ct_MountSource : string;
  ct_MountTarget : string;
  ct_MountReadOnly : bool;
  ct_Memory : Z;
  ct_MemorySwap : Z;
  ct_PidsLimit : Z;
  ct_SecurityOpt : list string;
  ct_ReadonlyRootfs : bool;
  ct_Tmpfs : list (string * string);
  ct_CapDrop : list string;
  ct_NetworkMode : string;
  ct_Runtime : string
}.

(** Directories with their files, live containers, and every container ever
    created. *)
Record host := mkHost {
  h_dirs : gmap string (gmap string string);
  h_containers : gmap string container_spec;
  h_created : list container_spec
}.

Inductive wait_outcome :=
  | WaitErr (err : option string)
  | WaitStatus
  | WaitDeadline.

Record docker_env := mkDockerEnv {
  de_MkdirTemp : result string string;
  de_WriteFile : string -> option string;
  (** What is left of the directory when its removal fails. *)
  de_RemoveAll : option (gmap string string);
  de_ContainerCreate : result string string;
  (** The container that the daemon made although the call failed. *)
  de_ContainerOrphan : option string;
  de_ContainerStart : option string;
  de_ContainerWait : wait_outcome;
  de_ContainerLogs : option string;
  (** What the container printed, framed, given its workspace. *)
  de_ReadAll : container_spec -> gmap string string -> result string string;
  de_ContainerRemove : bool;
  de_wall_ms : Z
}.

(** [os.RemoveAll], whose error is logged at most. *)
Definition remove_dir (env : docker_env) (dir : string) (h : host) : host :=
  mkHost
    match de_RemoveAll env with
    | None => delete dir (h_dirs h)
    | Some files => <[dir := files]> (h_dirs h)
    end (h_containers h) (h_created h).

Definition write_file (env : docker_env) (dir name content : string)
  : M host string () := fun h =>
  match de_WriteFile env name with
  | Some e => (h, Err e)
  | None =>
      (mkHost (alter (fun files => <[name := content]> files) dir (h_dirs h))
         (h_containers h) (h_created h), Ok tt)
  end.

Definition source_of (a : Assignment) : string :=
  match a_SourceText a with Some s => s | None => "" end.

Definition runner_of (a : Assignment) (lang : LangConfig) : string :=
  Sprintf_d (lc_RunnerTemplate lang) [a_TimeLimitMs a; a_TimeLimitMs a].

Section Executor.
Context `{TestCaseJSON} `{GoUnicode} `{RunnerJSON}.
Context (env : docker_env) (languages : gmap string LangConfig) (runtime : string).

(** ** buildWorkspace *)

(** A step of the workspace's construction: on an error the directory is
    removed before the error is returned. *)
Definition or_remove (dir pre : string) (m : M host string ()) : M host string () := fun h =>
  match m h with
  | (h', Ok _) => (h', Ok tt)
  | (h', Err e) => (remove_dir env dir h', Err (pre ++s e))
  end.

(** [json.Marshal(a.TestCases)]: the list is not empty here. *)
Definition buildWorkspace (a : Assignment) (lang : LangConfig) : M host string string := fun h =>
  match de_MkdirTemp env with
  | Err e => (h, Err e)
  | Ok dir =>
      (_ ← or_remove dir "write source: "
             (write_file env dir (lc_SourceFile lang) (source_of a));
       tcJSON ← (fun h => match json_Marshal_tcs (a_TestCases a) with
                          | Ok b => (h, Ok b)
                          | Err e => (remove_dir env dir h, Err ("marshal test cases: " ++s e))
                          end);
       _ ← or_remove dir "write tests.json: " (write_file env dir "tests.json" tcJSON);
       _ ← or_remove dir "write runner: "
             (write_file env dir (lc_RunnerFile lang) (runner_of a lang));
       mret dir)
      (mkHost (<[dir := ∅]> (h_dirs h)) (h_containers h) (h_created h))
  end.

(** ** runContainer *)

Definition spec_of (a : Assignment) (lang : LangConfig) (workDir : string) : container_spec :=
  let memBytes := wrap64 (a_MemoryLimitMb a * 1024 * 1024) in
  mkContainer (lc_Image lang) (lc_RunCmd lang) true "/workspace" "65534:65534"
    workDir "/workspace" true memBytes memBytes (pidsLimit lang)
    ["no-new-privileges"] true [("/tmp", tmpfsOpts lang)] ["ALL"] "none" runtime.

(** [time.Duration(len(a.TestCases)*a.TimeLimitMs+5000) * time.Millisecond] *)
Definition wallTimeout (overhead : Z) (a : Assignment) : Z :=
  wrap64 (wrap64 (Z.of_nat (length (a_TestCases a)) * a_TimeLimitMs a + overhead)
          * time_Millisecond).

Definition new_container (id : string) (spec : container_spec) (h : host) : host :=
  mkHost (h_dirs h) (<[id := spec]> (h_containers h)) (h_created h ++ [spec]).

Definition create_container (spec : container_spec) : M host string string := fun h =>
  match de_ContainerCreate env with
  | Err e =>
      (match de_ContainerOrphan env with Some id => new_container id spec h | None => h end,
       Err ("create container: " ++s e))
  | Ok id => (new_container id spec h, Ok id)
  end.

Definition remove_container (id : string) (h : host) : host :=
  if de_ContainerRemove env then mkHost (h_dirs h) (delete id (h_containers h)) (h_created h)
  else h.

Definition start_container : M host string () :=
  match de_ContainerStart env with
  | Some e => fail ("start container: " ++s e)
  | None => mret tt
  end.

Definition wait_container (a : Assignment) : M host string () :=
  match de_ContainerWait env with
  | WaitErr (Some e) => fail ("container wait: " ++s e)
  | WaitErr None | WaitStatus => mret tt
  | WaitDeadline => fail ("job timed out after " ++s show_duration (wallTimeout 5000 a))
  end.

Definition read_logs (spec : container_spec) : M host string string := fun h =>
  match de_ContainerLogs env with
  | Some e => (h, Err ("get container logs: " ++s e))
  | None =>
      let files := default ∅ (h_dirs h !! ct_MountSource spec) in
      match de_ReadAll env spec files with
      | Err e => (h, Err ("read logs: " ++s e))
      | Ok raw => (h, Ok (stripDockerHeaders raw))
      end
  end.

Definition runContainer (a : Assignment) (lang : LangConfig) (workDir : string)
  : M host string string :=
  let spec := spec_of a lang workDir in
  id ← create_container spec;
  with_defer (remove_container id)
    (_ ← start_container; _ ← wait_container a; read_logs spec).

(** ** Execute *)

(** The deferred function: a result gets the wall time. *)
Definition with_wall_time (m : M host string ExecutionResult) : M host string ExecutionResult :=
  res ← m;
  mret (mkExecutionResult (er_OverallVerdict res) (er_TotalTimeMs res) (er_MaxMemoryKb res)
          (Some (de_wall_ms env)) (er_CompilerOutput res) (er_TestcaseResults res)).

Definition docker_Execute (a : Assignment) : M host string ExecutionResult :=
  with_wall_time
    match languages !! a_Language a with
    | None => mret (failResult ("unsupported language: " ++s a_Language a))
    | Some lang =>
        match a_TestCases a with
        | [] => mret (failResult "no test cases provided")
        | _ =>
            workDir ← map_err (fun e => "build workspace: " ++s e) (buildWorkspace a lang);
            with_defer (remove_dir env workDir)
              (out ← attempt (runContainer a lang workDir);
               match out with
               | Err e => mret (failResult ("container error: " ++s e))
               | Ok output => mret (docker_parseResults a output)
               end)
        end
    end.

End Executor.

(** ** Theorems *)

(** A container with no way out: no network, nothing writable but /tmp, no
    privileges, bounded memory and processes. *)
Definition sandboxed (spec : container_spec) : Prop :=
  ct_NetworkDisabled spec = true /\ ct_NetworkMode spec = "none" /\
  ct_ReadonlyRootfs spec = true /\ ct_MountReadOnly spec = true /\
  ct_User spec = "65534:65534" /\ ct_CapDrop spec = ["ALL"] /\
  ct_SecurityOpt spec = ["no-new-privileges"] /\
  0 < ct_PidsLimit spec /\ ct_MemorySwap spec = ct_Memory spec.

(** The workspace a runner is given, by file name. *)
Definition workspace_files (a : Assignment) (lang : LangConfig) (tcJSON : string)
  : gmap string string :=
  <[lc_RunnerFile lang := runner_of a lang]>
    (<["tests.json" := tcJSON]> (<[lc_SourceFile lang := source_of a]> ∅)).

(** The container that an execution makes the daemon create. *)
Definition container_made (env : docker_env) : option string :=
  match de_ContainerCreate env with Ok id => Some id | Err _ => de_ContainerOrphan env end.

(** The system's documented behaviour: a temporary directory and a container
    get names not in use. *)
Record well_behaved (env : docker_env) (h : host) : Prop := {
  wb_dir : forall dir, de_MkdirTemp env = Ok dir -> h_dirs h !! dir = None;
  wb_id : forall id, container_made env = Some id -> h_containers h !! id = None
}.

(** The same answers, but for those to the removals. *)
Definition with_removals (env : docker_env) (dir : option (gmap string string)) (container : bool)
  : docker_env :=
  mkDockerEnv (de_MkdirTemp env) (de_WriteFile env) dir (de_ContainerCreate env)
    (de_ContainerOrphan env) (de_ContainerStart env) (de_ContainerWait env)
    (de_ContainerLogs env) (de_ReadAll env) container (de_wall_ms env).

Section Theorems.
Context `{TestCaseJSON} `{GoUnicode} `{RunnerJSON}.

Definition with_dir (h : host) (dir : string) (files : gmap string string) : host :=
  mkHost (<[dir := files]> (h_dirs h)) (h_containers h) (h_created h).

(** The directory is gone, or its removal has failed. *)
Definition dirs_after (env : docker_env) (dirs dirs' : gmap string (gmap string string)) : Prop :=
  dirs' = dirs \/
  exists dir files, de_MkdirTemp env = Ok dir /\ de_RemoveAll env = Some files /\
    dirs' = <[dir := files]> dirs.

(** The container is gone, or its removal has failed, or its creation had
    failed and nothing removes it. *)
Definition containers_after (env : docker_env) (spec : container_spec)
    (containers containers' : gmap string container_spec) : Prop :=
  containers' = containers \/
  exists id, container_made env = Some id /\
    (de_ContainerRemove env = false \/ exists e, de_ContainerCreate env = Err e) /\
    containers' = <[id := spec]> containers.

Lemma remove_with_dir env h dir files :
  de_MkdirTemp env = Ok dir -> h_dirs h !! dir = None ->
  dirs_after env (h_dirs h) (h_dirs (remove_dir env dir (with_dir h dir files))).
Proof.
  intros Hmk Hdir. unfold remove_dir, with_dir. simpl. destruct (de_RemoveAll env) as [rest |] eqn:E.
  - right. exists dir, rest. by rewrite insert_insert_eq.
  - left. by rewrite delete_insert_id.
Qed.

(** A file is written, or the removal of the directory is tried. *)
Lemma or_remove_write env h dir pre name content files :
  or_remove env dir pre (write_file env dir name content) (with_dir h dir files) =
    (with_dir h dir (<[name := content]> files), Ok tt) \/
  exists e, or_remove env dir pre (write_file env dir name content) (with_dir h dir files) =
    (remove_dir env dir (with_dir h dir files), Err e).
Proof.
  unfold or_remove, write_file. destruct (de_WriteFile env name) as [e |]; [right; by eexists |].
  left. simpl. by rewrite alter_insert_eq.
Qed.

Lemma buildWorkspace_cases env a lang h :
  (exists e, de_MkdirTemp env = Err e /\ buildWorkspace env a lang h = (h, Err e)) \/
  (exists dir, de_MkdirTemp env = Ok dir /\
    ((exists e files, buildWorkspace env a lang h = (remove_dir env dir (with_dir h dir files), Err e)) \/
     (exists tcJSON, json_Marshal_tcs (a_TestCases a) = Ok tcJSON /\
        buildWorkspace env a lang h = (with_dir h dir (workspace_files a lang tcJSON), Ok dir)))).
Proof.
  unfold buildWorkspace. destruct (de_MkdirTemp env) as [dir | e]; [right | left; by eexists].
  exists dir. split; [done |]. change (mkHost _ _ _) with (with_dir h dir ∅). mrun.
  destruct (or_remove_write env h dir "write source: " (lc_SourceFile lang) (source_of a) ∅)
    as [-> | [e ->]]; [| by left; eauto].
  destruct (json_Marshal_tcs (a_TestCases a)) as [tcJSON | e]; [| by left; eauto].
  destruct (or_remove_write env h dir "write tests.json: " "tests.json" tcJSON
    (<[lc_SourceFile lang := source_of a]> ∅)) as [-> | [e ->]]; [| by left; eauto].
  destruct (or_remove_write env h dir "write runner: " (lc_RunnerFile lang) (runner_of a lang)
    (<["tests.json" := tcJSON]> (<[lc_SourceFile lang := source_of a]> ∅)))
    as [-> | [e ->]]; [| by left; eauto].
  right. eauto.
Qed.

Lemma spec_sandboxed runtime a lang dir : sandboxed (spec_of runtime a lang dir).
Proof.
  unfold sandboxed, spec_of, pidsLimit; simpl. split_and!; try done.
  destruct (Z.ltb_spec 0 (lc_PidsLimit lang)); lia.
Qed.

Lemma container_body_host env runtime a lang dir h :
  ((_ ← start_container env; _ ← wait_container env a;
    read_logs env (spec_of runtime a lang dir)) h).1 = h.
Proof.
  unfold start_container, wait_container, read_logs. mrun. by repeat case_match; simplify_eq.
Qed.

Lemma deferred_removal env id (m : M host string string) h :
  (m h).1 = h -> (with_defer (remove_container env id) m h).1 = remove_container env id h.
Proof. unfold with_defer. destruct (m h) as [g res]. simpl. by intros ->. Qed.

(** What the container's run leaves. *)
Lemma runContainer_host env runtime a lang dir h :
  (forall id, container_made env = Some id -> h_containers h !! id = None) ->
  let spec := spec_of runtime a lang dir in
  let h' := (runContainer env runtime a lang dir h).1 in
  h_dirs h' = h_dirs h /\ containers_after env spec (h_containers h) (h_containers h') /\
  (h_created h' = h_created h \/ h_created h' = h_created h ++ [spec]).
Proof.
  unfold containers_after, runContainer. intros Hid. set (spec := spec_of _ _ _ _).
  unfold container_made in *. rewrite bind_run. unfold create_container.
  destruct (de_ContainerCreate env) as [id | e].
  - rewrite deferred_removal by apply container_body_host. unfold remove_container.
    destruct (de_ContainerRemove env); simpl.
    + rewrite delete_insert_id by (by apply Hid). split_and!; [done | by left | by right].
    + split_and!; [done | right; exists id; by split_and!; [| left |] | by right].
  - destruct (de_ContainerOrphan env) as [id |]; simpl; [| by split_and!; [| left | left]].
    split_and!; [done | right; exists id; by split_and!; [| right; exists e |] | by right].
Qed.

Lemma docker_Execute_host env languages runtime a h :
  well_behaved env h ->
  let h' := (docker_Execute env languages runtime a h).1 in
  dirs_after env (h_dirs h) (h_dirs h') /\
  (exists spec, sandboxed spec /\
    containers_after env spec (h_containers h) (h_containers h') /\
    (h_created h' = h_created h \/ h_created h' = h_created h ++ [spec])) /\
  match (docker_Execute env languages runtime a h).2 with
  | Ok r => er_WallTimeMs r = Some (de_wall_ms env)
  | Err e => exists why, e = "build workspace: " ++s why
  end.
Proof.
  intros [Hdir Hid].
  assert (forall (lang : LangConfig) (d : string), exists spec, sandboxed spec /\
    containers_after env spec (h_containers h) (h_containers h) /\
    (h_created h = h_created h \/ h_created h = h_created h ++ [spec])) as Hnone.
  { intros lang d. exists (spec_of runtime a lang d).
    split_and!; [apply spec_sandboxed | by left | by left]. }
  unfold docker_Execute, with_wall_time. mrun.
  destruct (languages !! a_Language a) as [lang |];
    [| split_and!; [by left | by apply (Hnone (mkLangConfig "" "" [] [] "" "" 0 "") "") | done]].
  specialize (Hnone lang).
  destruct (a_TestCases a) eqn:Etc; [split_and!; [by left | by apply (Hnone "") | done] |].
  destruct (buildWorkspace_cases env a lang h)
    as [(e & _ & ->) | (dir & Hmk & [(e & files & ->) | (tcJSON & _ & ->)])];
    [split_and!; [by left | by apply (Hnone "") | by eexists] | |]; specialize (Hdir dir Hmk).
  - split_and!; [by apply remove_with_dir | by apply (Hnone "") | by eexists].
  - unfold with_defer.
    pose proof (runContainer_host env runtime a lang dir
      (with_dir h dir (workspace_files a lang tcJSON)) Hid) as (Hd & Hc & Hcr).
    destruct (runContainer env runtime a lang dir _) as [h1 out]. simpl in Hd, Hc, Hcr.
    assert (dirs_after env (h_dirs h) (h_dirs (remove_dir env dir h1))) as Hd'.
    { pose proof (remove_with_dir env h dir (workspace_files a lang tcJSON) Hmk Hdir) as Hr.
      unfold remove_dir in *. simpl in *. by rewrite Hd. }
    destruct out as [output | e]; (split_and!; [exact Hd' | | done]);
      exists (spec_of runtime a lang dir); (split_and!; [apply spec_sandboxed | exact Hc | exact Hcr]).
Qed.

(** No answer to a removal changes what is returned. *)
Lemma buildWorkspace_removals env dir container a lang h :
  let run := buildWorkspace env a lang h in
  let run' := buildWorkspace (with_removals env dir container) a lang h in
  run'.2 = run.2 /\ (forall d, run.2 = Ok d -> run'.1 = run.1).
Proof.
  unfold buildWorkspace, or_remove, write_file. mrun. cbn [with_removals de_MkdirTemp de_WriteFile].
  by repeat (case_match; simplify_eq/=).
Qed.

Lemma runContainer_removals env dir container runtime a lang d h :
  (runContainer (with_removals env dir container) runtime a lang d h).2 =
  (runContainer env runtime a lang d h).2.
Proof.
  unfold runContainer, create_container, with_defer, start_container, wait_container, read_logs. mrun.
  cbn [with_removals de_ContainerCreate de_ContainerOrphan de_ContainerStart de_ContainerWait
    de_ContainerLogs de_ReadAll].
  by repeat (case_match; simplify_eq/=).
Qed.

Lemma removals_are_only_logged env dir container languages runtime a h :
  (docker_Execute (with_removals env dir container) languages runtime a h).2 =
  (docker_Execute env languages runtime a h).2.
Proof.
  unfold docker_Execute, with_wall_time. mrun.
  destruct (languages !! a_Language a) as [lang |]; [| done].
  destruct (a_TestCases a); [done |].
  destruct (buildWorkspace_removals env dir container a lang h) as [Hres Hst].
  destruct (buildWorkspace env a lang h) as [h1 [d | e]],
    (buildWorkspace (with_removals env dir container) a lang h) as [h1' r1']; simpl in *; subst; [| done].
  rewrite (Hst d eq_refl). unfold with_defer.
  pose proof (runContainer_removals env dir container runtime a lang d h1) as Hrun.
  destruct (runContainer env runtime a lang d h1) as [h2 out],
    (runContainer (with_removals env dir container) runtime a lang d h1) as [h2' out']; simpl in Hrun.
  subst. by destruct out.
Qed.

Lemma read_logs_ok env runtime a lang dir h files raw :
  de_ContainerLogs env = None -> h_dirs h !! dir = Some files ->
  de_ReadAll env (spec_of runtime a lang dir) files = Ok raw ->
  read_logs env (spec_of runtime a lang dir) h = (h, Ok (stripDockerHeaders raw)).
Proof.
  intros Hlogs Hdir Hread. unfold read_logs. rewrite Hlogs.
  change (ct_MountSource _) with dir. rewrite Hdir. cbn [default from_option id].
  by rewrite Hread.
Qed.

(** C15. Whatever the daemon and the file system answer, removals that fail
    included, the Docker executor leaves the directories and containers of the
    host as they were, but for what is its own: the job's directory if its
    removal fails, and at most one container, if its removal fails or the
    daemon made it although the creation failed.  It creates at most one
    container, and that one is sandboxed.  It returns an error only when the
    workspace cannot be built; every result carries the wall time, and no
    result depends on the removals. *)
Theorem docker_execution_is_contained env languages runtime a h :
  well_behaved env h ->
  let '(h', res) := docker_Execute env languages runtime a h in
  dirs_after env (h_dirs h) (h_dirs h') /\
  (exists spec, sandboxed spec /\
    containers_after env spec (h_containers h) (h_containers h') /\
    (h_created h' = h_created h \/ h_created h' = h_created h ++ [spec])) /\
  match res with
  | Ok r => er_WallTimeMs r = Some (de_wall_ms env)
  | Err e => exists why, e = "build workspace: " ++s why
  end /\
  forall dir container,
    (docker_Execute (with_removals env dir container) languages runtime a h).2 = res.
Proof.
  intros Hwb.
  pose proof (fun dir container => removals_are_only_logged env dir container languages runtime a h) as Hsame.
  pose proof (docker_Execute_host env languages runtime a h Hwb) as (Hd & Hc & Hres).
  destruct (docker_Execute env languages runtime a h) as [h' res]. by split_and!.
Qed.

(** When nothing fails, the runner sees exactly the submitted source, the
    test cases and the runner script with the time limit filled in, and the
    result is what it printed. *)
Theorem docker_execution_runs_the_job env languages runtime a lang h dir id tcJSON raw :
  languages !! a_Language a = Some lang -> a_TestCases a <> [] ->
  de_MkdirTemp env = Ok dir -> json_Marshal_tcs (a_TestCases a) = Ok tcJSON ->
  (forall name, de_WriteFile env name = None) ->
  de_ContainerCreate env = Ok id -> de_ContainerStart env = None ->
  de_ContainerWait env = WaitStatus -> de_ContainerLogs env = None ->
  de_ReadAll env (spec_of runtime a lang dir) (workspace_files a lang tcJSON) = Ok raw ->
  exists r, (docker_Execute env languages runtime a h).2 = Ok r /\
    r = mkExecutionResult (er_OverallVerdict (docker_parseResults a (stripDockerHeaders raw)))
          (er_TotalTimeMs (docker_parseResults a (stripDockerHeaders raw)))
          (er_MaxMemoryKb (docker_parseResults a (stripDockerHeaders raw)))
          (Some (de_wall_ms env))
          (er_CompilerOutput (docker_parseResults a (stripDockerHeaders raw)))
          (er_TestcaseResults (docker_parseResults a (stripDockerHeaders raw))).
Proof.
  intros Hlang Htc Hdir Hjson Hwrite Hid Hstart Hwait Hlogs Hread.
  unfold docker_Execute, with_wall_time. mrun. rewrite Hlang.
  destruct (a_TestCases a) as [| tc tcs] eqn:Etc; [done |].
  destruct (buildWorkspace_cases env a lang h)
    as [(e & He & _) | (dir' & Hdir' & [(e & files & Hb) | (tcJSON' & Hjson' & ->)])]; [congruence | |].
  - exfalso. revert Hb. unfold buildWorkspace, or_remove, write_file. mrun.
    by rewrite Hdir, !Hwrite, Etc, Hjson.
  - rewrite Hdir in Hdir'. rewrite Etc, Hjson in Hjson'. simplify_eq.
    unfold with_defer, runContainer, create_container, start_container, wait_container. mrun.
    rewrite Hid, Hstart, Hwait.
    unfold with_defer. erewrite read_logs_ok;
      [| done | apply lookup_insert_eq | exact Hread].
    by eexists.
Qed.

End Theorems.

(** ** Witnesses *)

Module DockerWitness.
Definition tc : TestCase := mkTestCase "1" "2 3" "5".
Definition job : Assignment :=
  mkAssignment 9%N 7%N "python" (Some "print(5)") None None 1000 64 0 [tc].
Definition langs : gmap string LangConfig := DefaultLanguages (mkRunnerTemplates "limit = %d" "" "" "").
#[export] Instance json : TestCaseJSON :=
  {| json_Marshal_tcs _ := Ok "[...]"; json_Unmarshal_tcs _ := Ok [tc] |}.
#[export] Instance tables : GoUnicode := ascii_tables.
#[export] Instance runner : RunnerJSON :=
  {| json_Unmarshal_runner _ := Ok [mkRunnerResult "1" "Accepted" 4 "5" "5" ""] |}.
Definition env : docker_env :=
  mkDockerEnv (Ok "/tmp/capstone-job-1") (fun _ => None) None (Ok "c1") None None WaitStatus None
    (fun _ files => Ok (default "" (files !! "runner.py"))) true 37.
(** The same with a container that cannot be removed. *)
Definition stuck_env : docker_env := with_removals env None false.
Definition idle : host := mkHost ∅ ∅ [].
End DockerWitness.

Import DockerWitness.

Lemma env_well_behaved : well_behaved env idle.
Proof. by split. Qed.

Lemma docker_execution_is_contained_witness :
  h_dirs (docker_Execute stuck_env langs "runc" job idle).1 = ∅ /\
  forall dir container, (docker_Execute (with_removals stuck_env dir container) langs "runc" job idle).2 =
    (docker_Execute stuck_env langs "runc" job idle).2.
Proof.
  pose proof (docker_execution_is_contained stuck_env langs "runc" job idle
    ltac:(by split)) as Hc.
  destruct (docker_Execute stuck_env langs "runc" job idle) as [h r].
  destruct Hc as ([Hd | (? & ? & _ & [=] & _)] & _ & _ & Hsame). by split.
Defined.

(** Then the container stays: its removal is tried once, and only logged. *)
Example stuck_containers_stay :
  h_containers (docker_Execute env langs "runc" job idle).1 !! "c1" = None /\
  ct_MountSource <$> h_containers (docker_Execute stuck_env langs "runc" job idle).1 !! "c1" =
    Some "/tmp/capstone-job-1".
Proof. split; vm_compute; reflexivity. Qed.

Lemma docker_execution_runs_the_job_witness :
  exists r, (docker_Execute env langs "runc" job idle).2 = Ok r.
Proof.
  destruct (docker_execution_runs_the_job env langs "runc" job
    (mkLangConfig "capstone-python-runner:latest" "solution.py" []
       ["python3"; "/workspace/runner.py"] "runner.py" "limit = %d" 0 "")
    idle "/tmp/capstone-job-1" "c1" "[...]" "limit = 1000") as (r & Hr & _);
    [reflexivity | discriminate | reflexivity | reflexivity | reflexivity
     | reflexivity | reflexivity | reflexivity | reflexivity | reflexivity |].
  by exists r.
Defined.
