(* ===== verification/FirecrackerExec.v ===== *)
(** * Worker: the Firecracker executor

    [internal/worker/firecracker_executor.go], [firecracker_pool.go],
    [firecracker_vm.go], the agent inside the microVM
    ([cmd/fc-agent/main.go]) and the choice of executor at start-up
    ([cmd/worker/executor_linux.go]), over the state they leave traces in on
    the host: the chroot directories, the running microVMs and the files.
    What the operating system, the jailer and the agent answer is [fc_env] and
    [boot_env].  The kernel and the root drive that the SDK links into the
    chroot of a machine that is booted are not among the files. *)

From S2P Require Import Prelude GoStrings HostFiles CPDomain JobRepo WorkerConfig RunnerOutput.
From S2P Require Import DockerExec.

(** ** Machines

    The fields of [firecracker.Config] that the code sets; [mc_MachineCfg] is
    the number of processors and the memory in MiB, and a chroot strategy is
    the SDK's, with the kernel, or the empty one. *)

Record drive := mkDrive {
  dr_DriveID : string;
  dr_PathOnHost : path;
  dr_IsRootDevice : bool;
  dr_IsReadOnly : bool
}.

Record snapshot_config := mkSnapshotConfig {
  sc_SnapshotPath : string;
  sc_MemFilePath : string;
  sc_ResumeVM : bool
}.

Record jailer_config := mkJailer {
  jl_UID : Z;
  jl_GID : Z;
  jl_NumaNode : Z;
  jl_ID : string;
  jl_ExecFile : string;
  jl_JailerBinary : string;
  jl_ChrootBaseDir : path;
  jl_ChrootStrategy : option string
}.

Record machine_config := mkMachine {
  mc_KernelImagePath : string;
  mc_KernelArgs : string;
  mc_Drives : list drive;
  mc_NetworkInterfaces : list string;
  mc_MachineCfg : option (Z * Z);
  mc_VsockDevices : list (string * Z);
  mc_Snapshot : option snapshot_config;
  mc_DisableValidation : bool;
  mc_JailerCfg : jailer_config
}.

Definition fcVsockPort : Z := 52000.
Definition fcVsockFile : string := "fc.vsock".
Definition fcSnapshotFile : string := "snapshot".
Definition fcMemFile : string := "mem".

Definition jailer_of (cfg : FCConfig) (vmID : string) (strategy : option string) : jailer_config :=
  mkJailer (fc_JailerUID cfg) (fc_JailerGID cfg) 0 vmID (fc_FirecrackerBin cfg)
    (fc_JailerBin cfg) (fc_ChrootBase cfg) strategy.

(** The configuration of a machine that is booted for its snapshot. *)
Definition boot_config (cfg : FCConfig) (vmID : string) (rootfsPath : path) : machine_config :=
  mkMachine (fc_KernelPath cfg) "console=ttyS0 reboot=k panic=1 pci=off nomodules quiet"
    [mkDrive "rootfs" rootfsPath true false] [] (Some (vcpu cfg, memMB cfg))
    [(fcVsockFile, 3)] None false (jailer_of cfg vmID (Some (fc_KernelPath cfg))).

(** The configuration of a machine that is restored for a job. *)
Definition restore_config (cfg : FCConfig) (vmID : string) : machine_config :=
  mkMachine "" "" [] [] None [(fcVsockFile, 3)]
    (Some (mkSnapshotConfig ("/" ++s fcSnapshotFile) ("/" ++s fcMemFile) true)) true
    (jailer_of cfg vmID None).

(** ** The host *)

(** [workspaceDir] *)
Definition workspaceDir (cfg : FCConfig) (vmID : string) : path :=
  fc_ChrootBase cfg ++ ["firecracker"; vmID; "root"].

(** A machine that was started, with what its chroot held at that time. *)
Record started_vm := mkStarted {
  sv_config : machine_config;
  sv_snapshot : option string;
  sv_mem : option string
}.

Record fc_host := mkFcHost {
  fh_dirs : gset path;
  fh_vms : gmap string machine_config;
  fh_started : list started_vm;
  fh_files : files
}.

Definition set_files (fs : files) (h : fc_host) : fc_host :=
  mkFcHost (fh_dirs h) (fh_vms h) (fh_started h) fs.
Definition set_vms (vms : gmap string machine_config) (h : fc_host) : fc_host :=
  mkFcHost (fh_dirs h) vms (fh_started h) (fh_files h).
Definition add_dir (dir : path) (h : fc_host) : fc_host :=
  mkFcHost ({[dir]} ∪ fh_dirs h) (fh_vms h) (fh_started h) (fh_files h).

Definition on_files {A} (m : M files string A) : M fc_host string A := fun h =>
  let '(fs, r) := m (fh_files h) in (set_files fs h, r).

(** What dialling a machine's agent gives: the connection, then the first
    bytes read from it. *)
Record vsock_answer := mkVsock {
  va_Dial : option string;
  va_Read : result string string
}.

Record fc_env := mkFcEnv {
  fe_vmID : string;
  (** A failed MkdirAll may have made the machine's directory. *)
  fe_MkdirAll : option (bool * string);
  fe_copySnapshot : copy_env;
  fe_copyMem : copy_env;
  fe_NewMachine : machine_config -> option string;
  (** A failed start may have left the machine's process running. *)
  fe_Start : machine_config -> option (bool * string);
  fe_StopVMM : option string;
  (** The names that are left when the removal of the directory fails. *)
  fe_RemoveAll : option (path -> bool);
  (** The clock at each look of [waitForAgent], and what the dial that
      follows gives. *)
  fe_clock : nat -> Z;
  fe_dials : nat -> vsock_answer;
  fe_dial : vsock_answer;
  fe_send : option string;
  fe_wall_ms : Z
}.

Record fcVM := mkVM { vm_id : string; vm_wsDir : path; vm_vsockPath : path }.

Definition vm_of (cfg : FCConfig) (vmID : string) : fcVM :=
  let wsDir := workspaceDir cfg vmID in mkVM vmID wsDir (wsDir ++ [fcVsockFile]).

(** [cleanupVM]: the directory {base}/firecracker/{vmID} is removed with all
    that is below; the answer of [os.RemoveAll] is ignored. *)
Definition cleanupVM (answer : option (path -> bool)) (cfg : FCConfig) (vmID : string) (h : fc_host)
  : fc_host :=
  let vmDir := fc_ChrootBase cfg ++ ["firecracker"; vmID] in
  match answer with
  | None => mkFcHost (fh_dirs h ∖ {[vmDir]}) (fh_vms h) (fh_started h) (remove_below vmDir (fh_files h))
  | Some keep => set_files (remove_some keep vmDir (fh_files h)) h
  end.

(** [machine.StopVMM()], whose error is ignored. *)
Definition stopVMM (answer : option string) (vmID : string) (h : fc_host) : fc_host :=
  match answer with
  | None => set_vms (delete vmID (fh_vms h)) h
  | Some _ => h
  end.

Definition vm_kill (answer : option string) (vm : fcVM) : fc_host -> fc_host := stopVMM answer (vm_id vm).

(** [FCConfig{ChrootBase: base}] *)
Definition config_with_base (base : path) : FCConfig := mkFCConfig "" "" "" base [] 0 0 0 0.

(** [cleanup] takes the base and the identifier back out of the path. *)
Definition vm_cleanup (answer : option (path -> bool)) (vm : fcVM) : fc_host -> fc_host :=
  cleanupVM answer (config_with_base (path_Dir (path_Dir (path_Dir (vm_wsDir vm)))))
    (path_Base (path_Dir (vm_wsDir vm))).

(** ** restoreVM *)

(** [machine.Start]: the attempt is remembered with what the chroot holds. *)
Definition start_machine (cfg : FCConfig) (vmID : string) (config : machine_config)
    (answer : option (bool * string)) : M fc_host string () := fun h =>
  let wsDir := workspaceDir cfg vmID in
  let started := mkStarted config (contents (fh_files h) (wsDir ++ [fcSnapshotFile]))
                   (contents (fh_files h) (wsDir ++ [fcMemFile])) in
  let log := fh_started h ++ [started] in
  match answer with
  | Some (running, e) =>
      (mkFcHost (fh_dirs h) (if running then <[vmID := config]> (fh_vms h) else fh_vms h) log
         (fh_files h), Err e)
  | None => (mkFcHost (fh_dirs h) (<[vmID := config]> (fh_vms h)) log (fh_files h), Ok tt)
  end.

(** From the configuration on: a failure stops and removes what there is. *)
Definition start_restored (env : fc_env) (cfg : FCConfig) : M fc_host string fcVM := fun h =>
  let vmID := fe_vmID env in
  let config := restore_config cfg vmID in
  match fe_NewMachine env config with
  | Some e => (cleanupVM (fe_RemoveAll env) cfg vmID h, Err ("new machine: " ++s e))
  | None =>
      match start_machine cfg vmID config (fe_Start env config) h with
      | (h, Err e) =>
          (cleanupVM (fe_RemoveAll env) cfg vmID (stopVMM (fe_StopVMM env) vmID h), Err ("start snapshot machine: " ++s e))
      | (h, Ok _) => (h, Ok (vm_of cfg vmID))
      end
  end.

(** The two snapshot files, put where the restored machine looks for them. *)
Definition fill_chroot (env : fc_env) (cfg : FCConfig) (snapFile memFile : path)
  : M files string () :=
  let wsDir := workspaceDir cfg (fe_vmID env) in
  _ ← map_err (fun e => "copy snapshot: " ++s e)
        (copyFile (fe_copySnapshot env) snapFile (wsDir ++ [fcSnapshotFile]));
  map_err (fun e => "copy mem: " ++s e)
    (copyFile (fe_copyMem env) memFile (wsDir ++ [fcMemFile])).

Definition restoreVM (env : fc_env) (cfg : FCConfig) (snapFile memFile : path)
  : M fc_host string fcVM :=
  let vmDir := path_Dir (workspaceDir cfg (fe_vmID env)) in
  match fe_MkdirAll env with
  | Some (made, e) => fun h => (if made then add_dir vmDir h else h, Err ("mkdir workspace: " ++s e))
  | None =>
      _ ← (fun h => (add_dir vmDir h, Ok tt));
      _ ← on_files (fill_chroot env cfg snapFile memFile);
      start_restored env cfg
  end.

Section Executor.
Context `{TestCaseJSON} `{GoUnicode} `{RunnerJSON}.

(** ** The handshake

    [dialVsock]: at most 32 bytes are read, and the first two have to be
    "OK"; the failure to write the CONNECT line is not looked at. *)

Definition dialVsock (v : vsock_answer) : result string () :=
  match va_Dial v with
  | Some e => Err e
  | None =>
      match va_Read v with
      | Err e => Err ("vsock handshake: " ++s e)
      | Ok bytes =>
          let buf := stake 32 bytes in
          if (String.length buf <? 2)%nat || negb (bool_decide (stake 2 buf = "OK"))
          then Err ("vsock handshake unexpected: " ++s Quote buf) else Ok tt
      end
  end.

Definition dials_ok (v : vsock_answer) : bool :=
  match dialVsock v with Ok _ => true | Err _ => false end.

(** [waitForAgent]: [None] when the fuel runs out. *)
Fixpoint wait_loop (fuel : nat) (deadline : Z) (clock : nat -> Z) (dials : nat -> vsock_answer)
    (k : nat) : option bool :=
  match fuel with
  | O => None
  | S fuel =>
      if clock k <? deadline then
        if dials_ok (dials k) then Some true else wait_loop fuel deadline clock dials (S k)
      else Some false
  end.

(** A look every 200 ms until the deadline, and the look that ends it. *)
Definition wait_fuel (timeout : Z) : nat := S (Z.to_nat (timeout / (200 * time_Millisecond) + 1)).

Definition waitForAgent (clock : nat -> Z) (dials : nat -> vsock_answer) (start timeout : Z)
  : option bool :=
  wait_loop (wait_fuel timeout) (start + timeout) clock dials 0.

Definition not_ready (timeout : Z) : string :=
  "fc-agent not ready after " ++s show_duration timeout.

(** ** The request and the answer *)

Record fcJobRequest := mkFcJobRequest {
  jq_Ping : bool;
  jq_SourceFile : string;
  jq_SourceText : string;
  jq_RunnerFile : string;
  jq_RunnerText : string;
  jq_RunCmd : list string;
  jq_TestsJSON : string
}.

Definition job_request (a : Assignment) (lang : LangConfig) (tcJSON : string) : fcJobRequest :=
  mkFcJobRequest false (lc_SourceFile lang) (source_of a) (lc_RunnerFile lang)
    (runner_of a lang) (lc_RunCmd lang) tcJSON.

(** The read loop: every chunk until the first error. *)
Fixpoint read_chunks (buf : string) (chunks : list string) : string :=
  match chunks with
  | [] => buf
  | c :: rest => read_chunks (buf ++s c) rest
  end.

Definition fc_runJob (env : fc_env) (agent : fcJobRequest -> list string) (req : fcJobRequest)
  : result string string :=
  match dialVsock (fe_dial env) with
  | Err e => Err ("dial vsock: " ++s e)
  | Ok _ =>
      match fe_send env with
      | Some e => Err ("send job request: " ++s e)
      | None =>
          let buf := read_chunks "" (agent req) in
          if bool_decide (buf = "") then Err "agent returned empty response" else Ok buf
      end
  end.

(** ** The snapshot pool *)

Definition SnapshotPair : Type := path * path.

Record SnapshotPool := mkPool {
  sp_snapshots : gmap string SnapshotPair;
  sp_cfg : FCConfig;
  sp_snapsDir : path
}.

Definition NewSnapshotPool (cfg : FCConfig) (snapsDir : path) : SnapshotPool :=
  mkPool ∅ cfg snapsDir.

(** A failed start of a machine: whether the jailer had made its directory,
    and whether the process is still running. *)
Record boot_failure := mkBootFailure { bf_jailed : bool; bf_running : bool; bf_error : string }.

(** What each step of a snapshot's capture answers, per language: a successful
    capture tells what the hypervisor has written into the two files. *)
Record boot_env := mkBootEnv {
  be_vmID : string -> string;
  be_NewMachine : string -> option string;
  be_Start : string -> option boot_failure;
  be_StopVMM : string -> option string;
  be_RemoveAll : string -> option (path -> bool);
  be_start : string -> Z;
  be_clock : string -> nat -> Z;
  be_dials : string -> nat -> vsock_answer;
  be_MkdirAll : string -> option string;
  be_PauseVM : string -> option string;
  be_CreateSnapshot : string -> result string (string * string);
  be_copySnapshot : string -> copy_env;
  be_copyMem : string -> copy_env
}.

(** A machine that cannot be started is stopped; its directory stays. *)
Definition bootFreshVM (env : boot_env) (cfg : FCConfig) (lang : string) (rootfsPath : path)
  : M fc_host string fcVM := fun h =>
  let vmID := be_vmID env lang in
  let config := boot_config cfg vmID rootfsPath in
  let jailed := add_dir (path_Dir (workspaceDir cfg vmID)) in
  match be_NewMachine env lang with
  | Some e => (h, Err ("new machine: " ++s e))
  | None =>
      match be_Start env lang with
      | Some f =>
          (stopVMM (be_StopVMM env lang) vmID
             (start_machine cfg vmID config (Some (bf_running f, bf_error f))
                (if bf_jailed f then jailed h else h)).1,
           Err ("start machine: " ++s bf_error f))
      | None => ((start_machine cfg vmID config None (jailed h)).1, Ok (vm_of cfg vmID))
      end
  end.

(** [machine.CreateSnapshot]: the hypervisor writes into the chroot. *)
Definition create_snapshot (env : boot_env) (lang : string) (vm : fcVM) : M fc_host string () := fun h =>
  match be_CreateSnapshot env lang with
  | Err e => (h, Err e)
  | Ok (snapshot, mem) =>
      (set_files (write_file_at (vm_wsDir vm ++ [fcMemFile]) mem
                    (write_file_at (vm_wsDir vm ++ [fcSnapshotFile]) snapshot (fh_files h))) h, Ok tt)
  end.

(** A failure to resume is logged and dropped. *)
Definition takeSnapshot (env : boot_env) (lang : string) (vm : fcVM) (snapDst memDst : path)
  : M fc_host string () :=
  match be_PauseVM env lang with
  | Some e => fail ("pause VM: " ++s e)
  | None =>
      _ ← map_err (fun e => "create snapshot: " ++s e) (create_snapshot env lang vm);
      _ ← map_err (fun e => "copy snapshot out: " ++s e)
            (on_files (copyFile (be_copySnapshot env lang) (vm_wsDir vm ++ [fcSnapshotFile]) snapDst));
      on_files (copyFile (be_copyMem env lang) (vm_wsDir vm ++ [fcMemFile]) memDst)
  end.

Definition pool_put (lang : string) (pair : SnapshotPair) (p : SnapshotPool) : SnapshotPool :=
  mkPool (<[lang := pair]> (sp_snapshots p)) (sp_cfg p) (sp_snapsDir p).

Definition snap_file (snapsDir : path) (lang : string) : path := snapsDir ++ [lang ++s ".snap"].
Definition mem_file (snapsDir : path) (lang : string) : path := snapsDir ++ [lang ++s ".mem"].

(** The part of [snapshotLanguage] under the deferred kill and cleanup. *)
Definition capture (env : boot_env) (snapsDir : path) (lang : string) (vm : fcVM)
  : M fc_host string () :=
  match waitForAgent (be_clock env lang) (be_dials env lang) (be_start env lang) (30 * time_Second) with
  | Some true =>
      match be_MkdirAll env lang with
      | Some e => fail ("create snapshots dir: " ++s e)
      | None =>
          map_err (fun e => "take snapshot: " ++s e)
            (takeSnapshot env lang vm (snap_file snapsDir lang) (mem_file snapsDir lang))
      end
  | _ => fail ("agent not ready: " ++s not_ready (30 * time_Second))
  end.

Definition capture_language (env : boot_env) (cfg : FCConfig) (snapsDir : path) (lang : string)
    (rootfsPath : path) : M fc_host string () :=
  vm ← map_err (fun e => "boot VM: " ++s e) (bootFreshVM env cfg lang rootfsPath);
  with_defer (fun h => vm_cleanup (be_RemoveAll env lang) vm (vm_kill (be_StopVMM env lang) vm h))
    (capture env snapsDir lang vm).

Definition snapshotLanguage (env : boot_env) (lang : string) (rootfsPath : path)
  : M (SnapshotPool * fc_host) string () := fun '(p, h) =>
  match capture_language env (sp_cfg p) (sp_snapsDir p) lang rootfsPath h with
  | (h, Err e) => ((p, h), Err e)
  | (h, Ok _) =>
      ((pool_put lang (snap_file (sp_snapsDir p) lang, mem_file (sp_snapsDir p) lang) p, h), Ok tt)
  end.

(** [Init] ranges over a map, in an order of its own: the list is that map's. *)
Fixpoint Init (env : boot_env) (rootfsByLang : list (string * path))
  : M (SnapshotPool * fc_host) string () :=
  match rootfsByLang with
  | [] => mret tt
  | (lang, rootfs) :: rest =>
      _ ← map_err (fun e => "snapshot " ++s lang ++s ": " ++s e) (snapshotLanguage env lang rootfs);
      Init env rest
  end.

Definition Pool_Get (p : SnapshotPool) (lang : string) : option SnapshotPair :=
  sp_snapshots p !! lang.

(** [Languages] ranges over a map, in no particular order. *)
Definition Pool_Languages (p : SnapshotPool) : gset string := dom (sp_snapshots p).

(** ** The executor *)

Record FirecrackerExecutor := mkFirecracker {
  fx_pool : SnapshotPool;
  fx_languages : gmap string LangConfig;
  fx_cfg : FCConfig
}.

Definition NewFirecrackerExecutor (env : boot_env) (fc : FCConfig)
    (languages : gmap string LangConfig) (rootfsByLang : list (string * path))
  : M fc_host string FirecrackerExecutor := fun h =>
  match Init env rootfsByLang (NewSnapshotPool fc (fc_SnapshotsDir fc), h) with
  | ((_, h), Err e) => (h, Err ("snapshot pool init: " ++s e))
  | ((pool, h), Ok _) => (h, Ok (mkFirecracker pool languages fc))
  end.

Definition fc_with_wall_time (env : fc_env) (m : M fc_host string ExecutionResult)
  : M fc_host string ExecutionResult :=
  res ← m;
  mret (mkExecutionResult (er_OverallVerdict res) (er_TotalTimeMs res) (er_MaxMemoryKb res)
          (Some (fe_wall_ms env)) (er_CompilerOutput res) (er_TestcaseResults res)).

(** After the restore: the part under the deferred kill and cleanup. *)
Definition fc_in_vm (env : fc_env) (start : Z) (agent : fcJobRequest -> list string)
    (a : Assignment) (lang : LangConfig) : M fc_host string ExecutionResult :=
  match waitForAgent (fe_clock env) (fe_dials env) start (10 * time_Second) with
  | Some true =>
      match json_Marshal_tcs (a_TestCases a) with
      | Err e => fail ("marshal test cases: " ++s e)
      | Ok tcJSON =>
          match fc_runJob env agent (job_request a lang tcJSON) with
          | Err e => mret (failResult ("run job: " ++s e))
          | Ok output => mret (parseResults a output)
          end
      end
  | _ => mret (failResult ("agent not ready: " ++s not_ready (10 * time_Second)))
  end.

Definition fc_Execute (e : FirecrackerExecutor) (env : fc_env) (start : Z)
    (agent : fcJobRequest -> list string) (a : Assignment) : M fc_host string ExecutionResult :=
  fc_with_wall_time env
    match fx_languages e !! a_Language a with
    | None => mret (failResult ("unsupported language: " ++s a_Language a))
    | Some lang =>
        match Pool_Get (fx_pool e) (a_Language a) with
        | None => mret (failResult ("no snapshot for language: " ++s a_Language a))
        | Some (snapFile, memFile) =>
            vm ← attempt (restoreVM env (fx_cfg e) snapFile memFile);
            match vm with
            | Err e => mret (failResult ("restore VM: " ++s e))
            | Ok vm =>
                with_defer (fun h => vm_cleanup (fe_RemoveAll env) vm (vm_kill (fe_StopVMM env) vm h))
                  (fc_in_vm env start agent a lang)
            end
        end
    end.

End Executor.

(** ** The agent inside the VM *)

Inductive run_outcome :=
  | Printed (out : string)
  | RunFailed (err stderr : string).

(** The file system's answers, what running a command gives on the files, and
    the JSON text of a string. *)
Record agent_env := mkAgentEnv {
  ae_MkdirAll : option string;
  ae_WriteFile : string -> option string;
  ae_Output : list string -> gmap string string -> run_outcome;
  ae_Marshal : string -> string
}.

Definition agent_write (env : agent_env) (name content : string)
  : M (gmap string string) string () := fun files =>
  match ae_WriteFile env name with
  | Some e => (files, Err e)
  | None => (<[name := content]> files, Ok tt)
  end.

Definition prepareWorkspace (env : agent_env) (req : fcJobRequest)
  : M (gmap string string) string () :=
  match ae_MkdirAll env with
  | Some e => fail e
  | None =>
      _ ← agent_write env ("/workspace/" ++s jq_SourceFile req) (jq_SourceText req);
      _ ← agent_write env ("/workspace/" ++s jq_RunnerFile req) (jq_RunnerText req);
      agent_write env "/workspace/tests.json" (jq_TestsJSON req)
  end.

Definition writeInternalError (env : agent_env) (msg : string) : string :=
  let field name value := quoted name ++s ":" ++s value in
  "[{" ++s field "id" (quoted "internal") ++s "," ++s
  field "verdict" (quoted "InternalError") ++s "," ++s field "time_ms" "0" ++s "," ++s
  field "actual" (quoted "") ++s "," ++s field "stdout" (quoted "") ++s "," ++s
  field "stderr" (ae_Marshal env msg) ++s "}]" ++s nl.

(** [handleConn]: the bytes written to the connection; [None] is a request
    that does not decode. *)
Definition handleConn (env : agent_env) (req : option fcJobRequest)
    (files : gmap string string) : gmap string string * string :=
  match req with
  | None => (files, "")
  | Some req =>
      if jq_Ping req then (files, "[]" ++s nl)
      else
        match prepareWorkspace env req files with
        | (files', Err e) => (files', writeInternalError env ("workspace setup: " ++s e))
        | (files', Ok _) =>
            match jq_RunCmd req with
            | [] => (files', writeInternalError env "empty run_cmd")
            | cmd =>
                match ae_Output env cmd files' with
                | RunFailed err stderr =>
                    (files', writeInternalError env
                               ("runner: " ++s err ++s " — " ++s stderr))
                | Printed out => (files', out)
                end
            end
        end
  end.

(** The accept loop over what [Accept] has given so far: a failure is logged
    and the loop goes on; connections are served one after the other. *)
Fixpoint accept_loop (env : agent_env) (accepted : list (result string (option fcJobRequest)))
    (files : gmap string string) : gmap string string * list string :=
  match accepted with
  | [] => (files, [])
  | Err _ :: rest => accept_loop env rest files
  | Ok req :: rest =>
      let '(files, out) := handleConn env req files in
      let '(files, outs) := accept_loop env rest files in
      (files, out :: outs)
  end.

Definition vsockPort : Z := 52000.

(** [main]: the socket, then the loop, which does not end; an error here is
    what [fatalf] prints before the process exits. *)
Definition agent_main (env : agent_env) (socket bind listen : option string)
    (accepted : list (result string (option fcJobRequest))) (files : gmap string string)
  : result string (gmap string string * list string) :=
  let fatalf msg := Err ("fc-agent: " ++s msg ++s nl) in
  match socket, bind, listen with
  | Some e, _, _ => fatalf ("socket: " ++s e)
  | None, Some e, _ => fatalf ("bind vsock port " ++s show_int vsockPort ++s ": " ++s e)
  | None, None, Some e => fatalf ("listen: " ++s e)
  | None, None, None => Ok (accept_loop env accepted files)
  end.

(** ** The choice of executor *)

(** [worker.Config], with the shared part of [internal/config]. *)
Record Config := mkConfig {
  wc_Environment : string;
  wc_LogLevel : string;
  wc_WorkerID : string;
  wc_Languages : string;
  wc_Capacity : Z;
  wc_ControlPlaneURL : string;
  wc_ControlPlaneKey : string;
  wc_HeartbeatIntervalSec : Z;
  wc_PollIntervalMs : Z;
  wc_LeaseRenewalIntervalSec : Z;
  wc_AllowStubExecutor : bool;
  wc_Executor : string;
  wc_DockerRuntime : string;
  wc_FCBin : string;
  wc_JailerBin : string;
  wc_FCKernel : string;
  wc_FCRootfsDir : path;
  wc_FCSnapshotsDir : path;
  wc_FCChrootBase : path;
  wc_FCJailerUID : Z;
  wc_FCJailerGID : Z;
  wc_FCVCPU : Z;
  wc_FCMemMB : Z
}.

Inductive executor :=
  | Firecracker (e : FirecrackerExecutor)
  | Docker (languages : gmap string LangConfig) (runtime : string)
  | Stub.

(** [client] is the error with which the Docker client is refused; making
    one contacts no daemon. *)
Definition NewDockerExecutor (client : option string) (languages : gmap string LangConfig)
    (runtime : string) : result string executor :=
  let runtime := if bool_decide (runtime = "") then "runc" else runtime in
  match client with
  | Some e => Err ("connect to docker daemon: " ++s e)
  | None => Ok (Docker languages runtime)
  end.

Definition fc_config (cfg : Config) : FCConfig :=
  mkFCConfig (wc_FCBin cfg) (wc_JailerBin cfg) (wc_FCKernel cfg) (wc_FCChrootBase cfg)
    (wc_FCSnapshotsDir cfg) (wc_FCJailerUID cfg) (wc_FCJailerGID cfg) (wc_FCVCPU cfg)
    (wc_FCMemMB cfg).

Definition rootfs_by_lang (cfg : Config) : gmap string path :=
  list_to_map ((fun lang => (lang, wc_FCRootfsDir cfg ++ [lang ++s ".ext4"])) <$>
                 LanguageList (wc_Languages cfg)).

Section Choice.
Context `{GoUnicode} (order : gmap string path -> list (string * path)).

Definition buildFirecrackerExecutor (env : boot_env) (cfg : Config) (templates : runner_templates)
  : M fc_host string executor :=
  e ← map_err (fun e => "firecracker executor: " ++s e)
        (NewFirecrackerExecutor env (fc_config cfg) (DefaultLanguages templates)
           (order (rootfs_by_lang cfg)));
  mret (Firecracker e).

Definition buildDockerExecutor (client : option string) (cfg : Config) (templates : runner_templates)
  : result string executor :=
  match NewDockerExecutor client (DefaultLanguages templates) (wc_DockerRuntime cfg) with
  | Ok e => Ok e
  | Err e =>
      if negb (wc_AllowStubExecutor cfg) then
        Err ("docker executor unavailable (set WORKER_ALLOW_STUB_EXECUTOR=true for stub fallback): "
             ++s e)
      else Ok Stub
  end.

Definition buildExecutor (env : boot_env) (client : option string) (cfg : Config)
    (templates : runner_templates) : M fc_host string executor :=
  if bool_decide (ToLower (wc_Executor cfg) = "firecracker")
  then buildFirecrackerExecutor env cfg templates
  else lift (buildDockerExecutor client cfg templates).

End Choice.

(** ** Execute, whichever backend it is

    The host of the Docker backend and that of the Firecracker backend side
    by side. *)

Definition Execute `{TestCaseJSON} `{GoUnicode} `{RunnerJSON} (e : executor) (denv : docker_env)
    (fenv : fc_env) (start : Z) (agent : fcJobRequest -> list string) (a : Assignment)
  : M (host * fc_host) string ExecutionResult :=
  match e with
  | Docker languages runtime => on_first (docker_Execute denv languages runtime a)
  | Firecracker e => on_second (fc_Execute e fenv start agent a)
  | Stub => lift (Stub_Execute a)
  end.
