(* ===== verification/FirecrackerTheorems.v ===== *)
(** * Worker: what the Firecracker executor guarantees

    Containment of one execution, the snapshots that all executions share, and
    how the backends compare. *)

From S2P Require Import Prelude GoStrings HostFiles CPDomain JobRepo WorkerConfig RunnerOutput.
From S2P Require Import RunnerTheorems DockerExec FirecrackerExec.

(** ** Directories *)

Definition chroots (cfg : FCConfig) : path := fc_ChrootBase cfg ++ ["firecracker"].
Definition vm_dir (cfg : FCConfig) (vmID : string) : path := fc_ChrootBase cfg ++ ["firecracker"; vmID].

Lemma vm_dir_chroots cfg id : vm_dir cfg id = chroots cfg ++ [id].
Proof. unfold vm_dir, chroots. by rewrite <- app_assoc. Qed.

Lemma workspaceDir_vm_dir cfg id : workspaceDir cfg id = vm_dir cfg id ++ ["root"].
Proof. unfold workspaceDir, vm_dir. by rewrite <- app_assoc. Qed.

Lemma vm_dir_prefix_inj cfg id id' (p : path) :
  vm_dir cfg id `prefix_of` p -> vm_dir cfg id' `prefix_of` p -> id = id'.
Proof.
  rewrite !vm_dir_chroots. intros [k ->] [k' Heq].
  rewrite <- !app_assoc in Heq. apply app_inv_head in Heq. by injection Heq.
Qed.

Lemma vm_dir_inj cfg id id' : vm_dir cfg id = vm_dir cfg id' -> id = id'.
Proof. intros Heq. by apply (vm_dir_prefix_inj cfg _ _ (vm_dir cfg id)); rewrite ?Heq. Qed.

Lemma below_vm_dir cfg id (q : path) : vm_dir cfg id `prefix_of` workspaceDir cfg id ++ q.
Proof. rewrite workspaceDir_vm_dir, <- app_assoc. by eexists. Qed.

Lemma below_chroots cfg id (p : path) : vm_dir cfg id `prefix_of` p -> chroots cfg `prefix_of` p.
Proof. rewrite vm_dir_chroots. intros [k ->]. rewrite <- app_assoc. by eexists. Qed.

(** [cleanup] removes the directory the machine was given. *)
Lemma vm_cleanup_spec answer cfg id h : vm_cleanup answer (vm_of cfg id) h = cleanupVM answer cfg id h.
Proof.
  unfold vm_cleanup, vm_of. cbn [vm_wsDir]. rewrite workspaceDir_vm_dir, path_Dir_snoc.
  rewrite vm_dir_chroots, path_Base_snoc, path_Dir_snoc. unfold chroots. by rewrite path_Dir_snoc.
Qed.

(** ** Well-formed hosts: files are below known directories only *)

Record host_wf (cfg : FCConfig) (h : fc_host) : Prop := {
  hw_files : files_wf (fh_files h);
  hw_chroots : forall id p, is_Some (fs_names (fh_files h) !! p) ->
    vm_dir cfg id `prefix_of` p -> vm_dir cfg id ∈ fh_dirs h
}.

Lemma fresh_name cfg h id (q : path) :
  host_wf cfg h -> vm_dir cfg id ∉ fh_dirs h -> fs_names (fh_files h) !! (workspaceDir cfg id ++ q) = None.
Proof.
  intros [_ Hc] Hd. apply eq_None_not_Some. intros Hs. apply Hd, (Hc _ _ Hs), below_vm_dir.
Qed.

(** Nothing outside directory [dir] has changed. *)
Definition same_outside (dir : path) (fs fs' : files) : Prop :=
  forall p, ~ dir `prefix_of` p ->
    fs_names fs' !! p = fs_names fs !! p /\ contents fs' p = contents fs p.

Lemma same_outside_trans dir fs1 fs2 fs3 :
  same_outside dir fs1 fs2 -> same_outside dir fs2 fs3 -> same_outside dir fs1 fs3.
Proof. intros H12 H23 p Hp. destruct (H12 p Hp), (H23 p Hp). split; congruence. Qed.

#[export] Instance same_outside_refl dir : Reflexive (same_outside dir).
Proof. by intros fs p. Qed.

(** A change of one new name below [dir]. *)
Lemma touches_below dir dst fs fs' :
  files_wf fs -> touches_only dst fs fs' -> fs_names fs !! dst = None -> dir `prefix_of` dst ->
  same_outside dir fs fs'.
Proof.
  intros Hwf Ht Hdst Hdir p Hp. assert (p <> dst) by (by intros ->).
  split; [by apply Ht | by eapply touches_new_name].
Qed.

Lemma remove_below_outside dir fs : same_outside dir fs (remove_below dir fs).
Proof.
  intros p Hp. split; [| by apply remove_below_contents].
  rewrite remove_below_names. by rewrite decide_False.
Qed.

Lemma remove_some_outside keep dir fs : same_outside dir fs (remove_some keep dir fs).
Proof.
  intros p Hp. split; [| by apply remove_some_contents].
  rewrite remove_some_names. rewrite decide_True; [done | by left].
Qed.

(** ** The restore *)

Lemma two_files (ws : path) : ws ++ [fcMemFile] <> ws ++ [fcSnapshotFile].
Proof. by intros ?%app_inv_head. Qed.

(** The chroot is filled without touching anything else, and holds copies of
    the two files when it succeeds. *)
Lemma fill_chroot_cases env cfg (snapFile memFile : path) h fs' r :
  host_wf cfg h -> vm_dir cfg (fe_vmID env) ∉ fh_dirs h ->
  ~ chroots cfg `prefix_of` snapFile -> ~ chroots cfg `prefix_of` memFile ->
  fill_chroot env cfg snapFile memFile (fh_files h) = (fs', r) ->
  files_wf fs' /\ same_outside (vm_dir cfg (fe_vmID env)) (fh_files h) fs' /\
  match r with
  | Err e => exists why, e = "copy " ++s why
  | Ok _ =>
      exists s m, contents (fh_files h) snapFile = Some s /\ contents (fh_files h) memFile = Some m /\
        contents fs' (workspaceDir cfg (fe_vmID env) ++ [fcSnapshotFile]) = Some s /\
        contents fs' (workspaceDir cfg (fe_vmID env) ++ [fcMemFile]) = Some m
  end.
Proof.
  intros Hwf Hd Hsnap Hmem. unfold fill_chroot. mrun.
  set (ws := workspaceDir cfg (fe_vmID env)). set (fs := fh_files h).
  pose proof (fresh_name cfg h (fe_vmID env) [fcSnapshotFile] Hwf Hd) as Hn1.
  pose proof (fresh_name cfg h (fe_vmID env) [fcMemFile] Hwf Hd) as Hn2.
  fold ws fs in Hn1, Hn2. pose proof (hw_files _ _ Hwf) as Hfwf. fold fs in Hfwf.
  pose proof (copyFile_cases (fe_copySnapshot env) snapFile (ws ++ [fcSnapshotFile]) fs Hfwf) as H1.
  destruct (copyFile (fe_copySnapshot env) snapFile _ fs) as [fs1 r1].
  destruct H1 as (Hwf1 & Ht1 & _ & Hr1).
  pose proof (touches_below _ _ _ _ Hfwf Ht1 Hn1 (below_vm_dir cfg (fe_vmID env) _)) as Ho1.
  destruct r1 as [[] | e]; [| intros [= <- <-]; split_and!; [done | done | by eexists]].
  destruct Hr1 as (s & Hs & Hs'). 
  assert (fs_names fs1 !! (ws ++ [fcMemFile]) = None) as Hn2'.
  { rewrite (to_names _ _ _ Ht1); [done |]. apply two_files. }
  pose proof (copyFile_cases (fe_copyMem env) memFile (ws ++ [fcMemFile]) fs1 Hwf1) as H2.
  destruct (copyFile (fe_copyMem env) memFile _ fs1) as [fs2 r2].
  destruct H2 as (Hwf2 & Ht2 & _ & Hr2).
  pose proof (touches_below _ _ _ _ Hwf1 Ht2 Hn2' (below_vm_dir cfg (fe_vmID env) _)) as Ho2.
  pose proof (same_outside_trans _ _ _ _ Ho1 Ho2) as Ho.
  destruct r2 as [[] | e]; intros [= <- <-]; split_and!; try done; [| by eexists].
  destruct Hr2 as (m & Hm & Hm'). exists s, m.
  assert (forall f : path, ~ chroots cfg `prefix_of` f -> ~ vm_dir cfg (fe_vmID env) `prefix_of` f) as Hnot.
  { intros f Hf Hp. by apply Hf, (below_chroots cfg (fe_vmID env)). }
  destruct (Ho1 memFile (Hnot _ Hmem)) as [_ Hmc].
  split_and!; [done | by rewrite <- Hmc | |].
  - rewrite (touches_new_name _ _ _ _ Hwf1 Ht2 Hn2'); [| intros Heq; by apply (two_files ws)].
    apply Hs'. rewrite Hn1. intros Hn. unfold contents in Hs. by rewrite Hn in Hs.
  - apply Hm'. rewrite Hn2'. intros Hn. unfold contents in Hm. by rewrite Hn in Hm.
Qed.

(** The directories and files are as they were. *)
Record as_before (h h' : fc_host) : Prop := {
  ab_dirs : fh_dirs h' = fh_dirs h;
  ab_wf : files_wf (fh_files h) -> files_wf (fh_files h');
  ab_files : forall p, fs_names (fh_files h') !! p = fs_names (fh_files h) !! p /\
    contents (fh_files h') p = contents (fh_files h) p
}.

#[export] Instance as_before_refl : Reflexive as_before.
Proof. by split. Qed.

(** Directory [dir] has been left with some files below it. *)
Record leaves (dir : path) (h h' : fc_host) : Prop := {
  lv_dirs : fh_dirs h' = {[dir]} ∪ fh_dirs h;
  lv_wf : files_wf (fh_files h) -> files_wf (fh_files h');
  lv_files : same_outside dir (fh_files h) (fh_files h')
}.

(** A removal of [dir] has been tried: it is gone, unless that failed. *)
Definition after_removal (answer : option (path -> bool)) (dir : path) (h h' : fc_host) : Prop :=
  as_before h h' \/ is_Some answer /\ leaves dir h h'.

(** Machine [id] has been stopped, unless that failed. *)
Definition after_stop (answer : option string) (cfg : FCConfig) (id : string)
    (vms vms' : gmap string machine_config) : Prop :=
  vms' = vms \/ is_Some answer /\ vms' = <[id := restore_config cfg id]> vms.

(** The removal of a machine's directory undoes what was done below it. *)
Lemma cleaned answer cfg id h vms log fs :
  host_wf cfg h -> vm_dir cfg id ∉ fh_dirs h -> files_wf fs ->
  same_outside (vm_dir cfg id) (fh_files h) fs ->
  after_removal answer (vm_dir cfg id) h
    (cleanupVM answer cfg id (mkFcHost ({[vm_dir cfg id]} ∪ fh_dirs h) vms log fs)).
Proof.
  intros [_ Hc] Hd Hwf Ho. unfold cleanupVM. destruct answer as [keep |].
  { right. split; [by eexists |]. split; cbn -[remove_some]; [done | intros _; by apply remove_some_wf |].
    eapply same_outside_trans; [exact Ho | apply remove_some_outside]. }
  left. split; cbn -[remove_below].
  - fold (vm_dir cfg id). set_solver.
  - intros _. by apply remove_below_wf.
  - intros p. fold (vm_dir cfg id). destruct (decide (vm_dir cfg id `prefix_of` p)) as [Hp | Hp].
    + assert (fs_names (fh_files h) !! p = None) as Hnone.
      { apply eq_None_not_Some. intros Hs. by apply Hd, (Hc _ p). }
      unfold contents. rewrite remove_below_names, decide_True by done. by rewrite Hnone.
    + destruct (Ho p Hp), (remove_below_outside (vm_dir cfg id) fs p Hp). split; congruence.
Qed.

Lemma cleanupVM_vms answer cfg id h : fh_vms (cleanupVM answer cfg id h) = fh_vms h.
Proof. by destruct answer. Qed.

Lemma stopVMM_files answer id h :
  stopVMM answer id h = mkFcHost (fh_dirs h) (fh_vms (stopVMM answer id h)) (fh_started h) (fh_files h).
Proof. destruct answer; [by destruct h | done]. Qed.

Lemma stopped answer cfg id h vms :
  fh_vms h !! id = None -> vms = fh_vms h \/ vms = <[id := restore_config cfg id]> (fh_vms h) ->
  forall dirs log fs,
  after_stop answer cfg id (fh_vms h) (fh_vms (stopVMM answer id (mkFcHost dirs vms log fs))).
Proof.
  intros Hv Hvms dirs log fs. unfold after_stop. destruct answer as [e |]; cbn.
  - destruct Hvms as [-> | ->]; [by left | right; eauto].
  - left. destruct Hvms as [-> | ->]; [by apply delete_id | by apply delete_insert_id].
Qed.

(** What the start of a restored machine adds to the log. *)
Definition restored (cfg : FCConfig) (id : string) (s m : string) : started_vm :=
  mkStarted (restore_config cfg id) (Some s) (Some m).

Definition logs_restore (cfg : FCConfig) (id : string) (snapFile memFile : path) (h h' : fc_host) : Prop :=
  fh_started h' = fh_started h \/
  exists s m, contents (fh_files h) snapFile = Some s /\ contents (fh_files h) memFile = Some m /\
    fh_started h' = fh_started h ++ [restored cfg id s m].

Definition failed {E A} (r : result E A) : bool := match r with Ok _ => false | Err _ => true end.

(** The chroot directory has been made and nothing will remove it: MkdirAll
    has failed half-way, or a snapshot file could not be copied. *)
Definition gives_up {A} (env : fc_env) (filled : result string A) : bool :=
  match fe_MkdirAll env with Some (made, _) => made | None => failed filled end.

(** The three ways a restore ends: running, abandoned before the machine is
    configured, or failed after the clean-up. *)
Lemma restoreVM_cases env cfg (snapFile memFile : path) h :
  let id := fe_vmID env in
  host_wf cfg h -> vm_dir cfg id ∉ fh_dirs h -> fh_vms h !! id = None ->
  ~ chroots cfg `prefix_of` snapFile -> ~ chroots cfg `prefix_of` memFile ->
  let '(fs, filled) := fill_chroot env cfg snapFile memFile (fh_files h) in
  let '(h', r) := restoreVM env cfg snapFile memFile h in
  logs_restore cfg id snapFile memFile h h' /\
  match r with
  | Ok vm => gives_up env filled = false /\ vm = vm_of cfg id /\
      exists log, h' = mkFcHost ({[vm_dir cfg id]} ∪ fh_dirs h)
                         (<[id := restore_config cfg id]> (fh_vms h)) log fs
  | Err e =>
      after_stop (fe_StopVMM env) cfg id (fh_vms h) (fh_vms h') /\
      if gives_up env filled then leaves (vm_dir cfg id) h h' /\ fh_vms h' = fh_vms h
      else after_removal (fe_RemoveAll env) (vm_dir cfg id) h h'
  end.
Proof.
  intros id Hwf Hd Hv Hsnap Hmem.
  destruct (fill_chroot env cfg snapFile memFile (fh_files h)) as [fs filled] eqn:Ef.
  destruct (fill_chroot_cases _ _ _ _ _ _ _ Hwf Hd Hsnap Hmem Ef) as (Hfwf & Ho & Hcopied).
  unfold restoreVM, gives_up. rewrite workspaceDir_vm_dir, path_Dir_snoc.
  destruct (fe_MkdirAll env) as [[[] e] |].
  1: by split_and!; [left | left | split |].
  1: by split_and!; [left | left | left].
  mrun. unfold on_files. cbn [fh_files add_dir]. rewrite Ef. fold id in Ho, Hcopied |- *.
  destruct filled as [[] | e]; cbn [failed];
    [| by split_and!; [left | left | split |]].
  destruct Hcopied as (s & m & Hs & Hm & Hs' & Hm').
  unfold start_restored, start_machine. fold id. cbn [fh_files set_files].
  rewrite Hs', Hm'. destruct (fe_NewMachine env _) as [e |].
  { split; [left; by destruct (fe_RemoveAll env) |]. rewrite cleanupVM_vms. split; [by left | by apply cleaned]. }
  destruct (fe_Start env _) as [[running e] |].
  - rewrite cleanupVM_vms, stopVMM_files. cbn [fh_dirs fh_vms fh_started fh_files].
    split; [right; exists s, m; by destruct (fe_RemoveAll env) |].
    split; [| by apply cleaned]. apply stopped; [done |]. destruct running; [by right | by left].
  - split; [right; by exists s, m |]. split_and!; try done. by eexists.
Qed.

(** ** One execution *)

Section Execution.
Context `{TestCaseJSON} `{GoUnicode} `{RunnerJSON}.

Lemma fc_in_vm_host env start agent a lang h :
  (fc_in_vm env start agent a lang h).1 = h /\
  forall e, (fc_in_vm env start agent a lang h).2 = Err e ->
    exists why, e = "marshal test cases: " ++s why.
Proof.
  unfold fc_in_vm. mrun. repeat case_match; split; simpl; try done; intros e' [= <-]; eauto.
Qed.

(** The wait ends within its fuel when the clock moves at least as far as the
    sleeps. *)
Lemma wait_loop_total fuel deadline clock dials k :
  (forall i, clock i + 200 * time_Millisecond <= clock (S i)) ->
  deadline - clock k <= Z.of_nat fuel * (200 * time_Millisecond) ->
  is_Some (wait_loop (S fuel) deadline clock dials k).
Proof.
  intros Hclock. revert k. induction fuel as [| fuel IH]; intros k Hk.
  - simpl. destruct (Z.ltb_spec (clock k) deadline); [lia | eauto].
  - cbn [wait_loop]. destruct (clock k <? deadline); [| eauto].
    destruct (dials_ok (dials k)); [eauto |]. apply IH. specialize (Hclock k). lia.
Qed.

Lemma waitForAgent_total clock dials start timeout :
  (forall i, clock i + 200 * time_Millisecond <= clock (S i)) ->
  start <= clock 0%nat -> 0 <= timeout ->
  is_Some (waitForAgent clock dials start timeout).
Proof.
  intros Hclock Hstart Ht. apply wait_loop_total; [done |].
  unfold time_Millisecond in *.
  pose proof (Z.div_mod timeout (200 * 1000000)). pose proof (Z.mod_pos_bound timeout (200 * 1000000)).
  assert (0 <= timeout / (200 * 1000000)) by (apply Z.div_pos; lia). lia.
Qed.

(** The pool's files are outside the directory of the chroots. *)
Definition pool_outside (e : FirecrackerExecutor) : Prop :=
  forall lang snapFile memFile, Pool_Get (fx_pool e) lang = Some (snapFile, memFile) ->
    ~ chroots (fx_cfg e) `prefix_of` snapFile /\ ~ chroots (fx_cfg e) `prefix_of` memFile.

(** The restore gives up after making the chroot directory and before the
    first call that would remove it. *)
Definition abandons_chroot (e : FirecrackerExecutor) (env : fc_env) (a : Assignment) (h : fc_host)
  : bool :=
  match fx_languages e !! a_Language a, Pool_Get (fx_pool e) (a_Language a) with
  | Some _, Some (snapFile, memFile) =>
      gives_up env (fill_chroot env (fx_cfg e) snapFile memFile (fh_files h)).2
  | _, _ => false
  end.

(** A machine without network, drives or processors of its own, jailed under
    its own name. *)
Definition confined (cfg : FCConfig) (id : string) (v : started_vm) : Prop :=
  mc_NetworkInterfaces (sv_config v) = [] /\ mc_Drives (sv_config v) = [] /\
  jl_ID (mc_JailerCfg (sv_config v)) = id /\
  jl_ChrootBaseDir (mc_JailerCfg (sv_config v)) = fc_ChrootBase cfg /\
  jl_UID (mc_JailerCfg (sv_config v)) = fc_JailerUID cfg /\
  jl_GID (mc_JailerCfg (sv_config v)) = fc_JailerGID cfg.

Lemma logs_confined cfg id snapFile memFile h h' :
  logs_restore cfg id snapFile memFile h h' ->
  fh_started h' = fh_started h \/ exists v, fh_started h' = fh_started h ++ [v] /\ confined cfg id v.
Proof.
  intros [-> | (s & m & _ & _ & ->)]; [by left | right]. eexists. split; [done |].
  by split_and!.
Qed.

Lemma fc_Execute_host e env start agent a h :
  let id := fe_vmID env in let dir := vm_dir (fx_cfg e) id in
  host_wf (fx_cfg e) h -> pool_outside e -> dir ∉ fh_dirs h -> fh_vms h !! id = None ->
  let h' := (fc_Execute e env start agent a h).1 in
  after_stop (fe_StopVMM env) (fx_cfg e) id (fh_vms h) (fh_vms h') /\
  (if abandons_chroot e env a h then leaves dir h h' /\ fh_vms h' = fh_vms h
   else after_removal (fe_RemoveAll env) dir h h') /\
  (fh_started h' = fh_started h \/
   exists v, fh_started h' = fh_started h ++ [v] /\ confined (fx_cfg e) id v) /\
  match (fc_Execute e env start agent a h).2 with
  | Ok r => er_WallTimeMs r = Some (fe_wall_ms env)
  | Err err => exists why, err = "marshal test cases: " ++s why
  end.
Proof.
  intros id dir Hwf Hout Hd Hv. unfold fc_Execute, fc_with_wall_time, abandons_chroot. mrun.
  destruct (fx_languages e !! a_Language a) as [lang |];
    [| by split_and!; [left | left | left |]].
  destruct (Pool_Get (fx_pool e) (a_Language a)) as [[snapFile memFile] |] eqn:Ep;
    [| by split_and!; [left | left | left |]].
  destruct (Hout _ _ _ Ep) as [Hsnap Hmem].
  pose proof (restoreVM_cases env (fx_cfg e) snapFile memFile h Hwf Hd Hv Hsnap Hmem) as Hcases.
  destruct (fill_chroot env (fx_cfg e) snapFile memFile (fh_files h)) as [fs filled] eqn:Ef.
  destruct (fill_chroot_cases _ _ _ _ _ _ _ Hwf Hd Hsnap Hmem Ef) as (Hfwf & Ho & _).
  destruct (restoreVM env (fx_cfg e) snapFile memFile h) as [h1 [vm | err]];
    destruct Hcases as [Hlog%logs_confined Hcases]; cbn [snd fst].
  - destruct Hcases as (-> & -> & log & ->). unfold with_defer. set (h1 := mkFcHost _ _ _ _) in *.
    pose proof (fc_in_vm_host env start agent a lang h1) as [Hh He].
    destruct (fc_in_vm env start agent a lang h1) as [h2 res]; cbn [fst snd] in Hh, He; subst h2.
    rewrite vm_cleanup_spec. unfold vm_kill. cbn [vm_id vm_of].
    assert (forall h2, h2 = cleanupVM (fe_RemoveAll env) (fx_cfg e) id (stopVMM (fe_StopVMM env) id h1) ->
      after_stop (fe_StopVMM env) (fx_cfg e) id (fh_vms h) (fh_vms h2) /\
      after_removal (fe_RemoveAll env) dir h h2 /\ fh_started h2 = fh_started h1) as Hafter.
    { intros h2 ->. rewrite cleanupVM_vms. split; [by apply stopped; [| right] |].
      rewrite stopVMM_files. split; [by apply cleaned | by destruct (fe_RemoveAll env)]. }
    destruct res as [res | err]; cbn [fst snd]; destruct (Hafter _ eq_refl) as (? & ? & Hst); fold id;
      (split_and!; [done | done | by rewrite Hst |]); [done | by apply He].
  - destruct Hcases as [Hs Hcases]. by split_and!.
Qed.

(** No answer of StopVMM and RemoveAll changes what is returned. *)
Definition with_answers (env : fc_env) (stop : option string) (removal : option (path -> bool)) : fc_env :=
  mkFcEnv (fe_vmID env) (fe_MkdirAll env) (fe_copySnapshot env) (fe_copyMem env) (fe_NewMachine env)
    (fe_Start env) stop removal (fe_clock env) (fe_dials env) (fe_dial env) (fe_send env)
    (fe_wall_ms env).

Lemma restoreVM_answers env stop removal cfg snapFile memFile h :
  let run := restoreVM env cfg snapFile memFile h in
  let run' := restoreVM (with_answers env stop removal) cfg snapFile memFile h in
  run'.2 = run.2 /\ (forall vm, run.2 = Ok vm -> run'.1 = run.1).
Proof.
  unfold restoreVM, start_restored, on_files. mrun.
  cbn [with_answers fe_vmID fe_MkdirAll fe_NewMachine fe_Start].
  change (fill_chroot (with_answers env stop removal)) with (fill_chroot env).
  destruct (fe_MkdirAll env) as [[[] e] |]; [done.. |].
  destruct (fill_chroot _ _ _ _ _) as [fs [[] | e]]; [| done].
  destruct (fe_NewMachine env _); [done |]. by destruct (start_machine _ _ _ _ _) as [h1 [[] | e]].
Qed.

Lemma answers_are_ignored e env stop removal start agent a h :
  (fc_Execute e (with_answers env stop removal) start agent a h).2 = (fc_Execute e env start agent a h).2.
Proof.
  unfold fc_Execute, fc_with_wall_time. mrun. destruct (fx_languages e !! a_Language a) as [lang |]; [| done].
  destruct (Pool_Get _ _) as [[snapFile memFile] |]; [| done].
  destruct (restoreVM_answers env stop removal (fx_cfg e) snapFile memFile h) as [Hres Hst].
  destruct (restoreVM env _ _ _ h) as [h1 [vm | err]],
    (restoreVM (with_answers env stop removal) _ _ _ h) as [h1' r1']; simpl in *; subst; [| done].
  rewrite (Hst vm eq_refl). unfold with_defer.
  change (fc_in_vm (with_answers env stop removal)) with (fc_in_vm env).
  by destruct (fc_in_vm env start agent a lang h1) as [h2 [r | err]].
Qed.

(** C18. Whatever the operating system, the jailer and the agent answer, one
    execution of the Firecracker executor starts at most one machine, without
    network, jailed under its own name in its own directory.  It stops the
    machine and removes the directory with all files below it; what is left
    is the machine if stopping it fails, and the directory if its removal
    fails or if the restore gives up before the machine is configured (the
    directory is made but not completely, or a snapshot file cannot be copied
    into it).  No other machine, directory or file changes.  It fails only
    when the test cases cannot be marshalled, every result carries the wall
    time, and none depends on whether stopping and removing succeed. *)
Theorem firecracker_execution_is_contained e env start agent a h :
  let id := fe_vmID env in let dir := vm_dir (fx_cfg e) id in
  host_wf (fx_cfg e) h -> pool_outside e -> dir ∉ fh_dirs h -> fh_vms h !! id = None ->
  let '(h', res) := fc_Execute e env start agent a h in
  after_stop (fe_StopVMM env) (fx_cfg e) id (fh_vms h) (fh_vms h') /\
  (if abandons_chroot e env a h then leaves dir h h' /\ fh_vms h' = fh_vms h
   else after_removal (fe_RemoveAll env) dir h h') /\
  (fh_started h' = fh_started h \/
   exists v, fh_started h' = fh_started h ++ [v] /\ confined (fx_cfg e) id v) /\
  match res with
  | Ok r => er_WallTimeMs r = Some (fe_wall_ms env)
  | Err err => exists why, err = "marshal test cases: " ++s why
  end /\
  forall stop removal, (fc_Execute e (with_answers env stop removal) start agent a h).2 = res.
Proof.
  intros id dir Hwf Hout Hd Hv.
  pose proof (fun stop removal => answers_are_ignored e env stop removal start agent a h) as Hsame.
  pose proof (fc_Execute_host e env start agent a h Hwf Hout Hd Hv) as (Hs & Hl & Hst & Hres).
  destruct (fc_Execute e env start agent a h) as [h' res]. by split_and!.
Qed.

End Execution.

(** ** The snapshots that all executions share

    Executions run concurrently, each in a machine and a directory of its
    own: between its restore and its end other executions restore and end. *)

Inductive fc_event :=
  | Restored (env : fc_env) (lang : string)
  | Ended (vmID : string) (stop : option string) (removal : option (path -> bool)).

Inductive fc_step (e : FirecrackerExecutor) : fc_host -> fc_event -> fc_host -> Prop :=
  | step_restored env lang snapFile memFile h :
      Pool_Get (fx_pool e) lang = Some (snapFile, memFile) ->
      vm_dir (fx_cfg e) (fe_vmID env) ∉ fh_dirs h -> fh_vms h !! fe_vmID env = None ->
      fc_step e h (Restored env lang) (restoreVM env (fx_cfg e) snapFile memFile h).1
  | step_ended id stop removal h :
      fc_step e h (Ended id stop removal)
        (vm_cleanup removal (vm_of (fx_cfg e) id) (vm_kill stop (vm_of (fx_cfg e) id) h)).

(** An execution is a restore and an end, or less. *)
Lemma fc_Execute_run `{TestCaseJSON} `{GoUnicode} `{RunnerJSON} e env start agent a h :
  host_wf (fx_cfg e) h -> pool_outside e ->
  vm_dir (fx_cfg e) (fe_vmID env) ∉ fh_dirs h -> fh_vms h !! fe_vmID env = None ->
  exists evs, run (fc_step e) h evs (fc_Execute e env start agent a h).1.
Proof.
  intros Hwf Hout Hd Hv. unfold fc_Execute, fc_with_wall_time. mrun.
  destruct (fx_languages e !! a_Language a) as [lang |]; [| exists []; constructor].
  destruct (Pool_Get (fx_pool e) (a_Language a)) as [[snapFile memFile] |] eqn:Ep;
    [| exists []; constructor].
  pose proof (step_restored e env _ _ _ h Ep Hd Hv) as Hstep.
  destruct (Hout _ _ _ Ep) as [Hsnap Hmem].
  pose proof (restoreVM_cases env (fx_cfg e) snapFile memFile h Hwf Hd Hv Hsnap Hmem) as Hcases.
  destruct (fill_chroot env (fx_cfg e) snapFile memFile (fh_files h)) as [fs filled].
  destruct (restoreVM env (fx_cfg e) snapFile memFile h) as [h1 [vm | err]];
    destruct Hcases as [_ Hcases]; [| exists [Restored env (a_Language a)]; by eapply run_cons; [| constructor]].
  destruct Hcases as (_ & -> & _).
  exists [Restored env (a_Language a); Ended (fe_vmID env) (fe_StopVMM env) (fe_RemoveAll env)]. eapply run_cons; [exact Hstep |].
  eapply run_cons; [| constructor]. unfold with_defer.
  pose proof (fc_in_vm_host env start agent a lang h1) as [Hh _].
  destruct (fc_in_vm env start agent a lang h1) as [h2 [r | err]]; cbn [fst] in Hh; subst h2;
    apply step_ended.
Qed.

(** What a host in service is like: the pool's files hold the snapshots that
    were captured, and are not below the chroots. *)
Record serves (e : FirecrackerExecutor) (captured : string -> option (string * string)) (h : fc_host)
  : Prop := {
  se_wf : host_wf (fx_cfg e) h;
  se_outside : pool_outside e;
  se_pool : forall lang snapFile memFile, Pool_Get (fx_pool e) lang = Some (snapFile, memFile) ->
    exists s m, captured lang = Some (s, m) /\
      contents (fh_files h) snapFile = Some s /\ contents (fh_files h) memFile = Some m
}.

(** A change below one chroot keeps the host in service. *)
Lemma serves_outside e captured h h' id :
  serves e captured h -> host_wf (fx_cfg e) h' ->
  same_outside (vm_dir (fx_cfg e) id) (fh_files h) (fh_files h') -> serves e captured h'.
Proof.
  intros [Hwf Hout Hpool] Hwf' Ho. split; [done | done |]. intros lang snapFile memFile Ep.
  destruct (Hpool _ _ _ Ep) as (s & m & Hc & Hs & Hm). destruct (Hout _ _ _ Ep) as [Hsnap Hmem].
  exists s, m. destruct (Ho snapFile) as [_ ->]; [by intros ?%below_chroots |].
  by destruct (Ho memFile) as [_ ->]; [by intros ?%below_chroots |].
Qed.

Lemma as_before_wf cfg h h' : as_before h h' -> host_wf cfg h -> host_wf cfg h'.
Proof.
  intros [Hd Hw Hf] [Hwf Hc]. split; [by apply Hw |].
  intros id p. destruct (Hf p) as [-> _]. rewrite Hd. apply Hc.
Qed.

Lemma as_before_outside h h' dir : as_before h h' -> same_outside dir (fh_files h) (fh_files h').
Proof. intros Hb p _. apply (ab_files _ _ Hb). Qed.

(** Files below a directory that has been made. *)
Lemma made_wf cfg id h vms log fs :
  host_wf cfg h -> files_wf fs ->
  (forall p, chroots cfg `prefix_of` p -> ~ vm_dir cfg id `prefix_of` p ->
     fs_names fs !! p = fs_names (fh_files h) !! p) ->
  host_wf cfg (mkFcHost ({[vm_dir cfg id]} ∪ fh_dirs h) vms log fs).
Proof.
  intros [_ Hc] Hwf Ho. split; [done |]. cbn. intros id' p Hs Hp. apply elem_of_union.
  destruct (decide (vm_dir cfg id `prefix_of` p)) as [Hp' | Hp'].
  - left. rewrite (vm_dir_prefix_inj _ _ _ _ Hp Hp'). set_solver.
  - right. rewrite Ho in Hs by (done || by eapply below_chroots). by eapply Hc.
Qed.

Lemma made_wf_outside cfg id h vms log fs :
  host_wf cfg h -> files_wf fs -> same_outside (vm_dir cfg id) (fh_files h) fs ->
  host_wf cfg (mkFcHost ({[vm_dir cfg id]} ∪ fh_dirs h) vms log fs).
Proof. intros Hwf Hfs Ho. apply made_wf; [done | done | intros p _; apply Ho]. Qed.

Lemma leaves_wf cfg id h h' : leaves (vm_dir cfg id) h h' -> host_wf cfg h -> host_wf cfg h'.
Proof.
  intros [Hd Hw Ho] Hwf. destruct h' as [dirs vms log fs]. simpl in *. subst dirs.
  apply made_wf_outside; [done | apply Hw, Hwf | done].
Qed.

Lemma after_removal_wf answer cfg id h h' :
  after_removal answer (vm_dir cfg id) h h' -> host_wf cfg h ->
  host_wf cfg h' /\ same_outside (vm_dir cfg id) (fh_files h) (fh_files h').
Proof.
  intros [Hb | [_ Hl]] Hwf; split.
  - by eapply as_before_wf.
  - by apply as_before_outside.
  - by eapply leaves_wf.
  - apply Hl.
Qed.

Lemma cleanupVM_outside answer cfg id h :
  same_outside (vm_dir cfg id) (fh_files h) (fh_files (cleanupVM answer cfg id h)).
Proof. destruct answer; [apply remove_some_outside | apply remove_below_outside]. Qed.

Lemma ended_wf answer cfg id h : host_wf cfg h -> host_wf cfg (cleanupVM answer cfg id h).
Proof.
  intros [Hwf Hc]. destruct answer as [keep |].
  { split; cbn -[remove_some]; [by apply remove_some_wf |]. intros id' p. rewrite remove_some_names.
    case_decide; [apply Hc | by intros []]. }
  split; cbn -[remove_below]; [by apply remove_below_wf |].
  intros id' p. rewrite remove_below_names. fold (vm_dir cfg id). case_decide as Hp; [by intros [] |].
  intros Hs Hp'. apply elem_of_difference. split; [by eapply Hc |].
  intros Heq%elem_of_singleton. apply Hp. by rewrite <- Heq.
Qed.

(** A step keeps the host in service, and logs at most the machine that it
    restores. *)
Lemma fc_step_serves e captured h ev h' :
  serves e captured h -> fc_step e h ev h' ->
  serves e captured h' /\
  (fh_started h' = fh_started h \/
   exists env lang s m, ev = Restored env lang /\ captured lang = Some (s, m) /\
     fh_started h' = fh_started h ++ [restored (fx_cfg e) (fe_vmID env) s m]).
Proof.
  intros Hs Hstep. pose proof Hs as [Hwf Hout Hpool].
  destruct Hstep as [env lang snapFile memFile h Ep Hd Hv | id stop removal h].
  - destruct (Hout _ _ _ Ep) as [Hsnap Hmem]. destruct (Hpool _ _ _ Ep) as (s & m & Hc & Hs1 & Hm1).
    pose proof (restoreVM_cases env (fx_cfg e) snapFile memFile h Hwf Hd Hv Hsnap Hmem) as Hcases.
    destruct (fill_chroot env (fx_cfg e) snapFile memFile (fh_files h)) as [fs filled] eqn:Ef.
    destruct (fill_chroot_cases _ _ _ _ _ _ _ Hwf Hd Hsnap Hmem Ef) as (Hfwf & Ho & _).
    destruct (restoreVM env (fx_cfg e) snapFile memFile h) as [h1 r].
    destruct Hcases as [Hlog Hcases]. cbn [fst]. split.
    + assert (host_wf (fx_cfg e) h1 /\ same_outside (vm_dir (fx_cfg e) (fe_vmID env)) (fh_files h) (fh_files h1))
        as [Hw1 Ho1]; [| by eapply serves_outside].
      destruct r as [vm | err].
      * destruct Hcases as (_ & _ & log & ->). split; [by apply made_wf_outside | done].
      * destruct Hcases as [_ Hcases]. destruct (gives_up env filled); [| by eapply after_removal_wf].
        destruct Hcases as [Hl _]. split; [by eapply leaves_wf | apply Hl].
    + destruct Hlog as [Hlog | (s' & m' & Hs' & Hm' & Hlog)]; [by left | right].
      exists env, lang, s, m. split_and!; [done | done |]. by simplify_eq.
  - rewrite vm_cleanup_spec. split; [| left; by destruct removal, stop].
    unfold vm_kill. cbn [vm_id vm_of]. rewrite stopVMM_files.
    eapply (serves_outside _ _ _ _ id); [done | | apply (cleanupVM_outside removal _ _ (mkFcHost _ _ _ _))].
    apply ended_wf. destruct Hwf; by split.
Qed.

(** ** Capturing the snapshots *)

Section Capture.
Context `{GoUnicode}.

(** [takeSnapshot] in a new chroot: the two files of the directory get what
    the hypervisor has written, and no other file of the directory changes. *)
Lemma takeSnapshot_spec env lang cfg id d x y h h' vms log :
  host_wf cfg h -> vm_dir cfg id ∉ fh_dirs h -> unshared d (fh_files h) ->
  (forall z, ~ chroots cfg `prefix_of` d ++ [z]) -> x <> y ->
  takeSnapshot env lang (vm_of cfg id) (d ++ [x]) (d ++ [y])
    (mkFcHost ({[vm_dir cfg id]} ∪ fh_dirs h) vms log (fh_files h)) = (h', Ok tt) ->
  exists s m fs, be_CreateSnapshot env lang = Ok (s, m) /\
    h' = mkFcHost ({[vm_dir cfg id]} ∪ fh_dirs h) vms log fs /\ files_wf fs /\ unshared d fs /\
    contents fs (d ++ [x]) = Some s /\ contents fs (d ++ [y]) = Some m /\
    (forall z, z <> x -> z <> y -> contents fs (d ++ [z]) = contents (fh_files h) (d ++ [z])) /\
    (forall p, fs_names fs !! p <> fs_names (fh_files h) !! p ->
       p = d ++ [x] \/ p = d ++ [y] \/ vm_dir cfg id `prefix_of` p).
Proof.
  intros Hwf Hd Hun Hap Hxy. unfold takeSnapshot. destruct (be_PauseVM env lang); [done |].
  unfold create_snapshot. mrun. destruct (be_CreateSnapshot env lang) as [[s m] | e]; [| done].
  unfold on_files, set_files. cbn [fh_files fh_dirs fh_vms fh_started vm_of vm_wsDir].
  set (fs := fh_files h). set (ws := workspaceDir cfg id).
  pose proof (hw_files _ _ Hwf) as Hfwf. fold fs in Hfwf, Hun.
  assert (forall q z, ws ++ q <> d ++ [z]) as Hdir.
  { intros q z Heq. apply (Hap z). rewrite <- Heq. apply (below_chroots cfg id), below_vm_dir. }
  destruct (write_two_new (ws ++ [fcSnapshotFile]) (ws ++ [fcMemFile]) s m fs)
    as (Hw & _ & Hi & Hj & Hsf & Hmf & Hsame); [done | by apply fresh_name.. | apply two_files |].
  set (fs0 := write_file_at _ _ _) in *.
  assert (forall z, fs_names fs0 !! (d ++ [z]) = fs_names fs !! (d ++ [z])) as Hnames.
  { intros z. by apply Hsame; apply not_eq_sym. }
  destruct (copyFile (be_copySnapshot env lang) _ _ fs0) as [fs1 [[] | e]] eqn:Ec1; [| done].
  cbn [fh_files]. destruct (copyFile (be_copyMem env lang) _ _ fs1) as [fs2 [[] | e]] eqn:Ec2; [| done].
  intros [= <-].
  assert (unshared d fs0) as Hun0 by (intros z z' k; rewrite !Hnames; apply Hun).
  assert (forall src k, fs_names fs0 !! src = Some k -> (fs_next fs <= k)%N -> apart_from d src fs0)
    as Hap0.
  { intros src k Hk Hle z i. rewrite Hnames, Hk. intros Hz%(wf_below _ _ _ Hfwf) [= <-]. lia. }
  destruct (copy_two_into_dir _ _ _ _ _ _ d x y fs0 fs1 fs2 Hw Hun0 (Hap0 _ _ Hi ltac:(lia))
    (Hap0 _ _ Hj ltac:(lia)) Hi Hj ltac:(lia) (Hdir _) (Hdir _) Hxy Ec1 Ec2)
    as (Hw2 & Hun2 & Hx & Hy & Hother & Hnames2).
  exists s, m, fs2. split_and!; [done | done | done | done | congruence | congruence | |].
  - intros z Hzx Hzy. rewrite Hother by done. by apply Hsame; apply not_eq_sym.
  - intros p Hp. destruct (decide (p = d ++ [x])) as [| Hpx]; [by left |].
    destruct (decide (p = d ++ [y])) as [| Hpy]; [by right; left |]. right; right.
    destruct (decide (p = ws ++ [fcSnapshotFile])) as [-> |]; [apply below_vm_dir |].
    destruct (decide (p = ws ++ [fcMemFile])) as [-> |]; [apply below_vm_dir |].
    destruct Hp. rewrite Hnames2 by done. by apply Hsame.
Qed.

Lemma snap_mem lang lang' : lang ++s ".snap" <> lang' ++s ".mem".
Proof.
  intros Heq. apply (f_equal (fun s => s ++s "")) in Heq.
  change (lang ++s ".snap") with (lang ++s ".snap") in Heq. rewrite !sapp_nil_r in Heq.
  replace ".snap" with (".s" ++s "nap") in Heq by done. replace ".mem" with ("." ++s "mem") in Heq by done.
  rewrite <- !sapp_assoc in Heq. by apply sapp_inj in Heq as [_ Heq].
Qed.

(** A language's capture, when it succeeds. *)
Lemma capture_language_spec env cfg d lang rootfs h h' :
  let id := be_vmID env lang in
  host_wf cfg h -> unshared d (fh_files h) -> (forall z, ~ chroots cfg `prefix_of` d ++ [z]) ->
  vm_dir cfg id ∉ fh_dirs h -> fh_vms h !! id = None ->
  capture_language env cfg d lang rootfs h = (h', Ok tt) ->
  exists s m, be_CreateSnapshot env lang = Ok (s, m) /\
    host_wf cfg h' /\ unshared d (fh_files h') /\
    (fh_dirs h' = fh_dirs h \/
     is_Some (be_RemoveAll env lang) /\ fh_dirs h' = {[vm_dir cfg id]} ∪ fh_dirs h) /\
    (fh_vms h' = fh_vms h \/
     is_Some (be_StopVMM env lang) /\ fh_vms h' = <[id := boot_config cfg id rootfs]> (fh_vms h)) /\
    contents (fh_files h') (snap_file d lang) = Some s /\
    contents (fh_files h') (mem_file d lang) = Some m /\
    forall z, z <> lang ++s ".snap" -> z <> lang ++s ".mem" ->
      contents (fh_files h') (d ++ [z]) = contents (fh_files h) (d ++ [z]).
Proof.
  intros id Hwf Hun Hap Hd Hv. unfold capture_language, bootFreshVM. mrun. fold id.
  destruct (be_NewMachine env lang); [done |]. destruct (be_Start env lang) as [f |]; [done |].
  unfold with_defer, capture, start_machine, add_dir. cbn [fst fh_dirs fh_vms fh_started fh_files].
  rewrite workspaceDir_vm_dir, path_Dir_snoc. destruct (waitForAgent _ _ _ _) as [[] |]; [| done..].
  destruct (be_MkdirAll env lang); [done |]. mrun.
  destruct (takeSnapshot env lang _ _ _ _) as [h2 [[] | e]] eqn:Et; [| done]. intros [= <-].
  destruct (takeSnapshot_spec env lang cfg id d _ _ h h2 _ _ Hwf Hd Hun Hap (snap_mem lang lang) Et)
    as (s & m & fs & Hcs & -> & Hfs & Hunfs & Hs & Hm & Ho & Hn).
  assert (forall z, ~ vm_dir cfg id `prefix_of` d ++ [z]) as Hz.
  { intros z Hz. by apply (Hap z), (below_chroots cfg id). }
  rewrite vm_cleanup_spec. exists s, m. unfold vm_kill. cbn [vm_id vm_of]. rewrite stopVMM_files.
  set (vms := fh_vms (stopVMM _ _ _)). cbn [fh_dirs fh_vms fh_started fh_files].
  set (h1 := mkFcHost _ vms _ _). assert (host_wf cfg h1) as Hwf1.
  { apply made_wf; [done | done |]. intros p Hp Hnp.
    destruct (decide (fs_names fs !! p = fs_names (fh_files h) !! p)) as [| Hne]; [done |].
    destruct (Hn p Hne) as [-> | [-> | ?]];
      [by destruct (Hap (lang ++s ".snap")) | by destruct (Hap (lang ++s ".mem")) | done]. }
  pose proof (cleanupVM_outside (be_RemoveAll env lang) cfg id h1) as Hout. split_and!.
  - done.
  - by apply ended_wf.
  - intros u v i. destruct (Hout _ (Hz u)) as [-> _], (Hout _ (Hz v)) as [-> _]. apply Hunfs.
  - destruct (be_RemoveAll env lang) as [keep |]; cbn; [right; eauto | left]. fold (vm_dir cfg id). set_solver.
  - rewrite cleanupVM_vms. subst vms. cbn. destruct (be_StopVMM env lang); cbn; [right; eauto | left].
    by apply delete_insert_id.
  - unfold snap_file. destruct (Hout _ (Hz (lang ++s ".snap"))) as [_ ->]. exact Hs.
  - unfold mem_file. destruct (Hout _ (Hz (lang ++s ".mem"))) as [_ ->]. exact Hm.
  - intros z Hz1 Hz2. destruct (Hout _ (Hz z)) as [_ ->]. by apply Ho.
Qed.

(** Whether the machines booted for the snapshots are gone again, and their
    directories too. *)
Definition boots_removed (env : boot_env) (langs : list string) : Prop :=
  forall lang, lang ∈ langs -> be_StopVMM env lang = None /\ be_RemoveAll env lang = None.

(** The machines have different names; they need to, unless each is gone
    before the next is booted. *)
Definition boots_apart (env : boot_env) (langs : list string) : Prop :=
  boots_removed env langs \/ NoDup (be_vmID env <$> langs).

Lemma boots_apart_rest env lang langs : boots_apart env (lang :: langs) -> boots_apart env langs.
Proof.
  intros [Hr | Hn]; [left; intros l Hl; apply Hr; by right | right].
  by apply NoDup_cons in Hn as [_ Hn].
Qed.

(** What a machine leaves does not stand in the way of the next one. *)
Lemma free_after_boot env cfg lang langs rootfs h h' l :
  boots_apart env (lang :: langs) -> l ∈ langs ->
  (fh_dirs h' = fh_dirs h \/ is_Some (be_RemoveAll env lang) /\
     fh_dirs h' = {[vm_dir cfg (be_vmID env lang)]} ∪ fh_dirs h) ->
  (fh_vms h' = fh_vms h \/ is_Some (be_StopVMM env lang) /\
     fh_vms h' = <[be_vmID env lang := boot_config cfg (be_vmID env lang) rootfs]> (fh_vms h)) ->
  vm_dir cfg (be_vmID env l) ∉ fh_dirs h /\ fh_vms h !! be_vmID env l = None ->
  vm_dir cfg (be_vmID env l) ∉ fh_dirs h' /\ fh_vms h' !! be_vmID env l = None.
Proof.
  intros Hap Hl Hd Hv [Hd0 Hv0].
  assert (is_Some (be_RemoveAll env lang) \/ is_Some (be_StopVMM env lang) ->
    be_vmID env l <> be_vmID env lang) as Hne.
  { destruct Hap as [Hr | Hn].
    - destruct (Hr lang) as [-> ->]; [by left |]. by intros [[] | []].
    - intros _ Heq. apply NoDup_cons in Hn as [Hn _]. apply Hn. rewrite <- Heq. by apply list_elem_of_fmap_2. }
  split.
  - destruct Hd as [-> | [Hs ->]]; [done |]. intros [Heq%elem_of_singleton | Hin]%elem_of_union; [| done].
    apply vm_dir_inj in Heq. by apply Hne; [left |].
  - destruct Hv as [-> | [Hs ->]]; [done |]. rewrite lookup_insert_ne; [done |].
    apply not_eq_sym, Hne. by right.
Qed.

(** What a successful [Init] has done, for any pool it started from. *)
Lemma Init_spec env rootfs p h p' h' :
  let cfg := sp_cfg p in let d := sp_snapsDir p in
  host_wf cfg h -> unshared d (fh_files h) -> (forall z, ~ chroots cfg `prefix_of` d ++ [z]) ->
  NoDup rootfs.*1 -> boots_apart env rootfs.*1 ->
  (forall lang, lang ∈ rootfs.*1 ->
     vm_dir cfg (be_vmID env lang) ∉ fh_dirs h /\ fh_vms h !! be_vmID env lang = None) ->
  Init env rootfs (p, h) = ((p', h'), Ok tt) ->
  host_wf cfg h' /\
  (boots_removed env rootfs.*1 -> fh_dirs h' = fh_dirs h /\ fh_vms h' = fh_vms h) /\ sp_cfg p' = cfg /\
  forall lang,
    (lang ∈ rootfs.*1 ->
       Pool_Get p' lang = Some (snap_file d lang, mem_file d lang) /\
       exists s m, be_CreateSnapshot env lang = Ok (s, m) /\
         contents (fh_files h') (snap_file d lang) = Some s /\
         contents (fh_files h') (mem_file d lang) = Some m) /\
    (lang ∉ rootfs.*1 ->
       Pool_Get p' lang = Pool_Get p lang /\
       contents (fh_files h') (snap_file d lang) = contents (fh_files h) (snap_file d lang) /\
       contents (fh_files h') (mem_file d lang) = contents (fh_files h) (mem_file d lang)).
Proof.
  revert p h. induction rootfs as [| [lang rootfs1] rest IH]; intros p h cfg d Hwf Hun Hap Hnd Hapart Hboot.
  { intros [= <- <-]. split_and!; try done. intros lang. split; [by intros ?%not_elem_of_nil | done]. }
  cbn [Init]. unfold snapshotLanguage. mrun. fold cfg d.
  destruct (capture_language env cfg d lang rootfs1 h) as [h1 [[] | e]] eqn:Ec; [| done].
  apply NoDup_cons in Hnd as [Hnew Hnd]. destruct (Hboot lang) as [Hd Hv]; [by left |].
  destruct (capture_language_spec _ _ _ _ _ _ _ Hwf Hun Hap Hd Hv Ec)
    as (s & m & Hcs & Hwf1 & Hun1 & Hd1 & Hv1 & Hs1 & Hm1 & Ho1).
  intros Hinit. apply IH in Hinit as (Hwf' & Hgone & Hcfg & Hall); [| done.. | by eapply boots_apart_rest |].
  2: { intros l Hl. eapply free_after_boot; [exact Hapart | exact Hl | exact Hd1 | exact Hv1 |].
       apply Hboot. by right. }
  cbn [pool_put sp_cfg sp_snapsDir] in *. fold cfg d in Hwf', Hcfg, Hall.
  split_and!; [done | | done |].
  { intros Hr. destruct Hgone as [-> ->]; [intros l Hl; apply Hr; by right |].
    destruct (Hr lang) as [Hstop Hrm]; [by left |]. rewrite Hstop in Hv1. rewrite Hrm in Hd1.
    destruct Hd1 as [-> | [[] _]], Hv1 as [-> | [[] _]]; done. }
  intros l. destruct (Hall l) as [Hin Hout].
  unfold pool_put, Pool_Get in *. cbn [sp_snapshots] in *. split.
  - intros [-> | Hl]%elem_of_cons; [| by apply Hin]. cbn in Hnew.
    destruct (Hout Hnew) as (-> & -> & ->). rewrite lookup_insert_eq. split; [done |]. by exists s, m.
  - intros [Hne Hl]%not_elem_of_cons. cbn in Hne. destruct (Hout Hl) as (-> & -> & ->).
    rewrite lookup_insert_ne by done. split; [done |]. unfold snap_file, mem_file. split; apply Ho1.
    + intros [? _]%sapp_inj; done.
    + apply snap_mem.
    + intros Heq. by apply (snap_mem lang l).
    + intros [? _]%sapp_inj; done.
Qed.

Definition captured_by (env : boot_env) (lang : string) : option (string * string) :=
  match be_CreateSnapshot env lang with Ok sm => Some sm | Err _ => None end.

Lemma captured_by_Some env lang s m :
  captured_by env lang = Some (s, m) -> be_CreateSnapshot env lang = Ok (s, m).
Proof. unfold captured_by. by destruct (be_CreateSnapshot env lang); intros; simplify_eq. Qed.

(** A host on which the executor has just been built is in service. *)
Lemma NewFirecrackerExecutor_serves env fc languages rootfs h0 h1 e :
  host_wf fc h0 -> unshared (fc_SnapshotsDir fc) (fh_files h0) ->
  (forall z, ~ chroots fc `prefix_of` fc_SnapshotsDir fc ++ [z]) -> NoDup rootfs.*1 ->
  boots_apart env rootfs.*1 ->
  (forall lang, lang ∈ rootfs.*1 ->
     vm_dir fc (be_vmID env lang) ∉ fh_dirs h0 /\ fh_vms h0 !! be_vmID env lang = None) ->
  NewFirecrackerExecutor env fc languages rootfs h0 = (h1, Ok e) ->
  serves e (captured_by env) h1 /\ fx_cfg e = fc /\
  (boots_removed env rootfs.*1 -> fh_dirs h1 = fh_dirs h0 /\ fh_vms h1 = fh_vms h0) /\
  (forall lang, lang ∈ rootfs.*1 <-> lang ∈ Pool_Languages (fx_pool e)).
Proof.
  intros Hwf Hun Hap Hnd Hapart Hboot. unfold NewFirecrackerExecutor.
  destruct (Init env rootfs _) as [[pool h] [[] | err]] eqn:Ei; [| done]. intros [= <- <-].
  destruct (Init_spec env rootfs (NewSnapshotPool fc (fc_SnapshotsDir fc)) h0 pool h
    Hwf Hun Hap Hnd Hapart Hboot Ei) as (Hwf1 & Hgone & Hcfg & Hall).
  assert (forall lang, (lang ∈ rootfs.*1 /\
      Pool_Get pool lang = Some (snap_file (fc_SnapshotsDir fc) lang, mem_file (fc_SnapshotsDir fc) lang)) \/
      (lang ∉ rootfs.*1 /\ Pool_Get pool lang = None)) as Hpool.
  { intros lang. destruct (Hall lang) as [Hin Hout].
    destruct (decide (lang ∈ rootfs.*1)) as [Hl | Hl]; [left; split; [done | by apply Hin] | right].
    split; [done |]. by destruct (Hout Hl) as [-> _]. }
  split_and!; [| done | done |].
  - split; [done | |]; intros lang snapFile memFile Ep; cbn in Ep;
      (destruct (Hpool lang) as [[Hl Hp] | [_ Hp]]; rewrite Hp in Ep; [injection Ep as <- <- | done]).
    + split; apply Hap.
    + destruct (Hall lang) as [Hin _]. destruct (Hin Hl) as (_ & s & m & Hc & Hs & Hm).
      exists s, m. unfold captured_by. by rewrite Hc.
  - intros lang. unfold Pool_Languages. rewrite elem_of_dom. cbn. unfold Pool_Get in Hpool.
    destruct (Hpool lang) as [[Hl Hp] | [Hl Hp]]; rewrite Hp; split; intros Hx; done.
Qed.

Lemma fc_run_serves e captured h evs h' :
  run (fc_step e) h evs h' -> serves e captured h -> serves e captured h'.
Proof.
  apply run_preserves. intros x ev y Hstep Hx. by destruct (fc_step_serves _ _ _ _ _ Hx Hstep).
Qed.

(** C17. Once the executor has been built, every language it was built for
    has a snapshot in the pool, whose two files hold what the hypervisor wrote
    when that language's machine was captured; the machines booted for this
    are gone and so are their directories, unless stopping or removing one has
    failed.  And through any interleaving of
    executions, restored and ended, failed or not, cleaned up or not, those files keep that
    content, and every machine that is started for a job finds in its chroot
    the two files captured for its language. *)
Theorem jobs_start_from_the_captured_snapshots env fc languages rootfs h0 h1 e evs h2 :
  host_wf fc h0 -> unshared (fc_SnapshotsDir fc) (fh_files h0) ->
  (forall z, ~ chroots fc `prefix_of` fc_SnapshotsDir fc ++ [z]) -> NoDup rootfs.*1 ->
  boots_apart env rootfs.*1 ->
  (forall lang, lang ∈ rootfs.*1 ->
     vm_dir fc (be_vmID env lang) ∉ fh_dirs h0 /\ fh_vms h0 !! be_vmID env lang = None) ->
  NewFirecrackerExecutor env fc languages rootfs h0 = (h1, Ok e) ->
  run (fc_step e) h1 evs h2 ->
  (boots_removed env rootfs.*1 -> fh_dirs h1 = fh_dirs h0 /\ fh_vms h1 = fh_vms h0) /\
  (forall lang, lang ∈ rootfs.*1 <-> lang ∈ Pool_Languages (fx_pool e)) /\
  (forall lang snapFile memFile, Pool_Get (fx_pool e) lang = Some (snapFile, memFile) ->
     exists s m, be_CreateSnapshot env lang = Ok (s, m) /\
       contents (fh_files h2) snapFile = Some s /\ contents (fh_files h2) memFile = Some m) /\
  (forall ev h3, fc_step e h2 ev h3 ->
     fh_started h3 = fh_started h2 \/
     exists fenv lang s m, ev = Restored fenv lang /\ be_CreateSnapshot env lang = Ok (s, m) /\
       fh_started h3 = fh_started h2 ++ [restored fc (fe_vmID fenv) s m]).
Proof.
  intros Hwf Hun Hap Hnd Hapart Hboot Hnew Hrun.
  destruct (NewFirecrackerExecutor_serves _ _ _ _ _ _ _ Hwf Hun Hap Hnd Hapart Hboot Hnew)
    as (Hserves & Hcfg & Hgone & Hlangs).
  pose proof (fc_run_serves _ _ _ _ _ Hrun Hserves) as Hserves2.
  split_and!; [done | done | |].
  - intros lang snapFile memFile Ep. destruct (se_pool _ _ _ Hserves2 _ _ _ Ep) as (s & m & Hc & ? & ?).
    exists s, m. split_and!; [by apply captured_by_Some | done | done].
  - intros ev h3 Hstep. destruct (fc_step_serves _ _ _ _ _ Hserves2 Hstep) as [_ [? | Hx]]; [by left | right].
    destruct Hx as (fenv & lang & s & m & -> & Hc & Hlog). rewrite Hcfg in Hlog.
    exists fenv, lang, s, m. split_and!; [done | by apply captured_by_Some | done].
Qed.

(** The pool is not safe from a second capture into the same directory, as
    another worker process on the host makes it when it starts: the files
    exist, so they are written over, and with them the files of every chroot
    that was given a hard link to them. *)
Lemma second_capture_reaches_running_vms env fc d lang id src h fs' c i :
  host_wf fc h ->
  fs_names (fh_files h) !! (workspaceDir fc id ++ [fcMemFile]) = Some i ->
  fs_names (fh_files h) !! mem_file d lang = Some i -> fs_names (fh_files h) !! src <> Some i ->
  contents (fh_files h) src = Some c ->
  copyFile env src (mem_file d lang) (fh_files h) = (fs', Ok tt) ->
  contents fs' (workspaceDir fc id ++ [fcMemFile]) = Some c.
Proof. intros [Hwf _] Hvm Hmem Hsrc Hc Hcopy. by eapply copies_reach_links. Qed.

End Capture.

(** ** An execution in which nothing fails *)

Section Backends.
Context `{TestCaseJSON} `{GoUnicode} `{RunnerJSON}.

Record smooth (e : FirecrackerExecutor) (env : fc_env) (start : Z) (h : fc_host) : Prop := {
  sm_dir : vm_dir (fx_cfg e) (fe_vmID env) ∉ fh_dirs h;
  sm_MkdirAll : fe_MkdirAll env = None;
  sm_copySnapshot : fe_copySnapshot env = plain_copy;
  sm_copyMem : fe_copyMem env = plain_copy;
  sm_NewMachine : forall config, fe_NewMachine env config = None;
  sm_Start : forall config, fe_Start env config = None;
  sm_agent : waitForAgent (fe_clock env) (fe_dials env) start (10 * time_Second) = Some true;
  sm_dial : dialVsock (fe_dial env) = Ok tt;
  sm_send : fe_send env = None
}.

(** The restore succeeds, and the machine's files are links to the pool's. *)
Lemma smooth_restore e captured env start h lang snapFile memFile :
  serves e captured h -> smooth e env start h -> Pool_Get (fx_pool e) lang = Some (snapFile, memFile) ->
  exists h', restoreVM env (fx_cfg e) snapFile memFile h = (h', Ok (vm_of (fx_cfg e) (fe_vmID env))) /\
    fs_names (fh_files h') !! (workspaceDir (fx_cfg e) (fe_vmID env) ++ [fcMemFile]) =
      fs_names (fh_files h) !! memFile.
Proof.
  intros [Hwf Hout Hpool] Hsm Ep. destruct (Hpool _ _ _ Ep) as (s & m & _ & Hs & Hm).
  destruct (Hout _ _ _ Ep) as [Hos Hom].
  pose proof (fun q => fresh_name _ _ _ q Hwf (sm_dir _ _ _ _ Hsm)) as Hnew.
  unfold contents in Hs, Hm. apply bind_Some in Hs as (i & Hi & _). apply bind_Some in Hm as (j & Hj & _).
  unfold restoreVM, fill_chroot. rewrite (sm_MkdirAll _ _ _ _ Hsm), (sm_copySnapshot _ _ _ _ Hsm),
    (sm_copyMem _ _ _ _ Hsm). mrun. unfold on_files. cbn [fh_files add_dir].
  rewrite (plain_copy_links _ _ _ i) by done. cbn [fs_names].
  assert (forall q, memFile <> workspaceDir (fx_cfg e) (fe_vmID env) ++ q) as Hne.
  { intros q ->. apply Hom, (below_chroots _ (fe_vmID env)), below_vm_dir. }
  rewrite (plain_copy_links _ _ _ j).
  - unfold start_restored, start_machine. rewrite (sm_NewMachine _ _ _ _ Hsm), (sm_Start _ _ _ _ Hsm).
    eexists. split; [reflexivity |]. cbn. by rewrite lookup_insert_eq.
  - cbn. by rewrite lookup_insert_ne by apply not_eq_sym, Hne.
  - cbn. rewrite lookup_insert_ne by apply not_eq_sym, two_files. apply Hnew.
Qed.

(** Both backends give the runner the same workspace: the files the agent
    writes inside the microVM are those the Docker executor mounts. *)
Lemma backends_agree_on_the_workspace aenv a lang tcJSON name :
  ae_MkdirAll aenv = None -> (forall f, ae_WriteFile aenv f = None) ->
  exists files, prepareWorkspace aenv (job_request a lang tcJSON) ∅ = (files, Ok tt) /\
  (lc_RunnerFile lang <> "tests.json" ->
   files !! ("/workspace/" ++s name) = workspace_files a lang tcJSON !! name).
Proof.
  intros Hm Hw. unfold prepareWorkspace, agent_write, workspace_files. mrun.
  rewrite Hm, !Hw. eexists. split; [done |]. intros Hne.
  assert (forall x, "/workspace/" ++s x = "/workspace/" ++s name <-> x = name) as Hinj.
  { intros x. split; [| by intros ->]. intros Heq. apply (f_equal (sdrop 11)) in Heq. done. }
  change "/workspace/tests.json" with ("/workspace/" ++s "tests.json").
  rewrite !lookup_insert. cbn [jq_SourceFile jq_RunnerFile job_request].
  rewrite !(decide_ext _ _ _ _ (Hinj _)), lookup_empty.
  repeat case_decide; done || congruence.
Qed.

(** A smooth execution gives what the runner has printed. *)
Lemma smooth_execution e captured env start agent a lang h tcJSON out :
  serves e captured h -> smooth e env start h ->
  fx_languages e !! a_Language a = Some lang -> a_Language a ∈ Pool_Languages (fx_pool e) ->
  json_Marshal_tcs (a_TestCases a) = Ok tcJSON ->
  read_chunks "" (agent (job_request a lang tcJSON)) = out -> out <> "" ->
  exists r, (fc_Execute e env start agent a h).2 = Ok r /\
    r = mkExecutionResult (er_OverallVerdict (parseResults a out)) (er_TotalTimeMs (parseResults a out))
          (er_MaxMemoryKb (parseResults a out)) (Some (fe_wall_ms env))
          (er_CompilerOutput (parseResults a out)) (er_TestcaseResults (parseResults a out)).
Proof.
  intros Hs Hsm Hlang Hpool Hjson Hout Hne. unfold fc_Execute, fc_with_wall_time. mrun. rewrite Hlang.
  unfold Pool_Languages in Hpool. apply elem_of_dom in Hpool as [[snapFile memFile] Ep].
  unfold Pool_Get. rewrite Ep.
  destruct (smooth_restore _ _ _ _ _ _ _ _ Hs Hsm Ep) as (h' & -> & _).
  unfold with_defer, fc_in_vm, fc_runJob. rewrite (sm_agent _ _ _ _ Hsm), Hjson.
  rewrite (sm_dial _ _ _ _ Hsm), (sm_send _ _ _ _ Hsm), Hout, bool_decide_eq_false_2 by done.
  by eexists.
Qed.

(** The two results are the same, wall time aside. *)
Definition same_result (r r' : ExecutionResult) : Prop :=
  er_OverallVerdict r = er_OverallVerdict r' /\ er_TotalTimeMs r = er_TotalTimeMs r' /\
  er_MaxMemoryKb r = er_MaxMemoryKb r' /\ er_CompilerOutput r = er_CompilerOutput r' /\
  er_TestcaseResults r = er_TestcaseResults r'.

(** Docker's side of an execution in which nothing fails. *)
Record docker_smooth (denv : docker_env) (h : host) : Prop := {
  ds_host : well_behaved denv h;
  ds_dir : exists dir, de_MkdirTemp denv = Ok dir;
  ds_write : forall name, de_WriteFile denv name = None;
  ds_create : exists id, de_ContainerCreate denv = Ok id;
  ds_start : de_ContainerStart denv = None;
  ds_wait : de_ContainerWait denv = WaitStatus;
  ds_logs : de_ContainerLogs denv = None
}.

(** One runner on both sides: what it prints depends on the files of its
    workspace.  Docker gives its output in frames; the agent writes it to the
    connection, which the worker reads in chunks of any size. *)
Record runs_on_both (runner : (string -> option string) -> string) (lang : LangConfig)
    (denv : docker_env) (aenv : agent_env) (agent : fcJobRequest -> list string) : Prop := {
  rb_ext : forall f g, (forall name, f name = g name) -> runner f = runner g;
  rb_docker : forall spec files, exists ps, de_ReadAll denv spec files = Ok (frames ps) /\
    Forall (fun cp => len cp.2 < 2^32) ps /\ payloads ps = runner (fun name => files !! name);
  rb_MkdirAll : ae_MkdirAll aenv = None;
  rb_WriteFile : forall f, ae_WriteFile aenv f = None;
  rb_Output : forall files, ae_Output aenv (lc_RunCmd lang) files =
    Printed (runner (fun name => files !! ("/workspace/" ++s name)));
  rb_agent : forall req, read_chunks "" (agent req) = (handleConn aenv (Some req) ∅).2
}.

(** What the agent answers a job with: the runner's output on the workspace
    that the Docker executor would mount. *)
Lemma agent_answers runner denv aenv agent a lang tcJSON :
  runs_on_both runner lang denv aenv agent ->
  lc_RunnerFile lang <> "tests.json" -> lc_RunCmd lang <> [] ->
  read_chunks "" (agent (job_request a lang tcJSON)) =
    runner (fun name => workspace_files a lang tcJSON !! name).
Proof.
  intros [Hext _ Hm Hw Hout ->] Hrf Hcmd. unfold handleConn. cbn [jq_Ping job_request].
  destruct (backends_agree_on_the_workspace aenv a lang tcJSON "" Hm Hw) as (files & Hp & _).
  rewrite Hp. cbn [jq_RunCmd job_request]. destruct (lc_RunCmd lang) as [| c cmd]; [done |].
  rewrite Hout. apply Hext. intros name.
  destruct (backends_agree_on_the_workspace aenv a lang tcJSON name Hm Hw) as (files' & Hp' & Hf).
  rewrite Hp in Hp'. injection Hp' as <-. by apply Hf.
Qed.

(** C16. The two backends are interchangeable: for a job with test cases, when
    nothing fails on either and the same runner prints results that both
    readers decode and in which nothing looks like an escape attempt, the
    executors return the same result, wall time aside: the verdict, times and
    entries of those results. *)
Theorem executors_agree runtime e captured denv fenv start hd hf a lang tcJSON runner aenv agent raw :
  let out := runner (fun name => workspace_files a lang tcJSON !! name) in
  serves e captured hf -> smooth e fenv start hf -> docker_smooth denv hd ->
  fx_languages e !! a_Language a = Some lang -> a_Language a ∈ Pool_Languages (fx_pool e) ->
  lc_RunnerFile lang <> "tests.json" -> lc_RunCmd lang <> [] ->
  json_Marshal_tcs (a_TestCases a) = Ok tcJSON -> a_TestCases a <> [] ->
  runs_on_both runner lang denv aenv agent -> out <> "" ->
  json_Unmarshal_runner (TrimSpace out) = Ok raw -> json_Unmarshal_runner (trimToJSON out) = Ok raw ->
  first_escape raw = "" ->
  exists r r',
    (Execute (Docker (fx_languages e) runtime) denv fenv start agent a (hd, hf)).2 = Ok r /\
    (Execute (Firecracker e) denv fenv start agent a (hd, hf)).2 = Ok r' /\
    same_result r r' /\ same_result r (docker_result raw).
Proof.
  intros out Hs Hsm Hds Hlang Hpool Hrf Hcmd Hjson Htc Hboth Hne Htrim Hfc Hesc.
  pose proof (agent_answers _ _ _ _ a lang tcJSON Hboth Hrf Hcmd) as Hagent. fold out in Hagent.
  destruct (smooth_execution e captured fenv start agent a lang hf tcJSON out) as (r' & Hr' & ->);
    [done.. |].
  destruct Hds as [Hwb [dir Hdir] Hwrite [id Hid] Hstart Hwait Hlogs].
  destruct (rb_docker _ _ _ _ _ Hboth (spec_of runtime a lang dir) (workspace_files a lang tcJSON))
    as (ps & Hread & Hlen & Hps).
  destruct (docker_execution_runs_the_job denv (fx_languages e) runtime a lang hd dir id tcJSON
    (frames ps)) as (r & Hr & ->); [done.. |].
  destruct (stripping_headers_gives_the_payload ps "" 0 Hlen) as [Hstrip _]; [done |].
  rewrite Hstrip, Hps in Hr. fold out in Hr.
  unfold docker_parseResults, parseResults in *. rewrite Htrim in *. rewrite Hfc in *.
  rewrite (proj1 firecracker_has_no_escape_detection raw Hesc) in *.
  eexists _, _. unfold Execute, on_first, on_second. cbn [fst snd].
  destruct (docker_Execute _ _ _ _ _) as [hd' rd], (fc_Execute _ _ _ _ _ _) as [hf' rf].
  cbn [snd] in *. split_and!; [exact Hr | exact Hr' | |]; by split_and!.
Qed.

End Backends.

(** ** The choice of executor *)

(** The stub, which accepts every program, is only ever built when the
    configuration allows it, and in place of Docker. *)
Lemma stub_only_if_allowed `{GoUnicode} order env client cfg templates h h' :
  buildExecutor order env client cfg templates h = (h', Ok Stub) ->
  wc_AllowStubExecutor cfg = true /\ is_Some client /\ ToLower (wc_Executor cfg) <> "firecracker".
Proof.
  unfold buildExecutor, buildFirecrackerExecutor, buildDockerExecutor, NewDockerExecutor. mrun.
  case_bool_decide as He; [by destruct (NewFirecrackerExecutor _ _ _ _ _) as [? []] |].
  destruct client as [e |]; [| done]. destruct (wc_AllowStubExecutor cfg); [| done]. by eauto.
Qed.

(** A machine that the jailer has prepared and that then fails to start keeps
    its directory: the deferred cleanup is only set up after the start. *)
Lemma failed_boot_leaves_directory env cfg lang rootfs h e :
  be_NewMachine env lang = None -> be_Start env lang = Some e -> bf_jailed e = true ->
  vm_dir cfg (be_vmID env lang) ∈ fh_dirs (bootFreshVM env cfg lang rootfs h).1.
Proof.
  intros Hn Hs Hj. unfold bootFreshVM, start_machine. rewrite Hn, Hs, Hj. cbn [fst].
  rewrite stopVMM_files, workspaceDir_vm_dir, path_Dir_snoc. cbn. set_solver.
Qed.

(** The machine a job gets does not depend on the job: its memory is that of
    the snapshot, whatever the job's limit is. *)
Lemma restored_memory_is_the_snapshots cfg id : mc_MachineCfg (restore_config cfg id) = None.
Proof. done. Qed.

(** ** Witnesses *)

Module FirecrackerWitness.
Import DockerWitness.

Definition cfg : FCConfig :=
  mkFCConfig "/usr/bin/firecracker" "/usr/bin/jailer" "/var/lib/fc/vmlinux" ["srv"; "jailer"]
    ["var"; "snapshots"] 900 900 1 128.
Definition answering : vsock_answer := mkVsock None (Ok "OK 1073741824").
Definition clock (k : nat) : Z := Z.of_nat k * time_Second.
Definition booting : boot_env :=
  mkBootEnv (fun lang => "boot-" ++s lang) (fun _ => None) (fun _ => None) (fun _ => None)
    (fun _ => None) (fun _ => 0)
    (fun _ => clock) (fun _ _ => answering) (fun _ => None) (fun _ => None)
    (fun _ => Ok ("state", "memory")) (fun _ => plain_copy) (fun _ => across_devices).
Definition rootfs : list (string * path) := [("python", ["var"; "rootfs"; "python.ext4"])].
Definition empty_host : fc_host := mkFcHost ∅ ∅ [] no_files.

Definition built : fc_host * result string FirecrackerExecutor :=
  NewFirecrackerExecutor booting cfg langs rootfs empty_host.
Definition fx : FirecrackerExecutor :=
  match built.2 with Ok e => e | Err _ => mkFirecracker (NewSnapshotPool cfg []) ∅ cfg end.

Lemma built_ok : built = (built.1, Ok fx).
Proof. vm_compute. reflexivity. Qed.

Lemma empty_host_wf : host_wf cfg empty_host.
Proof.
  split; [apply no_files_wf |]. intros id p [i Hi]. cbn in Hi. by rewrite lookup_empty in Hi.
Qed.

Lemma nothing_shared : unshared (fc_SnapshotsDir cfg) (fh_files empty_host).
Proof. intros x y i Hx. cbn in Hx. by rewrite lookup_empty in Hx. Qed.

Lemma snapshots_outside z : ~ chroots cfg `prefix_of` fc_SnapshotsDir cfg ++ [z].
Proof. intros [k Heq]. discriminate Heq. Qed.

Lemma one_language : NoDup rootfs.*1.
Proof. repeat constructor. set_solver. Qed.

Lemma nothing_runs lang :
  lang ∈ rootfs.*1 ->
  vm_dir cfg (be_vmID booting lang) ∉ fh_dirs empty_host /\
  fh_vms empty_host !! be_vmID booting lang = None.
Proof. intros _. split; [apply not_elem_of_empty | apply lookup_empty]. Qed.

Lemma booted_apart : boots_apart booting rootfs.*1.
Proof. left. intros lang _. by split. Qed.

Lemma built_serves : serves fx (captured_by booting) built.1.
Proof.
  by destruct (NewFirecrackerExecutor_serves _ _ _ _ _ _ _ empty_host_wf nothing_shared
    snapshots_outside one_language booted_apart nothing_runs built_ok) as [? _].
Qed.

(** The memory file is copied into the chroot in this way. *)
Definition with_copy (c : copy_env) : fc_env :=
  mkFcEnv "job-1" None plain_copy c (fun _ => None) (fun _ => None) None None clock (fun _ => answering)
    answering None 12.
Definition full_disk : copy_env :=
  mkCopyEnv None (Some "invalid cross-device link") None None (Some (3%nat, "no space left on device")).
Definition silent (_ : fcJobRequest) : list string := [].

Lemma job_dir_free : vm_dir cfg "job-1" ∉ fh_dirs built.1.
Proof. apply (bool_decide_eq_false _). vm_compute. reflexivity. Qed.
Lemma job_vm_free : fh_vms built.1 !! "job-1" = None.
Proof. vm_compute. reflexivity. Qed.

Lemma firecracker_execution_is_contained_witness :
  fh_dirs (fc_Execute fx (with_copy full_disk) 0 silent job built.1).1 =
    {[["srv"; "jailer"; "firecracker"; "job-1"]]} ∪ fh_dirs built.1.
Proof.
  pose proof (firecracker_execution_is_contained fx (with_copy full_disk) 0 silent job built.1
    (se_wf _ _ _ built_serves) (se_outside _ _ _ built_serves) job_dir_free job_vm_free) as Hc.
  destruct (fc_Execute fx (with_copy full_disk) 0 silent job built.1) as [h r].
  destruct Hc as (_ & Hc & _). cbn [fst].
  assert (abandons_chroot fx (with_copy full_disk) job built.1 = true) as Ha
    by (vm_compute; reflexivity).
  rewrite Ha in Hc. exact (lv_dirs _ _ _ (proj1 Hc)).
Defined.

(** The machine of the job cannot be stopped: its directory goes, it stays. *)
Example stuck_machines_stay :
  let stuck := with_answers (with_copy plain_copy) (Some "no such process") None in
  (fc_Execute fx stuck 0 silent job built.1).1.(fh_dirs) = fh_dirs built.1 /\
  is_Some (fh_vms (fc_Execute fx stuck 0 silent job built.1).1 !! "job-1").
Proof. split; [vm_compute; reflexivity | by vm_compute; eexists]. Qed.

Definition one_job : list fc_event :=
  [Restored (with_copy plain_copy) "python"; Ended "job-1" None None].

Lemma one_job_run : exists h, run (fc_step fx) built.1 one_job h.
Proof.
  eexists. eapply run_cons; [| eapply run_cons; [apply step_ended | apply run_nil]].
  eapply step_restored; [reflexivity | exact job_dir_free | exact job_vm_free].
Qed.

Lemma jobs_start_from_the_captured_snapshots_witness :
  exists h, run (fc_step fx) built.1 one_job h /\
    contents (fh_files h) ["var"; "snapshots"; "python.mem"] = Some "memory".
Proof.
  destruct one_job_run as [h Hrun]. exists h. split; [exact Hrun |].
  destruct (jobs_start_from_the_captured_snapshots _ _ _ _ _ _ _ _ _ empty_host_wf nothing_shared
    snapshots_outside one_language booted_apart nothing_runs built_ok Hrun) as (_ & _ & Hfiles & _).
  destruct (Hfiles "python" ["var"; "snapshots"; "python.snap"] ["var"; "snapshots"; "python.mem"])
    as (s & m & Hc & _ & Hm); [reflexivity |].
  injection Hc as <- <-. exact Hm.
Defined.

(** Another worker starts on the same host, with a snapshot of its own, while
    the machine of job-1 is running: that machine's memory file is rewritten. *)
Definition booting_again : boot_env :=
  mkBootEnv (fun lang => "again-" ++s lang) (fun _ => None) (fun _ => None) (fun _ => None)
    (fun _ => None) (fun _ => 0)
    (fun _ => clock) (fun _ _ => answering) (fun _ => None) (fun _ => None)
    (fun _ => Ok ("state", "other memory")) (fun _ => plain_copy) (fun _ => plain_copy).
Definition running : fc_host :=
  (restoreVM (with_copy plain_copy) cfg ["var"; "snapshots"; "python.snap"]
     ["var"; "snapshots"; "python.mem"] built.1).1.
Definition mem_of_job_1 (h : fc_host) : option string :=
  contents (fh_files h) ["srv"; "jailer"; "firecracker"; "job-1"; "root"; "mem"].

Lemma a_second_worker_rewrites_running_machines :
  mem_of_job_1 running = Some "memory" /\
  mem_of_job_1 (NewFirecrackerExecutor booting_again cfg langs rootfs running).1 = Some "other memory".
Proof. split; vm_compute; reflexivity. Qed.

(** The same runner on both sides. *)
Definition runner_of_files (files : string -> option string) : string :=
  match files "runner.py" with Some _ => "[1]" | None => "no runner" end.
Definition python : LangConfig :=
  mkLangConfig "capstone-python-runner:latest" "solution.py" [] ["python3"; "/workspace/runner.py"]
    "runner.py" "limit = %d" 0 "".
Definition dockerd : docker_env :=
  mkDockerEnv (Ok "/tmp/capstone-job-1") (fun _ => None) None (Ok "c1") None None WaitStatus None
    (fun _ files => Ok (frames [("001"%char, runner_of_files (fun name => files !! name))])) true 37.
Definition vm_agent : agent_env :=
  mkAgentEnv None (fun _ => None)
    (fun _ files => Printed (runner_of_files (fun name => files !! ("/workspace/" ++s name)))) quoted.
Definition connection (req : fcJobRequest) : list string := [(handleConn vm_agent (Some req) ∅).2].

Lemma the_runner : runs_on_both runner_of_files python dockerd vm_agent connection.
Proof.
  split.
  - intros f g Hfg. unfold runner_of_files. by rewrite Hfg.
  - intros spec files. eexists. split; [reflexivity |]. split; [| cbn; apply sapp_nil_r].
    repeat constructor. cbn. unfold runner_of_files. by destruct (files !! "runner.py").
  - reflexivity.
  - reflexivity.
  - reflexivity.
  - reflexivity.
Qed.

Lemma smooth_day : smooth fx (with_copy plain_copy) 0 built.1.
Proof.
  split; try reflexivity. exact job_dir_free.
Qed.

Lemma smooth_docker : docker_smooth dockerd idle.
Proof.
  split; try reflexivity; by eexists.
Qed.

Lemma executors_agree_witness :
  exists r r', (Execute (Docker langs "runc") dockerd (with_copy plain_copy) 0 connection job
                  (idle, built.1)).2 = Ok r /\
    (Execute (Firecracker fx) dockerd (with_copy plain_copy) 0 connection job (idle, built.1)).2 = Ok r' /\
    same_result r r' /\ er_OverallVerdict r = "Accepted".
Proof.
  destruct (executors_agree "runc" fx (captured_by booting) dockerd (with_copy plain_copy) 0 idle built.1
    job python "[...]" runner_of_files vm_agent connection [mkRunnerResult "1" "Accepted" 4 "5" "5" ""]
    built_serves smooth_day smooth_docker) as (r & r' & Hr & Hr' & Hsame & Hres).
  - reflexivity.
  - apply elem_of_dom. by eexists.
  - discriminate.
  - discriminate.
  - reflexivity.
  - discriminate.
  - exact the_runner.
  - discriminate.
  - reflexivity.
  - reflexivity.
  - reflexivity.
  - exists r, r'. split; [exact Hr | split; [exact Hr' | split; [exact Hsame | exact (proj1 Hres)]]].
Defined.
End FirecrackerWitness.
