(* ===== verification/WorkerLoop.v ===== *)
(** * Worker: the process

    [internal/worker/worker.go] as a transition system: the poll loop, the
    heartbeat loop and one goroutine per job, interleaved in any order.  An
    event is one critical section or one call of the control plane with its
    answer; [step] gives the next state and the requests sent. *)

From S2P Require Import Prelude Sql GoStrings HostFiles CPDomain WorkerConfig RunnerOutput FirecrackerExec.

(** ** Reports *)

(** [buildReportRequest]: an executor's error or a nil result becomes an
    internal error. *)
Definition buildReportRequest (workerID : string)
    (outcome : result string (option ExecutionResult)) : ReportResultRequest :=
  match outcome with
  | Err _ | Ok None => mkReportResultRequest workerID "InternalError" None None None None []
  | Ok (Some r) =>
      mkReportResultRequest workerID (er_OverallVerdict r) (er_TotalTimeMs r)
        (er_MaxMemoryKb r) (er_WallTimeMs r) (er_CompilerOutput r) (er_TestcaseResults r)
  end.

(** ** State *)

(** Where a job's goroutine is in [runJob]. *)
Inductive phase :=
  | Starting
  | Executing
  | Reporting (req : ReportResultRequest)
  | Cleanup.

Record thread := mkThread {
  th_job : Assignment;
  th_phase : phase
}.

Inductive poller := PollIdle | PollCalling | PollStopped.

Record worker := mkWorker_ {
  wk_id : string;
  wk_langs : list string;
  wk_capacity : Z;
  (** [activeJobs]: each job's cancel function, that is, whose goroutine it
      stops. *)
  wk_active : gmap uuid nat;
  wk_threads : gmap nat thread;
  wk_next : nat;
  wk_poller : poller;
  wk_heartbeats : bool;
  wk_cancelled : bool;
  wk_returned : bool
}.

Definition Worker_New (id : string) (langs : list string) (capacity : Z) : worker :=
  mkWorker_ id langs capacity ∅ ∅ 0 PollIdle true false false.

(** [New]: [fresh] is the identifier drawn when none is configured.  The
    intervals are those of the tickers. *)
Definition New (cfg : Config) (fresh : string) : worker :=
  Worker_New (if bool_decide (wc_WorkerID cfg = "") then fresh else wc_WorkerID cfg)
    (LanguageList (wc_Languages cfg)) (wc_Capacity cfg).

Definition tickers (cfg : Config) : Z * Z * Z :=
  (HeartbeatInterval (wc_HeartbeatIntervalSec cfg), PollInterval (wc_PollIntervalMs cfg),
   LeaseRenewalInterval (wc_LeaseRenewalIntervalSec cfg)).

(** [main] of [cmd/worker]: without an executor there is no worker. *)
Definition worker_main `{GoUnicode} (order : gmap string path -> list (string * path))
    (env : boot_env) (client : option string) (cfg : Config) (templates : runner_templates)
    (fresh : string) : M fc_host string (executor * worker) :=
  e ← buildExecutor order env client cfg templates;
  mret (e, New cfg fresh).

(** ** Requests sent *)

Inductive request :=
  | SendHeartbeat (req : HeartbeatRequest)
  | SendPoll (req : PollRequest)
  | SendRunning (t : nat) (job : uuid) (workerID : string)
  | SendRenew (t : nat) (job : uuid) (workerID : string)
  | SendReport (t : nat) (job : uuid) (req : ReportResultRequest).

Definition activeCount (w : worker) : Z := Z.of_nat (size (wk_active w)).

Definition heartbeat_request (w : worker) : HeartbeatRequest :=
  mkHeartbeatRequest (wk_id w) (wk_langs w) (wk_capacity w) (activeCount w) "healthy".

(** ** Events *)

Inductive event :=
  | HeartbeatTick
  | HeartbeatStop
  | PollTick
  | PollReply (reply : result string (option Assignment))
  | PollStop
  | MarkedRunning (t : nat) (ok : bool)
  | LeaseTick (t : nat) (ok : bool)
  | Executed (t : nat) (outcome : result string (option ExecutionResult))
  | Reported (t : nat) (ok : bool)
  | CleanedUp (t : nat)
  | ContextDone
  | RunReturns.

Definition set_poller (w : worker) (p : poller) : worker :=
  mkWorker_ (wk_id w) (wk_langs w) (wk_capacity w) (wk_active w) (wk_threads w) (wk_next w)
    p (wk_heartbeats w) (wk_cancelled w) (wk_returned w).

Definition set_thread (w : worker) (t : nat) (th : thread) (p : phase) : worker :=
  mkWorker_ (wk_id w) (wk_langs w) (wk_capacity w) (wk_active w)
    (<[t := mkThread (th_job th) p]> (wk_threads w)) (wk_next w)
    (wk_poller w) (wk_heartbeats w) (wk_cancelled w) (wk_returned w).

(** [tryPoll] up to the call: the capacity check under the mutex. *)
Definition tryPoll_begin (w : worker) : worker * list request :=
  if wk_capacity w <=? activeCount w then (w, [])
  else (set_poller w PollCalling, [SendPoll (mkPollRequest (wk_id w) (wk_langs w))]).

(** [tryPoll] after the call: the job is registered and its goroutine
    started. *)
Definition tryPoll_end (w : worker) (reply : result string (option Assignment)) : worker :=
  match reply with
  | Err _ | Ok None => set_poller w PollIdle
  | Ok (Some a) =>
      mkWorker_ (wk_id w) (wk_langs w) (wk_capacity w)
        (<[a_JobID a := wk_next w]> (wk_active w))
        (<[wk_next w := mkThread a Starting]> (wk_threads w)) (S (wk_next w))
        PollIdle (wk_heartbeats w) (wk_cancelled w) (wk_returned w)
  end.

(** The deferred function of [runJob]. *)
Definition runJob_cleanup (w : worker) (t : nat) (th : thread) : worker :=
  mkWorker_ (wk_id w) (wk_langs w) (wk_capacity w)
    (delete (a_JobID (th_job th)) (wk_active w)) (delete t (wk_threads w)) (wk_next w)
    (wk_poller w) (wk_heartbeats w) (wk_cancelled w) (wk_returned w).

Definition is_calling (p : poller) : bool :=
  match p with PollCalling => true | _ => false end.
Definition is_idle (p : poller) : bool := match p with PollIdle => true | _ => false end.
Definition is_stopped (p : poller) : bool := match p with PollStopped => true | _ => false end.

(** A tick of [leaseRenewalLoop]: the answer is only logged. *)
Definition leaseRenewal_tick (w : worker) (t : nat) (job : uuid) : worker * list request :=
  (w, [SendRenew t job (wk_id w)]).

(** One step of [runJob] for the goroutine [t]. *)
Definition runJob_step (w : worker) (t : nat) (th : thread) (e : event)
  : option (worker * list request) :=
  let job := a_JobID (th_job th) in
  match th_phase th, e with
  | Starting, MarkedRunning _ ok =>
      Some (set_thread w t th (if ok then Executing else Cleanup),
            [SendRunning t job (wk_id w)])
  | Executing, LeaseTick _ _ => Some (leaseRenewal_tick w t job)
  | Executing, Executed _ outcome =>
      Some (set_thread w t th (Reporting (buildReportRequest (wk_id w) outcome)), [])
  | Reporting req, Reported _ _ =>
      Some (set_thread w t th Cleanup, [SendReport t job req])
  | Cleanup, CleanedUp _ => Some (runJob_cleanup w t th, [])
  | _, _ => None
  end.

Definition thread_of (e : event) : option nat :=
  match e with
  | MarkedRunning t _ | LeaseTick t _ | Executed t _ | Reported t _ | CleanedUp t => Some t
  | _ => None
  end.

Definition step (w : worker) (e : event) : option (worker * list request) :=
  match thread_of e with
  | Some t =>
      match wk_threads w !! t with
      | Some th => runJob_step w t th e
      | None => None
      end
  | None =>
      match e with
      | HeartbeatTick =>
          if wk_heartbeats w then Some (w, [SendHeartbeat (heartbeat_request w)]) else None
      | HeartbeatStop =>
          if wk_heartbeats w && wk_cancelled w then
            Some (mkWorker_ (wk_id w) (wk_langs w) (wk_capacity w) (wk_active w)
                    (wk_threads w) (wk_next w) (wk_poller w) false true (wk_returned w), [])
          else None
      | PollTick => if is_idle (wk_poller w) then Some (tryPoll_begin w) else None
      | PollReply reply =>
          if is_calling (wk_poller w) then Some (tryPoll_end w reply, []) else None
      | PollStop =>
          if is_idle (wk_poller w) && wk_cancelled w
          then Some (set_poller w PollStopped, []) else None
      | ContextDone =>
          Some (mkWorker_ (wk_id w) (wk_langs w) (wk_capacity w) (wk_active w)
                  (wk_threads w) (wk_next w) (wk_poller w) (wk_heartbeats w) true
                  (wk_returned w), [])
      | RunReturns =>
          (* wg.Wait() counts the two loops *)
          if wk_cancelled w && is_stopped (wk_poller w) && negb (wk_heartbeats w) then
            Some (mkWorker_ (wk_id w) (wk_langs w) (wk_capacity w) (wk_active w)
                    (wk_threads w) (wk_next w) (wk_poller w) (wk_heartbeats w) true true, [])
          else None
      | _ => None
      end
  end.

(** A run from the start whose every event is allowed: the requests sent, in
    order. *)
Inductive wrun (allowed : worker -> event -> Prop) (w0 : worker)
  : worker -> list request -> Prop :=
  | wrun_nil : wrun allowed w0 w0 []
  | wrun_snoc w sent e w' out :
      wrun allowed w0 w sent -> allowed w e -> step w e = Some (w', out) ->
      wrun allowed w0 w' (sent ++ out).

(** Executable runs, for examples. *)
Fixpoint run_events (w : worker) (es : list event) : option (worker * list request) :=
  match es with
  | [] => Some (w, [])
  | e :: es' =>
      '(w', out) ← step w e;
      '(w'', rest) ← run_events w' es';
      Some (w'', out ++ rest)
  end.

(** ** Invariants *)

Lemma run_events_wrun w0 w es w' out sent :
  wrun (fun _ _ => True) w0 w sent -> run_events w es = Some (w', out) ->
  wrun (fun _ _ => True) w0 w' (sent ++ out).
Proof.
  revert w out sent. induction es as [| e es IH]; intros w out sent Hrun; simpl.
  - intros [= <- <-]. by rewrite app_nil_r.
  - destruct (step w e) as [[w1 o1] |] eqn:E; simpl; [| done].
    destruct (run_events w1 es) as [[w2 o2] |] eqn:E2; simpl; [| done].
    intros [= <- <-]. rewrite app_assoc. eapply IH; [| done]. by econstructor.
Qed.

(** Every case of [step], with its guards. *)
Ltac step_cases :=
  repeat match goal with
  | H : step _ ?e = Some _ |- _ => destruct e; cbn [step thread_of] in H
  | H : runJob_step _ _ ?th _ = Some _ |- _ =>
      unfold runJob_step in H; destruct (th_phase th) eqn:?
  | H : (match ?x with _ => _ end) = Some _ |- _ => destruct x eqn:?
  | H : Some _ = Some _ |- _ => injection H as <- <-
  | H : None = Some _ |- _ => discriminate H
  end.

(** The map of active jobs never outgrows the capacity: a poll is under way
    only while there is room. *)
Definition room (w : worker) : Prop :=
  activeCount w <= Z.max 0 (wk_capacity w) /\
  (wk_poller w = PollCalling -> activeCount w < wk_capacity w).

Lemma size_insert_le {V} (m : gmap uuid V) k v : (size (<[k := v]> m) <= S (size m))%nat.
Proof.
  destruct (m !! k) eqn:E.
  - rewrite map_size_insert_Some by eauto. lia.
  - rewrite map_size_insert_None by done. lia.
Qed.

Lemma size_delete_le {V} (m : gmap uuid V) k : (size (delete k m) <= size m)%nat.
Proof. apply map_subseteq_size, delete_subseteq. Qed.

Lemma tryPoll_begin_cases w :
  (wk_capacity w <= activeCount w /\ tryPoll_begin w = (w, [])) \/
  (activeCount w < wk_capacity w /\
   tryPoll_begin w = (set_poller w PollCalling, [SendPoll (mkPollRequest (wk_id w) (wk_langs w))])).
Proof.
  unfold tryPoll_begin. destruct (Z.leb_spec (wk_capacity w) (activeCount w)); [by left | by right].
Qed.

Lemma room_step w e w' out : step w e = Some (w', out) -> room w ->
  room w' /\ wk_capacity w' = wk_capacity w.
Proof.
  unfold room. intros Hs [Hle Hlt]. step_cases; unfold activeCount in *; simpl; try done.
  - injection Hs as Hs.
    destruct (tryPoll_begin_cases w) as [[_ Heq] | [Hr Heq]]; rewrite Heq in Hs;
      injection Hs as <- <-; unfold activeCount in *; simpl; split; lia || done.
  - destruct (wk_poller w) eqn:Hp; try done. specialize (Hlt eq_refl).
    destruct reply as [[a |] |]; simpl; (split; [split; [| done] | done]); try lia.
    pose proof (size_insert_le (wk_active w) (a_JobID a) (wk_next w)). lia.
  - pose proof (size_delete_le (wk_active w) (a_JobID (th_job t0))).
    split; [split; [lia | intros Hp; specialize (Hlt Hp); lia] | done].
Qed.

(** The map and the goroutines agree. *)
Record books (w : worker) : Prop := {
  bk_active : forall j t, wk_active w !! j = Some t <->
    exists th, wk_threads w !! t = Some th /\ a_JobID (th_job th) = j;
  bk_next : forall t th, wk_threads w !! t = Some th -> (t < wk_next w)%nat
}.

(** The control plane does not hand out a job that this worker is still
    running. *)
Definition fresh_reply (w : worker) (e : event) : Prop :=
  match e with
  | PollReply (Ok (Some a)) => wk_active w !! a_JobID a = None
  | _ => True
  end.

Lemma books_new id langs capacity : books (Worker_New id langs capacity).
Proof.
  split; simpl.
  - intros j t. rewrite lookup_empty. split; [done |]. intros (th & Hth & _).
    by rewrite lookup_empty in Hth.
  - intros t th Hth. by rewrite lookup_empty in Hth.
Qed.

Lemma books_set_thread w t th p :
  wk_threads w !! t = Some th -> books w -> books (set_thread w t th p).
Proof.
  intros Hth [Ha Hn]. split; simpl.
  - intros j t'. rewrite Ha. rewrite lookup_insert. case_decide as Ht; [| done]. subst t'.
    split; intros (x & Hx & Hj); simplify_eq; eauto.
  - intros t' th'. rewrite lookup_insert. case_decide as Ht; [subst; intros _; eauto | apply Hn].
Qed.

Lemma books_register w reply :
  fresh_reply w (PollReply reply) -> books w -> books (tryPoll_end w reply).
Proof.
  intros Hf [Ha Hn]. destruct reply as [[a |] |]; [| by split | by split]. simpl in Hf.
  split; simpl.
  - intros j t. rewrite !lookup_insert. split.
    + case_decide as Hj; [intros [= <-]; rewrite decide_True by done; eauto |].
      intros (th & Hth & Hjob)%Ha. exists th. rewrite decide_False; [done |].
      intros <-. apply Hn in Hth. lia.
    + intros (th & Hth & <-). case_decide as Ht.
      * subst t. injection Hth as <-. by rewrite decide_True.
      * rewrite decide_False; [by apply Ha; eauto |]. intros Heq.
        assert (wk_active w !! a_JobID (th_job th) = Some t) as Hact by (apply Ha; eauto).
        rewrite <- Heq in Hact. congruence.
  - intros t th. rewrite lookup_insert. case_decide; [subst; lia |].
    intros Hth. apply Hn in Hth. lia.
Qed.

Lemma books_cleanup w t th :
  wk_threads w !! t = Some th -> books w -> books (runJob_cleanup w t th).
Proof.
  intros Hth [Ha Hn]. split; simpl.
  - assert (wk_active w !! a_JobID (th_job th) = Some t) as Hact by (apply Ha; eauto).
    intros j t'. rewrite !lookup_delete. split.
    + case_decide as Hj; [done |]. intros (x & Hx & Hjx)%Ha. exists x.
      rewrite decide_False; [done |]. intros <-. congruence.
    + intros (x & Hx & <-). case_decide as Ht; [done |].
      rewrite decide_False; [apply Ha; eauto |]. intros Heq.
      assert (wk_active w !! a_JobID (th_job x) = Some t') as Hact' by (apply Ha; eauto).
      rewrite <- Heq in Hact'. congruence.
  - intros t' x. rewrite lookup_delete. case_decide; [done | apply Hn].
Qed.

Lemma books_step w e w' out :
  step w e = Some (w', out) -> fresh_reply w e -> books w -> books w'.
Proof.
  intros Hs Hf Hb. step_cases;
    first [by destruct Hb | by apply books_set_thread | by apply books_cleanup
          | by apply books_register | idtac].
  injection Hs as Hs.
  destruct (tryPoll_begin_cases w) as [[_ Heq] | [_ Heq]]; rewrite Heq in Hs;
    injection Hs as <- <-; by destruct Hb.
Qed.

Lemma books_count w : books w -> size (wk_threads w) = size (wk_active w).
Proof.
  intros [Ha Hn]. apply Nat.le_antisymm.
  - apply (size_le_inj (fun _ th => a_JobID (th_job th))).
    + intros t th Hth. exists t. apply Ha. eauto.
    + intros t th t' th' Hth Hth' Heq.
      assert (wk_active w !! a_JobID (th_job th) = Some t) as H1 by (apply Ha; eauto).
      assert (wk_active w !! a_JobID (th_job th') = Some t') as H2 by (apply Ha; eauto).
      congruence.
  - apply (size_le_inj (fun _ t => t)).
    + intros j t (th & Hth & _)%Ha. eauto.
    + intros j t j' t' (th & Hth & <-)%Ha (th' & Hth' & <-)%Ha ->. congruence.
Qed.

(** ** The requests of one goroutine *)

Definition sent_by (t : nat) (r : request) : bool :=
  match r with
  | SendRunning t' _ _ | SendRenew t' _ _ | SendReport t' _ _ => bool_decide (t' = t)
  | _ => false
  end.

Definition requests_of (t : nat) (sent : list request) : list request :=
  List.filter (sent_by t) sent.

(** The job is marked as running once, then its lease is renewed, then one
    report at most is sent; without the mark nothing follows. *)
Inductive protocol (t : nat) (job : uuid) (id : string) : phase -> list request -> Prop :=
  | pr_starting : protocol t job id Starting []
  | pr_executing n :
      protocol t job id Executing
        (SendRunning t job id :: replicate n (SendRenew t job id))
  | pr_reporting n outcome :
      protocol t job id (Reporting (buildReportRequest id outcome))
        (SendRunning t job id :: replicate n (SendRenew t job id))
  | pr_not_marked : protocol t job id Cleanup [SendRunning t job id]
  | pr_reported n outcome :
      protocol t job id Cleanup
        (SendRunning t job id :: replicate n (SendRenew t job id) ++
         [SendReport t job (buildReportRequest id outcome)]).

(** What has been sent for each goroutine: nothing before it exists, a prefix
    of the protocol while it runs, a finished protocol afterwards. *)
Record talk (w : worker) (sent : list request) : Prop := {
  tk_future : forall t, (wk_next w <= t)%nat ->
    requests_of t sent = [] /\ wk_threads w !! t = None;
  tk_live : forall t th, wk_threads w !! t = Some th ->
    protocol t (a_JobID (th_job th)) (wk_id w) (th_phase th) (requests_of t sent);
  tk_past : forall t, (t < wk_next w)%nat -> wk_threads w !! t = None ->
    exists job, protocol t job (wk_id w) Cleanup (requests_of t sent)
}.

Lemma requests_of_app t l l' : requests_of t (l ++ l') = requests_of t l ++ requests_of t l'.
Proof. apply List.filter_app. Qed.

Lemma talk_new id langs capacity : talk (Worker_New id langs capacity) [].
Proof.
  split; simpl.
  - intros t _. by rewrite lookup_empty.
  - intros t th. by rewrite lookup_empty.
  - intros t Hlt. lia.
Qed.

(** Nothing is said for a goroutine, and nothing of it changes. *)
Lemma talk_silent w w' sent out :
  wk_id w' = wk_id w -> wk_next w' = wk_next w -> wk_threads w' = wk_threads w ->
  (forall t, requests_of t out = []) -> talk w sent -> talk w' (sent ++ out).
Proof.
  intros Hid Hn Ht Ho [Hf Hl Hp].
  split; intros *; rewrite ?Hid, ?Hn, ?Ht, requests_of_app, Ho, app_nil_r; auto.
Qed.

(** A goroutine takes a step and sends [out]. *)
Lemma talk_thread w t th p sent out :
  wk_threads w !! t = Some th -> (forall t', t' <> t -> requests_of t' out = []) ->
  protocol t (a_JobID (th_job th)) (wk_id w) p (requests_of t sent ++ requests_of t out) ->
  talk w sent -> talk (set_thread w t th p) (sent ++ out).
Proof.
  intros Hth Hout Hpr [Hf Hl Hp]. split; simpl.
  - intros t' Hle. destruct (Hf t' Hle) as [Hr Hnone].
    assert (t' <> t) as Hne by congruence.
    rewrite requests_of_app, Hout, Hr by done. split; [done |]. by rewrite lookup_insert_ne.
  - intros t' th'. rewrite lookup_insert, requests_of_app. case_decide as Heq.
    + subst. intros [= <-]. done.
    + rewrite Hout by done. rewrite app_nil_r. apply Hl.
  - intros t' Hlt. rewrite lookup_insert, requests_of_app. case_decide as Heq; [done |].
    rewrite Hout by done. rewrite app_nil_r. by apply Hp.
Qed.

Lemma requests_of_other t t' r : sent_by t r = true -> t' <> t -> requests_of t' [r] = [].
Proof.
  intros Hs Hne. unfold requests_of; simpl. destruct r; simpl in *; try done;
    apply bool_decide_eq_true in Hs; rewrite bool_decide_eq_false_2; congruence.
Qed.

Lemma talk_cleanup w t th sent :
  wk_threads w !! t = Some th -> th_phase th = Cleanup -> talk w sent ->
  talk (runJob_cleanup w t th) sent.
Proof.
  intros Hth Hph [Hf Hl Hp]. split; simpl.
  - intros t' Hle. destruct (Hf t' Hle). split; [done |]. rewrite lookup_delete. by case_decide.
  - intros t' th'. rewrite lookup_delete. case_decide; [done | apply Hl].
  - intros t' Hlt. rewrite lookup_delete. case_decide as Heq; [| by apply Hp].
    intros _. subst. apply Hl in Hth. rewrite Hph in Hth. eauto.
Qed.

Lemma talk_register w reply sent : talk w sent -> talk (tryPoll_end w reply) sent.
Proof.
  intros [Hf Hl Hp]. destruct reply as [[a |] |]; [| by split | by split]. split; simpl.
  - intros t Hle. destruct (Hf t) as [? Hn]; [lia |]. split; [done |].
    by rewrite lookup_insert_ne by lia.
  - intros t th. rewrite lookup_insert. case_decide as Heq; [| apply Hl].
    intros [= <-]. subst. simpl. destruct (Hf (wk_next w)) as [-> _]; [lia |]. constructor.
  - intros t Hlt. rewrite lookup_insert. case_decide; [done |]. apply Hp. lia.
Qed.

Lemma set_thread_id w t th :
  wk_threads w !! t = Some th -> set_thread w t th (th_phase th) = w.
Proof.
  intros Hth. unfold set_thread. destruct th; simpl. rewrite insert_id by done. by destruct w.
Qed.

Lemma requests_of_self t r : sent_by t r = true -> requests_of t [r] = [r].
Proof. unfold requests_of. simpl. by intros ->. Qed.

Lemma talk_runJob w t th e w' out sent :
  wk_threads w !! t = Some th -> thread_of e = Some t ->
  runJob_step w t th e = Some (w', out) -> talk w sent -> talk w' (sent ++ out).
Proof.
  intros Hth Ht Hs Htalk. pose proof (tk_live w sent Htalk t th Hth) as Hpr.
  assert (forall r, sent_by t r = true ->
    forall t', t' <> t -> requests_of t' [r] = []) as Hother
    by (intros r Hr t' Hne; by eapply requests_of_other).
  unfold runJob_step in Hs. destruct (th_phase th) eqn:Hph, e; try done;
    cbn [thread_of] in Ht; simplify_eq.
  - apply talk_thread; [done | by apply Hother, bool_decide_eq_true_2 | | done].
    rewrite requests_of_self by (by apply bool_decide_eq_true_2).
    inversion Hpr. simpl.
    destruct ok; [apply (pr_executing _ _ _ 0) | constructor].
  - injection Hs as <- <-. rewrite <- (set_thread_id w t th Hth) at 1. rewrite Hph.
    apply talk_thread; [done | by apply Hother, bool_decide_eq_true_2 | | done].
    rewrite requests_of_self by (by apply bool_decide_eq_true_2).
    inversion Hpr. simpl. rewrite <- replicate_cons_app.
    apply (pr_executing _ _ _ (S n)).
  - apply talk_thread; [done | done | | done].
    inversion Hpr. simpl. rewrite app_nil_r. constructor.
  - apply talk_thread; [done | by apply Hother, bool_decide_eq_true_2 | | done].
    rewrite requests_of_self by (by apply bool_decide_eq_true_2).
    inversion Hpr. simpl. constructor.
  - rewrite app_nil_r. by apply talk_cleanup.
Qed.

Lemma talk_step w e w' out sent :
  step w e = Some (w', out) -> talk w sent -> talk w' (sent ++ out).
Proof.
  intros Hs Ht. unfold step in Hs. destruct (thread_of e) as [t |] eqn:He.
  - destruct (wk_threads w !! t) as [th |] eqn:Hth; [| done]. by eapply talk_runJob.
  - destruct e; try done; cbn in Hs; step_cases; try (by apply (talk_silent w)).
    + injection Hs as Hs.
      destruct (tryPoll_begin_cases w) as [[_ Heq] | [_ Heq]]; rewrite Heq in Hs;
        injection Hs as <- <-; by apply (talk_silent w).
    + rewrite app_nil_r. by apply talk_register.
Qed.

Lemma step_id w e w' out : step w e = Some (w', out) -> wk_id w' = wk_id w.
Proof.
  intros Hs. step_cases; try done.
  - injection Hs as Hs.
    destruct (tryPoll_begin_cases w) as [[_ Heq] | [_ Heq]]; rewrite Heq in Hs;
      by injection Hs as <- <-.
  - by destruct reply as [[a |] |].
Qed.

Lemma wrun_invariant (P : worker -> list request -> Prop) allowed w0 w sent :
  P w0 [] ->
  (forall w sent e w' out, P w sent -> allowed w e -> step w e = Some (w', out) ->
     P w' (sent ++ out)) ->
  wrun allowed w0 w sent -> P w sent.
Proof. intros H0 Hs. induction 1; eauto. Qed.

(** ** Theorems *)

(** C14. The map of active jobs never holds more jobs than the capacity.  As
    long as the control plane does not hand out a job this worker is still
    running, it is exact: there are as many goroutines as entries, and the
    heartbeat reports their number. *)
Theorem active_jobs_stay_within_capacity allowed id langs capacity w sent :
  wrun allowed (Worker_New id langs capacity) w sent ->
  activeCount w <= Z.max 0 capacity /\
  ((forall w e, allowed w e -> fresh_reply w e) ->
   Z.of_nat (size (wk_threads w)) = activeCount w /\
   hb_ActiveJobs (heartbeat_request w) = Z.of_nat (size (wk_threads w))).
Proof.
  intros Hrun. split.
  - apply (wrun_invariant (fun w _ => room w /\ wk_capacity w = capacity)) in Hrun
      as [[Hle _] <-]; [done | |].
    + split; [| done]. unfold room, activeCount. simpl. rewrite map_size_empty. by split; [lia |].
    + intros w1 s1 e w2 out [Hr Hc] _ Hs. destruct (room_step _ _ _ _ Hs Hr) as [? Heq].
      by rewrite Heq.
  - intros Hfresh. assert (books w) as Hb.
    { apply (wrun_invariant (fun w _ => books w)) in Hrun; [done | apply books_new |].
      intros w1 s1 e w2 out Hb Ha Hs. by eapply books_step; eauto. }
    unfold heartbeat_request, activeCount; simpl. by rewrite (books_count w Hb).
Qed.

(** C13. Whatever the order of events, each goroutine's requests follow the
    protocol: one mark as running, lease renewals, at most one report, built
    from the executor's outcome in this worker's name. *)
Theorem requests_follow_the_protocol allowed id langs capacity w sent t :
  wrun allowed (Worker_New id langs capacity) w sent ->
  requests_of t sent = [] \/ exists p job, protocol t job id p (requests_of t sent).
Proof.
  intros Hrun.
  apply (wrun_invariant (fun w sent => talk w sent /\ wk_id w = id)) in Hrun
    as [[Hf Hl Hp] Hid].
  - destruct (Nat.lt_ge_cases t (wk_next w)) as [Hlt | Hge]; [right | left; by apply Hf].
    rewrite Hid in *. destruct (wk_threads w !! t) as [th |] eqn:Hth.
    + eauto.
    + destruct (Hp t Hlt Hth) as [job ?]. eauto.
  - split; [apply talk_new | done].
  - intros w1 s1 e w2 out [Ht Heq] _ Hs. split; [by eapply talk_step |].
    rewrite <- Heq. by eapply step_id.
Qed.

(** An assignment of the job [id]. *)
Definition assign (id : uuid) : Assignment :=
  mkAssignment id 7%N "python" (Some "print(1)") None None 1000 64 0 [].

(** Two things the process does not guarantee.  When a job comes back
    while it is still running (its lease had expired), the map counts it
    once: a worker with capacity 2 can run three goroutines.  And [Run] waits
    for its loops only: it returns while jobs are being executed. *)
Theorem worker_shutdown_and_overcommit id langs :
  (exists w sent, wrun (fun _ _ => True) (Worker_New id langs 2) w sent /\
     size (wk_threads w) = 3%nat) /\
  (exists w sent th, wrun (fun _ _ => True) (Worker_New id langs 1) w sent /\
     wk_returned w = true /\ wk_threads w !! 0%nat = Some th /\ th_phase th = Executing).
Proof.
  split.
  - destruct (run_events (Worker_New id langs 2)
      [PollTick; PollReply (Ok (Some (assign 1%N))); PollTick; PollReply (Ok (Some (assign 1%N)));
       PollTick; PollReply (Ok (Some (assign 2%N)))]) as [[w sent] |] eqn:E; [| done].
    exists w, sent. split.
    + eapply (run_events_wrun _ _ _ _ _ []); [constructor | exact E].
    + by injection E as <- <-.
  - destruct (run_events (Worker_New id langs 1)
      [PollTick; PollReply (Ok (Some (assign 1%N))); MarkedRunning 0 true; ContextDone;
       PollStop; HeartbeatStop; RunReturns]) as [[w sent] |] eqn:E; [| done].
    exists w, sent, (mkThread (assign 1%N) Executing). split.
    + eapply (run_events_wrun _ _ _ _ _ []); [constructor | exact E].
    + by injection E as <- <-.
Qed.

(** ** Witnesses *)

(** A job is run from its assignment to its report. *)
Definition one_job : list event :=
  [PollTick; PollReply (Ok (Some (assign 1%N))); MarkedRunning 0 true; LeaseTick 0 true;
   Executed 0 (Ok (Some (failResult "no test cases provided"))); Reported 0 true; CleanedUp 0].

Lemma active_jobs_stay_within_capacity_witness :
  exists w sent, run_events (Worker_New "w1" ["python"] 1) (take 3 one_job) = Some (w, sent) /\
    activeCount w <= Z.max 0 1.
Proof.
  destruct (run_events (Worker_New "w1" ["python"] 1) (take 3 one_job)) as [[w sent] |] eqn:E;
    [| done].
  exists w, sent. split; [done |].
  apply (active_jobs_stay_within_capacity (fun _ _ => True) "w1" ["python"] 1 w sent).
  eapply (run_events_wrun _ _ _ _ _ []); [constructor | exact E].
Defined.

Lemma requests_follow_the_protocol_witness :
  exists w sent, run_events (Worker_New "w1" ["python"] 1) one_job = Some (w, sent) /\
    length (requests_of 0 sent) = 3%nat /\
    (requests_of 0 sent = [] \/ exists p job, protocol 0 job "w1" p (requests_of 0 sent)).
Proof.
  destruct (run_events (Worker_New "w1" ["python"] 1) one_job) as [[w sent] |] eqn:E; [| done].
  exists w, sent. split; [done |]. split; [by injection E as <- <- |].
  apply (requests_follow_the_protocol (fun _ _ => True) "w1" ["python"] 1 w sent 0).
  eapply (run_events_wrun _ _ _ _ _ []); [constructor | exact E].
Defined.
