(* ===== verification/TreeCodec.v ===== *)
(** * Submissions: the tree and list codecs of the driver

    The functions [deserializeTree], [serializeTree], [deserializeList] and
    [serializeList] that the Go driver puts in front of a submission
    ([internal/api/submissions/driver/golang.go]; the Java and JavaScript
    drivers carry the same algorithms).  Nodes live in a heap, because the
    decoder fills in the children of nodes it has already linked; a pointer is
    an address or nil.  The tree decoder reads JSON numbers as float64 and
    converts them to int: integers beyond 2^53 are rounded on the way.  (Of the
    JSON numbers only the integers are modelled.)  The second half proves that
    the codecs round-trip. *)

From S2P Require Import Prelude.

(** ** Trees *)

(** An element of a JSON array: null, an integer, or no number at all; and
    the same once it is decoded, an integer then being the float64's value. *)
Inductive cell := CNull | CNum (z : Z) | COther.

#[export] Instance cell_eq_dec : EqDecision cell.
Proof. solve_decision. Defined.

Record TreeNode := mkTreeNode {
  tn_Val : Z;
  tn_Left : option nat;
  tn_Right : option nat
}.

(** *** Numbers *)

(** The float64 that is nearest to an integer: it keeps 53 bits, a tie going
    to the even one. *)
Definition round53 (n : Z) : Z :=
  let e := Z.log2 n - 52 in
  let m := Z.shiftr n e in
  let rest := Z.land n (Z.ones e) in
  let half := Z.shiftl 1 (e - 1) in
  Z.shiftl (if (rest <? half) || ((rest =? half) && Z.even m) then m else m + 1) e.

(** [None] is an integer that is out of the range of float64, for which the
    JSON decoder returns an error. *)
Definition float64 (z : Z) : option Z :=
  let f := if Z.abs z <=? 2 ^ 53 then z else Z.sgn z * round53 (Z.abs z) in
  if Z.abs f <? 2 ^ 1024 then Some f else None.

Definition decode_cell (c : cell) : option cell :=
  match c with CNum z => CNum <$> float64 z | _ => Some c end.

Definition is_int64 (f : Z) : bool := (- 2 ^ 63 <=? f) && (f <? 2 ^ 63).

(** The heap and the next free address. *)
Record heap := mkHeap { hp_nodes : gmap nat TreeNode; hp_next : nat }.

Definition empty_heap : heap := mkHeap ∅ 0.

Definition alloc (h : heap) (v : Z) : heap * nat :=
  (mkHeap (<[hp_next h := mkTreeNode v None None]> (hp_nodes h)) (S (hp_next h)), hp_next h).

Definition set_Left (a b : nat) (h : heap) : heap :=
  mkHeap (alter (fun n => mkTreeNode (tn_Val n) (Some b) (tn_Right n)) a (hp_nodes h)) (hp_next h).
Definition set_Right (a b : nat) (h : heap) : heap :=
  mkHeap (alter (fun n => mkTreeNode (tn_Val n) (tn_Left n) (Some b)) a (hp_nodes h)) (hp_next h).

Section Codec.
(** [int(f)] of a float64 that is no int: Go leaves it to the platform. *)
Context (beyond_int : Z -> Z).

(** [v, _ := toInt(arr[i])]: anything but a number counts as 0. *)
Definition toInt (c : cell) : Z :=
  match c with CNum f => if is_int64 f then f else beyond_int f | _ => 0 end.

(** One child of [node]: [if i < len(arr) && arr[i] != nil { ... }; i++] *)
Definition read_child (set : nat -> nat -> heap -> heap) (node : nat)
    (st : heap * list nat * list cell) : heap * list nat * list cell :=
  let '(h, queue, rest) := st in
  match rest with
  | [] => (h, queue, [])
  | CNull :: rest' => (h, queue, rest')
  | c :: rest' =>
      let '(h1, b) := alloc h (toInt c) in
      (set node b h1, queue ++ [b], rest')
  end.

(** The loop; [rest] is [arr[i:]]. *)
Fixpoint fill_loop (fuel : nat) (h : heap) (queue : list nat) (rest : list cell) : heap :=
  match fuel with
  | O => h
  | S fuel =>
      match queue, rest with
      | node :: queue', _ :: _ =>
          let '(h2, queue2, rest2) :=
            read_child set_Right node (read_child set_Left node (h, queue', rest)) in
          fill_loop fuel h2 queue2 rest2
      | _, _ => h
      end
  end.

Definition deserializeTree (raw : list cell) : heap * option nat :=
  match mapM decode_cell raw with
  | None => (empty_heap, None)
  | Some arr =>
      match arr with
      | CNum f :: rest =>
          let '(h, root) := alloc empty_heap (toInt (CNum f)) in
          (fill_loop (length arr) h [root] rest, Some root)
      | _ => (empty_heap, None)
      end
  end.

End Codec.

(** [serializeTree]'s loop over a queue of pointers.  A cyclic structure
    would keep it going for ever: [None] when the fuel runs out. *)
Fixpoint level_loop (fuel : nat) (h : heap) (queue : list (option nat))
  : option (list (option Z)) :=
  match queue with
  | [] => Some []
  | p :: queue' =>
      match fuel with
      | O => None
      | S fuel =>
          match p ≫= fun a => hp_nodes h !! a with
          | Some n => cons (Some (tn_Val n)) <$> level_loop fuel h (queue' ++ [tn_Left n; tn_Right n])
          | None => cons None <$> level_loop fuel h queue'
          end
      end
  end.

Fixpoint trim_trailing (l : list (option Z)) : list (option Z) :=
  match l with
  | [] => []
  | x :: l' =>
      match x, trim_trailing l' with
      | None, [] => []
      | _, l'' => x :: l''
      end
  end.

Definition serializeTree (fuel : nat) (h : heap) (root : option nat)
  : option (list (option Z)) :=
  match root with
  | None => Some []
  | Some _ => trim_trailing <$> level_loop fuel h [root]
  end.

(** What the JSON encoder and decoder make of the result's elements. *)
Definition cell_of (x : option Z) : cell := match x with Some z => CNum z | None => CNull end.

(** ** Lists *)

Record ListNode := mkListNode { ln_Val : Z; ln_Next : option nat }.
Record list_heap := mkListHeap { lh_nodes : gmap nat ListNode; lh_next : nat }.

(** [cur.Next = &ListNode{Val: v}; cur = cur.Next] for each value. *)
Fixpoint append_loop (h : list_heap) (cur : nat) (arr : list Z) : list_heap :=
  match arr with
  | [] => h
  | v :: arr' =>
      let b := lh_next h in
      let nodes := <[b := mkListNode v None]> (lh_nodes h) in
      append_loop
        (mkListHeap (alter (fun n => mkListNode (ln_Val n) (Some b)) cur nodes) (S b)) b arr'
  end.

Definition deserializeList (arr : list Z) : list_heap * option nat :=
  match arr with
  | [] => (mkListHeap ∅ 0, None)
  | v :: arr' => (append_loop (mkListHeap {[0%nat := mkListNode v None]} 1) 0 arr', Some 0%nat)
  end.

(** [None] when the fuel runs out. *)
Fixpoint serializeList (fuel : nat) (h : list_heap) (head : option nat) : option (list Z) :=
  match head ≫= fun a => lh_nodes h !! a with
  | None => Some []
  | Some n =>
      match fuel with
      | O => None
      | S fuel => cons (ln_Val n) <$> serializeList fuel h (ln_Next n)
      end
  end.

(** ** Specification: trees as values *)

Inductive tree := Leaf | Node (v : Z) (l r : tree).

Fixpoint tree_size (t : tree) : nat :=
  match t with Leaf => 0 | Node _ l r => S (tree_size l + tree_size r) end.

(** The heap holds [t] at a pointer. *)
Fixpoint represents (h : gmap nat TreeNode) (p : option nat) (t : tree) : Prop :=
  match t with
  | Leaf => p = None
  | Node v l r =>
      exists a n, p = Some a /\ h !! a = Some n /\ tn_Val n = v /\
        represents h (tn_Left n) l /\ represents h (tn_Right n) r
  end.

Fixpoint all_vals (P : Z -> bool) (t : tree) : bool :=
  match t with Leaf => true | Node v l r => P v && all_vals P l && all_vals P r end.

Fixpoint map_vals (f : Z -> Z) (t : tree) : tree :=
  match t with Leaf => Leaf | Node v l r => Node (f v) (map_vals f l) (map_vals f r) end.

(** A value that the decoder delivers as an int, and the int. *)
Definition arrives (v : Z) : bool :=
  match float64 v with Some f => is_int64 f | None => false end.
Definition rounded (v : Z) : Z := default v (float64 v).

Definition on_values (f : Z -> Z) (l : list (option Z)) : list (option Z) := option_map f <$> l.

Definition val_of (t : tree) : option Z := match t with Leaf => None | Node v _ _ => Some v end.
Definition kids (t : tree) : list tree := match t with Leaf => [] | Node _ l r => [l; r] end.
Definition forest_size (q : list tree) : nat :=
  list_sum ((fun t => S (2 * tree_size t)) <$> q).

(** Level order of a queue of trees, with every missing child. *)
Fixpoint levels (fuel : nat) (q : list tree) : list (option Z) :=
  match fuel, q with
  | S fuel, t :: q' => val_of t :: levels fuel (q' ++ kids t)
  | _, _ => []
  end.

Definition level_order (q : list tree) : list (option Z) := levels (forest_size q) q.

(** * The codecs round-trip *)

(** ** Level order *)

Lemma all_vals_kids P t : all_vals P t = true -> Forall (fun u => all_vals P u = true) (kids t).
Proof. destruct t as [| v l r]; [constructor |]. cbn. intros [[_ Hl]%andb_prop Hr]%andb_prop. by repeat constructor. Qed.

Lemma tree_size_map f t : tree_size (map_vals f t) = tree_size t.
Proof. induction t as [| v l IHl r IHr]; cbn; congruence. Qed.

Lemma forest_size_map f (q : list tree) : forest_size (map_vals f <$> q) = forest_size q.
Proof.
  unfold forest_size. rewrite <- list_fmap_compose. f_equal. apply list_fmap_ext. intros i t _. simpl.
  by rewrite tree_size_map.
Qed.

Lemma kids_map f t : kids (map_vals f t) = map_vals f <$> kids t.
Proof. by destruct t. Qed.

Lemma val_of_map f t : val_of (map_vals f t) = option_map f (val_of t).
Proof. by destruct t. Qed.

Lemma levels_map f fuel (q : list tree) :
  levels fuel (map_vals f <$> q) = on_values f (levels fuel q).
Proof.
  revert q. induction fuel as [| fuel IH]; intros q; [done |]. destruct q as [| t q]; [done |].
  rewrite fmap_cons. cbn [levels]. unfold on_values in *. rewrite fmap_cons, <- IH, fmap_app.
  by rewrite val_of_map, kids_map.
Qed.

Lemma level_order_map f (q : list tree) :
  level_order (map_vals f <$> q) = on_values f (level_order q).
Proof. unfold level_order. by rewrite forest_size_map, levels_map. Qed.

Lemma levels_vals P fuel q :
  Forall (fun t => all_vals P t = true) q ->
  Forall (fun x => match x with Some v => P v = true | None => True end) (levels fuel q).
Proof.
  revert q. induction fuel as [| fuel IH]; intros q Hq; [constructor |]. destruct Hq as [| t q Ht Hq]; constructor.
  - destruct t as [| v l r]; [done |]. cbn in Ht. by apply andb_prop in Ht as [[Hv _]%andb_prop _].
  - apply IH, Forall_app. split; [done | by apply all_vals_kids].
Qed.

Lemma trim_trailing_map (f : Z -> Z) (l : list (option Z)) :
  trim_trailing (on_values f l) = on_values f (trim_trailing l).
Proof.
  induction l as [| x l IH]; [done |]. unfold on_values in *. cbn [fmap list_fmap trim_trailing].
  change (list_fmap _ _ (option_map f) l) with (option_map f <$> l). rewrite IH.
  destruct x; [done |]. by destruct (trim_trailing l).
Qed.

Lemma trim_trailing_Forall (Q : option Z -> Prop) l : Forall Q l -> Forall Q (trim_trailing l).
Proof.
  induction 1 as [| x l Hx Hl IH]; [constructor |]. cbn.
  destruct x, (trim_trailing l); try constructor; done.
Qed.

(** *** Numbers *)

Lemma float64_exact v : Z.abs v <= 2 ^ 53 -> float64 v = Some v.
Proof.
  intros Hv. unfold float64. rewrite (proj2 (Z.leb_le _ _) Hv).
  destruct (Z.ltb_spec (Z.abs v) (2 ^ 1024)); [done |].
  assert (2 ^ 53 < 2 ^ 1024) by reflexivity. lia.
Qed.

Lemma arrives_exact v : Z.abs v <= 2 ^ 53 -> arrives v = true /\ rounded v = v.
Proof.
  intros Hv. unfold arrives, rounded. rewrite float64_exact by done. split; [| done].
  unfold is_int64. rewrite andb_true_iff, Z.leb_le, Z.ltb_lt. lia.
Qed.

(** Beyond that it is the nearest of the multiples of the last bit kept. *)
Lemma round53_near n :
  2 ^ 53 < n -> 2 * Z.abs (round53 n - n) <= 2 ^ (Z.log2 n - 52).
Proof.
  intros Hn. unfold round53. set (e := Z.log2 n - 52).
  assert (1 <= e) as He by (pose proof (Z.log2_le_mono (2 ^ 53) n); rewrite Z.log2_pow2 in *; lia).
  rewrite Z.land_ones, Z.shiftr_div_pow2, Z.shiftl_mul_pow2, Z.shiftl_mul_pow2 by lia.
  assert (2 ^ e = 2 * 2 ^ (e - 1)) as Hpow by (rewrite <- Z.pow_succ_r by lia; f_equal; lia).
  pose proof (Z.div_mod n (2 ^ e)) as Hdiv. pose proof (Z.mod_pos_bound n (2 ^ e)) as Hmod.
  assert (0 < 2 ^ (e - 1)) by (apply Z.pow_pos_nonneg; lia).
  destruct (_ || _) eqn:E; [apply orb_prop in E as [E | E] | apply orb_false_iff in E as [E E']].
  - apply Z.ltb_lt in E. nia.
  - apply andb_prop in E as [E _]. apply Z.eqb_eq in E. nia.
  - apply Z.ltb_ge in E. nia.
Qed.

Lemma forest_size_cons t q : forest_size (t :: q) = (S (2 * tree_size t) + forest_size q)%nat.
Proof. reflexivity. Qed.

Lemma forest_size_app q q' : forest_size (q ++ q') = (forest_size q + forest_size q')%nat.
Proof. unfold forest_size. rewrite fmap_app. apply list_sum_app. Qed.

Lemma forest_size_kids t : forest_size (kids t) = (2 * tree_size t)%nat.
Proof. destruct t as [| v l r]; [done |]. unfold forest_size. simpl. lia. Qed.

Lemma level_order_cons t q : level_order (t :: q) = val_of t :: level_order (q ++ kids t).
Proof.
  unfold level_order. rewrite forest_size_app, forest_size_kids, forest_size_cons.
  cbn [Nat.add levels]. do 2 f_equal. lia.
Qed.

Lemma level_order_nil : level_order [] = [].
Proof. reflexivity. Qed.

(** Every child of a queue of nodes is missing when its level order is. *)
Lemma level_order_none q k :
  level_order q = replicate k None -> Forall (fun t => t = Leaf) q.
Proof.
  revert k. induction q as [| t q IH]; intros k; [constructor |].
  rewrite level_order_cons. destruct k as [| k]; [done |]. simpl. intros [= Ht Hq].
  destruct t; [| done]. simpl in Hq. rewrite app_nil_r in Hq. constructor; eauto.
Qed.

Lemma trim_trailing_replicate l : exists k, trim_trailing l ++ replicate k None = l.
Proof.
  induction l as [| x l [k IH]]; simpl; [by exists 0%nat |].
  destruct x as [z |]; [exists k; simpl; by rewrite IH |].
  destruct (trim_trailing l) as [| y l'] eqn:E; simpl in *.
  - exists (S k). simpl. by rewrite IH.
  - exists k. by rewrite IH.
Qed.

Lemma trim_trailing_some z l : trim_trailing (Some z :: l) = Some z :: trim_trailing l.
Proof. reflexivity. Qed.

(** *** The serializer *)

Lemma level_loop_spec h ts ps :
  Forall2 (represents (hp_nodes h)) ps ts ->
  forall fuel, (forest_size ts <= fuel)%nat ->
  level_loop fuel h ps = Some (level_order ts).
Proof.
  remember (forest_size ts) as n eqn:Hn. revert ts ps Hn.
  induction n as [n IH] using lt_wf_ind. intros ts ps -> Hrep fuel Hfuel.
  destruct Hrep as [| p t ps ts Hp Hps]; [by destruct fuel |].
  rewrite level_order_cons. rewrite forest_size_cons in Hfuel.
  destruct fuel as [| fuel]; [lia |]. cbn [level_loop].
  assert (forest_size (ts ++ kids t) < forest_size (t :: ts))%nat as Hlt
    by (rewrite forest_size_app, forest_size_kids, forest_size_cons; lia).
  assert (forest_size (ts ++ kids t) <= fuel)%nat as Hle
    by (rewrite forest_size_app, forest_size_kids; lia).
  destruct t as [| v l r].
  - simpl in Hp. subst p. simpl.
    rewrite (IH _ Hlt (ts ++ kids Leaf)) by (done || by rewrite app_nil_r). done.
  - destruct Hp as (a & nd & -> & Ha & Hv & Hl & Hr). simpl. rewrite Ha.
    rewrite (IH _ Hlt (ts ++ kids (Node v l r)));
      [by subst v | done | | done].
    apply Forall2_app; [done |]. by repeat constructor.
Qed.

(** *** The deserializer *)

Section Deserializer.
Context (beyond_int : Z -> Z).

Definition ints (t : tree) : Prop := all_vals is_int64 t = true.

Lemma ints_Node v l r : ints (Node v l r) -> is_int64 v = true /\ ints l /\ ints r.
Proof. unfold ints. cbn. by intros [[? ?]%andb_prop ?]%andb_prop. Qed.

(** The node of [t] is in the heap, its children are not linked yet. *)
Definition pending (h : heap) (a : nat) (t : tree) : Prop :=
  exists v l r, t = Node v l r /\ hp_nodes h !! a = Some (mkTreeNode v None None).

Definition opt_node (t : tree) : list tree := match t with Leaf => [] | _ => [t] end.

Definition fresh_from (h : heap) : Prop := forall x, (hp_next h <= x)%nat -> hp_nodes h !! x = None.

(** What reading one child changes. *)
Record linked (h h1 : heap) (a : nat) (t : tree) (p : option nat) (new : list nat) : Prop := {
  lk_next : (hp_next h <= hp_next h1)%nat;
  lk_fresh : fresh_from h1;
  lk_frame : forall x, (x < hp_next h)%nat -> x <> a -> hp_nodes h1 !! x = hp_nodes h !! x;
  lk_new : new = option_list p;
  lk_pending : Forall2 (pending h1) new (opt_node t);
  lk_range : Forall (fun b => (hp_next h <= b < hp_next h1)%nat) new;
  lk_none : p = None <-> t = Leaf
}.

Lemma read_child_spec (set : nat -> nat -> heap -> heap) upd a n h q rest k t K :
  ints t -> (forall b h, set a b h = mkHeap (alter (upd b) a (hp_nodes h)) (hp_next h)) ->
  fresh_from h -> (a < hp_next h)%nat -> hp_nodes h !! a = Some n ->
  rest ++ replicate k None = val_of t :: K ->
  exists h1 p new rest1 k1,
    read_child beyond_int set a (h, q, cell_of <$> rest) = (h1, q ++ new, cell_of <$> rest1) /\
    rest1 ++ replicate k1 None = K /\ (length rest1 <= pred (length rest))%nat /\
    linked h h1 a t p new /\
    hp_nodes h1 !! a = Some (match p with Some b => upd b n | None => n end).
Proof.
  intros Hints Hset Hf Ha Hn Hrest.
  assert (t = Leaf -> linked h h a t None []) as Hleaf.
  { intros ->. by split. }
  destruct rest as [| x rest]; simpl in Hrest.
  - destruct k as [| k]; [done |]. simpl in Hrest. injection Hrest as Ht HK.
    destruct t; [| done]. exists h, None, [], [], k. rewrite app_nil_r.
    repeat split; eauto; by apply Hleaf.
  - injection Hrest as -> HK. destruct t as [| v l r]; cbn [val_of cell_of fmap list_fmap read_child toInt].
    + exists h, None, [], rest, k. rewrite app_nil_r. repeat split; eauto; by apply Hleaf.
    + apply ints_Node in Hints as (-> & _ & _).
      eexists _, (Some (hp_next h)), [hp_next h], rest, k. split; [reflexivity |].
      split; [done |]. split; [simpl; lia |]. rewrite Hset. simpl. split.
      * split; simpl; try done; try lia.
        -- intros y Hy. simpl in *. rewrite lookup_alter_ne by lia.
           rewrite lookup_insert_ne by lia. apply Hf. lia.
        -- intros y Hy Hne. by rewrite lookup_alter_ne, lookup_insert_ne by (done || lia).
        -- constructor; [| constructor]. exists v, l, r. split; [done |]. simpl.
           by rewrite lookup_alter_ne, lookup_insert_eq by (done || lia).
        -- constructor; [lia | constructor].
      * rewrite lookup_alter_eq, lookup_insert_ne by lia. by rewrite Hn.
Qed.

Lemma pending_frame h h1 a t p new q ts :
  linked h h1 a t p new -> a ∉ q -> Forall (fun x => (x < hp_next h)%nat) q ->
  Forall2 (pending h) q ts -> Forall2 (pending h1) q ts.
Proof.
  intros Hl Ha Hlt H. induction H as [| b u q ts (v & l & r & -> & Hb) _ IH]; [constructor |].
  apply not_elem_of_cons in Ha as [Hab Ha]. apply Forall_cons in Hlt as [Hlt1 Hlt].
  constructor; [| by apply IH]. exists v, l, r. split; [done |].
  rewrite (lk_frame _ _ _ _ _ _ Hl); done.
Qed.

Lemma nothing_left h q ts k :
  Forall2 (pending h) q ts ->
  replicate k None = level_order (flat_map kids ts) ->
  Forall2 (fun a t => represents (hp_nodes h) (Some a) t) q ts.
Proof.
  intros H Hk. symmetry in Hk. apply level_order_none in Hk.
  induction H as [| b u q ts (v & l & r & -> & Hb) _ IH]; [constructor |].
  simpl in Hk. rewrite !Forall_cons in Hk. destruct Hk as (-> & -> & Hk).
  constructor; [| by apply IH]. simpl. eauto 8.
Qed.

Lemma level_order_children v l r ts :
  level_order (flat_map kids (Node v l r :: ts)) =
  val_of l :: val_of r :: level_order (flat_map kids (ts ++ opt_node l ++ opt_node r)).
Proof.
  simpl. rewrite !level_order_cons. simpl. rewrite level_order_cons. do 2 f_equal. f_equal.
  rewrite !flat_map_app, <- app_assoc.
  do 2 f_equal; [destruct l | destruct r]; simpl; by rewrite ?app_nil_r.
Qed.

Lemma represents_child h p new t :
  new = option_list p -> (p = None <-> t = Leaf) ->
  Forall2 (fun a t => represents h (Some a) t) new (opt_node t) -> represents h p t.
Proof.
  intros -> Hp H. destruct p as [b |].
  - destruct t; [exfalso; by destruct Hp as [_ Hp]; specialize (Hp eq_refl) |].
    simpl in H. by apply Forall2_cons in H as [H _].
  - destruct Hp as [Hp _]. by rewrite Hp.
Qed.

Lemma queue_step h h1 h2 a q ts l r p1 p2 new1 new2 :
  a ∉ q -> (a < hp_next h)%nat -> NoDup q -> Forall (fun x => (x < hp_next h)%nat) q ->
  Forall2 (pending h) q ts ->
  linked h h1 a l p1 new1 -> linked h1 h2 a r p2 new2 ->
  Forall2 (pending h2) (q ++ new1 ++ new2) (ts ++ opt_node l ++ opt_node r) /\
  NoDup (q ++ new1 ++ new2) /\ Forall (fun x => (x < hp_next h2)%nat) (q ++ new1 ++ new2) /\
  a ∉ q ++ new1 ++ new2.
Proof.
  intros Haq Halt Hnd Hlt Hp L1 L2.
  pose proof (lk_next _ _ _ _ _ _ L1) as N1. pose proof (lk_next _ _ _ _ _ _ L2) as N2.
  pose proof (lk_range _ _ _ _ _ _ L1) as R1. pose proof (lk_range _ _ _ _ _ _ L2) as R2.
  assert (forall new, new = new1 -> a ∉ new /\ Forall (fun x => (x < hp_next h1)%nat) new) as H1.
  { intros ? ->. split; [| eapply Forall_impl; [exact R1 |]; simpl; lia].
    intros Hin. rewrite Forall_forall in R1. apply R1 in Hin. lia. }
  destruct (H1 _ eq_refl) as [Ha1 Hlt1].
  split; [| split; [| split]].
  - apply Forall2_app; [| apply Forall2_app].
    + eapply pending_frame; [exact L2 | done | |].
      * eapply Forall_impl; [exact Hlt |]; simpl; lia.
      * eapply pending_frame; [exact L1 | done..].
    + eapply pending_frame; [exact L2 | done | done | apply (lk_pending _ _ _ _ _ _ L1)].
    + apply (lk_pending _ _ _ _ _ _ L2).
  - rewrite Forall_forall in Hlt, R1, R2. apply NoDup_app. split; [done |]. split.
    { intros x Hx. rewrite elem_of_app. intros [Hin | Hin];
        [apply R1 in Hin | apply R2 in Hin]; apply Hlt in Hx; lia. }
    apply NoDup_app.
    rewrite (lk_new _ _ _ _ _ _ L1), (lk_new _ _ _ _ _ _ L2). split; [destruct p1; apply NoDup_singleton || constructor |].
    split; [| destruct p2; apply NoDup_singleton || constructor].
    rewrite <- (lk_new _ _ _ _ _ _ L1), <- (lk_new _ _ _ _ _ _ L2).
    intros x Hx Hin. apply R1 in Hx. apply R2 in Hin. lia.
  - rewrite !Forall_app. split; [| split].
    + eapply Forall_impl; [exact Hlt |]; simpl; lia.
    + eapply Forall_impl; [exact Hlt1 |]; simpl; lia.
    + eapply Forall_impl; [exact R2 |]; simpl; lia.
  - rewrite !elem_of_app. intros [Hin | [Hin | Hin]]; [done | done |].
    rewrite Forall_forall in R2. apply R2 in Hin. lia.
Qed.

Lemma fill_loop_spec fuel : forall h q ts rest k,
  (length rest <= fuel)%nat -> Forall2 (pending h) q ts -> NoDup q ->
  Forall (fun x => (x < hp_next h)%nat) q -> fresh_from h ->
  Forall ints ts -> rest ++ replicate k None = level_order (flat_map kids ts) ->
  let h' := fill_loop beyond_int fuel h q (cell_of <$> rest) in
  Forall2 (fun a t => represents (hp_nodes h') (Some a) t) q ts /\
  (forall x, (x < hp_next h)%nat -> x ∉ q -> hp_nodes h' !! x = hp_nodes h !! x).
Proof.
  induction fuel as [| fuel IH]; intros h q ts rest k Hfuel Hp Hnd Hlt Hf Hints Hrest.
  { destruct rest; [| simpl in Hfuel; lia]. split; [| done]. by eapply nothing_left. }
  destruct Hp as [| a t q ts (v & l & r & -> & Ha) Hp]; [split; [constructor | done] |].
  destruct rest as [| x rest].
  { split; [| done]. eapply nothing_left; [constructor; [by exists v, l, r | done] | done]. }
  apply NoDup_cons in Hnd as [Haq Hnd]. apply Forall_cons in Hlt as [Halt Hlt].
  rewrite level_order_children in Hrest.
  apply Forall_cons in Hints as [(_ & Hil & Hir)%ints_Node Hints].
  destruct (read_child_spec set_Left (fun b n => mkTreeNode (tn_Val n) (Some b) (tn_Right n))
    a _ h q _ k _ _ Hil ltac:(done) Hf Halt Ha Hrest)
    as (h1 & p1 & new1 & rest1 & k1 & E1 & Hrest1 & Hlen1 & L1 & Ha1).
  assert (a < hp_next h1)%nat as Halt1 by (pose proof (lk_next _ _ _ _ _ _ L1); lia).
  destruct (read_child_spec set_Right (fun b n => mkTreeNode (tn_Val n) (tn_Left n) (Some b))
    a _ h1 (q ++ new1) _ k1 _ _ Hir ltac:(done) (lk_fresh _ _ _ _ _ _ L1) Halt1 Ha1 Hrest1)
    as (h2 & p2 & new2 & rest2 & k2 & E2 & Hrest2 & Hlen2 & L2 & Ha2).
  assert (fill_loop beyond_int (S fuel) h (a :: q) (cell_of <$> x :: rest) =
    fill_loop beyond_int fuel h2 ((q ++ new1) ++ new2) (cell_of <$> rest2)) as ->.
  { cbn [fill_loop fmap list_fmap]. cbn [fmap list_fmap] in E1. by rewrite E1, E2. }
  rewrite <- app_assoc.
  destruct (queue_step h h1 h2 a q ts l r p1 p2 new1 new2 Haq Halt Hnd Hlt Hp L1 L2)
    as (Hp' & Hnd' & Hlt' & Haq').
  destruct (IH h2 (q ++ new1 ++ new2) (ts ++ opt_node l ++ opt_node r) rest2 k2)
    as [HR HF]; try done; [simpl in *; lia | apply (lk_fresh _ _ _ _ _ _ L2) | |].
  { rewrite !Forall_app. split_and!; [done | by destruct l; repeat constructor | by destruct r; repeat constructor]. }
  apply Forall2_app_inv in HR as [HRq HRn]; [| by eapply Forall2_length].
  apply Forall2_app_inv in HRn as [HR1 HR2]; [| by eapply Forall2_length, lk_pending].
  pose proof (lk_next _ _ _ _ _ _ L1). pose proof (lk_next _ _ _ _ _ _ L2). split.
  - constructor; [| done]. eexists a, _. split; [done |].
    rewrite HF by (done || lia). split; [exact Ha2 |].
    destruct L1 as [_ _ _ N1 _ _ Z1], L2 as [_ _ _ N2 _ _ Z2].
    apply (represents_child _ p1) in HR1; [| done..].
    apply (represents_child _ p2) in HR2; [| done..].
    by destruct p1, p2.
  - intros y Hy Hyq. apply not_elem_of_cons in Hyq as [Hya Hyq].
    rewrite HF; [| lia |].
    + rewrite (lk_frame _ _ _ _ _ _ L2), (lk_frame _ _ _ _ _ _ L1) by (done || lia). done.
    + rewrite !elem_of_app. pose proof (lk_range _ _ _ _ _ _ L1) as R1.
      pose proof (lk_range _ _ _ _ _ _ L2) as R2. rewrite Forall_forall in R1, R2.
      intros [Hin | [Hin | Hin]]; [done | apply R1 in Hin; lia | apply R2 in Hin; lia].
Qed.

(** ** The round trips *)

(** The decoder on cells that hold ints. *)
Lemma deserializeTree_ints t extra :
  ints t ->
  let arr := trim_trailing (level_order [t]) in
  forall raw, mapM decode_cell raw = Some (cell_of <$> arr) ->
  let '(h, root) := deserializeTree beyond_int raw in
  represents (hp_nodes h) root t /\
  serializeTree (forest_size [t] + extra) h root = Some arr.
Proof.
  intros Hints arr raw Hraw. unfold deserializeTree. rewrite Hraw. subst arr. clear Hraw.
  destruct t as [| v l r]; [done |].
  rewrite level_order_cons. cbn [val_of kids]. rewrite trim_trailing_some, app_nil_l.
  destruct (trim_trailing_replicate (level_order [l; r])) as [k Hk].
  set (rest := trim_trailing (level_order [l; r])) in *. cbn [fmap list_fmap cell_of].
  assert (toInt beyond_int (CNum v) = v) as ->.
  { unfold toInt. by destruct (ints_Node _ _ _ Hints) as [-> _]. }
  cbn [alloc]. set (h0 := mkHeap _ _). set (h := fill_loop _ _ _ _ _).
  assert (represents (hp_nodes h) (Some 0%nat) (Node v l r)) as Hrep.
  { unfold h. edestruct (fill_loop_spec (length (CNum v :: (cell_of <$> rest))) h0 [0%nat]
      [Node v l r] rest k) as [H _].
    - simpl. rewrite length_fmap. lia.
    - repeat constructor. by exists v, l, r.
    - apply NoDup_singleton.
    - repeat constructor.
    - intros x Hx. simpl in *. by rewrite lookup_insert_ne by lia.
    - by repeat constructor.
    - simpl. done.
    - by apply Forall2_cons in H as [H _]. }
  split; [exact Hrep |]. unfold serializeTree.
  rewrite (level_loop_spec _ [Node v l r] [Some 0%nat]);
    [| constructor; [exact Hrep | constructor] | lia].
  rewrite level_order_cons. simpl val_of. cbn [fmap option_fmap option_map kids app].
  by rewrite trim_trailing_some.
Qed.

(** What json.Unmarshal makes of the level order of a tree. *)
Lemma decode_level_order (l : list (option Z)) :
  Forall (fun x => match x with Some v => arrives v = true | None => True end) l ->
  mapM decode_cell (cell_of <$> l) = Some (cell_of <$> on_values rounded l).
Proof.
  intros Hl. apply mapM_Some_2. unfold on_values. rewrite <- list_fmap_compose.
  apply Forall2_fmap, Forall_Forall2_diag. eapply Forall_impl; [exact Hl |]. intros [v |]; [| done]. unfold arrives, rounded. cbn.
  by destruct (float64 v).
Qed.

Lemma ints_rounded t : all_vals arrives t = true -> ints (map_vals rounded t).
Proof.
  unfold ints. induction t as [| v l IHl r IHr]; [done |]. cbn. intros [[Hv Hl]%andb_prop Hr]%andb_prop.
  rewrite IHl, IHr by done. unfold arrives, rounded in *. by destruct (float64 v); cbn; rewrite ?Hv.
Qed.

Lemma exact_rounded t :
  all_vals (fun v => Z.abs v <=? 2 ^ 53) t = true -> map_vals rounded t = t /\ all_vals arrives t = true.
Proof.
  induction t as [| v l IHl r IHr]; [done |]. cbn [all_vals map_vals].
  intros [[Hv%Z.leb_le Hl]%andb_prop Hr]%andb_prop.
  destruct (arrives_exact v Hv) as [-> ->]. destruct (IHl Hl) as [-> ->]. by destruct (IHr Hr) as [-> ->].
Qed.

End Deserializer.

(** C19. Encoding and decoding trees agree, but for the precision of float64:
    whatever tree [t] a test case holds whose values come out as ints at all,
    decoding its level order (missing children as null, trailing nulls cut
    off) builds in the heap the tree of the same shape with each value rounded
    to 53 bits, and serializing the pointer the decoder returns ends and gives
    the array of that tree.  When no value is beyond 2^53 this is exactly [t],
    and the array that was decoded; nothing is then assumed of the platform. *)
Theorem tree_codec_round_trips beyond_int (t : tree) (extra : nat) :
  all_vals arrives t = true ->
  let arr := trim_trailing (level_order [t]) in
  let '(h, root) := deserializeTree beyond_int (cell_of <$> arr) in
  represents (hp_nodes h) root (map_vals rounded t) /\
  serializeTree (forest_size [t] + extra) h root = Some (on_values rounded arr) /\
  (all_vals (fun v => Z.abs v <=? 2 ^ 53) t = true ->
   map_vals rounded t = t /\ on_values rounded arr = arr).
Proof.
  intros Harr arr.
  assert (on_values rounded arr = trim_trailing (level_order [map_vals rounded t])) as Hmap.
  { subst arr. rewrite <- trim_trailing_map. f_equal. symmetry. apply (level_order_map rounded [t]). }
  pose proof (deserializeTree_ints beyond_int (map_vals rounded t) extra (ints_rounded t Harr)
    (cell_of <$> arr)) as Hdes.
  rewrite <- Hmap in Hdes. specialize (Hdes ltac:(apply decode_level_order, trim_trailing_Forall,
    levels_vals; by repeat constructor)).
  destruct (deserializeTree beyond_int (cell_of <$> arr)) as [h root]. destruct Hdes as [Hrep Hser].
  change (forest_size [map_vals rounded t]) with (forest_size (map_vals rounded <$> [t])) in Hser.
  rewrite forest_size_map in Hser. split_and!; [exact Hrep | exact Hser |].
  intros Hexact. destruct (exact_rounded t Hexact) as [Heq _]. split; [done |]. by rewrite Hmap, Heq.
Qed.

Definition sample_tree : tree := Node 1 (Node (- 2) Leaf (Node 3 Leaf Leaf)) (Node (2 ^ 53) Leaf Leaf).

Lemma tree_codec_round_trips_witness :
  exists h root,
    deserializeTree (fun _ => 0) [CNum 1; CNum (- 2); CNum (2 ^ 53); CNull; CNum 3] = (h, root) /\
    represents (hp_nodes h) root sample_tree.
Proof.
  pose proof (tree_codec_round_trips (fun _ => 0) sample_tree 0 eq_refl) as Hc.
  assert (cell_of <$> trim_trailing (level_order [sample_tree]) =
    [CNum 1; CNum (- 2); CNum (2 ^ 53); CNull; CNum 3]) as Harr by reflexivity.
  cbv zeta in Hc. rewrite Harr in Hc.
  destruct (deserializeTree _ _) as [h root]. destruct Hc as (Hrep & _ & Hexact).
  exists h, root. split; [done |]. by rewrite (proj1 (Hexact eq_refl)) in Hrep.
Defined.

(** One more than 2^53 does not come back: the solution is given another
    tree. *)
Example large_values_are_rounded :
  let '(h, root) := deserializeTree (fun _ => 0) [CNum (2 ^ 53 + 1)] in
  serializeTree 5 h root = Some [Some (2 ^ 53)].
Proof. vm_compute. reflexivity. Qed.

Lemma append_loop_spec arr : forall h cur v fuel,
  lh_nodes h !! cur = Some (mkListNode v None) -> (cur < lh_next h)%nat ->
  let h' := append_loop h cur arr in
  serializeList (S (length arr + fuel)) h' (Some cur) = Some (v :: arr) /\
  (forall x, (x < lh_next h)%nat -> x <> cur -> lh_nodes h' !! x = lh_nodes h !! x).
Proof.
  induction arr as [| w arr IH]; intros h cur v fuel Hcur Hlt; cbn zeta.
  - split; [| done]. cbn [append_loop serializeList mbind option_bind]. rewrite Hcur.
    simpl. by destruct fuel.
  - cbn [append_loop]. set (b := lh_next h) in *. set (h1 := mkListHeap _ _).
    destruct (IH h1 b w fuel) as [Hs Hf].
    { simpl. rewrite lookup_alter_ne by lia. by rewrite lookup_insert_eq. }
    { simpl. lia. }
    split.
    + cbn [serializeList mbind option_bind]. rewrite Hf by (simpl; lia).
      simpl lh_nodes. rewrite lookup_alter_eq, lookup_insert_ne by lia. rewrite Hcur.
      cbn [fmap option_fmap option_map ln_Val ln_Next length Nat.add].
      cbn [length Nat.add] in Hs. by rewrite Hs.
    + intros x Hx Hne. rewrite Hf by (simpl; lia). simpl.
      by rewrite lookup_alter_ne, lookup_insert_ne by (done || lia).
Qed.

(** Encoding and decoding linked lists agree: serializing the list built
    from an array ends and gives that array. *)
Theorem list_codec_round_trips (arr : list Z) (extra : nat) :
  let '(h, head) := deserializeList arr in
  serializeList (length arr + extra) h head = Some arr.
Proof.
  destruct arr as [| v arr]; [by destruct extra |].
  apply (append_loop_spec arr _ 0 v extra); [| simpl; lia]. simpl. by rewrite lookup_singleton_eq.
Qed.
