(* ===== verification/AiDomain.v ===== *)
(** * AI: data

    [internal/api/ai/domain] and the tables of
    [internal/api/migrations/000010_ai_validation.up.sql] and
    [000012_hint_messages.up.sql]. *)

From S2P Require Import Prelude.

(** ** JSON values, as Go decodes them into [interface{}] *)

Inductive json :=
  | JNull
  | JBool (b : bool)
  | JNumber (text : string)
  | JString (s : string)
  | JArray (l : list json)
  | JObject (fields : gmap string json).

(** [map[string]interface{}]: nil, or a map. *)
Definition json_map : Type := option (gmap string json).

(** [data[key]], which is nil for a key that is not there. *)
Definition json_field (data : json_map) (key : string) : option json :=
  m ← data; m !! key.

(** [v, ok := data[key].(bool)], and the other types. *)
Definition field_bool (data : json_map) (key : string) : option bool :=
  match json_field data key with Some (JBool b) => Some b | _ => None end.
Definition field_string (data : json_map) (key : string) : option string :=
  match json_field data key with Some (JString s) => Some s | _ => None end.
Definition field_object (data : json_map) (key : string) : option (gmap string json) :=
  match json_field data key with Some (JObject m) => Some m | _ => None end.

(** ** Validation *)

Definition SeverityInfo : string := "info".
Definition SeverityWarn : string := "warn".
Definition SeverityHigh : string := "high".
Definition SeverityBlock : string := "block".

(** A row of [ai_code_validations], its metadata decoded. *)
Record AICodeValidation := mkAICodeValidation {
  acv_ID : uuid;
  acv_SubmissionID : uuid;
  acv_UserID : uuid;
  acv_ProblemID : uuid;
  acv_Code : string;
  acv_LanguageID : uuid;
  acv_IsAllowed : bool;
  acv_Severity : option string;
  acv_Reason : option string;
  acv_ValidationMeta : json_map;
  acv_CreatedAt : Z;
  acv_UpdatedAt : Z
}.

Record ValidateCodeRequest := mkValidateCodeRequest {
  vr_SubmissionID : uuid;
  vr_UserID : uuid;
  vr_ProblemID : uuid;
  vr_Code : string;
  vr_LanguageID : uuid;
  vr_LanguageKey : string
}.

Record ValidateCodeResponse := mkValidateCodeResponse {
  vp_IsAllowed : bool;
  vp_Severity : string;
  vp_Reason : string;
  vp_Details : json_map
}.

(** A row of [ai_validation_logs]; its bodies are the JSON text kept. *)
Record log_row := mkLogRow {
  vl_ID : uuid;
  vl_ValidationID : uuid;
  vl_RequestBody : string;
  vl_ResponseBody : string;
  vl_ErrorMessage : option string;
  vl_TokensUsed : option Z;
  vl_ResponseTimeMs : option Z;
  vl_CreatedAt : Z
}.

(** ** Hints *)

Inductive ChatRole := ChatRoleUser | ChatRoleAssistant.

Definition role_text (r : ChatRole) : string :=
  match r with ChatRoleUser => "user" | ChatRoleAssistant => "assistant" end.

Record ChatMessage := mkChatMessage {
  cm_ID : uuid;
  cm_Role : ChatRole;
  cm_Content : string;
  cm_CreatedAt : Z
}.

Record HintRequest := mkHintRequest {
  hq_UserID : uuid;
  hq_ProblemID : uuid;
  hq_ProblemStatement : string;
  hq_LanguageKey : string;
  hq_Code : string;
  hq_Message : string
}.

Record HintResponse := mkHintResponse {
  hr_UserMessage : ChatMessage;
  hr_AssistantMessage : ChatMessage
}.

(** ** The model's interface

    The message and response types of the [go.jetify.com/ai] library: a
    block that is not text is only known as such. *)

Inductive content_block := TextBlock (text : string) | OtherBlock.

Inductive message :=
  | SystemMessage (content : string)
  | UserMessage (content : list content_block)
  | AssistantMessage (content : list content_block)
  | OtherMessage.

Record model_response := mkModelResponse {
  mr_Content : list content_block;
  mr_InputTokens : Z;
  mr_OutputTokens : Z
}.

(** ** Tables *)

Record validation_row := mkValidationRow {
  vw_ID : uuid;
  vw_SubmissionID : uuid;
  vw_UserID : uuid;
  vw_ProblemID : uuid;
  vw_Code : string;
  vw_LanguageID : uuid;
  vw_IsAllowed : bool;
  vw_Severity : option string;
  vw_Reason : option string;
  vw_Metadata : string;
  vw_CreatedAt : Z;
  vw_UpdatedAt : Z
}.

Record hint_row := mkHintRow {
  hm_UserID : uuid;
  hm_ProblemID : uuid;
  hm_Message : ChatMessage
}.

(** The tables of the component, and the keys of the ones it refers to. *)
Record aidb := mkAiDb {
  ai_submissions : gset uuid;
  ai_users : gset uuid;
  ai_problems : gset uuid;
  ai_languages : gset uuid;
  ai_validations : gmap uuid validation_row;
  ai_logs : gmap uuid log_row;
  ai_hints : gmap uuid hint_row
}.

Definition set_validations (db : aidb) vs : aidb :=
  mkAiDb (ai_submissions db) (ai_users db) (ai_problems db) (ai_languages db) vs (ai_logs db)
    (ai_hints db).
Definition set_logs (db : aidb) logs : aidb :=
  mkAiDb (ai_submissions db) (ai_users db) (ai_problems db) (ai_languages db) (ai_validations db)
    logs (ai_hints db).
Definition set_hints (db : aidb) hints : aidb :=
  mkAiDb (ai_submissions db) (ai_users db) (ai_problems db) (ai_languages db) (ai_validations db)
    (ai_logs db) hints.
