(* ===== verification/AiRepo.v ===== *)
(** * AI: the repository

    [internal/api/ai/repository/repository.go]: one definition per method,
    each a single statement.  The server rejects text with a NUL byte, JSON
    it cannot keep, and keys that its tables do not have. *)

From S2P Require Import Prelude GoStrings Sql AiDomain.

(** [encoding/json] on maps, and the server's JSONB: the text a column gives
    back for a text it is given, or the error. *)
Class AiJSON := {
  json_Marshal_map : json_map -> string;
  json_Unmarshal_map : string -> result string json_map;
  ai_jsonb : string -> result string string
}.

Abbreviation ai_op A := (M aidb string A).

Section Repository.
Context `{AiJSON}.

(** [json.Unmarshal(text, &m)] into a map that may hold entries; a failure
    leaves it as it was. *)
Definition unmarshal_into (m : json_map) (text : string) : json_map :=
  match json_Unmarshal_map text with
  | Ok (Some new) => Some (new ∪ default ∅ m)
  | Ok None => None
  | Err _ => m
  end.

(** [if len(metaJSON) > 0 { ... }] *)
Definition scan_meta (m : json_map) (text : string) : json_map :=
  if 0 <? len text then unmarshal_into m text else m.

Definition validation_of (m : json_map) (r : validation_row) : AICodeValidation :=
  mkAICodeValidation (vw_ID r) (vw_SubmissionID r) (vw_UserID r) (vw_ProblemID r) (vw_Code r)
    (vw_LanguageID r) (vw_IsAllowed r) (vw_Severity r) (vw_Reason r) (scan_meta m (vw_Metadata r))
    (vw_CreatedAt r) (vw_UpdatedAt r).

(** [if s != "" { p = &s }] *)
Definition unless_empty (s : string) : option string :=
  if bool_decide (s = "") then None else Some s.

Definition jsonb_input (text : string) : ai_op string := lift (ai_jsonb text).

(** A foreign key of one of the component's tables. *)
Definition known (table column : string) (keys : gset uuid) (id : uuid) : ai_op () :=
  demand (bool_decide (id ∈ keys))
    (foreign_key_violation table (table ++s "_" ++s column ++s "_fkey")).

Definition insert_validation (r : validation_row) : ai_op () := fun db =>
  (_ ← demand (bool_decide (ai_validations db !! vw_ID r = None))
         (unique_violation "ai_code_validations_pkey");
   _ ← known "ai_code_validations" "submission_id" (ai_submissions db) (vw_SubmissionID r);
   _ ← known "ai_code_validations" "user_id" (ai_users db) (vw_UserID r);
   _ ← known "ai_code_validations" "problem_id" (ai_problems db) (vw_ProblemID r);
   _ ← known "ai_code_validations" "language_id" (ai_languages db) (vw_LanguageID r);
   put (set_validations db (<[vw_ID r := r]> (ai_validations db)))) db.

Definition CreateValidation (io : faults) (now : Z) (fresh : uuid) (req : ValidateCodeRequest)
    (resp : ValidateCodeResponse) : ai_op AICodeValidation :=
  let severity := unless_empty (vp_Severity resp) in
  let reason := unless_empty (vp_Reason resp) in
  let meta := vp_Details resp in
  execute (String.append "create validation: ") io (
    _ ← text_input (vr_Code req);
    _ ← nullable text_input severity;
    _ ← nullable text_input reason;
    kept ← jsonb_input (json_Marshal_map meta);
    let row := mkValidationRow fresh (vr_SubmissionID req) (vr_UserID req) (vr_ProblemID req)
                 (vr_Code req) (vr_LanguageID req) (vp_IsAllowed resp) severity reason kept now now in
    _ ← insert_validation row;
    mret (validation_of meta row)).

(** ORDER BY created_at DESC; [tie] orders equal times. *)
Definition latest_verdict (tie : validation_row -> validation_row -> bool) (x y : validation_row)
  : bool :=
  (vw_CreatedAt y <? vw_CreatedAt x) || ((vw_CreatedAt x =? vw_CreatedAt y) && tie x y).

Definition of_submission (id : uuid) (r : validation_row) : bool :=
  bool_decide (vw_SubmissionID r = id).

(** No row is no error. *)
Definition GetValidationBySubmission (io : faults) (tie : validation_row -> validation_row -> bool)
    (submissionID : uuid) : ai_op (option AICodeValidation) :=
  statement (String.append "get validation: ") io (select (fun db =>
    validation_of None <$>
      head (order_by (latest_verdict tie)
              (select_where (of_submission submissionID) (ai_validations db))))).

Definition insert_hint (r : hint_row) : ai_op () := fun db =>
  (_ ← demand (bool_decide (ai_hints db !! cm_ID (hm_Message r) = None))
         (unique_violation "hint_messages_pkey");
   _ ← known "hint_messages" "user_id" (ai_users db) (hm_UserID r);
   _ ← known "hint_messages" "problem_id" (ai_problems db) (hm_ProblemID r);
   put (set_hints db (<[cm_ID (hm_Message r) := r]> (ai_hints db)))) db.

(** The CHECK of [role] names the two roles there are. *)
Definition SaveHintMessage (io : faults) (now : Z) (fresh userID problemID : uuid)
    (role : ChatRole) (content : string) : ai_op ChatMessage :=
  execute (String.append "save hint message: ") io (
    _ ← text_input content;
    let msg := mkChatMessage fresh role content now in
    _ ← insert_hint (mkHintRow userID problemID msg);
    mret msg).

(** ORDER BY created_at ASC *)
Definition oldest_hint (tie : hint_row -> hint_row -> bool) (x y : hint_row) : bool :=
  (cm_CreatedAt (hm_Message x) <? cm_CreatedAt (hm_Message y)) ||
  ((cm_CreatedAt (hm_Message x) =? cm_CreatedAt (hm_Message y)) && tie x y).

Definition of_conversation (userID problemID : uuid) (r : hint_row) : bool :=
  bool_decide (hm_UserID r = userID) && bool_decide (hm_ProblemID r = problemID).

Definition conversation (tie : hint_row -> hint_row -> bool) (userID problemID : uuid) (db : aidb)
  : list ChatMessage :=
  hm_Message <$> order_by (oldest_hint tie)
                   (select_where (of_conversation userID problemID) (ai_hints db)).

Definition GetHintHistory (io : faults) (tie : hint_row -> hint_row -> bool)
    (userID problemID : uuid) : ai_op (list ChatMessage) :=
  select_rows (String.append "get hint history: ") id io (conversation tie userID problemID).

Definition insert_log (r : log_row) : ai_op () := fun db =>
  (_ ← demand (bool_decide (ai_logs db !! vl_ID r = None)) (unique_violation "ai_validation_logs_pkey");
   _ ← demand (bool_decide (is_Some (ai_validations db !! vl_ValidationID r)))
         (foreign_key_violation "ai_validation_logs" "ai_validation_logs_validation_id_fkey");
   put (set_logs db (<[vl_ID r := r]> (ai_logs db)))) db.

Definition int_column (z : Z) : ai_op () := demand (int4_ok z) (out_of_range z).

Definition LogValidationRequest (io : faults) (now : Z) (fresh validationID : uuid)
    (requestBody responseBody : json_map) (errorMsg : option string)
    (tokensUsed responseTime : option Z) : ai_op log_row :=
  execute (String.append "log validation: ") io (
    request ← jsonb_input (json_Marshal_map requestBody);
    response ← jsonb_input (json_Marshal_map responseBody);
    _ ← nullable text_input errorMsg;
    _ ← nullable int_column tokensUsed;
    _ ← nullable int_column responseTime;
    let row := mkLogRow fresh validationID request response errorMsg tokensUsed responseTime now in
    _ ← insert_log row;
    mret row).
End Repository.
