(* ===== verification/AiService.v ===== *)
(** * AI: the service and the Ollama model

    [internal/api/ai/service/validator.go].  What the outside decides during a
    call is in its environment: [ve_Generate] is [ai.GenerateText] with the
    model the service holds, given the messages and the limit on output
    tokens.  Then [internal/api/ai/ollama.go], such a model behind an
    OpenAI-style HTTP interface, and that it neither loses nor invents text on
    the way. *)

From S2P Require Import Prelude GoStrings Sql AiDomain AiPrompts AiRepo.

Definition text_generator : Type := list message -> Z -> result string model_response.

(** The text of the first block, if there is one and it is text. *)
Definition response_text (resp : model_response) : string :=
  match mr_Content resp with
  | TextBlock text :: _ => text
  | _ => ""
  end.

Section Service.
Context `{AiJSON}.

(** ** Validating code *)

Record validate_env := mkValidateEnv {
  ve_io : faults;
  ve_Generate : text_generator;
  ve_since : Z;
  ve_now : Z;
  ve_log_now : Z;
  ve_fresh : uuid;
  ve_log_fresh : uuid
}.

Definition fence : string := "```".

Definition validation_messages (req : ValidateCodeRequest) : list message :=
  let userMsg := "Language: " ++s vr_LanguageKey req ++s nl ++s nl ++s "Code to validate:" ++s nl ++s
                 fence ++s nl ++s vr_Code req ++s nl ++s fence in
  [SystemMessage systemPrompt; UserMessage [TextBlock userMsg]].

Definition parseValidationResponse (data : json_map) : ValidateCodeResponse :=
  mkValidateCodeResponse
    (default false (field_bool data "is_allowed"))
    (default SeverityWarn (field_string data "severity"))
    (default "Unable to determine" (field_string data "reason"))
    (match field_object data "details" with Some details => Some details | None => data end).

(** The verdict, the error to be logged and the tokens used. *)
Definition judged (req : ValidateCodeRequest) (reply : result string model_response)
  : ValidateCodeResponse * option string * option Z :=
  match reply with
  | Err e =>
      (mkValidateCodeResponse false SeverityBlock "Failed to validate code"
         (Some {["error" := JString e]}),
       Some ("failed to call AI API: " ++s e), None)
  | Ok resp =>
      let respText := response_text resp in
      match json_Unmarshal_map respText with
      | Err e =>
          (mkValidateCodeResponse false SeverityBlock "Failed to parse validation response"
             (Some {["raw_response" := JString respText]}),
           Some ("failed to parse API response: " ++s e), Some (mr_OutputTokens resp))
      | Ok parsed => (parseValidationResponse parsed, None, Some (mr_OutputTokens resp))
      end
  end.

(** The clock is read before the model is called: [ve_since] is the time
    since [startTime] at that moment. *)
Definition ValidateCodeSubmission (env : validate_env) (req : ValidateCodeRequest)
  : ai_op AICodeValidation :=
  let responseTime := Z.quot (ve_since env) time_Millisecond in
  let '(resp, apiError, tokensUsed) := judged req (ve_Generate env (validation_messages req) 1024) in
  validation ← map_err (String.append "create validation in db: ")
                 (CreateValidation (ve_io env) (ve_now env) (ve_fresh env) req resp);
  _ ← ignore (LogValidationRequest (shift_faults 1 (ve_io env)) (ve_log_now env) (ve_log_fresh env)
                (acv_ID validation)
                (Some {["language" := JString (vr_LanguageKey req)]})
                (Some (<["is_allowed" := JBool (vp_IsAllowed resp)]>
                         {["severity" := JString (vp_Severity resp)]}))
                apiError tokensUsed (Some responseTime));
  mret validation.

(** ** Hints *)

Record hint_env := mkHintEnv {
  he_io : faults;
  he_Generate : text_generator;
  he_tie : hint_row -> hint_row -> bool;
  he_user_now : Z;
  he_assistant_now : Z;
  he_user_fresh : uuid;
  he_assistant_fresh : uuid
}.

Definition chat_message (msg : ChatMessage) : message :=
  match cm_Role msg with
  | ChatRoleUser => UserMessage [TextBlock (cm_Content msg)]
  | ChatRoleAssistant => AssistantMessage [TextBlock (cm_Content msg)]
  end.

Definition hint_context (req : HintRequest) : string :=
  "Problem statement:" ++s nl ++s hq_ProblemStatement req ++s nl ++s nl ++s
  "User's current code (" ++s hq_LanguageKey req ++s "):" ++s nl ++s fence ++s nl ++s
  hq_Code req ++s nl ++s fence.

Definition hint_acknowledgement : string :=
  "Understood. I have the problem and your code. Ask me for a hint whenever you're ready.".

Definition hint_messages (req : HintRequest) (history : list ChatMessage) : list message :=
  [SystemMessage hintSystemPrompt; UserMessage [TextBlock (hint_context req)];
   AssistantMessage [TextBlock hint_acknowledgement]] ++
  (chat_message <$> history) ++ [UserMessage [TextBlock (hq_Message req)]].

Definition save_hint (io : faults) (now : Z) (fresh : uuid) (req : HintRequest) (role : ChatRole)
    (content : string) : ai_op ChatMessage :=
  map_err (String.append ("save " ++s role_text role ++s " hint message: "))
    (SaveHintMessage io now fresh (hq_UserID req) (hq_ProblemID req) role content).

Definition GetHint (env : hint_env) (req : HintRequest) : ai_op HintResponse :=
  history ← map_err (String.append "load hint history: ")
              (GetHintHistory (he_io env) (he_tie env) (hq_UserID req) (hq_ProblemID req));
  userMsg ← save_hint (shift_faults 2 (he_io env)) (he_user_now env) (he_user_fresh env) req
              ChatRoleUser (hq_Message req);
  resp ← map_err (String.append "hint AI call: ")
           (lift (he_Generate env (hint_messages req history) 512));
  assistantMsg ← save_hint (shift_faults 3 (he_io env)) (he_assistant_now env)
                   (he_assistant_fresh env) req ChatRoleAssistant (response_text resp);
  mret (mkHintResponse userMsg assistantMsg).
End Service.

(** * The Ollama model *)

Record ollamaMessage := mkOllamaMessage { om_Role : string; om_Content : string }.

Record ollamaChatRequest := mkOllamaChatRequest {
  oq_Model : string;
  oq_Messages : list ollamaMessage;
  oq_Stream : bool;
  oq_MaxTokens : Z
}.

Record ollamaChatResponse := mkOllamaChatResponse {
  or_Choices : list ollamaMessage;
  or_PromptTokens : Z;
  or_CompletionTokens : Z;
  or_TotalTokens : Z
}.

Record OllamaModel := mkOllamaModel {
  ol_baseURL : string;
  ol_modelID : string;
  ol_apiKey : string
}.

(** The HTTP request and its reply: what was read of the body, and the error
    that ended the reading early. *)
Record ollama_post := mkOllamaPost {
  op_URL : string;
  op_Authorization : option string;
  op_Body : ollamaChatRequest
}.
Record ollama_reply := mkOllamaReply {
  rp_StatusCode : Z;
  rp_Body : string;
  rp_ReadError : option string
}.

(** The error of building a request to the URL, the transport, and the
    decoder of the reply. *)
Record ollama_net := mkOllamaNet {
  on_bad_url : string -> option string;
  on_Do : ollama_post -> result string ollama_reply;
  on_Unmarshal : string -> result string ollamaChatResponse
}.

(** [content += tb.Text] over the blocks that are text. *)
Definition block_text (b : content_block) : string :=
  match b with TextBlock text => text | OtherBlock => "" end.
Definition blocks_text (blocks : list content_block) : string :=
  foldl (fun content b => content ++s block_text b) "" blocks.

(** Messages of other types are left out. *)
Definition ollama_message (msg : message) : list ollamaMessage :=
  match msg with
  | SystemMessage content => [mkOllamaMessage "system" content]
  | UserMessage blocks => [mkOllamaMessage "user" (blocks_text blocks)]
  | AssistantMessage blocks => [mkOllamaMessage "assistant" (blocks_text blocks)]
  | OtherMessage => []
  end.

Definition buildRequest (m : OllamaModel) (messages : list message) (maxOutputTokens : Z)
  : ollamaChatRequest :=
  let maxTokens := if 0 <? maxOutputTokens then maxOutputTokens else 1024 in
  mkOllamaChatRequest (ol_modelID m) (messages ≫= ollama_message) false maxTokens.

(** The text of the first choice, which must not be empty. *)
Definition first_choice (bodyBytes : string) (resp : ollamaChatResponse)
  : result string model_response :=
  match or_Choices resp with
  | choice :: _ =>
      if bool_decide (om_Content choice = "")
      then Err ("ollama returned empty content (full response: " ++s bodyBytes ++s ")")
      else Ok (mkModelResponse [TextBlock (om_Content choice)]
                 (or_PromptTokens resp) (or_CompletionTokens resp))
  | [] => Err ("ollama returned empty content (full response: " ++s bodyBytes ++s ")")
  end.

Definition Generate (net : ollama_net) (m : OllamaModel) (messages : list message)
    (maxOutputTokens : Z) : result string model_response :=
  let url := ol_baseURL m ++s "/chat/completions" in
  let auth := if bool_decide (ol_apiKey m = "") then None else Some ("Bearer " ++s ol_apiKey m) in
  match on_bad_url net url with
  | Some e => Err ("create request: " ++s e)
  | None =>
      match on_Do net (mkOllamaPost url auth (buildRequest m messages maxOutputTokens)) with
      | Err e => Err ("send request: " ++s e)
      | Ok reply =>
          let bodyBytes := rp_Body reply in
          if negb (rp_StatusCode reply =? 200) then
            Err ("ollama returned " ++s show_int (rp_StatusCode reply) ++s ": " ++s bodyBytes)
          else
            match rp_ReadError reply with
            | Some e => Err ("read response body: " ++s e)
            | None =>
                match on_Unmarshal net bodyBytes with
                | Err e => Err ("decode response: " ++s e ++s " (body: " ++s bodyBytes ++s ")")
                | Ok resp => first_choice bodyBytes resp
                end
            end
      end
  end.
