(* ===== verification/DriverHeaders.v ===== *)
(** * Submissions: the fixed text of the drivers

    The constants [pythonHeader], [jsHeader], [goHeader] and [javaHeader] of
    [internal/api/submissions/driver], byte for byte: what every wrapped
    submission starts with. *)

From S2P Require Import Prelude GoStrings.

Definition pythonHeader : string :=
"# __CAPSTONE_FUNC_RUNNER__
from typing import Optional, List


class TreeNode:
    def __init__(self, val=0, left=None, right=None):
        self.val = val
        self.left = left
        self.right = right


class ListNode:
    def __init__(self, val=0, next=None):
        self.val = val
        self.next = next


def _deserialize_tree(arr):
    if not arr:
        return None
    root = TreeNode(arr[0])
    queue = [root]
    i = 1
    while queue and i < len(arr):
        node = queue.pop(0)
        if i < len(arr) and arr[i] is not None:
            node.left = TreeNode(arr[i])
            queue.append(node.left)
        i += 1
        if i < len(arr) and arr[i] is not None:
            node.right = TreeNode(arr[i])
            queue.append(node.right)
        i += 1
    return root


def _serialize_tree(root):
    if not root:
        return []
    result, queue = [], [root]
    while queue:
        node = queue.pop(0)
        if node:
            result.append(node.val)
            queue.append(node.left)
            queue.append(node.right)
        else:
            result.append(None)
    while result and result[-1] is None:
        result.pop()
    return result


def _deserialize_list(arr):
    if not arr:
        return None
    head = ListNode(arr[0])
    cur = head
    for v in arr[1:]:
        cur.next = ListNode(v)
        cur = cur.next
    return head


def _serialize_list(head):
    result = []
    while head:
        result.append(head.val)
        head = head.next
    return result


def _deser(val, typ):
    if typ == 'TreeNode':
        return _deserialize_tree(val)
    if typ == 'ListNode':
        return _deserialize_list(val)
    return val


def _ser(val, typ):
    if typ == 'TreeNode':
        return _serialize_tree(val)
    if typ == 'ListNode':
        return _serialize_list(val)
    return val
".

Definition jsHeader : string :=
"// __CAPSTONE_FUNC_RUNNER__
class TreeNode {
    constructor(val, left, right) {
        this.val   = val   === undefined ? 0    : val;
        this.left  = left  === undefined ? null : left;
        this.right = right === undefined ? null : right;
    }
}

class ListNode {
    constructor(val, next) {
        this.val  = val  === undefined ? 0    : val;
        this.next = next === undefined ? null : next;
    }
}

function deserializeTree(arr) {
    if (!arr || arr.length === 0 || arr[0] === null) return null;
    const root = new TreeNode(arr[0]);
    const queue = [root];
    let i = 1;
    while (queue.length > 0 && i < arr.length) {
        const node = queue.shift();
        if (i < arr.length && arr[i] !== null) {
            node.left = new TreeNode(arr[i]);
            queue.push(node.left);
        }
        i++;
        if (i < arr.length && arr[i] !== null) {
            node.right = new TreeNode(arr[i]);
            queue.push(node.right);
        }
        i++;
    }
    return root;
}

function serializeTree(root) {
    if (!root) return [];
    const result = [];
    const queue = [root];
    while (queue.length > 0) {
        const node = queue.shift();
        if (node) {
            result.push(node.val);
            queue.push(node.left);
            queue.push(node.right);
        } else {
            result.push(null);
        }
    }
    while (result.length > 0 && result[result.length - 1] === null) result.pop();
    return result;
}

function deserializeList(arr) {
    if (!arr || arr.length === 0) return null;
    let dummy = new ListNode(0);
    let cur = dummy;
    for (const v of arr) { cur.next = new ListNode(v); cur = cur.next; }
    return dummy.next;
}

function serializeList(head) {
    const result = [];
    while (head) { result.push(head.val); head = head.next; }
    return result;
}

function _deser(val, typ) {
    if (typ === 'TreeNode') return deserializeTree(val);
    if (typ === 'ListNode') return deserializeList(val);
    return val;
}

function _ser(val, typ) {
    if (typ === 'TreeNode') return serializeTree(val);
    if (typ === 'ListNode') return serializeList(val);
    return val;
}
".

Definition goHeader : string :=
"package main

import (
	" ++s quoted "encoding/json" ++s "
	" ++s quoted "fmt" ++s "
	" ++s quoted "os" ++s "
)

type TreeNode struct {
	Val   int
	Left  *TreeNode
	Right *TreeNode
}

type ListNode struct {
	Val  int
	Next *ListNode
}

func deserializeTree(raw json.RawMessage) *TreeNode {
	var arr []interface{}
	if err := json.Unmarshal(raw, &arr); err != nil || len(arr) == 0 {
		return nil
	}
	toInt := func(v interface{}) (int, bool) {
		f, ok := v.(float64)
		return int(f), ok
	}
	val, ok := toInt(arr[0])
	if !ok {
		return nil
	}
	root := &TreeNode{Val: val}
	queue := []*TreeNode{root}
	i := 1
	for len(queue) > 0 && i < len(arr) {
		node := queue[0]
		queue = queue[1:]
		if i < len(arr) && arr[i] != nil {
			v, _ := toInt(arr[i])
			node.Left = &TreeNode{Val: v}
			queue = append(queue, node.Left)
		}
		i++
		if i < len(arr) && arr[i] != nil {
			v, _ := toInt(arr[i])
			node.Right = &TreeNode{Val: v}
			queue = append(queue, node.Right)
		}
		i++
	}
	return root
}

func serializeTree(root *TreeNode) interface{} {
	if root == nil {
		return []interface{}{}
	}
	var result []interface{}
	queue := []*TreeNode{root}
	for len(queue) > 0 {
		node := queue[0]
		queue = queue[1:]
		if node != nil {
			result = append(result, node.Val)
			queue = append(queue, node.Left, node.Right)
		} else {
			result = append(result, nil)
		}
	}
	for len(result) > 0 && result[len(result)-1] == nil {
		result = result[:len(result)-1]
	}
	return result
}

func deserializeList(arr []int) *ListNode {
	if len(arr) == 0 {
		return nil
	}
	head := &ListNode{Val: arr[0]}
	cur := head
	for _, v := range arr[1:] {
		cur.Next = &ListNode{Val: v}
		cur = cur.Next
	}
	return head
}

func serializeList(head *ListNode) []int {
	var result []int
	for head != nil {
		result = append(result, head.Val)
		head = head.Next
	}
	return result
}
".

Definition javaHeader : string :=
"// __CAPSTONE_FUNC_RUNNER__
import java.util.*;
import java.io.*;
import java.nio.file.*;
import com.fasterxml.jackson.databind.*;
import com.fasterxml.jackson.databind.node.*;

public class Main {
    static class TreeNode {
        int val;
        TreeNode left;
        TreeNode right;
        TreeNode() {}
        TreeNode(int val) { this.val = val; }
        TreeNode(int val, TreeNode left, TreeNode right) {
            this.val = val; this.left = left; this.right = right;
        }
    }

    static class ListNode {
        int val;
        ListNode next;
        ListNode() {}
        ListNode(int val) { this.val = val; }
        ListNode(int val, ListNode next) { this.val = val; this.next = next; }
    }

    static TreeNode deserializeTree(JsonNode arr) {
        if (arr == null || arr.isNull() || !arr.isArray() || arr.size() == 0) return null;
        if (arr.get(0).isNull()) return null;
        TreeNode root = new TreeNode(arr.get(0).asInt());
        Deque<TreeNode> queue = new ArrayDeque<>();
        queue.add(root);
        int i = 1;
        while (!queue.isEmpty() && i < arr.size()) {
            TreeNode node = queue.pollFirst();
            if (i < arr.size() && !arr.get(i).isNull()) {
                node.left = new TreeNode(arr.get(i).asInt());
                queue.add(node.left);
            }
            i++;
            if (i < arr.size() && !arr.get(i).isNull()) {
                node.right = new TreeNode(arr.get(i).asInt());
                queue.add(node.right);
            }
            i++;
        }
        return root;
    }

    static List<Object> serializeTree(TreeNode root) {
        List<Object> result = new ArrayList<>();
        if (root == null) return result;
        Deque<TreeNode> queue = new ArrayDeque<>();
        queue.add(root);
        while (!queue.isEmpty()) {
            TreeNode node = queue.pollFirst();
            if (node != null) {
                result.add(node.val);
                queue.add(node.left);
                queue.add(node.right);
            } else {
                result.add(null);
            }
        }
        while (!result.isEmpty() && result.get(result.size() - 1) == null) {
            result.remove(result.size() - 1);
        }
        return result;
    }

    static ListNode deserializeList(JsonNode arr) {
        if (arr == null || !arr.isArray() || arr.size() == 0) return null;
        ListNode head = new ListNode(arr.get(0).asInt());
        ListNode cur = head;
        for (int i = 1; i < arr.size(); i++) {
            cur.next = new ListNode(arr.get(i).asInt());
            cur = cur.next;
        }
        return head;
    }

    static List<Integer> serializeList(ListNode head) {
        List<Integer> result = new ArrayList<>();
        while (head != null) {
            result.add(head.val);
            head = head.next;
        }
        return result;
    }

    static class Solution {
".
