(* ===== verification/Driver.v ===== *)
(** * Submissions: the driver generator

    [internal/api/submissions/driver]: from a problem's function
    specification, the program that reads a test case, calls the submitted
    function and writes its result, in the four supported languages
    ([spec.go], [generator.go], [python.go], [javascript.go], [golang.go],
    [java.go]). *)

From S2P Require Import Prelude GoStrings DriverHeaders.

(** ** Specifications *)

Definition ParamType : Type := string.

Definition TypeInt : ParamType := "int".
Definition TypeFloat : ParamType := "float".
Definition TypeString : ParamType := "string".
Definition TypeBool : ParamType := "bool".
Definition TypeIntArray : ParamType := "int[]".
Definition TypeFloatArray : ParamType := "float[]".
Definition TypeStringArray : ParamType := "string[]".
Definition TypeBoolArray : ParamType := "bool[]".
Definition TypeIntMatrix : ParamType := "int[][]".
Definition TypeStringMatrix : ParamType := "string[][]".
Definition TypeListNode : ParamType := "ListNode".
Definition TypeTreeNode : ParamType := "TreeNode".

Record SpecParameter := mkParameter { p_Name : string; p_Type : ParamType }.

Record FunctionSpec := mkFunctionSpec {
  fs_FunctionName : string;
  fs_Parameters : list SpecParameter;
  fs_ReturnType : ParamType
}.

(** A Go [switch] on a string. *)
Fixpoint switch {A} (s : string) (cases : list (string * A)) (default : A) : A :=
  match cases with
  | [] => default
  | (c, a) :: cases' => if bool_decide (s = c) then a else switch s cases' default
  end.

(** What a [strings.Builder] has collected after the writes of a loop. *)
Definition concat (pieces : list string) : string := Join pieces "".

Definition arg_names (spec : FunctionSpec) : list string :=
  (fun p => "_arg_" ++s p_Name p) <$> fs_Parameters spec.

(** ** Python and JavaScript *)

Section Generate.
Context `{GoUnicode}.

Definition generatePython (spec : FunctionSpec) : string * string :=
  (pythonHeader,
   "import json as _json" ++s nl ++s nl ++s
   "def _run_test(_data):" ++s nl ++s
   concat ((fun p => "    _arg_" ++s p_Name p ++s " = _deser(_data[" ++s Quote (p_Name p) ++s
                     "], " ++s Quote (p_Type p) ++s ")" ++s nl) <$> fs_Parameters spec) ++s
   "    _result = " ++s fs_FunctionName spec ++s "(" ++s Join (arg_names spec) ", " ++s ")" ++s nl ++s
   "    return _ser(_result, " ++s Quote (fs_ReturnType spec) ++s ")" ++s nl).

Definition js_arg (p : SpecParameter) : string :=
  if bool_decide (p_Type p = TypeTreeNode) || bool_decide (p_Type p = TypeListNode) then
    "    const _arg_" ++s p_Name p ++s " = _deser(_data[" ++s Quote (p_Name p) ++s "], " ++s
    Quote (p_Type p) ++s ");" ++s nl
  else
    "    const _arg_" ++s p_Name p ++s " = _data[" ++s Quote (p_Name p) ++s "];" ++s nl.

Definition generateJavaScript (spec : FunctionSpec) : string * string :=
  (jsHeader,
   "module.exports._runTest = function (_data) {" ++s nl ++s
   concat (js_arg <$> fs_Parameters spec) ++s
   "    const _result = " ++s fs_FunctionName spec ++s
   "(" ++s Join (arg_names spec) ", " ++s ");" ++s nl ++s
   "    return _ser(_result, " ++s Quote (fs_ReturnType spec) ++s ");" ++s nl ++s
   "};" ++s nl).

(** ** Go *)

(** The field's type, and whether it is decoded by hand. *)
Definition goFieldType (t : ParamType) : string * bool :=
  switch t
    [ (TypeInt, ("int", false));
      (TypeFloat, ("float64", false));
      (TypeString, ("string", false));
      (TypeBool, ("bool", false));
      (TypeIntArray, ("[]int", false));
      (TypeFloatArray, ("[]float64", false));
      (TypeStringArray, ("[]string", false));
      (TypeBoolArray, ("[]bool", false));
      (TypeIntMatrix, ("[][]int", false));
      (TypeStringMatrix, ("[][]string", false));
      (TypeListNode, ("json.RawMessage", true));
      (TypeTreeNode, ("json.RawMessage", true)) ]
    ("interface{}", false).

Definition upperFirst (s : string) : string :=
  if bool_decide (s = "") then s else ToUpper (stake 1 s) ++s sdrop 1 s.

Definition go_field (p : SpecParameter) : string :=
  tab ++s tab ++s upperFirst (p_Name p) ++s " " ++s (goFieldType (p_Type p)).1 ++s
  " `json:" ++s Quote (p_Name p) ++s "`" ++s nl.

Definition go_deser (p : SpecParameter) : string :=
  if negb (goFieldType (p_Type p)).2 then ""
  else
    let fieldName := upperFirst (p_Name p) in
    let argName := "_arg_" ++s p_Name p in
    switch (p_Type p)
      [ (TypeTreeNode,
          tab ++s argName ++s " := deserializeTree(_in." ++s fieldName ++s ")" ++s nl);
        (TypeListNode,
          tab ++s "var _raw_" ++s p_Name p ++s " []int" ++s nl ++s
          tab ++s "_ = json.Unmarshal(_in." ++s fieldName ++s ", &_raw_" ++s p_Name p ++s ")" ++s nl ++s
          tab ++s argName ++s " := deserializeList(_raw_" ++s p_Name p ++s ")" ++s nl) ]
      "".

Definition go_arg (p : SpecParameter) : string :=
  if (goFieldType (p_Type p)).2 then "_arg_" ++s p_Name p else "_in." ++s upperFirst (p_Name p).

Definition generateGo (spec : FunctionSpec) : string * string :=
  (goHeader,
   "func main() {" ++s nl ++s
   tab ++s "var _in struct {" ++s nl ++s
   concat (go_field <$> fs_Parameters spec) ++s
   tab ++s "}" ++s nl ++s
   tab ++s "if err := json.NewDecoder(os.Stdin).Decode(&_in); err != nil {" ++s nl ++s
   tab ++s tab ++s "fmt.Fprintln(os.Stderr, err)" ++s nl ++s
   tab ++s tab ++s "os.Exit(1)" ++s nl ++s
   tab ++s "}" ++s nl ++s
   concat (go_deser <$> fs_Parameters spec) ++s
   tab ++s "_result := " ++s fs_FunctionName spec ++s
     "(" ++s Join (go_arg <$> fs_Parameters spec) ", " ++s ")" ++s nl ++s
   switch (fs_ReturnType spec)
     [ (TypeTreeNode, tab ++s "_resultBytes, _ := json.Marshal(serializeTree(_result))" ++s nl);
       (TypeListNode, tab ++s "_resultBytes, _ := json.Marshal(serializeList(_result))" ++s nl) ]
     (tab ++s "_resultBytes, _ := json.Marshal(_result)" ++s nl) ++s
   tab ++s "_ = os.WriteFile(" ++s quoted "/tmp/capstone_result" ++s ", _resultBytes, 0o644)" ++s nl ++s
   "}" ++s nl).

(** ** Java *)

Definition javaTypeName (t : ParamType) : string :=
  switch t
    [ (TypeInt, "int");
      (TypeFloat, "double");
      (TypeString, "String");
      (TypeBool, "boolean");
      (TypeIntArray, "int[]");
      (TypeFloatArray, "double[]");
      (TypeStringArray, "String[]");
      (TypeBoolArray, "boolean[]");
      (TypeIntMatrix, "int[][]");
      (TypeStringMatrix, "String[][]");
      (TypeListNode, "ListNode");
      (TypeTreeNode, "TreeNode") ]
    "Object".

Definition javaArgDeser (p : SpecParameter) : result string string :=
  let field := "_in.get(" ++s Quote (p_Name p) ++s ")" in
  let value cls := "mapper.treeToValue(" ++s field ++s ", " ++s cls ++s ".class)" in
  switch (p_Type p)
    [ (TypeInt, Ok (field ++s ".asInt()"));
      (TypeFloat, Ok (field ++s ".asDouble()"));
      (TypeString, Ok (field ++s ".asText()"));
      (TypeBool, Ok (field ++s ".asBoolean()"));
      (TypeIntArray, Ok (value "int[]"));
      (TypeFloatArray, Ok (value "double[]"));
      (TypeStringArray, Ok (value "String[]"));
      (TypeBoolArray, Ok (value "boolean[]"));
      (TypeIntMatrix, Ok (value "int[][]"));
      (TypeStringMatrix, Ok (value "String[][]"));
      (TypeListNode, Ok ("deserializeList(" ++s field ++s ")"));
      (TypeTreeNode, Ok ("deserializeTree(" ++s field ++s ")")) ]
    (Err ("unsupported java parameter type: " ++s Quote (p_Type p))).

(** The loop over the parameters stops at the first error. *)
Fixpoint java_args (ps : list SpecParameter) : result string string :=
  match ps with
  | [] => Ok ""
  | p :: ps' =>
      match javaArgDeser p with
      | Err e => Err e
      | Ok expr =>
          match java_args ps' with
          | Err e => Err e
          | Ok rest =>
              Ok ("        " ++s javaTypeName (p_Type p) ++s " _arg_" ++s p_Name p ++s
                  " = " ++s expr ++s ";" ++s nl ++s rest)
          end
      end
  end.

Definition generateJava (spec : FunctionSpec) : result string (string * string) :=
  match java_args (fs_Parameters spec) with
  | Err e => Err e
  | Ok args =>
      Ok (javaHeader,
          "    }" ++s nl ++s nl ++s
          "    public static void main(String[] args) throws Exception {" ++s nl ++s
          "        ObjectMapper mapper = new ObjectMapper();" ++s nl ++s
          "        JsonNode _in = mapper.readTree(System.in);" ++s nl ++s
          "        Solution _sol = new Solution();" ++s nl ++s
          args ++s
          "        " ++s javaTypeName (fs_ReturnType spec) ++s " _result = _sol." ++s
            fs_FunctionName spec ++s "(" ++s Join (arg_names spec) ", " ++s ");" ++s nl ++s
          switch (fs_ReturnType spec)
            [ (TypeTreeNode, "        Object _ser = serializeTree(_result);" ++s nl);
              (TypeListNode, "        Object _ser = serializeList(_result);" ++s nl) ]
            ("        Object _ser = _result;" ++s nl) ++s
          "        Files.write(Paths.get(" ++s quoted "/tmp/capstone_result" ++s
            "), mapper.writeValueAsBytes(_ser));" ++s nl ++s
          "    }" ++s nl ++s
          "}" ++s nl)
  end.

Definition Generate (spec : FunctionSpec) (lang : string) : result string (string * string) :=
  if bool_decide (lang = "python") || bool_decide (lang = "python3") then Ok (generatePython spec)
  else if bool_decide (lang = "javascript") then Ok (generateJavaScript spec)
  else if bool_decide (lang = "go") then Ok (generateGo spec)
  else if bool_decide (lang = "java") then generateJava spec
  else Err ("unsupported language for function-call driver: " ++s Quote lang).
End Generate.

(** ** Imports of a Go submission *)

(** The contents of the first double-quoted part, or the empty string. *)
Definition extractQuoted (s : string) : string :=
  match Index s dq with
  | None => ""
  | Some a =>
      match Index (sdrop (a + 1) s) dq with
      | None => ""
      | Some b => stake b (sdrop (a + 1) s)
      end
  end.

(** [add]: a path not seen before goes at the end of the list. *)
Definition add_import (paths : list string) (p : string) : list string :=
  let p := TrimSpace p in
  if bool_decide (p = "") || bool_decide (p ∈ paths) then paths else paths ++ [p].

Record scan := mkScan {
  sc_paths : list string;
  sc_out : list string;
  sc_block : bool
}.

Definition add_quoted (s : scan) (trimmed : string) : scan :=
  let q := extractQuoted trimmed in
  if bool_decide (q = "") then s
  else mkScan (add_import (sc_paths s) q) (sc_out s) (sc_block s).

(** One line of the submission. *)
Definition scan_line (s : scan) (line : string) : scan :=
  let trimmed := TrimSpace line in
  if sc_block s then
    if bool_decide (trimmed = ")") then mkScan (sc_paths s) (sc_out s) false
    else if bool_decide (trimmed = "") || HasPrefix trimmed "//" then s
    else add_quoted s trimmed
  else if HasPrefix trimmed "package " then s
  else if bool_decide (trimmed = "import (") || bool_decide (trimmed = "import(") then
    mkScan (sc_paths s) (sc_out s) true
  else if HasPrefix trimmed "import " then add_quoted s trimmed
  else mkScan (sc_paths s) (sc_out s ++ [line]) false.

Definition nl_byte : ascii := Ascii.ascii_of_nat 10.

Definition extractGoImports (src : string) : list string * string :=
  let s := foldl scan_line (mkScan [] [] false) (Split nl_byte src) in
  (sc_paths s, Join (sc_out s) nl).

Definition injectGoImports (header : string) (userImports : list string) : string :=
  if bool_decide (userImports = []) then header
  else
    match Index header "import (" with
    | None => header
    | Some idx =>
        match Index (sdrop idx header) ")" with
        | None => header
        | Some endRel =>
            let end_ := (idx + endRel)%nat in
            let block := stake endRel (sdrop idx header) in
            let add := concat ((fun p =>
              if Contains block (quoted p) then "" else tab ++s quoted p ++s nl) <$> userImports) in
            if bool_decide (add = "") then header
            else stake end_ header ++s add ++s sdrop end_ header
        end
    end.

Definition Wrap `{GoUnicode} (spec : FunctionSpec) (lang userSource : string) : result string string :=
  match Generate spec lang with
  | Err e => Err e
  | Ok (header, footer) =>
      if bool_decide (lang = "go") then
        let '(userImports, userBody) := extractGoImports userSource in
        let merged := injectGoImports header userImports in
        Ok (merged ++s nl ++s nl ++s userBody ++s nl ++s nl ++s footer)
      else Ok (header ++s nl ++s nl ++s userSource ++s nl ++s nl ++s footer)
  end.
