(* ===== verification/DriverTheorems.v ===== *)
(** * Submissions: what the driver makes of a submission *)

From S2P Require Import Prelude GoStrings DriverHeaders Driver.

(** ** Trimming lines whose ends are printable *)

Definition graphic (c : ascii) : bool := byte_between 33 126 c.

Ltac byte_cases :=
  unfold graphic, is_byte, byte_between in *;
  repeat match goal with
  | H : context [Nat.eqb ?a ?b] |- _ => destruct (Nat.eqb_spec a b)
  | |- context [Nat.eqb ?a ?b] => destruct (Nat.eqb_spec a b)
  | H : context [Nat.leb ?a ?b] |- _ => destruct (Nat.leb_spec a b)
  | |- context [Nat.leb ?a ?b] => destruct (Nat.leb_spec a b)
  end; simpl in *; try done; try lia.

Lemma space_width_graphic c s : graphic c = true -> space_width (String c s) = 0%nat.
Proof.
  intros Hc. cbn [space_width].
  assert (byte_between 9 13 c || is_byte 32 c = false) as -> by byte_cases.
  assert (is_byte 194 c = false) as -> by byte_cases.
  assert (is_byte 225 c = false) as -> by byte_cases.
  assert (is_byte 226 c = false) as -> by byte_cases.
  assert (is_byte 227 c = false) as -> by byte_cases.
  by destruct s as [| b [| d s]].
Qed.

(** No white space reaches into a printable last byte. *)
Lemma space_width_bound d s c :
  graphic c = true -> (space_width (String d (s ++s String c "")) <= S (String.length s))%nat.
Proof.
  intros Hc. cbn [space_width]. destruct (_ || _); [lia |].
  destruct s as [| e [| f s]]; cbn [String.append].
  - assert (is_byte 133 c || is_byte 160 c = false) as -> by byte_cases.
    rewrite andb_false_r. simpl. lia.
  - destruct (_ && _); [simpl; lia |].
    assert (is_byte 128 c = false) as -> by byte_cases.
    assert (byte_between 128 138 c = false) as -> by byte_cases.
    assert (is_byte 168 c || is_byte 169 c = false) as Hc1 by byte_cases.
    assert (is_byte 175 c = false) as -> by byte_cases.
    assert (is_byte 159 c = false) as -> by byte_cases.
    apply orb_false_iff in Hc1 as [-> ->].
    rewrite !andb_false_r. simpl. lia.
  - destruct (_ && _); [simpl; lia |]. destruct (_ || _); simpl; lia.
Qed.

Lemma TrimLeftSpace_nonempty c s k :
  graphic c = true -> (k <= String.length s)%nat -> TrimLeftSpace k (s ++s String c "") <> "".
Proof.
  intros Hc. revert k. induction s as [| d s IH]; intros k Hk.
  - simpl in Hk. destruct k; [| lia]. cbn [String.append TrimLeftSpace].
    by rewrite space_width_graphic.
  - cbn [String.append TrimLeftSpace]. destruct k as [| k]; [| apply IH; simpl in Hk; lia].
    pose proof (space_width_bound d s c Hc) as Hw.
    destruct (space_width _) as [| k]; [done |]. apply IH. lia.
Qed.

Lemma TrimRightSpace_graphic s c :
  graphic c = true -> TrimRightSpace (s ++s String c "") = s ++s String c "".
Proof.
  intros Hc. induction s as [| d s IH]; cbn [String.append TrimRightSpace].
  - rewrite bool_decide_eq_false_2; [done |]. by apply (TrimLeftSpace_nonempty c "").
  - rewrite bool_decide_eq_false_2; [by rewrite IH |].
    apply (TrimLeftSpace_nonempty c (String d s)); simpl; [done | lia].
Qed.

Lemma TrimLeftSpace_graphic c s :
  graphic c = true -> TrimLeftSpace 0 (String c s) = String c s.
Proof. intros Hc. cbn [TrimLeftSpace]. by rewrite space_width_graphic. Qed.

(** A non-empty string whose first and last bytes are printable. *)
Definition tight (s : string) : Prop :=
  (exists c r, s = String c r /\ graphic c = true) /\
  (exists r c, s = r ++s String c "" /\ graphic c = true).

Lemma TrimSpace_tight s : tight s -> TrimSpace s = s.
Proof.
  intros [(c & r & -> & Hc) (r' & d & E & Hd)]. unfold TrimSpace.
  rewrite TrimLeftSpace_graphic by done. rewrite E. by apply TrimRightSpace_graphic.
Qed.

Lemma TrimSpace_tab s : tight s -> TrimSpace (tab ++s s) = s.
Proof.
  intros Hs. rewrite <- (TrimSpace_tight s Hs) at 2. done.
Qed.

Lemma last_byte s p : all_bytes p s = true -> s <> "" ->
  exists r c, s = r ++s String c "" /\ p c = true.
Proof.
  destruct s as [| s c] using rev_string_ind; [done |]. intros H _. exists s, c.
  rewrite all_bytes_app in H. simpl in H. by apply andb_true_iff in H as [_ [Hc _]%andb_true_iff].
Qed.

Lemma tight_graphic s : all_bytes graphic s = true -> s <> "" -> tight s.
Proof.
  intros Hs Hne. split; [| by apply last_byte].
  destruct s as [| c s]; [done |]. exists c, s. split; [done |].
  simpl in Hs. by apply andb_true_iff in Hs as [Hc _].
Qed.

(** Only the ends matter. *)
Lemma tight_app a m b : tight a -> tight b -> tight (a ++s m ++s b).
Proof.
  intros [(c & r & -> & Hc) _] [_ (r' & d & -> & Hd)]. split.
  - by exists c, (r ++s m ++s r' ++s String d "").
  - exists (String c r ++s m ++s r'), d. split; [by sapp_simpl | done].
Qed.

(** ** Go sources, as a submission declares its imports *)

Definition ident_byte (c : ascii) : bool :=
  byte_between 48 57 c || byte_between 65 90 c || byte_between 97 122 c || is_byte 95 c
  || is_byte 46 c.
Definition path_byte (c : ascii) : bool := graphic c && negb (is_byte 34 c).

(** A declaration is a path with an optional name; a source is a sequence of
    package clauses, single imports, import blocks and other lines. *)
Inductive go_item :=
  | IPackage (name : string)
  | IImport (alias : option string) (path : string)
  | IBlock (specs : list (option string * string))
  | ICode (line : string).

Definition render_spec (alias : option string) (path : string) : string :=
  match alias with Some a => a ++s " " ++s quoted path | None => quoted path end.

Definition render (i : go_item) : list string :=
  match i with
  | IPackage name => ["package " ++s name]
  | IImport a p => ["import " ++s render_spec a p]
  | IBlock specs => ["import ("] ++ ((fun s => tab ++s render_spec s.1 s.2) <$> specs) ++ [")"]
  | ICode line => [line]
  end.

Definition item_paths (i : go_item) : list string :=
  match i with
  | IImport _ p => [p]
  | IBlock specs => specs.*2
  | _ => []
  end.

Definition item_code (i : go_item) : list string :=
  match i with ICode line => [line] | _ => [] end.

Definition ident_ok (s : string) : Prop := s <> "" /\ all_bytes ident_byte s = true.
Definition path_ok (s : string) : Prop := s <> "" /\ all_bytes path_byte s = true.
Definition spec_ok (s : option string * string) : Prop :=
  (forall a, s.1 = Some a -> ident_ok a) /\ path_ok s.2.

Definition no_nl (s : string) : Prop :=
  all_bytes (fun c => negb (bool_decide (c = nl_byte))) s = true.

(** Lines the scanner takes for neither a package clause nor an import. *)
Definition plain_line (line : string) : Prop :=
  no_nl line /\ HasPrefix (TrimSpace line) "package " = false /\
  HasPrefix (TrimSpace line) "import " = false /\ TrimSpace line <> "import(".

Definition item_ok (i : go_item) : Prop :=
  match i with
  | IPackage name => ident_ok name
  | IImport a p => spec_ok (a, p)
  | IBlock specs => Forall spec_ok specs
  | ICode line => plain_line line
  end.

Definition source (items : list go_item) : string := Join (items ≫= render) nl.

(** *** Bytes *)

Lemma ident_path c : ident_byte c = true -> path_byte c = true.
Proof. unfold ident_byte, path_byte. byte_cases. Qed.

Lemma path_graphic c : path_byte c = true -> graphic c = true.
Proof. unfold path_byte. by intros [-> _]%andb_true_iff. Qed.

Lemma path_not_nl c : path_byte c = true -> negb (bool_decide (c = nl_byte)) = true.
Proof. intros Hc. rewrite bool_decide_eq_false_2; [done |]. intros ->. done. Qed.

Lemma ident_path_ok s : ident_ok s -> path_ok s.
Proof. intros [? H]. split; [done |]. by eapply all_bytes_impl, H; apply ident_path. Qed.

Lemma path_tight s : path_ok s -> tight s.
Proof. intros [? H]. apply tight_graphic; [| done]. by eapply all_bytes_impl, H; apply path_graphic. Qed.

Lemma quoted_tight s : tight (quoted s).
Proof. unfold quoted. apply (tight_app dq s dq); by apply tight_graphic. Qed.

Lemma render_spec_tight a p : spec_ok (a, p) -> tight (render_spec a p).
Proof.
  intros [Ha Hp]. destruct a as [a |]; [| apply quoted_tight]. simpl in Ha.
  apply (tight_app a " " (quoted p)); [| apply quoted_tight].
  by apply path_tight, ident_path_ok, Ha.
Qed.

Lemma path_no_nl s : path_ok s -> no_nl s.
Proof. intros [? H]. unfold no_nl. by eapply all_bytes_impl, H; apply path_not_nl. Qed.

Lemma render_spec_no_nl a p : spec_ok (a, p) -> no_nl (render_spec a p).
Proof.
  intros [Ha Hp]. simpl in *. unfold no_nl. destruct a as [a |]; unfold render_spec, quoted;
    rewrite !all_bytes_app.
  - rewrite (path_no_nl a), (path_no_nl p); [done | done |]. by apply ident_path_ok, Ha.
  - by rewrite (path_no_nl p).
Qed.

Lemma render_no_nl i : item_ok i -> Forall no_nl (render i).
Proof.
  destruct i as [n | a p | specs | l]; cbn [render item_ok]; intros H.
  - constructor; [| constructor]. unfold no_nl. rewrite all_bytes_app. by rewrite (path_no_nl n) by by apply ident_path_ok.
  - constructor; [| constructor]. unfold no_nl. rewrite all_bytes_app.
    by rewrite (render_spec_no_nl a p).
  - apply Forall_cons. split; [done |]. apply Forall_app. split; [| by repeat constructor].
    apply Forall_fmap. eapply Forall_impl; [exact H |]. intros [a p] Hs.
    change (no_nl (tab ++s render_spec a p)). unfold no_nl. rewrite all_bytes_app. by rewrite (render_spec_no_nl a p).
  - by destruct H as [H _]; repeat constructor.
Qed.

(** *** The quoted part of a line *)

Lemma Index_byte c x t :
  all_bytes (fun d => negb (bool_decide (d = c))) x = true ->
  Index (x ++s String c t) (String c "") = Some (String.length x).
Proof.
  induction x as [| d x IH]; cbn [String.append Index HasPrefix all_bytes].
  - intros _. rewrite bool_decide_eq_true_2 by done. by destruct t.
  - intros [Hd Hx]%andb_true_iff. apply negb_true_iff in Hd.
    rewrite bool_decide_eq_false in Hd. rewrite bool_decide_eq_false_2 by congruence.
    simpl. by rewrite IH.
Qed.

Lemma path_no_dq s : all_bytes path_byte s = true ->
  all_bytes (fun d => negb (bool_decide (d = Ascii.ascii_of_nat 34))) s = true.
Proof.
  apply all_bytes_impl. intros c Hc. rewrite bool_decide_eq_false_2; [done |]. intros ->. done.
Qed.

Lemma extractQuoted_spec x p :
  all_bytes (fun d => negb (bool_decide (d = Ascii.ascii_of_nat 34))) x = true -> path_ok p ->
  extractQuoted (x ++s quoted p) = p.
Proof.
  intros Hx [_ Hp]. unfold extractQuoted, quoted, dq. cbn [String.append].
  rewrite Index_byte by done.
  replace (sdrop (String.length x + 1) (x ++s String (Ascii.ascii_of_nat 34) (p ++s String (Ascii.ascii_of_nat 34) "")))
    with (p ++s String (Ascii.ascii_of_nat 34) "").
  - rewrite Index_byte by by apply path_no_dq. apply stake_app.
  - clear. induction x; simpl; [done |]. done.
Qed.

Lemma extractQuoted_render x a p :
  all_bytes (fun d => negb (bool_decide (d = Ascii.ascii_of_nat 34))) x = true ->
  spec_ok (a, p) -> extractQuoted (x ++s render_spec a p) = p.
Proof.
  intros Hx [Ha Hp]. simpl in *. destruct a as [a |]; cbn [render_spec]; [| by apply extractQuoted_spec].
  replace (x ++s a ++s " " ++s quoted p) with ((x ++s a ++s " ") ++s quoted p) by by sapp_simpl. apply extractQuoted_spec; [| done].
  rewrite !all_bytes_app, Hx. simpl. rewrite andb_true_r. apply path_no_dq.
  by apply ident_path_ok, Ha.
Qed.

(** *** Scanning *)

Definition scan_ok (s : scan) : Prop := NoDup (sc_paths s) /\ sc_block s = false.

(** [s'] is [s] after the paths [ps] and the lines [code]. *)
Definition scanned (s s' : scan) (ps code : list string) : Prop :=
  NoDup (sc_paths s') /\
  (forall p, p ∈ sc_paths s' <-> p ∈ sc_paths s \/ p ∈ ps) /\
  sc_out s' = sc_out s ++ code /\ sc_block s' = sc_block s.

Lemma scanned_nil s : NoDup (sc_paths s) -> scanned s s [] [].
Proof.
  intros H. split; [done |]. split; [set_solver |]. by rewrite app_nil_r.
Qed.

Lemma scanned_app s1 s2 s3 ps qs cs ds :
  scanned s1 s2 ps cs -> scanned s2 s3 qs ds -> scanned s1 s3 (ps ++ qs) (cs ++ ds).
Proof.
  intros (_ & P1 & C1 & B1) (N & P2 & C2 & B2). split; [done |]. split.
  - intros p. rewrite P2, P1, elem_of_app. tauto.
  - by rewrite C2, C1, B2, B1, <- app_assoc.
Qed.

Lemma add_quoted_spec s t p :
  extractQuoted t = p -> path_ok p -> NoDup (sc_paths s) -> scanned s (add_quoted s t) [p] [].
Proof.
  intros E Hp Hnd. unfold add_quoted, add_import. rewrite E.
  rewrite (TrimSpace_tight p) by by apply path_tight. destruct Hp as [Hne _].
  rewrite !(bool_decide_eq_false_2 (p = "")) by done. cbn [orb].
  case_bool_decide as Hin; (split; [| split; [| split]]); cbn [sc_paths sc_out sc_block];
    rewrite ?app_nil_r; try done.
  - set_solver.
  - apply NoDup_app. split; [done |]. split; [set_solver | apply NoDup_singleton].
  - set_solver.
Qed.

(** In a block: every line is a declaration, up to the closing bracket. *)
Lemma scan_spec_line s a p :
  sc_block s = true -> NoDup (sc_paths s) -> spec_ok (a, p) ->
  scanned s (scan_line s (tab ++s render_spec a p)) [p] [].
Proof.
  intros Hb Hnd Hok. unfold scan_line.
  rewrite TrimSpace_tab by by apply render_spec_tight. rewrite Hb.
  assert (exists c r, render_spec a p = String c r /\ (ident_byte c = true \/ String c "" = dq))
    as (c & r & E & Hc).
  { destruct a as [[| c r] |]; simpl.
    - destruct Hok as [Ha _]. by destruct (Ha "" eq_refl).
    - destruct Hok as [Ha _]. destruct (Ha _ eq_refl) as [_ [Hc _]%andb_true_iff]. eauto.
    - unfold quoted, dq. simpl. eauto 6. }
  rewrite bool_decide_eq_false_2, bool_decide_eq_false_2.
  - assert (HasPrefix (render_spec a p) "//" = false) as ->.
    { rewrite E. cbn [HasPrefix]. rewrite bool_decide_eq_false_2; [done |].
      intros <-. by destruct Hc. }
    apply add_quoted_spec; [| by destruct Hok | done].
    by apply (extractQuoted_render "" a p).
  - by rewrite E.
  - rewrite E. intros [= -> ->]. by destruct Hc.
Qed.

Lemma scan_block_lines specs : forall s,
  sc_block s = true -> NoDup (sc_paths s) -> Forall spec_ok specs ->
  scanned s (foldl scan_line s ((fun x => tab ++s render_spec x.1 x.2) <$> specs)) (specs.*2) [].
Proof.
  induction specs as [| [a p] specs IH]; intros s Hb Hnd H; [by apply scanned_nil |].
  apply Forall_cons in H as [Hx H].
  change (((a, p) :: specs).*2) with ([p] ++ specs.*2).
  change (@nil string) with (@nil string ++ []).
  pose proof (scan_spec_line s a p Hb Hnd Hx) as H1.
  eapply scanned_app; [exact H1 |]. destruct H1 as (N & _ & _ & B).
  apply IH; [by rewrite B | done | done].
Qed.

Lemma scan_item s i :
  scan_ok s -> item_ok i -> scanned s (foldl scan_line s (render i)) (item_paths i) (item_code i).
Proof.
  intros [Hnd Hb] Hi. destruct i as [n | a p | specs | line]; cbn [render item_paths item_code item_ok] in *.
  - cbn [foldl]. unfold scan_line. rewrite Hb.
    assert (TrimSpace ("package " ++s n) = "package " ++s n) as ->.
    { apply TrimSpace_tight. apply (tight_app "package" " " n);
        [by apply tight_graphic | by apply path_tight, ident_path_ok]. }
    rewrite HasPrefix_app. by apply scanned_nil.
  - cbn [foldl]. unfold scan_line. rewrite Hb.
    assert (TrimSpace ("import " ++s render_spec a p) = "import " ++s render_spec a p) as ->.
    { apply TrimSpace_tight. apply (tight_app "import" " " (render_spec a p));
        [by apply tight_graphic | by apply render_spec_tight]. }
    rewrite HasPrefix_app.
    assert (HasPrefix ("import " ++s render_spec a p) "package " = false) as -> by done.
    rewrite !bool_decide_eq_false_2.
    + apply add_quoted_spec; [| by destruct Hi | done]. by apply extractQuoted_render.
    + done.
    + intros E. assert (render_spec a p = "(") as E' by (by injection E).
      destruct Hi as [Ha _]. destruct a as [[| c r] |]; [by destruct (Ha "" eq_refl) | | done].
      simpl in E'. injection E' as ->. destruct (Ha _ eq_refl) as [_ [Hc _]%andb_true_iff]. done.
  - rewrite !foldl_app. cbn [foldl].
    assert (scan_line s "import (" = mkScan (sc_paths s) (sc_out s) true) as ->
      by (unfold scan_line; by rewrite Hb).
    destruct (scan_block_lines specs (mkScan (sc_paths s) (sc_out s) true)) as (N & P & C & B);
      [done | done | done |].
    set (s2 := foldl scan_line _ _) in *. cbn in B, C, P.
    assert (scan_line s2 ")" = mkScan (sc_paths s2) (sc_out s2) false) as ->
      by (unfold scan_line; by rewrite B).
    split; [done |]. split; [done |]. by rewrite Hb.
  - cbn [foldl]. destruct Hi as (_ & H1 & H2 & H3). unfold scan_line. rewrite Hb, H1, H2.
    rewrite !bool_decide_eq_false_2; [| done |].
    + split; [done |]. split; [set_solver |]. by rewrite Hb.
    + intros E. by rewrite E in H2.
Qed.

Lemma scan_items items : forall s,
  scan_ok s -> Forall item_ok items ->
  scanned s (foldl scan_line s (items ≫= render)) (items ≫= item_paths) (items ≫= item_code).
Proof.
  induction items as [| i items IH]; intros s [Hnd Hb] H; [by apply scanned_nil |].
  apply Forall_cons in H as [Hi H]. cbn [mbind list_bind]. rewrite foldl_app.
  pose proof (scan_item s i (conj Hnd Hb) Hi) as H1.
  eapply scanned_app; [exact H1 |]. destruct H1 as (N & _ & _ & B).
  apply IH; [| done]. split; [done | by rewrite B].
Qed.

Lemma extractGoImports_spec items :
  Forall item_ok items ->
  exists paths, extractGoImports (source items) = (paths, Join (items ≫= item_code) nl) /\
    NoDup paths /\ forall p, p ∈ paths <-> p ∈ items ≫= item_paths.
Proof.
  intros H. unfold extractGoImports, source, nl.
  destruct items as [| i items].
  - exists []. split; [reflexivity |]. split; [constructor | done].
  - rewrite Split_Join.
    + destruct (scan_items (i :: items) (mkScan [] [] false)) as (N & P & C & B);
        [split; [constructor | done] | done |].
      eexists. split; [by rewrite C |]. split; [done |]. intros p. rewrite P. set_solver.
    + destruct i; simpl; done.
    + apply Forall_bind. eapply Forall_impl; [exact H | apply render_no_nl].
Qed.

(** *** Merging the imports into the header *)

Definition header_imports : list string := ["encoding/json"; "fmt"; "os"].

(** The header up to its last import, and from the closing bracket on. *)
Definition go_head : string :=
  "package main" ++s nl ++s nl ++s "import (" ++s nl ++s
  concat ((fun p => tab ++s quoted p ++s nl) <$> header_imports).
Definition go_tail : string := sdrop (String.length go_head) goHeader.

Definition import_lines (paths : list string) : string :=
  concat ((fun p => tab ++s quoted p ++s nl) <$> paths).

Lemma goHeader_parts : goHeader = go_head ++s go_tail.
Proof. reflexivity. Qed.

Definition dq_byte : ascii := Ascii.ascii_of_nat 34.

Lemma Split_byte c a b : Split c (a ++s String c b) = Split c a ++ Split c b.
Proof.
  induction a as [| d a IH]; cbn [String.append Split].
  - by rewrite bool_decide_eq_true_2.
  - rewrite IH. case_bool_decide; [done |]. pose proof (Split_nonempty c a).
    by destruct (Split c a).
Qed.

(** A path quoted in a text is one of the pieces between its quotes. *)
Lemma Contains_quoted s p :
  all_bytes (fun c => negb (bool_decide (c = dq_byte))) p = true ->
  Contains s (quoted p) = true -> p ∈ Split dq_byte s.
Proof.
  intros Hp (a & b & ->)%Contains_spec. unfold quoted, dq. fold dq_byte. rewrite !sapp_assoc. cbn [String.append].
  rewrite Split_byte, Split_byte.
  assert (Split dq_byte p = [p]) as ->.
  { rewrite <- (sapp_nil_r p) at 1. rewrite Split_app by done. simpl. by rewrite sapp_nil_r. }
  set_solver.
Qed.

Definition import_block : string := sdrop (String.length "package main" + 2) go_head.

Lemma import_block_contains p :
  path_ok p -> Contains import_block (quoted p) = bool_decide (p ∈ header_imports).
Proof.
  intros [Hne Hp]. apply Bool.eq_iff_eq_true. rewrite bool_decide_eq_true. split.
  - intros H. apply Contains_quoted in H; [| by apply path_no_dq].
    assert (p ∈ ["import (" ++s nl ++s tab; "encoding/json"; nl ++s tab; "fmt"; nl ++s tab; "os"; nl])
      as Hin by exact H.
    clear H. unfold header_imports. rewrite !elem_of_cons in *.
    destruct Hin as [-> | [-> | [-> | [-> | [-> | [-> | [-> | Hin]]]]]]];
      try by (vm_compute in Hp; done).
    + by left.
    + by right; left.
    + by right; right; left.
    + by apply not_elem_of_nil in Hin.
  - unfold header_imports. rewrite !elem_of_cons.
    intros [-> | [-> | [-> | []%not_elem_of_nil]]]; reflexivity.
Qed.

Lemma concat_filter (q : string -> bool) (f : string -> string) l :
  concat ((fun p => if q p then "" else f p) <$> l) =
  concat (f <$> List.filter (fun p => negb (q p)) l).
Proof.
  assert (forall (x : string) xs, concat (x :: xs) = x ++s concat xs) as Hc.
  { intros x [| y xs]; [by rewrite sapp_nil_r | done]. }
  induction l as [| p l IH]; [done |]. cbn [fmap list_fmap List.filter]. rewrite Hc, IH.
  destruct (q p); cbn [negb]; [done |]. cbn [fmap list_fmap]. by rewrite Hc.
Qed.

Lemma injectGoImports_spec paths :
  Forall path_ok paths ->
  injectGoImports goHeader paths =
  go_head ++s import_lines (List.filter (fun p => negb (bool_decide (p ∈ header_imports))) paths) ++s go_tail.
Proof.
  intros H. unfold injectGoImports. case_bool_decide as Hne; [by subst |].
  assert (Index goHeader "import (" = Some 14%nat) as -> by reflexivity.
  assert (Index (sdrop 14 goHeader) ")" = Some (String.length import_block)) as -> by reflexivity.
  assert (stake (String.length import_block) (sdrop 14 goHeader) = import_block) as -> by reflexivity.
  assert (stake (14 + String.length import_block) goHeader = go_head) as -> by reflexivity.
  assert (sdrop (14 + String.length import_block) goHeader = go_tail) as -> by reflexivity.
  rewrite (concat_filter _ (fun p => tab ++s quoted p ++s nl)).
  assert (List.filter (fun p => negb (Contains import_block (quoted p))) paths =
    List.filter (fun p => negb (bool_decide (p ∈ header_imports))) paths) as ->.
  { clear Hne. induction H as [| p paths Hp _ IH]; [done |]. cbn [List.filter].
    rewrite import_block_contains by done. by rewrite IH. }
  unfold import_lines. case_bool_decide as E; [| done]. by rewrite E, goHeader_parts.
Qed.

(** ** Properties *)

Section Wrap.
Context `{GoUnicode}.

(** The imports of a Go submission are merged into the program: for a
    source made of package clauses, import declarations (single or in blocks,
    named or not) and other lines, in any order, wrapping succeeds and gives
    the header with, in its import block, exactly the declared paths that are
    not in the header already, each once; then the other lines unchanged and
    in order; then the generated main. *)
Theorem go_imports_are_merged (spec : FunctionSpec) (items : list go_item)
    (Hitems : Forall item_ok items) :
  exists imports,
    Wrap spec "go" (source items) =
      Ok ((go_head ++s import_lines imports ++s go_tail) ++s nl ++s nl ++s
          Join (items ≫= item_code) nl ++s nl ++s nl ++s (generateGo spec).2) /\
    NoDup imports /\
    forall p, p ∈ imports <-> p ∈ items ≫= item_paths /\ p ∉ header_imports.
Proof.
  destruct (extractGoImports_spec items Hitems) as (paths & E & Hnd & Hin).
  eexists. split; [| split].
  - unfold Wrap. change (Generate spec "go") with (Ok (E := string) (generateGo spec)).
    rewrite (surjective_pairing (generateGo spec)).
    rewrite bool_decide_eq_true_2 by done. rewrite E.
    change (generateGo spec).1 with goHeader. rewrite injectGoImports_spec; [reflexivity |].
    rewrite Forall_forall. intros p Hp. apply Hin in Hp. apply list_elem_of_bind in Hp as (i & Hp & Hi).
    rewrite Forall_forall in Hitems. specialize (Hitems i Hi).
    destruct i as [n | a q | specs | l]; cbn in *.
    + by apply not_elem_of_nil in Hp.
    + apply list_elem_of_singleton in Hp as ->. by destruct Hitems.
    + apply list_elem_of_fmap in Hp as (s & -> & Hs). rewrite Forall_forall in Hitems.
      by destruct (Hitems s Hs).
    + by apply not_elem_of_nil in Hp.
  - apply NoDup_ListNoDup, List.NoDup_filter, NoDup_ListNoDup, Hnd.
  - intros p. rewrite list_elem_of_In, filter_In, <- list_elem_of_In, Hin.
    by rewrite negb_true_iff, bool_decide_eq_false.
Qed.
(** The languages with a driver, and the types the Java driver knows. *)
Definition driver_languages : list string := ["python"; "python3"; "javascript"; "go"].
Definition java_types : list ParamType :=
  [TypeInt; TypeFloat; TypeString; TypeBool; TypeIntArray; TypeFloatArray; TypeStringArray;
   TypeBoolArray; TypeIntMatrix; TypeStringMatrix; TypeListNode; TypeTreeNode].

Definition is_Ok {E A} (r : result E A) : bool := match r with Ok _ => true | Err _ => false end.

Lemma switch_ok {A} (ok : A -> bool) s cases default :
  Forall (fun c => ok c.2 = true) cases -> ok default = false ->
  ok (switch s cases default) = true <-> s ∈ cases.*1.
Proof.
  intros Hs Hd. induction Hs as [| [c a] cases Hc _ IH]; cbn [switch fmap list_fmap fst].
  - rewrite Hd. split; [done |]. by intros ?%not_elem_of_nil.
  - rewrite elem_of_cons. case_bool_decide; [simpl in Hc; tauto |]. rewrite IH. tauto.
Qed.

Lemma javaArgDeser_ok p : is_Ok (javaArgDeser p) = true <-> p_Type p ∈ java_types.
Proof. unfold javaArgDeser. rewrite switch_ok; [done | by repeat constructor | done]. Qed.

Lemma java_args_ok ps : is_Ok (java_args ps) = true <-> Forall (fun p => p_Type p ∈ java_types) ps.
Proof.
  induction ps as [| p ps IH]; cbn [java_args]; [by split |].
  rewrite Forall_cons, <- IH, <- javaArgDeser_ok.
  destruct (javaArgDeser p); simpl; [| intuition discriminate].
  destruct (java_args ps); simpl; intuition discriminate.
Qed.

(** Which submissions can be wrapped: those in Python, JavaScript and Go
    whatever the specification says, and those in Java when every parameter
    has a type of the driver; any other language is refused.  Outside Go the
    submitted text stays in one piece, between the language's header and the
    generated call, each set off by an empty line. *)
Theorem wrap_keeps_the_submission (spec : FunctionSpec) (lang src : string) :
  (is_Ok (Wrap spec lang src) = true <->
     lang ∈ driver_languages \/
     (lang = "java" /\ Forall (fun p => p_Type p ∈ java_types) (fs_Parameters spec))) /\
  match Wrap spec lang src with
  | Ok out =>
      lang = "go" \/
      exists header footer,
        header ∈ [pythonHeader; jsHeader; javaHeader] /\ Generate spec lang = Ok (header, footer) /\
        out = header ++s (nl ++s nl ++s src ++s nl ++s nl) ++s footer
  | Err e => Generate spec lang = Err e
  end.
Proof.
  unfold Wrap, Generate, driver_languages. rewrite !elem_of_cons.
  destruct (decide (lang = "python")) as [-> | N1]; [split; [simpl; tauto |] |].
  { right. do 2 eexists. split; [| split; [reflexivity |]]; [by left | by sapp_simpl]. }
  destruct (decide (lang = "python3")) as [-> | N2]; [split; [simpl; tauto |] |].
  { right. do 2 eexists. split; [| split; [reflexivity |]]; [by left | by sapp_simpl]. }
  destruct (decide (lang = "javascript")) as [-> | N3]; [split; [simpl; tauto |] |].
  { right. do 2 eexists. split; [| split; [reflexivity |]]; [by right; left | by sapp_simpl]. }
  rewrite !(bool_decide_eq_false_2 (lang = "python")), !(bool_decide_eq_false_2 (lang = "python3")),
    (bool_decide_eq_false_2 (lang = "javascript")) by done. cbn [orb].
  destruct (decide (lang = "go")) as [-> | N4].
  { split; [| by left]. change (bool_decide ("go" = "go")) with true. cbn iota.
    destruct (generateGo spec). destruct (extractGoImports src). simpl. tauto. }
  rewrite !(bool_decide_eq_false_2 (lang = "go")) by done.
  destruct (decide (lang = "java")) as [-> | N5].
  - change (bool_decide ("java" = "java")) with true. cbn iota. unfold generateJava.
    rewrite <- java_args_ok. destruct (java_args _) as [args | e]; simpl.
    + split; [tauto |]. right. do 2 eexists.
      split; [| split; [reflexivity |]]; [by do 2 right; left | by sapp_simpl].
    + split; [| done]. split; [done |]. rewrite elem_of_nil. naive_solver.
  - rewrite (bool_decide_eq_false_2 (lang = "java")) by done. simpl. rewrite elem_of_nil.
    split; [naive_solver | done].
Qed.
End Wrap.

(** ** What the scanner loses *)

(** The name given to an import is not kept. *)
Lemma import_names_are_dropped :
  extractGoImports ("import m " ++s quoted "math" ++s nl ++s "var x = m.Pi") =
  (["math"], "var x = m.Pi").
Proof. reflexivity. Qed.

(** Of two imports on one line, only the first. *)
Lemma second_import_of_a_line_is_dropped :
  extractGoImports ("import " ++s quoted "math" ++s "; import " ++s quoted "sort") = (["math"], "").
Proof. reflexivity. Qed.

(** A line of a raw string that looks like a package clause is deleted. *)
Lemma raw_string_lines_are_dropped :
  extractGoImports ("var s = `" ++s nl ++s "package deal" ++s nl ++s "`") =
  ([], "var s = `" ++s nl ++s "`").
Proof. reflexivity. Qed.

(** ** Witness *)

Definition example_items : list go_item :=
  [IPackage "main"; IImport None "math"; ICode "";
   IBlock [(None, "fmt"); (Some "s", "strings"); (None, "math")];
   ICode "func add(a, b int) int {"; ICode (tab ++s "return a + b"); ICode "}"].

Definition example_spec : FunctionSpec :=
  mkFunctionSpec "add" [mkParameter "a" TypeInt; mkParameter "b" TypeInt] TypeInt.

Lemma go_imports_are_merged_witness :
  Forall item_ok example_items /\
  exists imports,
    Wrap (H := ascii_tables) example_spec "go" (source example_items) =
      Ok ((go_head ++s import_lines imports ++s go_tail) ++s nl ++s nl ++s
          Join (example_items ≫= item_code) nl ++s nl ++s nl ++s
          (generateGo (H := ascii_tables) example_spec).2) /\
    NoDup imports /\
    forall p, p ∈ imports <-> p ∈ example_items ≫= item_paths /\ p ∉ header_imports.
Proof.
  assert (Forall item_ok example_items) as H.
  { repeat constructor; intros; simplify_eq/=; repeat constructor; try done;
      vm_compute; try congruence. }
  split; [exact H |]. exact (go_imports_are_merged (H := ascii_tables) example_spec example_items H).
Defined.
