(* ===== verification/AuthRepo.v ===== *)
(** * Auth: data and repositories

    [internal/api/auth/domain/models.go], [internal/api/auth/repository] and
    [internal/api/auth/password.go] over the tables [users],
    [auth_identities], [refresh_tokens] and [email_verification_tokens].  As
    in [JobRepo], a statement is one atomic change or an answer of [io]. *)

From S2P Require Import Prelude Sql GoStrings.

(** ** Data *)

Inductive UserStatus := UserStatusActive | UserStatusBanned.

#[export] Instance UserStatus_eq_dec : EqDecision UserStatus.
Proof. solve_decision. Defined.

Record User := mkUser {
  u_ID : uuid;
  u_Handle : string;
  u_Email : option string;
  u_EmailVerified : bool;
  u_DisplayName : option string;
  u_AvatarURL : option string;
  u_Status : UserStatus;
  u_CreatedAt : Z;
  u_UpdatedAt : Z
}.

Record AuthIdentity := mkAuthIdentity {
  id_ID : uuid;
  id_UserID : uuid;
  id_Provider : string;
  id_ProviderSubject : string;
  id_PasswordHash : option string;
  id_PasswordAlgo : option string;
  id_EmailAtProvider : option string;
  id_EmailVerifiedAtProvider : option bool;
  id_CreatedAt : Z;
  id_LastLoginAt : option Z
}.

Record RefreshToken := mkRefreshToken {
  rt_ID : uuid;
  rt_UserID : uuid;
  rt_AuthIdentityID : option uuid;
  rt_TokenHash : string;
  rt_IssuedAt : Z;
  rt_ExpiresAt : Z;
  rt_RevokedAt : option Z;
  rt_ReplacedBy : option uuid
}.

Record EmailVerificationToken := mkEmailVerificationToken {
  ev_ID : uuid;
  ev_UserID : uuid;
  ev_TokenHash : string;
  ev_CreatedAt : Z
}.

(** ** Errors of the package, its repositories and its service *)

Inductive auth_sentinel :=
  | ErrUserNotFound
  | ErrUserAlreadyExists
  | ErrIdentityNotFound
  | ErrRefreshTokenNotFound
  | ErrEmailVerificationTokenNotFound
  | ErrPasswordTooShort
  | ErrPasswordTooLong
  | ErrInvalidPassword
  | ErrInvalidCredentials
  | ErrUserBanned
  | ErrInvalidRefreshToken
  | ErrRevokedRefreshToken
  | ErrExpiredRefreshToken
  | ErrInvalidVerificationToken
  | ErrEmailNotVerified
  | ErrInvalidUserRef.

#[export] Instance auth_sentinel_eq_dec : EqDecision auth_sentinel.
Proof. solve_decision. Defined.

#[export] Instance auth_sentinel_text : SentinelText auth_sentinel := fun s =>
  match s with
  | ErrUserNotFound => "user not found"
  | ErrUserAlreadyExists => "user already exists"
  | ErrIdentityNotFound => "auth identity not found"
  | ErrRefreshTokenNotFound => "refresh token not found"
  | ErrEmailVerificationTokenNotFound => "email verification token not found"
  | ErrPasswordTooShort => "password must be at least 8 characters"
  | ErrPasswordTooLong => "password must be at most 128 characters"
  | ErrInvalidPassword => "invalid password"
  | ErrInvalidCredentials => "invalid credentials"
  | ErrUserBanned => "user is banned"
  | ErrInvalidRefreshToken => "invalid refresh token"
  | ErrRevokedRefreshToken => "refresh token has been revoked"
  | ErrExpiredRefreshToken => "refresh token has expired"
  | ErrInvalidVerificationToken => "invalid or expired email verification token"
  | ErrEmailNotVerified => "email not verified"
  | ErrInvalidUserRef => "invalid user reference"
  end.

Abbreviation auth_error := (goerr auth_sentinel).

(** ** The database *)

Record authdb := mkAuthDb {
  au_users : gmap uuid User;
  au_identities : gmap uuid AuthIdentity;
  au_tokens : gmap uuid RefreshToken;
  au_verifications : gmap uuid EmailVerificationToken
}.

Definition set_users (db : authdb) users : authdb :=
  mkAuthDb users (au_identities db) (au_tokens db) (au_verifications db).
Definition set_identities (db : authdb) ids : authdb :=
  mkAuthDb (au_users db) ids (au_tokens db) (au_verifications db).
Definition set_tokens (db : authdb) tokens : authdb :=
  mkAuthDb (au_users db) (au_identities db) tokens (au_verifications db).
Definition set_verifications (db : authdb) vs : authdb :=
  mkAuthDb (au_users db) (au_identities db) (au_tokens db) vs.

(** PostgreSQL's [lower], with which CITEXT values are compared too. *)
Class DbLower := db_lower : string -> string.

(** The two INSERTs that look at the error's text. *)
Definition failed_unique {A} (what text : string) (db : authdb) : authdb * result auth_error A :=
  if isUniqueViolation text then (db, Err (Sentinel ErrUserAlreadyExists)) else failed what text db.

(** ** Users *)

Section Users.
Context `{DbLower}.

Definition same_handle (handle : string) (u : User) : bool :=
  bool_decide (db_lower (u_Handle u) = db_lower handle).
Definition same_email (email : string) (u : User) : bool :=
  match u_Email u with
  | Some e => bool_decide (db_lower e = db_lower email)
  | None => false
  end.
Definition shares_email (email : option string) (u : User) : bool :=
  match email with Some e => same_email e u | None => false end.

Definition CreateUser (io : faults) (user : User) : M authdb auth_error () := fun db =>
  match io 0%nat with
  | Some e => failed_unique "create user" e db
  | None =>
      if negb (bool_decide (au_users db !! u_ID user = None)) then
        failed_unique "create user" (unique_violation "users_pkey") db
      else if negb (no_row (same_handle (u_Handle user)) (au_users db)) then
        failed_unique "create user" (unique_violation "users_handle_key") db
      else if negb (no_row (shares_email (u_Email user)) (au_users db)) then
        failed_unique "create user" (unique_violation "users_email_key") db
      else (set_users db (<[u_ID user := user]> (au_users db)), Ok tt)
  end.

Definition GetUserByID (io : faults) (id : uuid) : M authdb auth_error User :=
  statement (failed_to "get user by id") io (fun db =>
    (db, match au_users db !! id with
         | Some u => Ok u
         | None => Err (Sentinel ErrUserNotFound)
         end)).

Definition GetUserByHandle (io : faults) (handle : string) : M authdb auth_error User :=
  statement (failed_to "get user by handle") io (fun db =>
    (db, select_one (same_handle handle) (au_users db) ErrUserNotFound)).

Definition GetUserByEmail (io : faults) (email : string) : M authdb auth_error User :=
  statement (failed_to "get user by email") io (fun db =>
    (db, select_one (same_email email) (au_users db) ErrUserNotFound)).

(** All columns but the identifier and the creation time are written back;
    the second answer of [io] is that of [RowsAffected]. *)
Definition written_back (user : User) (row : User) : User :=
  mkUser (u_ID row) (u_Handle user) (u_Email user) (u_EmailVerified user) (u_DisplayName user)
    (u_AvatarURL user) (u_Status user) (u_CreatedAt row) (u_UpdatedAt user).

Definition other_than (id : uuid) (P : User -> bool) (u : User) : bool :=
  negb (bool_decide (u_ID u = id)) && P u.

(** A constraint can only reject a row that is there. *)
Definition taken_by_other (db : authdb) (id : uuid) (P : User -> bool) : bool :=
  bool_decide (is_Some (au_users db !! id)) && negb (no_row (other_than id P) (au_users db)).

Definition UpdateUser (io : faults) (user : User) : M authdb auth_error () := fun db =>
  match io 0%nat with
  | Some e => failed "update user" e db
  | None =>
      if taken_by_other db (u_ID user) (same_handle (u_Handle user)) then
        failed "update user" (unique_violation "users_handle_key") db
      else if taken_by_other db (u_ID user) (shares_email (u_Email user)) then
        failed "update user" (unique_violation "users_email_key") db
      else
        let '(users, n) := update_key (u_ID user) (fun _ => true) (written_back user) (au_users db) in
        match io 1%nat with
        | Some e => failed "get rows affected" e (set_users db users)
        | None =>
            (set_users db users,
             if (n =? 0)%nat then Err (Sentinel ErrUserNotFound) else Ok tt)
        end
  end.
End Users.

(** ** Identities *)

Definition of_provider (provider subject : string) (i : AuthIdentity) : bool :=
  bool_decide (id_Provider i = provider) && bool_decide (id_ProviderSubject i = subject).

Definition CreateIdentity (io : faults) (identity : AuthIdentity) : M authdb auth_error () := fun db =>
  match io 0%nat with
  | Some e => failed_unique "create auth identity" e db
  | None =>
      if negb (bool_decide (au_identities db !! id_ID identity = None)) then
        failed_unique "create auth identity" (unique_violation "auth_identities_pkey") db
      else if negb (no_row (of_provider (id_Provider identity) (id_ProviderSubject identity))
                      (au_identities db)) then
        failed_unique "create auth identity"
          (unique_violation "auth_identities_provider_subject_uq") db
      else if negb (bool_decide (is_Some (au_users db !! id_UserID identity))) then
        failed_unique "create auth identity"
          (foreign_key_violation "auth_identities" "auth_identities_user_id_fkey") db
      else (set_identities db (<[id_ID identity := identity]> (au_identities db)), Ok tt)
  end.

Definition GetIdentityByProviderAndSubject (io : faults) (provider subject : string)
  : M authdb auth_error AuthIdentity :=
  statement (failed_to "get identity") io (fun db =>
    (db, select_one (of_provider provider subject) (au_identities db) ErrIdentityNotFound)).

Definition GetIdentitiesByUserID (io : faults) (userID : uuid) : M authdb auth_error (list AuthIdentity) :=
  query_rows "get identities" io (fun db =>
    select_where (fun i => bool_decide (id_UserID i = userID)) (au_identities db)).

Definition logged_in (now : Z) (i : AuthIdentity) : AuthIdentity :=
  mkAuthIdentity (id_ID i) (id_UserID i) (id_Provider i) (id_ProviderSubject i) (id_PasswordHash i)
    (id_PasswordAlgo i) (id_EmailAtProvider i) (id_EmailVerifiedAtProvider i) (id_CreatedAt i)
    (Some now).

Definition UpdateLastLogin (io : faults) (now : Z) (identityID : uuid) : M authdb auth_error () :=
  statement (failed_to "update last login") io (fun db =>
    (set_identities db (update_key identityID (fun _ => true) (logged_in now) (au_identities db)).1,
     Ok tt)).

(** ** Refresh tokens *)

Definition has_hash (hash : string) (t : RefreshToken) : bool := bool_decide (rt_TokenHash t = hash).

Definition CreateRefreshToken (io : faults) (token : RefreshToken) : M authdb auth_error () :=
  statement (failed_to "create refresh token") io (fun db =>
    if negb (bool_decide (au_tokens db !! rt_ID token = None)) then
      failed "create refresh token" (unique_violation "refresh_tokens_pkey") db
    else if negb (no_row (has_hash (rt_TokenHash token)) (au_tokens db)) then
      failed "create refresh token" (unique_violation "refresh_tokens_token_hash_key") db
    else if negb (bool_decide (is_Some (au_users db !! rt_UserID token)) &&
                  references (au_identities db) (rt_AuthIdentityID token) &&
                  references (au_tokens db) (rt_ReplacedBy token)) then
      failed "create refresh token"
        (foreign_key_violation "refresh_tokens" "refresh_tokens_user_id_fkey") db
    else (set_tokens db (<[rt_ID token := token]> (au_tokens db)), Ok tt)).

Definition GetRefreshTokenByHash (io : faults) (hash : string) : M authdb auth_error RefreshToken :=
  statement (failed_to "get refresh token") io (fun db =>
    (db, select_one (has_hash hash) (au_tokens db) ErrRefreshTokenNotFound)).

Definition revoked (now : Z) (replacedBy : option uuid) (t : RefreshToken) : RefreshToken :=
  mkRefreshToken (rt_ID t) (rt_UserID t) (rt_AuthIdentityID t) (rt_TokenHash t) (rt_IssuedAt t)
    (rt_ExpiresAt t) (Some now) replacedBy.

Definition RevokeRefreshToken (io : faults) (now : Z) (tokenID : uuid) (replacedBy : option uuid)
  : M authdb auth_error () :=
  statement (failed_to "revoke refresh token") io (fun db =>
    if bool_decide (is_Some (au_tokens db !! tokenID)) &&
       negb (references (au_tokens db) replacedBy) then
      failed "revoke refresh token"
        (foreign_key_violation "refresh_tokens" "refresh_tokens_replaced_by_fkey") db
    else
      (set_tokens db (update_key tokenID (fun _ => true) (revoked now replacedBy) (au_tokens db)).1,
       Ok tt)).

Definition live_token_of (userID : uuid) (t : RefreshToken) : bool :=
  bool_decide (rt_UserID t = userID) && bool_decide (rt_RevokedAt t = None).

Definition RevokeAllUserTokens (io : faults) (now : Z) (userID : uuid) : M authdb auth_error () :=
  statement (failed_to "revoke all user tokens") io (fun db =>
    (set_tokens db (update_where (live_token_of userID)
       (fun t => revoked now (rt_ReplacedBy t) t) (au_tokens db)), Ok tt)).

(** [expires_at < NOW() - INTERVAL '30 days'] *)
Definition long_expired (now : Z) (t : RefreshToken) : bool :=
  rt_ExpiresAt t <? now - 30 * 24 * 60 * time_Minute.

(** ON DELETE SET NULL clears [replaced_by] where it named a deleted row. *)
Definition forget_deleted (tokens : gmap uuid RefreshToken) (t : RefreshToken) : RefreshToken :=
  mkRefreshToken (rt_ID t) (rt_UserID t) (rt_AuthIdentityID t) (rt_TokenHash t) (rt_IssuedAt t)
    (rt_ExpiresAt t) (rt_RevokedAt t)
    (if references tokens (rt_ReplacedBy t) then rt_ReplacedBy t else None).

Definition CleanupExpiredTokens (io : faults) (now : Z) : M authdb auth_error () :=
  statement (failed_to "cleanup expired tokens") io (fun db =>
    let kept := filter (fun kt => long_expired now kt.2 = false) (au_tokens db) in
    (set_tokens db (forget_deleted kept <$> kept), Ok tt)).

(** ** Verification tokens *)

Definition ev_has_hash (hash : string) (t : EmailVerificationToken) : bool :=
  bool_decide (ev_TokenHash t = hash).

Definition GetEmailVerificationTokenByHash (io : faults) (hash : string)
  : M authdb auth_error EmailVerificationToken :=
  statement (failed_to "get email verification token") io (fun db =>
    (db, select_one (ev_has_hash hash) (au_verifications db) ErrEmailVerificationTokenNotFound)).

(** The second answer of [io] is that of [RowsAffected]. *)
Definition DeleteEmailVerificationTokenByID (io : faults) (id : uuid) : M authdb auth_error () :=
  statement (failed_to "delete email verification token") io (fun db =>
    let db' := set_verifications db (delete id (au_verifications db)) in
    match io 1%nat with
    | Some e => failed "read rows affected" e db'
    | None =>
        (db', match au_verifications db !! id with
              | None => Err (Sentinel ErrEmailVerificationTokenNotFound)
              | Some _ => Ok tt
              end)
    end).

(** [fresh] is the identifier the column's default draws. *)
Definition CreateEmailVerificationToken (io : faults) (now : Z) (fresh userID : uuid) (hash : string)
  : M authdb auth_error () :=
  statement (failed_to "create email verification token") io (fun db =>
    if negb (bool_decide (au_verifications db !! fresh = None)) then
      failed "create email verification token" (unique_violation "email_verification_tokens_pkey") db
    else if negb (no_row (ev_has_hash hash) (au_verifications db)) then
      failed "create email verification token"
        (unique_violation "email_verification_tokens_token_hash_idx") db
    else if negb (bool_decide (is_Some (au_users db !! userID))) then
      failed "create email verification token"
        (foreign_key_violation "email_verification_tokens" "email_verification_tokens_user_id_fkey") db
    else
      (set_verifications db (<[fresh := mkEmailVerificationToken fresh userID hash now]>
         (au_verifications db)), Ok tt)).

(** ** Passwords *)

Definition minPasswordLength : Z := 8.
Definition maxPasswordLength : Z := 128.

Definition ValidatePassword (password : string) : result auth_error () :=
  if len password <? minPasswordLength then Err (Sentinel ErrPasswordTooShort)
  else if maxPasswordLength <? len password then Err (Sentinel ErrPasswordTooLong)
  else Ok tt.

(** [golang.org/x/crypto/bcrypt]: a hash or an error, and a comparison that
    can fail to read the hash. *)
Class Bcrypt := {
  bcrypt_Generate : string -> result string string;
  bcrypt_Compare : string -> string -> result string bool
}.

Section Passwords.
Context `{Bcrypt}.

Definition HashAndValidatePassword (password : string) : result auth_error string :=
  match ValidatePassword password with
  | Err e => Err e
  | Ok _ =>
      match bcrypt_Generate password with
      | Err e => Err (Wrapf "failed to hash password: " (Opaque e) "")
      | Ok hash => Ok hash
      end
  end.

Definition ComparePassword (hashedPassword password : string) : result auth_error () :=
  match bcrypt_Compare hashedPassword password with
  | Ok true => Ok tt
  | Ok false => Err (Sentinel ErrInvalidPassword)
  | Err e => Err (Wrapf "failed to compare password: " (Opaque e) "")
  end.
End Passwords.
