(* ===== verification/AuthService.v ===== *)
(** * Auth: tokens, service and middleware

    [internal/api/auth/jwt.go], [internal/api/auth/service/auth.go] (accounts,
    sessions and e-mail verification), [email_verification_url.go] and the
    middlewares of [internal/api/auth/http/middleware.go].  Random tokens,
    password and token hashes, signatures and URL parsing are parameters; the
    verification e-mails the broker has received are part of the state. *)

From S2P Require Import Prelude Sql GoStrings AuthRepo.

(** ** Cryptography and URLs *)

(** Claims; the dates are whole seconds ([jwt.NewNumericDate]). *)
Record TokenClaims := mkTokenClaims {
  tk_UserID : uuid;
  tk_Handle : string;
  tk_Permissions : list string;
  tk_ExpiresAt : Z;
  tk_IssuedAt : Z;
  tk_NotBefore : Z
}.

Inductive token_sentinel := ErrInvalidToken | ErrExpiredToken.

(** What the JWT library makes of a token with the secret key: the claims of
    a valid one, an expired one, or any other error. *)
Inductive parsed := ParsedValid (claims : TokenClaims) | ParsedExpired | ParsedInvalid.

Class AuthCrypto := {
  sha256 : string -> string;
  jwt_Sign : string -> TokenClaims -> result string string;
  jwt_Parse : string -> Z -> string -> parsed
}.

(** [url.Parse] of the base, with the query parameter [token] set. *)
Class GoURL := url_with_token : string -> string -> option string.

Record JWTManager := mkJWTManager {
  jm_secretKey : string;
  jm_accessTokenDuration : Z;
  jm_refreshTokenDuration : Z
}.

Definition NumericDate (t : Z) : Z := t / time_Second.

(** ** The verification link *)

(** [url.QueryEscape] *)
Definition unreserved (c : ascii) : bool :=
  byte_between 48 57 c || byte_between 65 90 c || byte_between 97 122 c
  || is_byte 45 c || is_byte 95 c || is_byte 46 c || is_byte 126 c.

Definition hex_upper (n : nat) : string := stake 1 (sdrop n "0123456789ABCDEF").

Fixpoint QueryEscape (s : string) : string :=
  match s with
  | EmptyString => ""
  | String c s' =>
      (if unreserved c then String c ""
       else if is_byte 32 c then "+"
       else "%" ++s hex_upper (byte_of c / 16) ++s hex_upper (byte_of c `mod` 16)) ++s QueryEscape s'
  end.

Section Auth.
Context `{DbLower} `{Bcrypt} `{AuthCrypto} `{GoURL}.
Context (jm : JWTManager) (frontendURL : string).

Definition buildEmailVerificationURL (frontendBase plaintextToken : string) : string :=
  let base := TrimSpace (trim_right (is_byte 47) frontendBase) in
  if bool_decide (base = "") || bool_decide (plaintextToken = "") then ""
  else match url_with_token base plaintextToken with
       | None => base ++s "/?token=" ++s QueryEscape plaintextToken
       | Some u => u
       end.

(** ** Access tokens *)

Definition GenerateAccessToken (now : Z) (userID : uuid) (handle : string)
    (permissions : list string) : result string string :=
  jwt_Sign (jm_secretKey jm)
    (mkTokenClaims userID handle permissions (NumericDate (now + jm_accessTokenDuration jm))
       (NumericDate now) (NumericDate now)).

Definition ValidateAccessToken (now : Z) (token : string) : result token_sentinel TokenClaims :=
  match jwt_Parse (jm_secretKey jm) now token with
  | ParsedValid claims => Ok claims
  | ParsedExpired => Err ErrExpiredToken
  | ParsedInvalid => Err ErrInvalidToken
  end.

Definition hashToken (token : string) : string := sha256 token.

(** ** The service *)

Record EmailVerificationEvent := mkVerificationEvent {
  vev_UserID : uuid;
  vev_Email : string;
  vev_VerificationURL : string
}.

Record auth := mkAuth { as_db : authdb; as_mail : list EmailVerificationEvent }.

Definition on_authdb {A} (m : M authdb auth_error A) : M auth auth_error A := fun st =>
  let '(db, r) := m (as_db st) in (mkAuth db (as_mail st), r).

(** What the outside decides while a call runs: the statements' faults, the
    service's and the database's clocks, identifiers, the random token,
    whether the mail event reaches the broker, and the permissions that the
    access-control service reports for the user. *)
Record auth_env := mkAuthEnv {
  an_io : faults;
  an_clock : Z;
  an_now : Z;
  an_id1 : uuid;
  an_id2 : uuid;
  an_db_id : uuid;
  an_token : result string string;
  an_delivered : bool;
  an_permissions : result string (list string)
}.

Record RegisterRequest := mkRegisterRequest {
  rq_Handle : string;
  rq_Email : string;
  rq_Password : string;
  rq_DisplayName : option string
}.

Record AuthResponse := mkAuthResponse {
  ar_AccessToken : string;
  ar_RefreshToken : string;
  ar_ExpiresIn : Z;
  ar_User : User
}.

Definition emailVerificationTokenTTL : Z := 48 * 60 * time_Minute.
Definition ProviderLocal : string := "local".
Definition PasswordAlgo : string := "bcrypt".

Definition wrap (what : string) (e : auth_error) : auth_error :=
  Wrapf ("failed to " ++s what ++s ": ") e "".

(** A lookup whose only expected error is that nothing is there. *)
Definition lookup_user (what : string) (m : M authdb auth_error User) : M authdb auth_error (option User) :=
  r ← attempt m;
  match r with
  | Ok u => mret (Some u)
  | Err e => if errors_Is e ErrUserNotFound then mret None else fail (wrap what e)
  end.

Definition random_token (what : string) (env : auth_env) : M authdb auth_error string :=
  match an_token env with
  | Ok t => mret t
  | Err e => fail (wrap what (Wrapf "failed to generate refresh token: " (Opaque e) ""))
  end.

(** The publisher's error is logged and dropped. *)
Definition publish (env : auth_env) (ev : EmailVerificationEvent) : M auth auth_error () := fun st =>
  (mkAuth (as_db st) (if an_delivered env then as_mail st ++ [ev] else as_mail st), Ok tt).

Definition new_user (env : auth_env) (req : RegisterRequest) : User :=
  mkUser (an_id1 env) (rq_Handle req) (Some (rq_Email req)) false (rq_DisplayName req) None
    UserStatusActive (an_clock env) (an_clock env).

Definition new_identity (env : auth_env) (req : RegisterRequest) (passwordHash : string) : AuthIdentity :=
  mkAuthIdentity (an_id2 env) (an_id1 env) ProviderLocal (rq_Email req) (Some passwordHash)
    (Some PasswordAlgo) (Some (rq_Email req)) None (an_clock env) None.

(** The statements of [Register]; the answer is the plain token. *)
Definition register_account (env : auth_env) (req : RegisterRequest) : M authdb auth_error string :=
  existing ← lookup_user "check existing user" (GetUserByEmail (an_io env) (rq_Email req));
  match existing with
  | Some _ => fail (Sentinel ErrUserAlreadyExists)
  | None =>
      existing ← lookup_user "check existing handle"
        (GetUserByHandle (shift_faults 1 (an_io env)) (rq_Handle req));
      match existing with
      | Some _ => fail (Sentinel ErrUserAlreadyExists)
      | None =>
          passwordHash ← map_err (wrap "hash password")
            (lift (HashAndValidatePassword (rq_Password req)));
          _ ← map_err (wrap "create user")
            (CreateUser (shift_faults 2 (an_io env)) (new_user env req));
          _ ← map_err (wrap "create identity")
            (CreateIdentity (shift_faults 3 (an_io env)) (new_identity env req passwordHash));
          token ← random_token "generate email verification token" env;
          _ ← map_err (wrap "store email verification token")
            (CreateEmailVerificationToken (shift_faults 4 (an_io env)) (an_now env) (an_db_id env)
               (an_id1 env) (hashToken token));
          mret token
      end
  end.

Definition Register (env : auth_env) (req : RegisterRequest) : M auth auth_error () :=
  token ← on_authdb (register_account env req);
  publish env (mkVerificationEvent (an_id1 env) (rq_Email req)
    (buildEmailVerificationURL frontendURL token)).

(** No permissions when they cannot be read. *)
Definition permission_keys (env : auth_env) : list string :=
  match an_permissions env with Ok ps => ps | Err _ => [] end.

Definition sign (env : auth_env) (user : User) : M authdb auth_error string :=
  match GenerateAccessToken (an_clock env) (u_ID user) (u_Handle user) (permission_keys env) with
  | Ok t => mret t
  | Err e => fail (wrap "generate access token" (Opaque e))
  end.

Definition new_refresh_token (env : auth_env) (userID : uuid) (identityID : option uuid)
    (token : string) : RefreshToken :=
  mkRefreshToken (an_id1 env) userID identityID (hashToken token) (an_clock env)
    (an_clock env + jm_refreshTokenDuration jm) None None.

(** [int64(duration.Seconds())] *)
Definition expires_in : Z := Z.quot (jm_refreshTokenDuration jm) time_Second.

Definition generateAuthResponse (env : auth_env) (user : User) (identityID : uuid)
  : M authdb auth_error AuthResponse :=
  accessToken ← sign env user;
  refreshToken ← random_token "generate refresh token" env;
  _ ← map_err (wrap "store refresh token")
    (CreateRefreshToken (shift_faults 3 (an_io env))
       (new_refresh_token env (u_ID user) (Some identityID) refreshToken));
  mret (mkAuthResponse accessToken refreshToken expires_in user).

(** Banned and unverified users get no session. *)
Definition may_have_session (user : User) : result auth_error () :=
  if bool_decide (u_Status user = UserStatusBanned) then Err (Sentinel ErrUserBanned)
  else if negb (u_EmailVerified user) then Err (Sentinel ErrEmailNotVerified)
  else Ok tt.

Definition check_password (identity : AuthIdentity) (password : string) : result auth_error () :=
  match id_PasswordHash identity with
  | None => Err (Sentinel ErrInvalidCredentials)
  | Some hash =>
      match ComparePassword hash password with
      | Err _ => Err (Sentinel ErrInvalidCredentials)
      | Ok _ => Ok tt
      end
  end.

(** One sentinel in the place of another, any other error wrapped. *)
Definition instead (missing as_ : auth_sentinel) (what : string) (e : auth_error) : auth_error :=
  if errors_Is e missing then Sentinel as_ else wrap what e.

Definition Login (env : auth_env) (email password : string) : M authdb auth_error AuthResponse :=
  identity ← map_err (instead ErrIdentityNotFound ErrInvalidCredentials "get identity")
    (GetIdentityByProviderAndSubject (an_io env) ProviderLocal email);
  _ ← lift (check_password identity password);
  user ← map_err (wrap "get user") (GetUserByID (shift_faults 1 (an_io env)) (id_UserID identity));
  _ ← lift (may_have_session user);
  _ ← map_err (wrap "update last login")
    (UpdateLastLogin (shift_faults 2 (an_io env)) (an_now env) (id_ID identity));
  generateAuthResponse env user (id_ID identity).

Definition check_refresh_token (clock : Z) (t : RefreshToken) : result auth_error () :=
  match rt_RevokedAt t with
  | Some _ => Err (Sentinel ErrRevokedRefreshToken)
  | None => if rt_ExpiresAt t <? clock then Err (Sentinel ErrExpiredRefreshToken) else Ok tt
  end.

(** [RefreshToken]: the checks, then the exchange of the stored token. *)
Definition usable_refresh_token (env : auth_env) (token : string)
  : M authdb auth_error (RefreshToken * User) :=
  stored ← map_err (instead ErrRefreshTokenNotFound ErrInvalidRefreshToken "get refresh token")
    (GetRefreshTokenByHash (an_io env) (hashToken token));
  _ ← lift (check_refresh_token (an_clock env) stored);
  user ← map_err (wrap "get user") (GetUserByID (shift_faults 1 (an_io env)) (rt_UserID stored));
  _ ← lift (may_have_session user);
  mret (stored, user).

Definition exchange_refresh_token (env : auth_env) (stored : RefreshToken) (user : User)
  : M authdb auth_error AuthResponse :=
  newToken ← random_token "generate refresh token" env;
  _ ← map_err (wrap "create new refresh token")
    (CreateRefreshToken (shift_faults 2 (an_io env))
       (new_refresh_token env (u_ID user) (rt_AuthIdentityID stored) newToken));
  _ ← map_err (wrap "revoke old refresh token")
    (RevokeRefreshToken (shift_faults 3 (an_io env)) (an_now env) (rt_ID stored) (Some (an_id1 env)));
  accessToken ← sign env user;
  mret (mkAuthResponse accessToken newToken expires_in user).

Definition RefreshToken_ (env : auth_env) (token : string) : M authdb auth_error AuthResponse :=
  su ← usable_refresh_token env token;
  exchange_refresh_token env su.1 su.2.

Definition Logout (env : auth_env) (token : string) : M authdb auth_error () :=
  r ← attempt (GetRefreshTokenByHash (an_io env) (hashToken token));
  match r with
  | Err e => if errors_Is e ErrRefreshTokenNotFound then mret tt
             else fail (wrap "get refresh token" e)
  | Ok stored =>
      map_err (wrap "revoke refresh token")
        (RevokeRefreshToken (shift_faults 1 (an_io env)) (an_now env) (rt_ID stored) None)
  end.

(** ** E-mail verification *)

Inductive VerifyEmailOutcome := VerifyEmailOutcomeVerified | VerifyEmailOutcomeResent.

(** An expired link is replaced: its row is deleted, a new token stored and
    mailed. *)
Definition resend (env : auth_env) (record : EmailVerificationToken)
  : M authdb auth_error EmailVerificationEvent :=
  _ ← map_err (wrap "remove expired verification token")
    (DeleteEmailVerificationTokenByID (shift_faults 1 (an_io env)) (ev_ID record));
  plain ← random_token "generate replacement verification token" env;
  _ ← map_err (wrap "store replacement verification token")
    (CreateEmailVerificationToken (shift_faults 3 (an_io env)) (an_now env) (an_db_id env)
       (ev_UserID record) (hashToken plain));
  u ← map_err (wrap "get user for verification email")
    (GetUserByID (shift_faults 4 (an_io env)) (ev_UserID record));
  mret (mkVerificationEvent (ev_UserID record) (default "" (u_Email u))
          (buildEmailVerificationURL frontendURL plain)).

Definition verified (now : Z) (u : User) : User :=
  mkUser (u_ID u) (u_Handle u) (u_Email u) true (u_DisplayName u) (u_AvatarURL u) (u_Status u)
    (u_CreatedAt u) now.

(** A link in time is consumed, then the user's row is written back. *)
Definition consume (env : auth_env) (record : EmailVerificationToken) : M authdb auth_error () :=
  user ← map_err (wrap "get user") (GetUserByID (shift_faults 1 (an_io env)) (ev_UserID record));
  _ ← map_err (wrap (if u_EmailVerified user then "remove used verification token"
                     else "consume verification token"))
    (DeleteEmailVerificationTokenByID (shift_faults 2 (an_io env)) (ev_ID record));
  if u_EmailVerified user then mret tt
  else map_err (wrap "update user")
         (UpdateUser (shift_faults 4 (an_io env)) (verified (an_clock env) user)).

Definition VerifyEmail (env : auth_env) (token : string) : M auth auth_error VerifyEmailOutcome :=
  if bool_decide (token = "") then fail (Sentinel ErrInvalidVerificationToken)
  else
    record ← on_authdb (map_err
      (instead ErrEmailVerificationTokenNotFound ErrInvalidVerificationToken
         "get email verification token")
      (GetEmailVerificationTokenByHash (an_io env) (hashToken token)));
    if emailVerificationTokenTTL <? an_clock env - ev_CreatedAt record then
      ev ← on_authdb (resend env record);
      _ ← publish env ev;
      mret VerifyEmailOutcomeResent
    else
      _ ← on_authdb (consume env record);
      mret VerifyEmailOutcomeVerified.

(** ** The middlewares *)

(** The caller that a request's context carries. *)
Record auth_context := mkAuthContext {
  ac_UserID : uuid;
  ac_Handle : string;
  ac_Permissions : list string
}.

Definition context_of (claims : TokenClaims) : auth_context :=
  mkAuthContext (tk_UserID claims) (tk_Handle claims) (tk_Permissions claims).

Definition space : ascii := Ascii.ascii_of_nat 32.

(** The text of the 401 answer, or the caller. *)
Definition bearer (now : Z) (authHeader : string) : result string auth_context :=
  match Split space authHeader with
  | [scheme; token] =>
      if negb (bool_decide (scheme = "Bearer")) then Err "invalid authorization header format"
      else match ValidateAccessToken now token with
           | Err _ => Err "invalid or expired token"
           | Ok claims => Ok (context_of claims)
           end
  | _ => Err "invalid authorization header format"
  end.

Definition AuthMiddleware (now : Z) (authHeader : string) : result string auth_context :=
  if bool_decide (authHeader = "") then Err "missing authorization header"
  else bearer now authHeader.

(** Without a header the request goes on without a caller. *)
Definition OptionalAuthMiddleware (now : Z) (authHeader : string) : result string (option auth_context) :=
  if bool_decide (authHeader = "") then Ok None
  else match bearer now authHeader with Ok c => Ok (Some c) | Err e => Err e end.
End Auth.
