(* ===== verification/AuthFacts.v ===== *)
(** * Auth: histories and invariants

    The calls of the service and of the token repository as a history of
    operations, with what every call keeps: refresh tokens and verification
    links stay unique by hash, a revoked token stays revoked and a used link
    stays away. *)

From S2P Require Import Prelude Sql GoStrings AuthRepo AuthService.

Section AuthFacts.
Context `{DbLower} `{Bcrypt} `{AuthCrypto} `{GoURL}.
Context (jm : JWTManager) (frontendURL : string).

(** ** Histories *)

Inductive auth_call :=
  | CallRegister (env : auth_env) (req : RegisterRequest)
  | CallLogin (env : auth_env) (email password : string)
  | CallRefreshToken (env : auth_env) (token : string)
  | CallLogout (env : auth_env) (token : string)
  | CallVerifyEmail (env : auth_env) (token : string)
  | CallRevokeAllUserTokens (io : faults) (now : Z) (userID : uuid)
  | CallCleanupExpiredTokens (io : faults) (now : Z).

Definition serve (c : auth_call) (st : auth) : auth :=
  match c with
  | CallRegister env req => (Register frontendURL env req st).1
  | CallLogin env email password => (on_authdb (Login jm env email password) st).1
  | CallRefreshToken env token => (on_authdb (RefreshToken_ jm env token) st).1
  | CallLogout env token => (on_authdb (Logout env token) st).1
  | CallVerifyEmail env token => (VerifyEmail frontendURL env token st).1
  | CallRevokeAllUserTokens io now userID => (on_authdb (RevokeAllUserTokens io now userID) st).1
  | CallCleanupExpiredTokens io now => (on_authdb (CleanupExpiredTokens io now) st).1
  end.

Fixpoint serve_all (cs : list auth_call) (st : auth) : auth :=
  match cs with
  | [] => st
  | c :: cs => serve_all cs (serve c st)
  end.

Definition empty_auth : auth := mkAuth (mkAuthDb ∅ ∅ ∅ ∅) [].

(** The random token a call may draw, and that its hash is not in [used]. *)
Definition call_env (c : auth_call) : option auth_env :=
  match c with
  | CallRegister env _ | CallLogin env _ _ | CallRefreshToken env _ | CallLogout env _
  | CallVerifyEmail env _ => Some env
  | _ => None
  end.

Definition draws_outside (used : string -> Prop) (env : auth_env) : Prop :=
  forall t, an_token env = Ok t -> ~ used (hashToken t).

Definition avoids (used : string -> Prop) (c : auth_call) : Prop :=
  match call_env c with Some env => draws_outside used env | None => True end.

(** ** The invariant

    Rows lie under their identifiers and hashes are unique.  A token whose
    hash is in [us] is revoked, and there is no link whose hash is in [ul]. *)

Record auth_inv (us ul : string -> Prop) (db : authdb) : Prop := {
  ai_users k u : au_users db !! k = Some u -> u_ID u = k;
  ai_identities k i : au_identities db !! k = Some i -> id_ID i = k;
  ai_tokens : keyed rt_ID rt_TokenHash (au_tokens db);
  ai_links : keyed ev_ID ev_TokenHash (au_verifications db);
  ai_revoked k t : au_tokens db !! k = Some t -> us (rt_TokenHash t) -> rt_RevokedAt t <> None;
  ai_gone k v : au_verifications db !! k = Some v -> ~ ul (ev_TokenHash v)
}.

Lemma auth_inv_empty us ul : auth_inv us ul (as_db empty_auth).
Proof. split; try apply keyed_empty; intros k v; cbn; by rewrite lookup_empty. Qed.

Section Tables.
Context (us ul : string -> Prop).
Implicit Types (db : authdb).

Lemma inv_users db users :
  auth_inv us ul db -> (forall k u, users !! k = Some u -> u_ID u = k) ->
  auth_inv us ul (set_users db users).
Proof. by intros []. Qed.

Lemma inv_identities db ids :
  auth_inv us ul db -> (forall k i, ids !! k = Some i -> id_ID i = k) ->
  auth_inv us ul (set_identities db ids).
Proof. by intros []. Qed.

(** A change of tokens that touches only [RevokedAt] and [ReplacedBy], and
    takes no revocation back. *)
Lemma inv_tokens db ts :
  auth_inv us ul db ->
  (forall k t', ts !! k = Some t' -> exists t, au_tokens db !! k = Some t /\
     rt_ID t' = rt_ID t /\ rt_TokenHash t' = rt_TokenHash t /\
     (rt_RevokedAt t <> None -> rt_RevokedAt t' <> None)) ->
  auth_inv us ul (set_tokens db ts).
Proof.
  intros Hdb Hch. destruct Hdb. split; simpl; try done.
  - apply (keyed_changed _ _ _ _ ai_tokens0). intros k t' (t & ? & ? & ? & _)%Hch. eauto.
  - intros k t' (t & Ht & _ & -> & Hr)%Hch Hused. eauto.
Qed.

Lemma inv_new_token db t :
  auth_inv us ul db -> no_row (has_hash (rt_TokenHash t)) (au_tokens db) = true ->
  ~ us (rt_TokenHash t) -> auth_inv us ul (set_tokens db (<[rt_ID t := t]> (au_tokens db))).
Proof.
  rewrite no_row_spec. intros Hdb Hrow Hnew. destruct Hdb. split; simpl; try done.
  - apply keyed_insert; [done |]. intros k w Hw. by apply Hrow, bool_decide_eq_false in Hw.
  - intros k w [[<- <-] | [_ Hw]]%lookup_insert_Some; eauto.
Qed.

Lemma inv_new_link db v :
  auth_inv us ul db -> no_row (ev_has_hash (ev_TokenHash v)) (au_verifications db) = true ->
  ~ ul (ev_TokenHash v) ->
  auth_inv us ul (set_verifications db (<[ev_ID v := v]> (au_verifications db))).
Proof.
  rewrite no_row_spec. intros Hdb Hrow Hnew. destruct Hdb. split; simpl; try done.
  - apply keyed_insert; [done |]. intros k w Hw. by apply Hrow, bool_decide_eq_false in Hw.
  - intros k w [[<- <-] | [_ Hw]]%lookup_insert_Some; eauto.
Qed.

Lemma inv_drop_link db id :
  auth_inv us ul db -> auth_inv us ul (set_verifications db (delete id (au_verifications db))).
Proof.
  intros []. split; simpl; try done; [by apply keyed_delete |].
  intros k v [_ Hv]%lookup_delete_Some. eauto.
Qed.

End Tables.

(** ** Every statement keeps it *)

Lemma keeps_on_authdb {A} (P : authdb -> Prop) (m : M authdb auth_error A) :
  keeps P m -> keeps (fun st => P (as_db st)) (on_authdb m).
Proof. intros Hm st Hst. unfold on_authdb. specialize (Hm _ Hst). by destruct (m (as_db st)). Qed.

Lemma keeps_publish (P : authdb -> Prop) env ev : keeps (fun st => P (as_db st)) (publish env ev).
Proof. by intros st Hst. Qed.

Section Statements.
Context (us ul : string -> Prop).
Notation Inv := (auth_inv us ul).

Lemma keeps_CreateUser io u : keeps Inv (CreateUser io u).
Proof.
  intros db Hdb. unfold CreateUser, failed_unique, failed. repeat case_match; simpl; try done.
  apply inv_users; [done |]. apply id_insert, (ai_users _ _ _ Hdb).
Qed.

Lemma keeps_UpdateUser io u : keeps Inv (UpdateUser io u).
Proof.
  intros db Hdb. unfold UpdateUser, failed.
  pose proof (id_update u_ID (au_users db) (u_ID u) (fun _ => true) (written_back u)
    (fun _ => eq_refl) (ai_users _ _ _ Hdb)) as Hup.
  destruct (update_key _ _ _ _) as [users n].
  repeat case_match; simpl; try done; by apply inv_users.
Qed.

Lemma keeps_CreateIdentity io i : keeps Inv (CreateIdentity io i).
Proof.
  intros db Hdb. unfold CreateIdentity, failed_unique, failed. repeat case_match; simpl; try done.
  apply inv_identities; [done |]. apply id_insert, (ai_identities _ _ _ Hdb).
Qed.

Lemma keeps_UpdateLastLogin io now id : keeps Inv (UpdateLastLogin io now id).
Proof.
  apply keeps_statement. intros db Hdb. apply inv_identities; [done |].
  by apply id_update, (ai_identities _ _ _ Hdb).
Qed.

Lemma keeps_CreateRefreshToken io t : ~ us (rt_TokenHash t) -> keeps Inv (CreateRefreshToken io t).
Proof.
  intros Hnew. apply keeps_statement. intros db Hdb. unfold failed.
  destruct (no_row (has_hash (rt_TokenHash t)) (au_tokens db)) eqn:Hrow;
    repeat case_match; simpl; try done. by apply inv_new_token.
Qed.

Lemma keeps_RevokeRefreshToken io now id by_ : keeps Inv (RevokeRefreshToken io now id by_).
Proof.
  apply keeps_statement. intros db Hdb. case_match; [done |]. simpl.
  apply inv_tokens; [done |]. intros k t' Ht'.
  destruct (update_key_cases id (fun _ => true) (revoked now by_) (au_tokens db))
    as [(t & Ht & _ & E) | [_ E]]; rewrite E in Ht'; simpl in Ht'; [| naive_solver].
  apply lookup_insert_Some in Ht' as [[<- <-] | [_ Ht']]; naive_solver.
Qed.

Lemma keeps_RevokeAllUserTokens io now u : keeps Inv (RevokeAllUserTokens io now u).
Proof.
  apply keeps_statement. intros db Hdb. apply inv_tokens; [done |].
  intros k t'. rewrite lookup_update_where.
  destruct (au_tokens db !! k) as [t |]; simpl; [| done]. intros [= <-].
  exists t. by destruct (live_token_of u t).
Qed.

Lemma keeps_CleanupExpiredTokens io now : keeps Inv (CleanupExpiredTokens io now).
Proof.
  apply keeps_statement. intros db Hdb. apply inv_tokens; [done |].
  intros k t'. rewrite lookup_fmap_Some. intros (t & <- & [Ht _]%map_lookup_filter_Some).
  by exists t.
Qed.

Lemma keeps_CreateEmailVerificationToken io now fresh u hash :
  ~ ul hash -> keeps Inv (CreateEmailVerificationToken io now fresh u hash).
Proof.
  intros Hnew. apply keeps_statement. intros db Hdb. unfold failed.
  destruct (no_row (ev_has_hash hash) (au_verifications db)) eqn:Hrow;
    repeat case_match; simpl; try done.
  by apply (inv_new_link us ul db (mkEmailVerificationToken fresh u hash now)).
Qed.

Lemma keeps_DeleteEmailVerificationTokenByID io id : keeps Inv (DeleteEmailVerificationTokenByID io id).
Proof.
  apply keeps_statement. intros db Hdb. pose proof (inv_drop_link _ _ _ id Hdb). by repeat case_match.
Qed.
End Statements.

Lemma readonly_GetUserByID io id : readonly (GetUserByID io id).
Proof. apply readonly_select. Qed.
Lemma readonly_GetUserByHandle io h : readonly (GetUserByHandle io h).
Proof. apply readonly_select. Qed.
Lemma readonly_GetUserByEmail io e : readonly (GetUserByEmail io e).
Proof. apply readonly_select. Qed.
Lemma readonly_GetIdentity io p s : readonly (GetIdentityByProviderAndSubject io p s).
Proof. apply readonly_select. Qed.
Lemma readonly_GetRefreshTokenByHash io h : readonly (GetRefreshTokenByHash io h).
Proof. apply readonly_select. Qed.
Lemma readonly_GetVerification io h : readonly (GetEmailVerificationTokenByHash io h).
Proof. apply readonly_select. Qed.

Lemma readonly_lookup_user what m : readonly m -> readonly (lookup_user what m).
Proof.
  intros Hm. apply readonly_bind; [by apply readonly_attempt | intros [u | e]]; [done |].
  by case_match.
Qed.

Lemma readonly_sign env u : readonly (sign jm env u).
Proof. unfold sign. by case_match. Qed.

(** A random token outside [used] is all that is known of it. *)
Lemma keeps_random_token {B} used what env (P : authdb -> Prop) (k : string -> M authdb auth_error B) :
  draws_outside used env -> (forall t, ~ used (hashToken t) -> keeps P (k t)) ->
  keeps P (random_token what env ≫= k).
Proof.
  intros Hd Hk db Hdb. unfold random_token. destruct (an_token env) as [t | e] eqn:E; [| done].
  apply Hk; [by apply Hd | done].
Qed.
End AuthFacts.

#[export] Hint Resolve keeps_on_authdb keeps_publish keeps_CreateUser keeps_UpdateUser
  keeps_CreateIdentity keeps_UpdateLastLogin keeps_CreateRefreshToken keeps_RevokeRefreshToken
  keeps_RevokeAllUserTokens keeps_CleanupExpiredTokens keeps_CreateEmailVerificationToken
  keeps_DeleteEmailVerificationTokenByID readonly_GetUserByID readonly_GetUserByHandle
  readonly_GetUserByEmail readonly_GetIdentity readonly_GetRefreshTokenByHash
  readonly_GetVerification readonly_lookup_user readonly_sign : capstone.

(** Follow the structure of an operation that keeps an invariant. *)
Ltac keeping :=
  repeat first
    [ progress simpl
    | eapply keeps_random_token; [eassumption | intros ? ?]
    | apply keeps_bind; [| intros ?]
    | apply keeps_map_err
    | apply keeps_attempt
    | case_match
    | solve [eauto with capstone] ].

Section Kept.
Context `{DbLower} `{Bcrypt} `{AuthCrypto} `{GoURL}.
Context (jm : JWTManager) (frontendURL : string).
Context (us ul : string -> Prop).
Notation used := (fun h => us h \/ ul h).
Notation Inv := (auth_inv us ul).

Lemma Register_keeps env req :
  draws_outside used env -> keeps (fun st => Inv (as_db st)) (Register frontendURL env req).
Proof.
  intros Hd. apply keeps_bind; [apply keeps_on_authdb | intros ?; apply keeps_publish].
  unfold register_account. keeping.
Qed.

Lemma Login_keeps env email password :
  draws_outside used env -> keeps Inv (Login jm env email password).
Proof. intros Hd. unfold Login, generateAuthResponse. keeping. Qed.

Lemma exchange_keeps env old user :
  draws_outside used env -> keeps Inv (exchange_refresh_token jm env old user).
Proof. intros Hd. unfold exchange_refresh_token. keeping. Qed.

Lemma RefreshToken_keeps env token :
  draws_outside used env -> keeps Inv (RefreshToken_ jm env token).
Proof.
  intros Hd. apply keeps_bind; [unfold usable_refresh_token; keeping |].
  intros su. by apply exchange_keeps.
Qed.

Lemma Logout_keeps env token : keeps Inv (Logout env token).
Proof. unfold Logout. keeping. Qed.

Lemma VerifyEmail_keeps env token :
  draws_outside used env -> keeps (fun st => Inv (as_db st)) (VerifyEmail frontendURL env token).
Proof.
  intros Hd. unfold VerifyEmail. keeping; apply keeps_on_authdb; unfold resend, consume; keeping.
Qed.

(** Every call that draws its token outside the used hashes keeps it. *)
Lemma serve_keeps c st :
  avoids used c -> Inv (as_db st) -> Inv (as_db (serve jm frontendURL c st)).
Proof.
  intros Hd. destruct c; simpl in *.
  - by apply Register_keeps.
  - by apply keeps_on_authdb, Login_keeps.
  - by apply keeps_on_authdb, RefreshToken_keeps.
  - by apply keeps_on_authdb, Logout_keeps.
  - by apply VerifyEmail_keeps.
  - by apply keeps_on_authdb, keeps_RevokeAllUserTokens.
  - by apply keeps_on_authdb, keeps_CleanupExpiredTokens.
Qed.

Lemma serve_all_keeps cs st :
  Forall (avoids used) cs -> Inv (as_db st) -> Inv (as_db (serve_all jm frontendURL cs st)).
Proof.
  intros Hcs. revert st. induction Hcs as [| c cs Hc _ IH]; intros st Hst; [done |].
  apply IH. by apply serve_keeps.
Qed.
End Kept.

(** Nothing is used: the invariant of every reachable database. *)
Definition unused : string -> Prop := fun _ => False.

Lemma draws_unused `{AuthCrypto} env : draws_outside (fun h => unused h \/ unused h) env.
Proof. unfold draws_outside, unused. naive_solver. Qed.

Lemma avoids_unused `{AuthCrypto} cs : Forall (avoids (fun h => unused h \/ unused h)) cs.
Proof.
  apply Forall_true. intros c. unfold avoids. case_match; [apply draws_unused | done].
Qed.

Lemma avoids_left `{AuthCrypto} (P : string -> Prop) cs :
  Forall (avoids P) cs -> Forall (avoids (fun h => P h \/ unused h)) cs.
Proof.
  intros Hcs. apply (Forall_impl _ _ _ Hcs). intros c.
  unfold avoids, draws_outside, unused. case_match; naive_solver.
Qed.

Lemma avoids_right `{AuthCrypto} (P : string -> Prop) cs :
  Forall (avoids P) cs -> Forall (avoids (fun h => unused h \/ P h)) cs.
Proof.
  intros Hcs. apply (Forall_impl _ _ _ Hcs). intros c.
  unfold avoids, draws_outside, unused. case_match; naive_solver.
Qed.

Lemma reachable_inv `{DbLower} `{Bcrypt} `{AuthCrypto} `{GoURL} jm frontendURL cs :
  auth_inv unused unused (as_db (serve_all jm frontendURL cs empty_auth)).
Proof. apply serve_all_keeps; [apply avoids_unused | apply auth_inv_empty]. Qed.
