(* ===== verification/AuthAccounts.v ===== *)
(** * Auth: accounts are told apart

    Handles, e-mail addresses and identities are unique in every state the
    service can reach, handles and addresses up to case. *)

From S2P Require Import Prelude Sql GoStrings AuthRepo AuthService AuthFacts.

Section Accounts.
Context `{DbLower} `{Bcrypt} `{AuthCrypto} `{GoURL}.
Context (jm : JWTManager) (frontendURL : string).
Implicit Types (db : authdb).

Definition handle_key (u : User) : string := db_lower (u_Handle u).
Definition subject_key (i : AuthIdentity) : string * string := (id_Provider i, id_ProviderSubject i).

Record accounts_unique db : Prop := {
  un_handles : keyed u_ID handle_key (au_users db);
  un_emails k u k' u' e : au_users db !! k = Some u -> au_users db !! k' = Some u' ->
    u_Email u' = Some e -> same_email e u = true -> k = k';
  un_subjects : keyed id_ID subject_key (au_identities db)
}.

Lemma same_email_spec e u :
  same_email e u = true <-> exists e', u_Email u = Some e' /\ db_lower e' = db_lower e.
Proof. unfold same_email. destruct (u_Email u); rewrite ?bool_decide_eq_true; naive_solver. Qed.

(** ** Every statement keeps it *)

(** A row that no other row conflicts with. *)
Definition fits (users : gmap uuid User) (u : User) : Prop :=
  forall k w, users !! k = Some w -> k <> u_ID u ->
    same_handle (u_Handle u) w = false /\ shares_email (u_Email u) w = false.

Lemma unique_insert db u :
  accounts_unique db -> fits (au_users db) u ->
  accounts_unique (set_users db (<[u_ID u := u]> (au_users db))).
Proof.
  intros [Hh He Hs] Hfit. split; simpl; [| | done].
  - split.
    + intros k w [[<- <-] | [_ Hw]]%lookup_insert_Some; [done | by apply (keyed_key _ _ _ Hh)].
    + intros k w k' w' [[<- <-] | [Hne Hw]]%lookup_insert_Some
        [[<- <-] | [Hne' Hw']]%lookup_insert_Some Heq; [done | | |].
      * destruct (Hfit k' w' Hw' (not_eq_sym Hne')) as [Hno%bool_decide_eq_false _].
        destruct Hno. by symmetry.
      * destruct (Hfit k w Hw (not_eq_sym Hne)) as [Hno%bool_decide_eq_false _]. by destruct Hno.
      * by apply (keyed_unique _ _ _ Hh k w k' w').
  - intros k w k' w' e [[<- <-] | [Hne Hw]]%lookup_insert_Some
      [[<- <-] | [Hne' Hw']]%lookup_insert_Some Hmail Hsame; [done | | | by apply (He k w k' w' e)].
    + destruct (Hfit k' w' Hw' (not_eq_sym Hne')) as [_ Hno].
      apply same_email_spec in Hsame as (e' & Hu & Heq). unfold shares_email in Hno. rewrite Hu in Hno.
      assert (same_email e' w' = true) as Hyes by (apply same_email_spec; eauto). congruence.
    + destruct (Hfit k w Hw (not_eq_sym Hne)) as [_ Hno]. unfold shares_email in Hno.
      rewrite Hmail in Hno. congruence.
Qed.

Lemma unique_identity db i :
  accounts_unique db ->
  no_row (of_provider (id_Provider i) (id_ProviderSubject i)) (au_identities db) = true ->
  accounts_unique (set_identities db (<[id_ID i := i]> (au_identities db))).
Proof.
  rewrite no_row_spec. intros [Hh He Hs] Hrow. split; simpl; [done | done |].
  apply keyed_insert; [done |]. intros k w Hw [= Hp Hsub]. specialize (Hrow k w Hw).
  unfold of_provider in Hrow. by rewrite Hp, Hsub, !bool_decide_eq_true_2 in Hrow.
Qed.

Lemma CreateUser_unique io u : keeps accounts_unique (CreateUser io u).
Proof.
  intros db Hdb. unfold CreateUser, failed_unique, failed.
  destruct (no_row (same_handle (u_Handle u)) (au_users db)) eqn:Hh;
  destruct (no_row (shares_email (u_Email u)) (au_users db)) eqn:He;
    repeat case_match; simpl; try done.
  rewrite no_row_spec in Hh, He. apply unique_insert; [done |]. intros k w Hw _. eauto.
Qed.

Lemma UpdateUser_unique io u : keeps accounts_unique (UpdateUser io u).
Proof.
  intros db Hdb. unfold UpdateUser, failed. destruct (io 0%nat); [done |].
  destruct (taken_by_other db (u_ID u) (same_handle (u_Handle u))) eqn:Hh; [by repeat case_match |].
  destruct (taken_by_other db (u_ID u) (shares_email (u_Email u))) eqn:He; [by repeat case_match |].
  assert (accounts_unique (set_users db
    (update_key (u_ID u) (fun _ => true) (written_back u) (au_users db)).1)) as Hup.
  { destruct (update_key_cases (u_ID u) (fun _ => true) (written_back u) (au_users db))
      as [(v & Hv & _ & ->) | [_ ->]]; [| by destruct db]. simpl.
    pose proof (keyed_key _ _ _ (un_handles _ Hdb) _ _ Hv) as Hid.
    apply (unique_insert db (written_back u v)) in Hdb as Hins; [by rewrite <- Hid |]. intros k w Hw Hne.
    simpl in Hne. rewrite Hid in Hne. revert Hh He. unfold taken_by_other.
    rewrite Hv, bool_decide_eq_true_2 by done. simpl. rewrite !negb_false_iff, !no_row_spec.
    intros Hh He. specialize (Hh k w Hw). specialize (He k w Hw). unfold other_than in Hh, He.
    rewrite (keyed_key _ _ _ (un_handles _ Hdb) _ _ Hw), bool_decide_eq_false_2 in Hh, He by done.
    done. }
  destruct (update_key _ _ _ _) as [users n]. by repeat case_match.
Qed.

Lemma CreateIdentity_unique io i : keeps accounts_unique (CreateIdentity io i).
Proof.
  intros db Hdb. unfold CreateIdentity, failed_unique, failed.
  destruct (no_row (of_provider (id_Provider i) (id_ProviderSubject i)) (au_identities db)) eqn:Hrow;
    repeat case_match; simpl; try done. by apply unique_identity.
Qed.

Lemma UpdateLastLogin_unique io now id : keeps accounts_unique (UpdateLastLogin io now id).
Proof.
  apply keeps_statement. intros db [Hh He Hs]. split; simpl; [done | done |].
  apply keyed_update_key; [by intros v; split | done].
Qed.

(** Changes of the other two tables. *)
Lemma unique_tables db db' :
  au_users db' = au_users db -> au_identities db' = au_identities db ->
  accounts_unique db -> accounts_unique db'.
Proof. intros Hu Hi [Hh He Hs]. split; by rewrite ?Hu, ?Hi. Qed.

Lemma CreateRefreshToken_unique io t : keeps accounts_unique (CreateRefreshToken io t).
Proof. apply keeps_statement. intros db. unfold failed. apply unique_tables; by repeat case_match. Qed.

Lemma RevokeRefreshToken_unique io now id by_ : keeps accounts_unique (RevokeRefreshToken io now id by_).
Proof. apply keeps_statement. intros db. unfold failed. apply unique_tables; by repeat case_match. Qed.

Lemma CreateLink_unique io now fresh u h : keeps accounts_unique (CreateEmailVerificationToken io now fresh u h).
Proof. apply keeps_statement. intros db. unfold failed. apply unique_tables; by repeat case_match. Qed.

Lemma DropLink_unique io id : keeps accounts_unique (DeleteEmailVerificationTokenByID io id).
Proof. apply keeps_statement. intros db. unfold failed. apply unique_tables; by repeat case_match. Qed.

#[local] Hint Resolve CreateUser_unique UpdateUser_unique CreateIdentity_unique UpdateLastLogin_unique
  CreateRefreshToken_unique RevokeRefreshToken_unique CreateLink_unique DropLink_unique : capstone.

Lemma serve_unique c st :
  accounts_unique (as_db st) -> accounts_unique (as_db (serve jm frontendURL c st)).
Proof.
  assert (forall env, draws_outside (fun _ => False) env) as Hany by by intros env t _ [].
  intros Hst. destruct c; simpl; try specialize (Hany env).
  - revert st Hst. change (keeps (fun st => accounts_unique (as_db st)) (Register frontendURL env req)).
    apply keeps_bind; [apply keeps_on_authdb | intros ?; apply keeps_publish].
    unfold register_account. keeping.
  - revert Hst. apply keeps_on_authdb. unfold Login, generateAuthResponse. keeping.
  - revert Hst. apply keeps_on_authdb. unfold RefreshToken_, usable_refresh_token, exchange_refresh_token. keeping.
  - revert Hst. apply keeps_on_authdb. unfold Logout. keeping.
  - revert st Hst. change (keeps (fun st => accounts_unique (as_db st)) (VerifyEmail frontendURL env token)).
    unfold VerifyEmail. keeping; apply keeps_on_authdb; unfold resend, consume; keeping.
  - revert Hst. by apply keeps_on_authdb, keeps_statement; intros db; apply unique_tables.
  - revert Hst. by apply keeps_on_authdb, keeps_statement; intros db; apply unique_tables.
Qed.

Lemma reachable_unique cs : accounts_unique (as_db (serve_all jm frontendURL cs empty_auth)).
Proof.
  assert (forall st, accounts_unique (as_db st) -> accounts_unique (as_db (serve_all jm frontendURL cs st)))
    as Hall.
  { induction cs as [| c cs IH]; intros st Hst; [done |]. by apply IH, serve_unique. }
  apply Hall. split; [apply keyed_empty | | apply keyed_empty].
  intros k u k' u' e. cbn. by rewrite lookup_empty.
Qed.

(** ** Looking accounts up *)

Lemma GetUserByHandle_found io db k u handle :
  accounts_unique db -> io 0%nat = None -> au_users db !! k = Some u -> same_handle handle u = true ->
  GetUserByHandle io handle db = (db, Ok u).
Proof.
  intros Hdb Hio Hu Hh. unfold GetUserByHandle, statement, select_one. rewrite Hio.
  rewrite (select_only _ _ _ _ Hu Hh); [done |]. intros k' w Hw Hh'.
  apply (keyed_unique _ _ _ (un_handles _ Hdb) _ _ _ _ Hw Hu).
  apply bool_decide_eq_true in Hh, Hh'. unfold handle_key. congruence.
Qed.

Lemma GetUserByEmail_found io db k u email :
  accounts_unique db -> io 0%nat = None -> au_users db !! k = Some u -> same_email email u = true ->
  GetUserByEmail io email db = (db, Ok u).
Proof.
  intros Hdb Hio Hu He. unfold GetUserByEmail, statement, select_one. rewrite Hio.
  rewrite (select_only _ _ _ _ Hu He); [done |]. intros k' w Hw He'.
  pose proof He as (e & Hmail & Heq)%same_email_spec. pose proof He' as (e' & Hmail' & Heq')%same_email_spec.
  apply (un_emails _ Hdb k' w k u e Hw Hu Hmail). apply same_email_spec. exists e'. split; [done | congruence].
Qed.

(** What a lookup that no fault disturbs tells. *)
Lemma lookup_user_cases what (m : M authdb auth_error User) db :
  (exists r, m db = (db, r)) ->
  (exists u, (m db).2 = Ok u) \/ (m db).2 = Err (Sentinel ErrUserNotFound) ->
  (exists u, m db = (db, Ok u) /\ lookup_user what m db = (db, Ok (Some u))) \/
  (m db = (db, Err (Sentinel ErrUserNotFound)) /\ lookup_user what m db = (db, Ok None)).
Proof.
  intros [r Hr] Hcase. unfold lookup_user, mbind, M_bind, attempt. rewrite Hr in *. simpl in Hcase.
  destruct Hcase as [[u ->] | ->]; [left | right]; eauto.
Qed.

(** C29. Accounts are told apart.  In every state the service can reach no
    two users have the same handle or the same e-mail address, up to case,
    and no two identities the same provider and subject; so a handle or an
    address in any case finds the one user that has it, and a registration
    with a handle or an address that is taken is refused and changes
    nothing. *)
Theorem accounts_are_told_apart cs k u :
  let st := serve_all jm frontendURL cs empty_auth in
  let db := as_db st in
  au_users db !! k = Some u ->
  accounts_unique db /\
  (forall handle, same_handle handle u = true -> GetUserByHandle no_faults handle db = (db, Ok u)) /\
  (forall email, same_email email u = true -> GetUserByEmail no_faults email db = (db, Ok u)) /\
  (forall env req, an_io env = no_faults ->
     same_handle (rq_Handle req) u = true \/ same_email (rq_Email req) u = true ->
     Register frontendURL env req st = (st, Err (Sentinel ErrUserAlreadyExists))).
Proof.
  intros st db Hu. pose proof (reachable_unique cs) as Hdb. fold st db in Hdb. split_and!; [done | | |].
  - intros handle. by apply GetUserByHandle_found with k.
  - intros email. by apply GetUserByEmail_found with k.
  - intros env req Hio Htaken.
    assert (register_account env req db = (db, Err (Sentinel ErrUserAlreadyExists))) as Hreg.
    { unfold register_account. rewrite Hio.
      destruct (lookup_user_cases "check existing user" (GetUserByEmail no_faults (rq_Email req)) db)
        as [(w & _ & Hl) | [He Hl]]; [eexists; reflexivity | unfold GetUserByEmail, statement, select_one; simpl;
          case_match; eauto | by unfold mbind, M_bind; rewrite Hl |].
      unfold mbind at 1, M_bind at 1. rewrite Hl. destruct Htaken as [Hh | Hm].
      - destruct (lookup_user_cases "check existing handle"
                    (GetUserByHandle (shift_faults 1 no_faults) (rq_Handle req)) db)
          as [(w & _ & Hl') | [He' _]]; [eexists; reflexivity | unfold GetUserByHandle, statement, select_one; simpl;
            case_match; eauto | by unfold mbind, M_bind; rewrite Hl' |].
        by rewrite (GetUserByHandle_found _ _ _ _ _ Hdb eq_refl Hu Hh) in He'.
      - by rewrite (GetUserByEmail_found _ _ _ _ _ Hdb eq_refl Hu Hm) in He. }
    unfold Register, mbind, M_bind, on_authdb. fold db. rewrite Hreg. by destruct st.
Qed.
End Accounts.
