(* ===== verification/AuthTheorems.v ===== *)
(** * Auth: theorems

    Sessions and verification links: who gets a session, that refresh tokens
    and links work once, and that the middlewares recognise the access tokens
    the service hands out. *)

From S2P Require Import Prelude Sql GoStrings AuthRepo AuthService AuthFacts.


Section AuthTheorems.
Context `{DbLower} `{Bcrypt} `{AuthCrypto} `{GoURL}.
Context (jm : JWTManager) (frontendURL : string).

Implicit Types (db : authdb) (env : auth_env).

Lemma random_token_ok what env db db' t :
  random_token what env db = (db', Ok t) <-> an_token env = Ok t /\ db' = db.
Proof. unfold random_token. case_match; mrun; naive_solver. Qed.

Lemma sign_ok env u db db' t : sign jm env u db = (db', Ok t) <->
  GenerateAccessToken jm (an_clock env) (u_ID u) (u_Handle u) (permission_keys env) = Ok t /\ db' = db.
Proof. unfold sign. case_match; mrun; naive_solver. Qed.

Lemma lift_ok {A} (r : result auth_error A) db db' a : lift r db = (db', Ok a) <-> r = Ok a /\ db' = db.
Proof. unfold lift. naive_solver. Qed.

Lemma GetUserByID_ok io id db db' u :
  GetUserByID io id db = (db', Ok u) <-> io 0%nat = None /\ au_users db !! id = Some u /\ db' = db.
Proof. unfold GetUserByID. rewrite statement_ok. case_match; naive_solver. Qed.

Lemma GetRefreshTokenByHash_ok io h db db' t :
  GetRefreshTokenByHash io h db = (db', Ok t) ->
  db' = db /\ rt_TokenHash t = h /\ exists k, au_tokens db !! k = Some t.
Proof.
  unfold GetRefreshTokenByHash. rewrite statement_ok. intros [_ [= <- Ht]].
  apply select_one_ok in Ht as [Ht%bool_decide_eq_true Hk]. done.
Qed.

Lemma CreateRefreshToken_ok io t db db' :
  CreateRefreshToken io t db = (db', Ok tt) ->
  au_tokens db !! rt_ID t = None /\
  (forall k w, au_tokens db !! k = Some w -> rt_TokenHash w <> rt_TokenHash t) /\
  db' = set_tokens db (<[rt_ID t := t]> (au_tokens db)).
Proof.
  unfold CreateRefreshToken. rewrite statement_ok. unfold failed. intros [_ Hc].
  destruct (bool_decide (au_tokens db !! rt_ID t = None)) eqn:E; [| done].
  destruct (no_row (has_hash (rt_TokenHash t)) (au_tokens db)) eqn:Hn; [| done].
  rewrite bool_decide_eq_true in E. rewrite no_row_spec in Hn.
  repeat case_match; simplify_eq/=. split_and!; [done | | done]. intros k w Hw.
  specialize (Hn k w Hw). by apply bool_decide_eq_false in Hn.
Qed.

Lemma RevokeRefreshToken_ok io now id by_ db db' t :
  RevokeRefreshToken io now id by_ db = (db', Ok tt) -> au_tokens db !! id = Some t ->
  db' = set_tokens db (<[id := revoked now by_ t]> (au_tokens db)).
Proof.
  unfold RevokeRefreshToken. rewrite statement_ok. unfold failed. intros [_ Hr] Ht.
  rewrite (update_key_hit id (fun _ => true) (revoked now by_) _ t Ht eq_refl) in Hr.
  by repeat case_match; simplify_eq/=.
Qed.

(** ** Exchanging a refresh token *)

Lemma check_refresh_token_ok clock t :
  check_refresh_token clock t = Ok tt <-> rt_RevokedAt t = None /\ clock <= rt_ExpiresAt t.
Proof.
  unfold check_refresh_token. destruct (rt_RevokedAt t); [naive_solver |].
  destruct (Z.ltb_spec (rt_ExpiresAt t) clock); naive_solver lia.
Qed.

Lemma usable_refresh_token_ok env token db db' su :
  usable_refresh_token env token db = (db', Ok su) ->
  db' = db /\ rt_TokenHash su.1 = hashToken token /\ (exists k, au_tokens db !! k = Some su.1) /\
  check_refresh_token (an_clock env) su.1 = Ok tt /\
  au_users db !! rt_UserID su.1 = Some su.2 /\ may_have_session su.2 = Ok tt.
Proof.
  unfold usable_refresh_token. rewrite bind_ok. intros (d1 & old & Hg & Hk).
  rewrite map_err_ok in Hg. apply GetRefreshTokenByHash_ok in Hg as (-> & ? & ?).
  rewrite bind_ok in Hk. destruct Hk as (d2 & [] & [? ->]%lift_ok & Hk).
  rewrite bind_ok in Hk. destruct Hk as (d3 & user & Hu & Hk).
  rewrite map_err_ok, GetUserByID_ok in Hu. destruct Hu as (_ & ? & ->).
  rewrite bind_ok in Hk. destruct Hk as (d4 & [] & [? ->]%lift_ok & [= <- <-]). done.
Qed.

Lemma exchange_refresh_token_ok env old user db db' resp :
  au_tokens db !! rt_ID old = Some old ->
  exchange_refresh_token jm env old user db = (db', Ok resp) ->
  au_tokens db !! an_id1 env = None /\ hashToken (ar_RefreshToken resp) <> rt_TokenHash old /\
  db' = set_tokens db
    (<[rt_ID old := revoked (an_now env) (Some (an_id1 env)) old]>
      (<[an_id1 env := new_refresh_token jm env (u_ID user) (rt_AuthIdentityID old)
                         (ar_RefreshToken resp)]> (au_tokens db))) /\
  ar_User resp = user /\ an_token env = Ok (ar_RefreshToken resp) /\
  GenerateAccessToken jm (an_clock env) (u_ID user) (u_Handle user) (permission_keys env)
    = Ok (ar_AccessToken resp).
Proof.
  intros Hold. unfold exchange_refresh_token. rewrite bind_ok.
  intros (d1 & t & [Ht ->]%random_token_ok & Hk).
  rewrite bind_ok_unit in Hk. destruct Hk as (d2 & Hc & Hk).
  rewrite map_err_ok in Hc. apply CreateRefreshToken_ok in Hc as (Hfresh & Hother & ->).
  rewrite bind_ok_unit in Hk. destruct Hk as (d3 & Hr & Hk). simpl in Hfresh.
  rewrite map_err_ok in Hr. apply (RevokeRefreshToken_ok _ _ _ _ _ _ old) in Hr as ->.
  2: { simpl. rewrite lookup_insert_ne; [done |]. intros E. congruence. }
  rewrite bind_ok in Hk. destruct Hk as (d4 & a & [Ha ->]%sign_ok & [= <- <-]).
  split_and!; try done. intros Heq. by apply (Hother _ _ Hold).
Qed.

(** An exchange uses its token up: of the hashes that count as used, now
    with this one, every stored row is revoked. *)
Lemma RefreshToken_uses_up us ul env token db db' resp :
  auth_inv us ul db -> draws_outside (fun h => us h \/ ul h) env ->
  RefreshToken_ jm env token db = (db', Ok resp) ->
  auth_inv (fun h => us h \/ h = hashToken token) ul db'.
Proof.
  intros Hdb Hd Hr. pose proof (RefreshToken_keeps jm us ul env token Hd db Hdb) as Hnew.
  rewrite Hr in Hnew. unfold RefreshToken_ in Hr. rewrite bind_ok in Hr.
  destruct Hr as (d1 & [old user] & Hu & Hx).
  apply usable_refresh_token_ok in Hu as (-> & Hhash & [k Hk] & _). simpl in *.
  assert (rt_ID old = k) as <- by apply (keyed_key _ _ _ (ai_tokens _ _ _ Hdb) _ _ Hk).
  pose proof (exchange_refresh_token_ok _ _ _ _ _ _ Hk Hx) as (Hfresh & Hne & Hdb' & _ & _ & _).
  destruct Hnew as [N1 N2 N3 N4 N5 N6]. split; [done .. | | done].
  intros k t Ht [Hus | Hused]; [by eapply N5 |]. rewrite Hdb' in Ht. simpl in Ht.
  apply lookup_insert_Some in Ht as [[<- <-] | [Hneq [[<- <-] | [_ Ht]]%lookup_insert_Some]]; [done | |].
  - simpl in Hused. congruence.
  - destruct Hneq. apply (keyed_unique _ _ _ (ai_tokens _ _ _ Hdb) _ _ _ _ Hk Ht). congruence.
Qed.

(** So does a sign-out. *)
Lemma Logout_uses_up us ul env token db db' :
  auth_inv us ul db -> Logout env token db = (db', Ok tt) ->
  auth_inv (fun h => us h \/ h = hashToken token) ul db'.
Proof.
  intros Hdb Hl. pose proof (Logout_keeps us ul env token db Hdb) as Hnew. rewrite Hl in Hnew.
  destruct Hnew as [N1 N2 N3 N4 N5 N6]. split; [done .. | | done].
  intros k t Ht [Hus | Hused]; [by eapply N5 |]. unfold Logout in Hl.
  destruct (GetRefreshTokenByHash (an_io env) (hashToken token) db) as [d1 [old | e]] eqn:Hg; revert Hl; mrun;
    rewrite Hg; mrun.
  - apply GetRefreshTokenByHash_ok in Hg as (-> & Hh & [j Hj]). intros Hl.
    destruct (RevokeRefreshToken _ _ _ _ db) as [d2 [[] | e]] eqn:Hr; [| done]. injection Hl as ->.
    assert (rt_ID old = j) as <- by apply (keyed_key _ _ _ (ai_tokens _ _ _ Hdb) _ _ Hj).
    apply (RevokeRefreshToken_ok _ _ _ _ _ _ old) in Hr as ->; [| done]. simpl in *.
    apply lookup_insert_Some in Ht as [[<- <-] | [Hneq Ht]]; [done |].
    destruct Hneq. apply (keyed_unique _ _ _ (ai_tokens _ _ _ Hdb) _ _ _ _ Hj Ht). congruence.
  - pose proof (readonly_run _ _ _ _ (readonly_GetRefreshTokenByHash _ _) Hg) as ->.
    destruct (errors_Is e ErrRefreshTokenNotFound) eqn:He; [| done]. intros [= <-]. exfalso.
    unfold GetRefreshTokenByHash, statement, failed in Hg.
    destruct (an_io env 0%nat); [injection Hg as <-; done |]. injection Hg as Hg.
    unfold select_one in Hg. destruct (select_where _ _) as [| w l] eqn:Hs; [| done].
    assert (t ∈ select_where (has_hash (hashToken token)) (au_tokens db)) as Hin.
    { apply elem_of_select_where. split; [by apply bool_decide_eq_true | by exists k]. }
    rewrite Hs in Hin. by apply not_elem_of_nil in Hin.
Qed.

(** A token whose rows are all revoked cannot be used. *)
Lemma revoked_token_is_refused env token db :
  (forall k t, au_tokens db !! k = Some t -> hashToken token = rt_TokenHash t -> rt_RevokedAt t <> None) ->
  exists e, RefreshToken_ jm env token db = (db, Err e) /\
    (an_io env 0%nat = None ->
     e = Sentinel ErrRevokedRefreshToken \/ e = Sentinel ErrInvalidRefreshToken).
Proof.
  intros Hused. unfold RefreshToken_, usable_refresh_token, GetRefreshTokenByHash, statement, failed.
  mrun. destruct (an_io env 0%nat) as [f |]; [by eexists |].
  destruct (select_one (has_hash (hashToken token)) (au_tokens db) ErrRefreshTokenNotFound)
    as [t | e] eqn:E.
  - apply select_one_ok in E as [Hh%bool_decide_eq_true [k Hk]].
    specialize (Hused k t Hk (eq_sym Hh)). unfold check_refresh_token.
    destruct (rt_RevokedAt t); [| done]. eexists. split; [done | by left].
  - unfold select_one in E. destruct (select_where _ _); [| done]. injection E as <-.
    eexists. split; [done | by right].
Qed.

(** A refresh token buys one new session.  In any database the service
    has reached, a token that is exchanged belongs to a stored, unrevoked,
    unexpired row of a verified user who is not banned; the exchange stores
    the new token and revokes the row in its favour, and changes nothing
    else.  From then on, whatever calls are served (none of them drawing a
    token with the same hash), and whatever fails, the old token is refused
    and buys nothing. *)
Theorem refresh_tokens_are_single_use before env token db' resp after env' :
  let db := as_db (serve_all jm frontendURL before empty_auth) in
  RefreshToken_ jm env token db = (db', Ok resp) ->
  Forall (avoids (eq (hashToken token))) after ->
  (exists old user,
     au_tokens db !! rt_ID old = Some old /\ rt_TokenHash old = hashToken token /\
     rt_RevokedAt old = None /\ an_clock env <= rt_ExpiresAt old /\
     au_users db !! rt_UserID old = Some user /\ may_have_session user = Ok tt /\
     au_tokens db !! an_id1 env = None /\
     db' = set_tokens db
       (<[rt_ID old := revoked (an_now env) (Some (an_id1 env)) old]>
         (<[an_id1 env := new_refresh_token jm env (u_ID user) (rt_AuthIdentityID old)
                            (ar_RefreshToken resp)]> (au_tokens db)))) /\
  forall mail,
    let later := as_db (serve_all jm frontendURL after (mkAuth db' mail)) in
    exists e, RefreshToken_ jm env' token later = (later, Err e) /\
      (an_io env' 0%nat = None ->
       e = Sentinel ErrRevokedRefreshToken \/ e = Sentinel ErrInvalidRefreshToken).
Proof.
  intros db Hr Hafter. pose proof (reachable_inv jm frontendURL before) as Hdb. fold db in Hdb.
  pose proof Hr as Hr0.
  unfold RefreshToken_ in Hr. rewrite bind_ok in Hr. destruct Hr as (d1 & [old user] & Hu & Hx).
  apply usable_refresh_token_ok in Hu as (-> & Hhash & [k Hk] & [Hn Ht]%check_refresh_token_ok & Hus & Hmay).
  simpl in *. assert (rt_ID old = k) as <- by apply (keyed_key _ _ _ (ai_tokens _ _ _ Hdb) _ _ Hk).
  pose proof (exchange_refresh_token_ok _ _ _ _ _ _ Hk Hx) as (Hfresh & Hne & Hdb' & _ & _ & _).
  split; [by exists old, user |]. intros mail.
  apply revoked_token_is_refused, (ai_revoked _ unused).
  apply (serve_all_keeps jm frontendURL (eq (hashToken token)) unused after (mkAuth db' mail));
    [by apply avoids_left |].
  destruct (RefreshToken_uses_up unused unused env token db db' resp Hdb (draws_unused env) Hr0)
    as [N1 N2 N3 N4 N5 N6].
  split; [done .. | | done]. intros j w Hw Hused. apply (N5 j w Hw). by right.
Qed.

(** ** Signing in *)

Lemma GetIdentity_ok io p s db db' i :
  GetIdentityByProviderAndSubject io p s db = (db', Ok i) ->
  db' = db /\ of_provider p s i = true /\ exists k, au_identities db !! k = Some i.
Proof.
  unfold GetIdentityByProviderAndSubject. rewrite statement_ok. intros [_ [= <- Hi]].
  by apply select_one_ok in Hi.
Qed.

Lemma UpdateLastLogin_ok io now id db db' :
  UpdateLastLogin io now id db = (db', Ok tt) ->
  db' = set_identities db (update_key id (fun _ => true) (logged_in now) (au_identities db)).1.
Proof. unfold UpdateLastLogin. rewrite statement_ok. by intros [_ [= <-]]. Qed.

Lemma generateAuthResponse_ok env user id db db' resp :
  generateAuthResponse jm env user id db = (db', Ok resp) ->
  au_tokens db !! an_id1 env = None /\
  db' = set_tokens db (<[an_id1 env := new_refresh_token jm env (u_ID user) (Some id)
                                         (ar_RefreshToken resp)]> (au_tokens db)) /\
  ar_User resp = user /\
  GenerateAccessToken jm (an_clock env) (u_ID user) (u_Handle user) (permission_keys env)
    = Ok (ar_AccessToken resp).
Proof.
  unfold generateAuthResponse. rewrite bind_ok. intros (d1 & a & [Ha ->]%sign_ok & Hk).
  rewrite bind_ok in Hk. destruct Hk as (d2 & t & [Ht ->]%random_token_ok & Hk).
  rewrite bind_ok_unit in Hk. destruct Hk as (d3 & Hc & [= <- <-]).
  rewrite map_err_ok in Hc. by apply CreateRefreshToken_ok in Hc as (? & _ & ->).
Qed.

(** A failed sign-in leaves the users and the tokens as they were. *)
Lemma CreateRefreshToken_failed io t db db' e : CreateRefreshToken io t db = (db', Err e) -> db' = db.
Proof.
  unfold CreateRefreshToken. intros [(t' & _ & -> & _) | [_ Hc]]%statement_err; [done |].
  unfold failed in Hc. by repeat case_match; simplify_eq.
Qed.

Definition same_accounts (before after : authdb) : Prop :=
  au_users after = au_users before /\ au_tokens after = au_tokens before.

Lemma check_password_error identity password e :
  check_password identity password = Err e -> e = Sentinel ErrInvalidCredentials.
Proof. unfold check_password. intros Hp. by repeat case_match; simplify_eq. Qed.

(** The outcomes of a sign-in, by the first check that decides. *)
Lemma Login_failed env email password db db' e :
  Login jm env email password db = (db', Err e) -> same_accounts db db'.
Proof.
  unfold Login, generateAuthResponse, random_token, sign, same_accounts. mrun.
  intros Hl.
  pose proof (readonly_GetIdentity (an_io env) ProviderLocal email db) as Hi.
  destruct (GetIdentityByProviderAndSubject _ _ _ db) as [d1 [i | ?]]; simpl in Hi; subst;
    [| by simplify_eq].
  destruct (check_password i password) as [[] | ?]; [| by simplify_eq].
  pose proof (readonly_GetUserByID (shift_faults 1 (an_io env)) (id_UserID i) db) as Hu.
  destruct (GetUserByID _ _ db) as [d2 [u | ?]]; simpl in Hu; subst; [| by simplify_eq].
  destruct (may_have_session u) as [[] | ?]; [| by simplify_eq].
  destruct (UpdateLastLogin _ _ _ db) as [d3 [[] | ?]] eqn:El.
  - apply UpdateLastLogin_ok in El as ->.
    repeat case_match; simplify_eq; try done.
    match goal with Hc : CreateRefreshToken _ _ _ = _ |- _ =>
      by apply CreateRefreshToken_failed in Hc as -> end.
  - unfold UpdateLastLogin in El. apply statement_err in El as [(t & _ & -> & _) | [_ El]]; by simplify_eq.
Qed.

(** C25. Signing in gives a session exactly to who knows the password of an
    account that may have one.  A successful sign-in found a local identity
    of that e-mail whose password matches and whose user is verified and not
    banned, and stores one new refresh token of that user and identity, that
    expires after the configured time.  A failed one, wherever it failed,
    leaves users and tokens alone.  When no statement fails, the right
    password of such an account gets its session, and an unknown e-mail and a
    wrong password get the very same answer.  [db] is any database the service
    has reached. *)
Theorem login_grants_sessions before env email password :
  let db := as_db (serve_all jm frontendURL before empty_auth) in
  (forall db' resp, Login jm env email password db = (db', Ok resp) ->
     exists identity user,
       of_provider ProviderLocal email identity = true /\
       (exists k, au_identities db !! k = Some identity) /\
       check_password identity password = Ok tt /\
       au_users db !! id_UserID identity = Some user /\
       u_Status user = UserStatusActive /\ u_EmailVerified user = true /\
       ar_User resp = user /\ au_users db' = au_users db /\
       au_tokens db' = <[an_id1 env := mkRefreshToken (an_id1 env) (u_ID user) (Some (id_ID identity))
         (hashToken (ar_RefreshToken resp)) (an_clock env)
         (an_clock env + jm_refreshTokenDuration jm) None None]> (au_tokens db)) /\
  (forall db' e, Login jm env email password db = (db', Err e) -> same_accounts db db') /\
  (an_io env = no_faults ->
     match select_where (of_provider ProviderLocal email) (au_identities db) with
     | [] => Login jm env email password db = (db, Err (Sentinel ErrInvalidCredentials))
     | identity :: _ =>
         match check_password identity password, au_users db !! id_UserID identity with
         | Err _, _ => Login jm env email password db = (db, Err (Sentinel ErrInvalidCredentials))
         | Ok _, None => exists e, Login jm env email password db = (db, Err e)
         | Ok _, Some user =>
             match may_have_session user with
             | Err e => Login jm env email password db = (db, Err e)
             | Ok _ => forall access token,
                 GenerateAccessToken jm (an_clock env) (u_ID user) (u_Handle user)
                   (permission_keys env) = Ok access ->
                 an_token env = Ok token -> au_tokens db !! an_id1 env = None ->
                 no_row (has_hash (hashToken token)) (au_tokens db) = true ->
                 exists db', Login jm env email password db
                   = (db', Ok (mkAuthResponse access token (expires_in jm) user))
             end
         end
     end).
Proof.
  intros db. pose proof (reachable_inv jm frontendURL before) as Hdb. fold db in Hdb.
  clearbody db. split_and!.
  - intros db' resp Hl. unfold Login in Hl. rewrite bind_ok in Hl. destruct Hl as (d1 & i & Hi & Hk).
    rewrite map_err_ok in Hi. apply GetIdentity_ok in Hi as (-> & ? & ?).
    rewrite bind_ok in Hk. destruct Hk as (d2 & [] & [? ->]%lift_ok & Hk).
    rewrite bind_ok in Hk. destruct Hk as (d3 & u & Hu & Hk).
    rewrite map_err_ok, GetUserByID_ok in Hu. destruct Hu as (_ & ? & ->).
    rewrite bind_ok in Hk. destruct Hk as (d4 & [] & [Hmay ->]%lift_ok & Hk).
    rewrite bind_ok_unit in Hk. destruct Hk as (d5 & Hl & Hk).
    rewrite map_err_ok in Hl. apply UpdateLastLogin_ok in Hl as ->.
    apply generateAuthResponse_ok in Hk as (_ & -> & ? & _).
    unfold may_have_session in Hmay. exists i, u.
    destruct (u_Status u) eqn:?, (u_EmailVerified u) eqn:?; try done.
  - apply Login_failed.
  - intros Hio. unfold Login, generateAuthResponse, GetIdentityByProviderAndSubject, statement.
    rewrite Hio. unfold select_one. mrun. change (no_faults 0%nat) with (@None string). mrun.
    destruct (select_where (of_provider ProviderLocal email) (au_identities db))
      as [| i l] eqn:Hsel; [done |].
    assert (au_identities db !! id_ID i = Some i) as Hid.
    { assert (i ∈ select_where (of_provider ProviderLocal email) (au_identities db)) as Hin
        by (rewrite Hsel; apply list_elem_of_here).
      apply elem_of_select_where in Hin as (_ & k & Hk).
      by rewrite (ai_identities _ _ _ Hdb k i Hk). }
    clear Hsel. mrun. destruct (check_password i password) as [[] | e] eqn:Hp.
    2: { by apply check_password_error in Hp as ->. }
    unfold GetUserByID, statement, shift_faults, no_faults.
    destruct (au_users db !! id_UserID i) as [u |] eqn:Hu; [| by eexists].
    assert (au_users db !! u_ID u = Some u) as Huser by by rewrite (ai_users _ _ _ Hdb _ u Hu).
    destruct (may_have_session u) as [[] | e]; [| done].
    intros access token Ha Ht Hfresh Hrow.
    unfold UpdateLastLogin, CreateRefreshToken, statement, sign, random_token, shift_faults, no_faults.
    rewrite Ha, Ht. mrun. simpl. rewrite Hfresh, Hrow, Huser.
    rewrite (update_key_hit (id_ID i) (fun _ => true) _ _ i Hid eq_refl). simpl.
    rewrite lookup_insert_eq. by eexists.
Qed.

(** ** Access tokens *)

(** What the JWT library documents: a signed token parses to its claims while
    it is valid, is expired from its [exp] second on, and is made of base64
    and dots. *)
Class JwtLaws := {
  jwt_valid key claims now token :
    jwt_Sign key claims = Ok token ->
    tk_NotBefore claims * time_Second <= now < tk_ExpiresAt claims * time_Second ->
    jwt_Parse key now token = ParsedValid claims;
  jwt_expired key claims now token :
    jwt_Sign key claims = Ok token ->
    tk_NotBefore claims * time_Second <= now -> tk_ExpiresAt claims * time_Second <= now ->
    jwt_Parse key now token = ParsedExpired;
  jwt_text key claims token : jwt_Sign key claims = Ok token -> Split space token = [token]
}.

Lemma Split_bearer token : Split space token = [token] -> Split space ("Bearer " ++s token) = ["Bearer"; token].
Proof. intros Ht. cbn. by rewrite Ht. Qed.

Lemma session_signed env db db' resp :
  (exists email password, Login jm env email password db = (db', Ok resp)) \/
  (exists token, RefreshToken_ jm env token db = (db', Ok resp)) ->
  auth_inv unused unused db ->
  GenerateAccessToken jm (an_clock env) (u_ID (ar_User resp)) (u_Handle (ar_User resp))
    (permission_keys env) = Ok (ar_AccessToken resp).
Proof.
  intros [(email & password & Hl) | (token & Hr)] Hdb.
  - unfold Login in Hl. rewrite bind_ok in Hl. destruct Hl as (d1 & i & _ & Hk).
    rewrite bind_ok in Hk. destruct Hk as (d2 & _ & _ & Hk).
    rewrite bind_ok in Hk. destruct Hk as (d3 & u & _ & Hk).
    rewrite bind_ok in Hk. destruct Hk as (d4 & _ & _ & Hk).
    rewrite bind_ok_unit in Hk. destruct Hk as (d5 & _ & Hk).
    by apply generateAuthResponse_ok in Hk as (_ & _ & -> & ->).
  - unfold RefreshToken_ in Hr. rewrite bind_ok in Hr. destruct Hr as (d1 & [old u] & Hu & Hx).
    apply usable_refresh_token_ok in Hu as (-> & _ & [k Hk] & _).
    rewrite <- (keyed_key _ _ _ (ai_tokens _ _ _ Hdb) _ _ Hk) in Hk.
    by apply exchange_refresh_token_ok in Hx as (_ & _ & _ & -> & _ & ->).
Qed.

(** What the middlewares make of a signed token. *)
Lemma token_read `{JwtLaws} clock user handle permissions token now :
  GenerateAccessToken jm clock user handle permissions = Ok token ->
  NumericDate clock * time_Second <= now ->
  (now < NumericDate (clock + jm_accessTokenDuration jm) * time_Second ->
   AuthMiddleware jm now ("Bearer " ++s token) = Ok (mkAuthContext user handle permissions) /\
   OptionalAuthMiddleware jm now ("Bearer " ++s token)
     = Ok (Some (mkAuthContext user handle permissions))) /\
  (NumericDate (clock + jm_accessTokenDuration jm) * time_Second <= now ->
   AuthMiddleware jm now ("Bearer " ++s token) = Err "invalid or expired token" /\
   OptionalAuthMiddleware jm now ("Bearer " ++s token) = Err "invalid or expired token").
Proof.
  intros Ht Hsigned. unfold GenerateAccessToken in Ht.
  pose proof (Split_bearer _ (jwt_text _ _ _ Ht)) as Hsplit.
  unfold AuthMiddleware, OptionalAuthMiddleware, bearer, ValidateAccessToken.
  rewrite Hsplit. split; intros Hnow.
  - by rewrite (jwt_valid _ _ now _ Ht (conj Hsigned Hnow)).
  - by rewrite (jwt_expired _ _ now _ Ht Hsigned Hnow).
Qed.

(** The access token of a session is its user's identification: from
    when it was signed until it expires, the middlewares take a request that
    bears it for that user, with the handle and exactly the permissions the
    access-control service reported at signing (none when that failed), and
    afterwards they refuse it. *)
Theorem access_tokens_identify_their_user `{JwtLaws} before env db' resp now :
  let db := as_db (serve_all jm frontendURL before empty_auth) in
  let authHeader := "Bearer " ++s ar_AccessToken resp in
  let caller := mkAuthContext (u_ID (ar_User resp)) (u_Handle (ar_User resp)) (permission_keys env) in
  (exists email password, Login jm env email password db = (db', Ok resp)) \/
  (exists token, RefreshToken_ jm env token db = (db', Ok resp)) ->
  NumericDate (an_clock env) * time_Second <= now ->
  (now < NumericDate (an_clock env + jm_accessTokenDuration jm) * time_Second ->
   AuthMiddleware jm now authHeader = Ok caller /\
   OptionalAuthMiddleware jm now authHeader = Ok (Some caller)) /\
  (NumericDate (an_clock env + jm_accessTokenDuration jm) * time_Second <= now ->
   AuthMiddleware jm now authHeader = Err "invalid or expired token" /\
   OptionalAuthMiddleware jm now authHeader = Err "invalid or expired token").
Proof.
  intros db authHeader caller Hs Hsigned.
  pose proof (session_signed _ _ _ _ Hs (reachable_inv jm frontendURL before)) as Ht.
  by apply token_read.
Qed.

(** ** Verification links *)

Lemma GetVerification_ok io h db db' v :
  GetEmailVerificationTokenByHash io h db = (db', Ok v) ->
  db' = db /\ ev_TokenHash v = h /\ exists k, au_verifications db !! k = Some v.
Proof.
  unfold GetEmailVerificationTokenByHash. rewrite statement_ok. intros [_ [= <- Hv]].
  by apply select_one_ok in Hv as [Hv%bool_decide_eq_true Hk].
Qed.

Lemma DeleteVerification_ok io id db db' :
  DeleteEmailVerificationTokenByID io id db = (db', Ok tt) ->
  db' = set_verifications db (delete id (au_verifications db)).
Proof. unfold DeleteEmailVerificationTokenByID. rewrite statement_ok. case_match; naive_solver. Qed.

Lemma CreateVerification_ok io now fresh u hash db db' :
  CreateEmailVerificationToken io now fresh u hash db = (db', Ok tt) ->
  db' = set_verifications db
    (<[fresh := mkEmailVerificationToken fresh u hash now]> (au_verifications db)).
Proof.
  unfold CreateEmailVerificationToken. rewrite statement_ok. unfold failed. intros [_ Hc].
  by repeat case_match; simplify_eq.
Qed.

Lemma UpdateUser_ok io u db db' :
  UpdateUser io u db = (db', Ok tt) -> exists row, au_users db !! u_ID u = Some row /\
    db' = set_users db (<[u_ID u := written_back u row]> (au_users db)).
Proof.
  unfold UpdateUser, failed.
  destruct (update_key_cases (u_ID u) (fun _ => true) (written_back u) (au_users db))
    as [(row & Hrow & _ & ->) | [_ ->]]; intros Hu; repeat case_match; naive_solver.
Qed.

Lemma on_authdb_ok {A} (m : M authdb auth_error A) st st' a :
  on_authdb m st = (st', Ok a) <->
  m (as_db st) = (as_db st', Ok a) /\ as_mail st' = as_mail st.
Proof.
  unfold on_authdb. destruct (m (as_db st)) as [d r], st' as [d' l]; simpl.
  split; [naive_solver |]. by intros [[= -> ->] ->].
Qed.

(** A consumed link is gone and its user is verified. *)
Lemma consume_ok env link db db' :
  auth_inv unused unused db -> consume env link db = (db', Ok tt) ->
  au_verifications db' = delete (ev_ID link) (au_verifications db) /\
  au_tokens db' = au_tokens db /\
  exists user user', au_users db !! ev_UserID link = Some user /\
    u_EmailVerified user' = true /\ (u_EmailVerified user = true -> user' = user) /\
    (u_Email user', u_Handle user', u_Status user') = (u_Email user, u_Handle user, u_Status user) /\
    au_users db' = <[ev_UserID link := user']> (au_users db).
Proof.
  intros Hdb. unfold consume. rewrite bind_ok. intros (d1 & u & Hu & Hk).
  rewrite map_err_ok, GetUserByID_ok in Hu. destruct Hu as (_ & Hu & ->).
  rewrite bind_ok_unit in Hk. destruct Hk as (d2 & Hd & Hk).
  rewrite map_err_ok in Hd. apply DeleteVerification_ok in Hd as ->.
  pose proof (ai_users _ _ _ Hdb _ u Hu) as Hid. destruct (u_EmailVerified u) eqn:Hv.
  - injection Hk as <-. split_and!; [done .. |]. exists u, u. split_and!; try done.
    simpl. by rewrite insert_id.
  - rewrite map_err_ok in Hk. apply UpdateUser_ok in Hk as (row & Hrow & ->). simpl in *.
    split_and!; [done .. |]. exists u, (written_back (verified (an_clock env) u) row).
    rewrite Hid. split_and!; try done. congruence.
Qed.

(** An expired link gives way to a fresh one, which is mailed. *)
Lemma resend_ok env link db db' ev :
  resend frontendURL env link db = (db', Ok ev) ->
  exists plain user, an_token env = Ok plain /\ au_users db !! ev_UserID link = Some user /\
    db' = set_verifications db
      (<[an_db_id env := mkEmailVerificationToken (an_db_id env) (ev_UserID link)
           (hashToken plain) (an_now env)]> (delete (ev_ID link) (au_verifications db))) /\
    ev = mkVerificationEvent (ev_UserID link) (default "" (u_Email user))
      (buildEmailVerificationURL frontendURL plain).
Proof.
  unfold resend. rewrite bind_ok_unit. intros (d1 & Hd & Hk).
  rewrite map_err_ok in Hd. apply DeleteVerification_ok in Hd as ->.
  rewrite bind_ok in Hk. destruct Hk as (d2 & plain & [Ht ->]%random_token_ok & Hk).
  rewrite bind_ok_unit in Hk. destruct Hk as (d3 & Hc & Hk).
  rewrite map_err_ok in Hc. apply CreateVerification_ok in Hc as ->.
  rewrite bind_ok in Hk. destruct Hk as (d4 & u & Hu & [= <- <-]).
  rewrite map_err_ok, GetUserByID_ok in Hu. destruct Hu as (_ & Hu & ->).
  by exists plain, u.
Qed.

(** A link that is not stored verifies nobody. *)
Lemma gone_link_is_refused env token st :
  (forall k v, au_verifications (as_db st) !! k = Some v -> hashToken token <> ev_TokenHash v) ->
  exists e, VerifyEmail frontendURL env token st = (st, Err e) /\
    (an_io env 0%nat = None -> e = Sentinel ErrInvalidVerificationToken).
Proof.
  intros Hgone. unfold VerifyEmail. case_match; [by eexists; split |].
  unfold on_authdb, GetEmailVerificationTokenByHash, statement, failed. mrun. destruct st as [db mail].
  simpl in *. destruct (an_io env 0%nat); [by eexists; split |].
  rewrite select_one_none; [by eexists; split |]. intros k v Hv. apply bool_decide_eq_false. intros E.
  by apply (Hgone k v Hv).
Qed.

(** What a successful verification did. *)
Definition verification_effect env link st st' (outcome : VerifyEmailOutcome) : Prop :=
  match outcome with
  | VerifyEmailOutcomeVerified =>
      an_clock env - ev_CreatedAt link <= emailVerificationTokenTTL /\
      au_verifications (as_db st') = delete (ev_ID link) (au_verifications (as_db st)) /\
      as_mail st' = as_mail st /\
      exists user user', au_users (as_db st) !! ev_UserID link = Some user /\
        u_EmailVerified user' = true /\
        (u_Email user', u_Handle user', u_Status user') = (u_Email user, u_Handle user, u_Status user) /\
        au_users (as_db st') = <[ev_UserID link := user']> (au_users (as_db st))
  | VerifyEmailOutcomeResent =>
      emailVerificationTokenTTL < an_clock env - ev_CreatedAt link /\
      au_users (as_db st') = au_users (as_db st) /\
      exists plain user, an_token env = Ok plain /\ au_users (as_db st) !! ev_UserID link = Some user /\
        au_verifications (as_db st') =
          <[an_db_id env := mkEmailVerificationToken (an_db_id env) (ev_UserID link)
              (hashToken plain) (an_now env)]> (delete (ev_ID link) (au_verifications (as_db st))) /\
        as_mail st' = as_mail st ++
          (if an_delivered env then
             [mkVerificationEvent (ev_UserID link) (default "" (u_Email user))
                (buildEmailVerificationURL frontendURL plain)]
           else [])
  end.

Lemma VerifyEmail_ok env token st st' outcome :
  auth_inv unused unused (as_db st) -> VerifyEmail frontendURL env token st = (st', Ok outcome) ->
  exists link, au_verifications (as_db st) !! ev_ID link = Some link /\
    ev_TokenHash link = hashToken token /\ verification_effect env link st st' outcome.
Proof.
  intros Hdb. unfold VerifyEmail. case_match; [done |]. rewrite bind_ok.
  intros (s1 & link & [Hg Hmail]%on_authdb_ok & Hk). rewrite map_err_ok in Hg.
  apply GetVerification_ok in Hg as (Hs1 & Hhash & k & Hlink).
  rewrite <- (keyed_key _ _ _ (ai_links _ _ _ Hdb) _ _ Hlink) in Hlink.
  exists link. split_and!; [done | done |].
  destruct (Z.ltb_spec emailVerificationTokenTTL (an_clock env - ev_CreatedAt link)).
  - rewrite bind_ok in Hk. destruct Hk as (s2 & ev & [Hr Hm2]%on_authdb_ok & Hk).
    rewrite bind_ok_unit in Hk. destruct Hk as (s3 & Hp & [= <- <-]).
    apply resend_ok in Hr as (plain & user & Ht & Hu & Hs2 & ->). rewrite Hs1 in *.
    injection Hp as <-. simpl. rewrite Hs2, Hm2, Hmail. split_and!; [done | done |].
    exists plain, user. split_and!; try done. destruct (an_delivered env); [done |].
    by rewrite app_nil_r.
  - rewrite bind_ok_unit in Hk. destruct Hk as (s2 & [Hc Hm2]%on_authdb_ok & [= <- <-]).
    rewrite Hs1 in *. apply consume_ok in Hc as (Hv & _ & user & user' & ? & ? & _ & ? & ?); [| done].
    split_and!; [done | done | congruence |]. by exists user, user'.
Qed.

Lemma VerifyEmail_uses_up env token st st' outcome :
  auth_inv unused unused (as_db st) -> VerifyEmail frontendURL env token st = (st', Ok outcome) ->
  (forall plain, outcome = VerifyEmailOutcomeResent -> an_token env = Ok plain ->
     hashToken token <> hashToken plain) ->
  auth_inv unused (eq (hashToken token)) (as_db st').
Proof.
  intros Hdb Hok Hfresh. destruct (VerifyEmail_ok _ _ _ _ _ Hdb Hok) as (link & Hlink & Hhash & Heff).
  pose proof (VerifyEmail_keeps frontendURL unused unused env token (draws_unused env) st Hdb) as Hnew.
  rewrite Hok in Hnew. destruct Hnew as [N1 N2 N3 N4 N5 _]. split; [done .. |]. clear N1 N2 N3 N4 N5.
  assert (forall k v, delete (ev_ID link) (au_verifications (as_db st)) !! k = Some v ->
            hashToken token <> ev_TokenHash v) as Hdel.
  { intros k v [Hne Hv]%lookup_delete_Some E. destruct Hne.
    apply (keyed_unique _ _ _ (ai_links _ _ _ Hdb) _ _ _ _ Hlink Hv). congruence. }
  intros k v Hv. destruct outcome; simpl in Heff.
  - destruct Heff as (_ & Hvs & _). rewrite Hvs in Hv. eauto.
  - destruct Heff as (_ & _ & plain & user & Ht & _ & Hvs & _). rewrite Hvs in Hv.
    apply lookup_insert_Some in Hv as [[_ <-] | [_ Hv]]; eauto.
Qed.

(** C26. A verification link works once.  In any state the service has
    reached, a link that is accepted was stored.  Within its 48 hours its row
    is removed and its user marked as verified, and no other user, nor any
    other column that counts, changes; past them the row gives way to one for
    a new token of the same user, which is mailed (when the broker takes it),
    and nobody is verified.  Either way the link is dead: whatever calls are
    served afterwards, and whatever fails, it changes nothing. *)
Theorem verification_links_work_once before env token st' outcome after env' :
  let st := serve_all jm frontendURL before empty_auth in
  VerifyEmail frontendURL env token st = (st', Ok outcome) ->
  (forall plain, outcome = VerifyEmailOutcomeResent -> an_token env = Ok plain ->
     hashToken token <> hashToken plain) ->
  Forall (avoids (eq (hashToken token))) after ->
  (exists link, au_verifications (as_db st) !! ev_ID link = Some link /\
     ev_TokenHash link = hashToken token /\ verification_effect env link st st' outcome) /\
  let later := serve_all jm frontendURL after st' in
  exists e, VerifyEmail frontendURL env' token later = (later, Err e) /\
    (an_io env' 0%nat = None -> e = Sentinel ErrInvalidVerificationToken).
Proof.
  intros st Hok Hfresh Hafter. pose proof (reachable_inv jm frontendURL before) as Hdb. fold st in Hdb.
  split; [by apply VerifyEmail_ok |]. intros later. apply gone_link_is_refused, (ai_gone unused).
  apply serve_all_keeps; [by apply avoids_right |].
  by apply (VerifyEmail_uses_up env token st st' outcome).
Qed.
End AuthTheorems.

(** ** A concrete run *)

Module AuthExample.

#[local] Instance lower_same : DbLower := fun s => s.
#[local] Instance plain_bcrypt : Bcrypt := {|
  bcrypt_Generate p := Ok ("$2a$" ++s p);
  bcrypt_Compare h p := Ok (bool_decide (h = "$2a$" ++s p))
|}.
#[local] Instance plain_url : GoURL := fun base token => Some (base ++s "/?token=" ++s token).

#[local] Instance TokenClaims_eq_dec : EqDecision TokenClaims.
Proof. solve_decision. Defined.

Definition claims : TokenClaims := mkTokenClaims 1%N "ada" ["problem:create"] 920 20 20.

(** A signer that knows one set of claims. *)
#[local] Instance one_token : AuthCrypto := {|
  sha256 s := "#" ++s s;
  jwt_Sign _ c := if decide (c = claims) then Ok "aa.bb.cc" else Err "unsupported";
  jwt_Parse _ now t :=
    if decide (t = "aa.bb.cc") then
      if now <? 20 * time_Second then ParsedInvalid
      else if now <? 920 * time_Second then ParsedValid claims else ParsedExpired
    else ParsedInvalid
|}.

Lemma signed_only c key t : jwt_Sign key c = Ok t -> c = claims /\ t = "aa.bb.cc".
Proof. cbn. case_decide; [by intros [= <-] | done]. Qed.

#[local] Instance one_token_laws : JwtLaws.
Proof.
  split.
  - intros key c now t [-> ->]%signed_only [Hnow1 Hnow2]. cbn [tk_NotBefore tk_ExpiresAt claims] in *.
    cbn [jwt_Parse one_token]. rewrite decide_True by done.
    destruct (Z.ltb_spec now (20 * time_Second)); [lia |].
    by destruct (Z.ltb_spec now (920 * time_Second)); [| lia].
  - intros key c now t [-> ->]%signed_only Hnow1 Hnow2. cbn [tk_NotBefore tk_ExpiresAt claims] in *.
    cbn [jwt_Parse one_token]. rewrite decide_True by done.
    destruct (Z.ltb_spec now (20 * time_Second)); [lia |].
    by destruct (Z.ltb_spec now (920 * time_Second)); [lia |].
  - by intros key c t [-> ->]%signed_only.
Qed.

Definition env (clock : Z) (id1 id2 db_id : uuid) (token : string) : auth_env :=
  mkAuthEnv no_faults (clock * time_Second) (clock * time_Second) id1 id2 db_id (Ok token) true
    (Ok ["problem:create"]).
Definition jm : JWTManager := mkJWTManager "secret" (900 * time_Second) (604800 * time_Second).
Definition frontend : string := "https://judge.example/".

Definition registered : list auth_call :=
  [CallRegister (env 0 1%N 2%N 3%N "mail-1")
     (mkRegisterRequest "ada" "ada@x.org" "correct horse" None)].
Definition verify : auth_env := env 10 0%N 0%N 0%N "".
Definition confirmed : list auth_call := registered ++ [CallVerifyEmail verify "mail-1"].
Definition login : auth_env := env 20 4%N 0%N 0%N "refresh-1".
Definition signed_in : list auth_call :=
  confirmed ++ [CallLogin login "ada@x.org" "correct horse"].
Definition exchange1 : auth_env := env 20 5%N 0%N 0%N "refresh-2".
Definition exchange2 : auth_env := env 20 6%N 0%N 0%N "refresh-3".

Lemma refresh_tokens_are_single_use_witness :
  let db := as_db (serve_all jm frontend signed_in empty_auth) in
  exists db' resp, RefreshToken_ jm exchange1 "refresh-1" db = (db', Ok resp) /\
    RefreshToken_ jm exchange2 "refresh-1" db' = (db', Err (Sentinel ErrRevokedRefreshToken)).
Proof.
  intros db.
  destruct (RefreshToken_ jm exchange1 "refresh-1" db) as [db' r] eqn:E.
  destruct r as [resp | e]; [| vm_compute in E; discriminate E].
  destruct (refresh_tokens_are_single_use jm frontend signed_in exchange1 "refresh-1" db' resp [] exchange2
    E (Forall_nil_2 _)) as [_ Hlater].
  destruct (Hlater []) as (e & He & _). exists db', resp. split; [reflexivity |].
  cbn [serve_all as_db] in He. rewrite He. f_equal.
  vm_compute in E. injection E as <- _. vm_compute in He. injection He as <-. reflexivity.
Defined.

Lemma login_grants_sessions_witness :
  let db := as_db (serve_all jm frontend confirmed empty_auth) in
  (exists db' resp, Login jm login "ada@x.org" "correct horse" db = (db', Ok resp)) /\
  Login jm login "ada@x.org" "wrong horse" db = (db, Err (Sentinel ErrInvalidCredentials)) /\
  Login jm login "eve@x.org" "correct horse" db = (db, Err (Sentinel ErrInvalidCredentials)).
Proof.
  intros db. split; [| split].
  - pose proof (login_grants_sessions jm frontend confirmed login "ada@x.org" "correct horse")
      as (_ & _ & Hok).
    specialize (Hok eq_refl). vm_compute in Hok.
    destruct (Hok _ _ eq_refl eq_refl eq_refl eq_refl) as [db' E].
    exists db'. eexists. exact E.
  - pose proof (login_grants_sessions jm frontend confirmed login "ada@x.org" "wrong horse")
      as (_ & _ & Hok).
    exact (Hok eq_refl).
  - pose proof (login_grants_sessions jm frontend confirmed login "eve@x.org" "correct horse")
      as (_ & _ & Hok).
    exact (Hok eq_refl).
Defined.

Lemma access_tokens_identify_their_user_witness :
  let db := as_db (serve_all jm frontend confirmed empty_auth) in
  exists db' resp, Login jm login "ada@x.org" "correct horse" db = (db', Ok resp) /\
    AuthMiddleware jm (100 * time_Second) ("Bearer " ++s ar_AccessToken resp)
      = Ok (mkAuthContext (u_ID (ar_User resp)) (u_Handle (ar_User resp)) ["problem:create"]).
Proof.
  intros db.
  destruct (Login jm login "ada@x.org" "correct horse" db) as [db' r] eqn:E.
  destruct r as [resp | e]; [| vm_compute in E; discriminate E].
  destruct (access_tokens_identify_their_user jm frontend confirmed login db' resp (100 * time_Second)
    (or_introl (ex_intro _ "ada@x.org" (ex_intro _ "correct horse" E)))) as [Hvalid _].
  - vm_compute. discriminate.
  - exists db', resp. split; [reflexivity |]. apply Hvalid. vm_compute. reflexivity.
Defined.

Lemma verification_links_work_once_witness :
  let st := serve_all jm frontend registered empty_auth in
  exists st', VerifyEmail frontend verify "mail-1" st = (st', Ok VerifyEmailOutcomeVerified) /\
    let later := serve_all jm frontend [CallLogin login "ada@x.org" "correct horse"] st' in
    VerifyEmail frontend verify "mail-1" later = (later, Err (Sentinel ErrInvalidVerificationToken)).
Proof.
  intros st. exists (serve_all jm frontend confirmed empty_auth).
  assert (VerifyEmail frontend verify "mail-1" st
    = (serve_all jm frontend confirmed empty_auth, Ok VerifyEmailOutcomeVerified)) as E
    by (vm_compute; reflexivity).
  destruct (verification_links_work_once jm frontend registered verify "mail-1" _ _
    [CallLogin login "ada@x.org" "correct horse"] verify E) as [_ (e & He & Hno)].
  - intros plain [=].
  - apply Forall_singleton. intros t [= <-]. vm_compute. discriminate.
  - split; [exact E |]. intros later. rewrite <- (Hno eq_refl). exact He.
Defined.

(** A request reads the token's row before it writes; another request that
    reads in between passes the same checks, and one token buys two sessions. *)
Example two_sessions_for_one_token :
  let db := as_db (serve_all jm frontend signed_in empty_auth) in
  exists su db1 resp1 db2 resp2,
    usable_refresh_token exchange1 "refresh-1" db = (db, Ok su) /\
    exchange_refresh_token jm exchange1 su.1 su.2 db = (db1, Ok resp1) /\
    exchange_refresh_token jm exchange2 su.1 su.2 db1 = (db2, Ok resp2) /\
    ar_RefreshToken resp1 <> ar_RefreshToken resp2.
Proof. do 5 eexists. split_and!; [vm_compute; reflexivity .. | discriminate]. Qed.

End AuthExample.
