(* ===== verification/ApiHttp.v ===== *)
(** * The API's HTTP layer

    What the handlers of the API share: the responses of
    [internal/api/common/response.go], the permission checks of
    [internal/api/rbac/manager.go] and [strconv.Atoi].  A handler is given
    the caller that the authentication middleware has put in the request's
    context, its path and query parameters, and its body as the JSON decoder
    delivers it. *)

From S2P Require Import Prelude GoStrings CPHttp AuthService.

Definition StatusForbidden : Z := 403.
Definition StatusUnprocessableEntity : Z := 422.
Definition StatusTooManyRequests : Z := 429.

(** ** Responses *)

(** The error and, where there is one, the message; or the data. *)
Inductive api_payload (A : Type) :=
  | PlainError (error : string)
  | MessageError (error message : string)
  | Body (data : A).
Arguments PlainError {A} _.
Arguments MessageError {A} _ _.
Arguments Body {A} _.

Record api_response (A : Type) := mkApiResponse { resp_status : Z; resp_body : api_payload A }.
Arguments mkApiResponse {A} _ _.
Arguments resp_status {A} _.
Arguments resp_body {A} _.

Definition RespondJSON {A} (status : Z) (data : A) : api_response A := mkApiResponse status (Body data).
Definition RespondSimpleError {A} (status : Z) (message : string) : api_response A :=
  mkApiResponse status (PlainError message).
Definition RespondError {A S} `{SentinelText S} (status : Z) (err : goerr S) (message : string)
  : api_response A := mkApiResponse status (MessageError (error_text err) message).

(** ** Handlers *)

(** A handler answers, over the database as it is and as it leaves it. *)
Definition api_handler (DB D : Type) : Type := DB -> DB * api_response D.

(** A service call, its success answer and its error answers. *)
Definition answer {DB E A D} (call : M DB E A) (ok : A -> api_response D) (err : E -> api_response D)
  : api_handler DB D := fun db =>
  let '(db', r) := call db in (db', match r with Ok a => ok a | Err e => err e end).

Definition refuse {DB D} (status : Z) (message : string) : api_handler DB D := fun db =>
  (db, RespondSimpleError status message).

(** A parameter that has to parse, a body that has to decode. *)
Definition with_parsed {DB D A} (message : string) (a : option A) (k : A -> api_handler DB D)
  : api_handler DB D :=
  match a with
  | None => refuse StatusBadRequest message
  | Some a => k a
  end.

Definition with_body {DB D A} (body : option A) (k : A -> api_handler DB D) : api_handler DB D :=
  match body with
  | None => refuse StatusBadRequest "invalid request body"
  | Some a => k a
  end.

Section ErrorAnswers.
Context {S D : Type} `{SentinelText S} `{EqDecision S}.

Definition internal (message : string) (e : goerr S) : api_response D :=
  RespondError StatusInternalServerError e message.

(** [if errors.Is(err, target) { ... }] before the other answers. *)
Definition error_case (status : Z) (target : S) (text : string) (other : goerr S -> api_response D)
    (e : goerr S) : api_response D :=
  if errors_Is e target then RespondError status e text else other e.

Definition not_found_or : S -> string -> (goerr S -> api_response D) -> goerr S -> api_response D :=
  error_case StatusNotFound.
Definition conflict_or : S -> string -> (goerr S -> api_response D) -> goerr S -> api_response D :=
  error_case StatusConflict.
Definition bad_request_or : S -> string -> (goerr S -> api_response D) -> goerr S -> api_response D :=
  error_case StatusBadRequest.

Lemma error_case_status status target text other e n :
  n <= status -> n <= resp_status (other e) -> n <= resp_status (error_case status target text other e).
Proof. unfold error_case. by case_match. Qed.

Lemma error_case_other status target text other e :
  errors_Is e target = false -> error_case status target text other e = other e.
Proof. unfold error_case. by intros ->. Qed.
End ErrorAnswers.

Lemma keeps_answer {DB E A D} (P : DB -> Prop) (call : M DB E A) ok (err : E -> api_response D) db :
  keeps P call -> P db -> P (answer call ok err db).1.
Proof. intros Hc Hdb. unfold answer. specialize (Hc db Hdb). by destruct (call db). Qed.

Lemma readonly_answer {DB E A D} (call : M DB E A) ok (err : E -> api_response D) db :
  readonly call -> (answer call ok err db).1 = db.
Proof. intros Hc. unfold answer. specialize (Hc db). by destruct (call db). Qed.

(** ** Permissions, with their keys from [pkg/permissions/permissions.go] *)

Definition RBACRolesView : string := "rbac.roles.view".
Definition RBACRolesManage : string := "rbac.roles.manage".
Definition RBACPermissionsView : string := "rbac.permissions.view".
Definition RBACPermissionsManage : string := "rbac.permissions.manage".
Definition RBACUsersView : string := "rbac.users.view".
Definition RBACUsersManage : string := "rbac.users.manage".
Definition AdminAccess : string := "admin.access".
Definition ProblemsManage : string := "problems.manage".
Definition SubmissionsViewAll : string := "submissions.view_all".

Fixpoint hasPermission (permissions : list string) (required : string) : bool :=
  match permissions with
  | [] => false
  | p :: rest => if bool_decide (p = required) then true else hasPermission rest required
  end.

Fixpoint hasAnyPermission (permissions required : list string) : bool :=
  match required with
  | [] => false
  | req :: rest => if hasPermission permissions req then true else hasAnyPermission permissions rest
  end.

Fixpoint hasAllPermissions (permissions required : list string) : bool :=
  match required with
  | [] => true
  | req :: rest => if negb (hasPermission permissions req) then false
                   else hasAllPermissions permissions rest
  end.

(** Who is calling: what the access token's claims have left in the request's
    context. *)
Record caller := mkCaller { c_UserID : option uuid; c_Permissions : option (list string) }.

(** [AuthMiddleware] sets both values, [OptionalAuthMiddleware] both or none. *)
Definition caller_of (ctx : option auth_context) : caller :=
  match ctx with
  | Some ctx => mkCaller (Some (ac_UserID ctx)) (Some (ac_Permissions ctx))
  | None => mkCaller None None
  end.

Definition CheckPermissionInContext (c : caller) (permissionKey : string) : bool :=
  match c_Permissions c with
  | None => false
  | Some permissions => hasPermission permissions permissionKey
  end.

Definition CheckAnyPermissionInContext (c : caller) (permissionKeys : list string) : bool :=
  match c_Permissions c with
  | None => false
  | Some permissions => hasAnyPermission permissions permissionKeys
  end.

Definition CheckAllPermissionsInContext (c : caller) (permissionKeys : list string) : bool :=
  match c_Permissions c with
  | None => false
  | Some permissions => hasAllPermissions permissions permissionKeys
  end.

(** [RequirePermission], [RequireAnyPermission] and [RequireAllPermissions]:
    the request goes on, or is answered with a status. *)
Definition require (check : list string -> bool) (c : caller) : option Z :=
  match c_Permissions c with
  | None => Some StatusUnauthorized
  | Some permissions => if negb (check permissions) then Some StatusForbidden else None
  end.
Definition RequirePermission (key : string) : caller -> option Z :=
  require (fun ps => hasPermission ps key).
Definition RequireAnyPermission (keys : list string) : caller -> option Z :=
  require (fun ps => hasAnyPermission ps keys).
Definition RequireAllPermissions (keys : list string) : caller -> option Z :=
  require (fun ps => hasAllPermissions ps keys).

(** ** [strconv.Atoi] *)

Definition digit_of (c : ascii) : option Z :=
  if byte_between 48 57 c then Some (Z.of_nat (byte_of c) - 48) else None.

Fixpoint digits (acc : Z) (s : string) : option Z :=
  match s with
  | EmptyString => Some acc
  | String c s' => match digit_of c with None => None | Some d => digits (10 * acc + d) s' end
  end.

(** An empty, malformed or out-of-range number is an error. *)
Definition Atoi (s : string) : option Z :=
  let '(neg, body) :=
    match s with
    | String c s' => if is_byte 45 c then (true, s') else if is_byte 43 c then (false, s') else (false, s)
    | EmptyString => (false, s)
    end in
  if bool_decide (body = "") then None
  else match digits 0 body with
       | None => None
       | Some n =>
           let z := if neg : bool then - n else n in
           if (- 2^63 <=? z) && (z <? 2^63) then Some z else None
       end.
