(* ===== verification/AuthHttp.v ===== *)
(** * Auth: HTTP

    The handlers of accounts and sessions in [internal/api/auth/http], their
    cookie and their routes of [cmd/api/routes.go].  A response comes with
    the cookie it sets, if any; a body is what the decoder makes of it. *)

From S2P Require Import Prelude Sql GoStrings CPHttp AuthRepo AuthService ApiHttp.

(** ** The cookie *)

Record Cookie := mkCookie {
  ck_Name : string;
  ck_Value : string;
  ck_Path : string;
  ck_HttpOnly : bool;
  ck_Secure : bool;
  ck_SameSiteLax : bool;
  ck_MaxAge : Z
}.

Definition setRefreshTokenCookie (secureCookies : bool) (token : string) : Cookie :=
  mkCookie "refresh_token" token "/" true secureCookies true (7 * 24 * 60 * 60).
Definition clearRefreshTokenCookie (secureCookies : bool) : Cookie :=
  mkCookie "refresh_token" "" "/" true secureCookies true (- 1).

(** The value of the request's cookie, empty without one. *)
Definition getRefreshTokenFromCookie (cookie : option string) : string := default "" cookie.

(** ** Requests and responses *)

Record LoginRequestDTO := mkLoginRequestDTO { lq_Email : string; lq_Password : string }.

Inductive auth_data :=
  | SessionBody (response : AuthResponse)
  | AuthMessage (message : string)
  | VerifyBody (status message : string)
  | CurrentUserBody (user : User).

Definition auth_reply : Type := api_response auth_data * option Cookie.
Definition auth_handler : Type := auth -> auth * auth_reply.

Definition plain_reply (r : api_response auth_data) : auth_reply := (r, None).

Definition turn_away (status : Z) (message : string) : auth_handler := fun st =>
  (st, plain_reply (RespondSimpleError status message)).

Definition decoded {A} (body : option A) (k : A -> auth_handler) : auth_handler :=
  match body with
  | None => turn_away StatusBadRequest "invalid request body"
  | Some a => k a
  end.

(** [if field == "" { ... }] before the rest. *)
Definition required (field message : string) (k : auth_handler) : auth_handler :=
  if bool_decide (field = "") then turn_away StatusBadRequest message else k.

(** A service call, its success and its error answers; errors set no cookie. *)
Definition calling {A} (call : M auth auth_error A) (ok : A -> auth_reply)
    (err : auth_error -> api_response auth_data) : auth_handler := fun st =>
  let '(st', r) := call st in (st', match r with Ok a => ok a | Err e => plain_reply (err e) end).

Definition RegisterSuccessMessage : string :=
  "Registration successful. Check your email to verify your account before signing in.".

Section Handlers.
Context `{DbLower} `{Bcrypt} `{AuthCrypto} `{GoURL}.
Context (jm : JWTManager) (frontendURL : string) (secureCookies : bool).

Definition Register_handler (env : auth_env) (body : option RegisterRequest) : auth_handler :=
  decoded body (fun req =>
    required (rq_Handle req) "handle is required" (
    required (rq_Email req) "email is required" (
    required (rq_Password req) "password is required" (
      calling (Register frontendURL env req)
        (fun _ => plain_reply (RespondJSON StatusCreated (AuthMessage RegisterSuccessMessage)))
        (conflict_or ErrUserAlreadyExists "user with this email or handle already exists"
        (bad_request_or ErrPasswordTooShort "password is too short"
        (bad_request_or ErrPasswordTooLong "password is too long"
           (internal "failed to register user")))))))).

(** The answer that opens a session. *)
Definition session_reply (response : AuthResponse) : auth_reply :=
  (RespondJSON StatusOK (SessionBody response),
   Some (setRefreshTokenCookie secureCookies (ar_RefreshToken response))).

Definition login_error : auth_error -> api_response auth_data :=
  error_case StatusUnauthorized ErrInvalidCredentials "invalid email or password"
  (error_case StatusForbidden ErrEmailNotVerified "verify your email before signing in"
  (error_case StatusForbidden ErrUserBanned "user account is banned"
     (internal "failed to login"))).

Definition Login_handler (env : auth_env) (body : option LoginRequestDTO) : auth_handler :=
  decoded body (fun req =>
    required (lq_Email req) "email is required" (
    required (lq_Password req) "password is required" (
      calling (on_authdb (Login jm env (lq_Email req) (lq_Password req))) session_reply login_error))).

Definition refresh_error : auth_error -> api_response auth_data :=
  error_case StatusUnauthorized ErrInvalidRefreshToken "invalid refresh token"
  (error_case StatusUnauthorized ErrRevokedRefreshToken "refresh token has been revoked"
  (error_case StatusUnauthorized ErrExpiredRefreshToken "refresh token has expired"
  (error_case StatusForbidden ErrUserBanned "user account is banned"
  (error_case StatusForbidden ErrEmailNotVerified "verify your email before signing in"
     (internal "failed to refresh token"))))).

Definition RefreshToken_handler (env : auth_env) (cookie : option string) : auth_handler :=
  let refreshToken := getRefreshTokenFromCookie cookie in
  required refreshToken "refresh_token is required" (
    calling (on_authdb (RefreshToken_ jm env refreshToken)) session_reply refresh_error).

Definition Logout_handler (env : auth_env) (cookie : option string) : auth_handler :=
  let refreshToken := getRefreshTokenFromCookie cookie in
  required refreshToken "refresh_token is required" (
    calling (on_authdb (Logout env refreshToken))
      (fun _ => (RespondJSON StatusOK (AuthMessage "logged out successfully"),
                 Some (clearRefreshTokenCookie secureCookies)))
      (internal "failed to logout")).

Definition verify_reply (outcome : VerifyEmailOutcome) : auth_reply :=
  plain_reply (RespondJSON StatusOK
    match outcome with
    | VerifyEmailOutcomeResent =>
        VerifyBody "resent" "this verification link expired; a new verification email will be sent"
    | VerifyEmailOutcomeVerified => VerifyBody "verified" "email verified successfully"
    end).

Definition VerifyEmail_handler (env : auth_env) (body : option string) : auth_handler :=
  decoded body (fun token =>
    required token "token is required" (
      calling (VerifyEmail frontendURL env token) verify_reply
        (bad_request_or ErrInvalidVerificationToken "invalid or expired verification token"
           (internal "failed to verify email")))).

Definition GetCurrentUser_handler (io : faults) (c : caller) : auth_handler :=
  match c_UserID c with
  | None => turn_away StatusUnauthorized "user not authenticated"
  | Some userID =>
      calling (on_authdb (GetUserByID io userID))
        (fun user => plain_reply (RespondJSON StatusOK (CurrentUserBody user)))
        (not_found_or ErrUserNotFound "user not found" (internal "failed to get user"))
  end.

(** ** Routes *)

Inductive auth_request :=
  | ReqRegister (body : option RegisterRequest)
  | ReqLogin (body : option LoginRequestDTO)
  | ReqRefresh
  | ReqLogout
  | ReqVerifyEmail (body : option string)
  | ReqCurrentUser (authHeader : string).

(** A request with the cookie that its sender holds. *)
Definition serve_auth (env : auth_env) (cookie : option string) (req : auth_request) : auth_handler :=
  match req with
  | ReqRegister body => Register_handler env body
  | ReqLogin body => Login_handler env body
  | ReqRefresh => RefreshToken_handler env cookie
  | ReqLogout => Logout_handler env cookie
  | ReqVerifyEmail body => VerifyEmail_handler env body
  | ReqCurrentUser authHeader =>
      match AuthMiddleware jm (an_clock env) authHeader with
      | Err text => turn_away StatusUnauthorized text
      | Ok ctx => GetCurrentUser_handler (an_io env) (caller_of (Some ctx))
      end
  end.
End Handlers.
