(* ===== verification/AuthSessions.v ===== *)
(** * Auth: a browser and its session

    A browser that keeps the session's cookie, among the other clients of the
    service: the cookies it has handed in are dead for good, and the one it
    holds renews its session for as long as it is used in time. *)

From S2P Require Import Prelude Sql GoStrings CPHttp AuthRepo AuthService AuthFacts AuthTheorems.
From S2P Require Import ApiHttp AuthHttp.

Section Browser.
Context `{DbLower} `{Bcrypt} `{AuthCrypto} `{GoURL}.
Context (jm : JWTManager) (frontendURL : string) (secureCookies : bool).

(** A browser keeps a cookie with the time until which it sends it, if that is
    limited. *)
Definition jar : Type := option (string * option Z).

(** The service, what the browser keeps, and the cookies it has handed in at a
    renewal or a sign-out that was answered with success. *)
Record browser := mkBrowser {
  br_auth : auth;
  br_jar : jar;
  br_spent : list string
}.

Definition br_cookie (b : browser) : option string := fst <$> br_jar b.

(** RFC 6265: a negative age removes the cookie, a positive one limits it
    from its arrival on; without the attribute, which [net/http] leaves out
    for 0, it stays. *)
Definition keep_cookie (now : Z) (held : jar) (set : option Cookie) : jar :=
  match set with
  | None => held
  | Some c =>
      if ck_MaxAge c <? 0 then None
      else Some (ck_Value c,
                 if ck_MaxAge c =? 0 then None else Some (now + ck_MaxAge c * time_Second))
  end.

Definition sent_cookie (now : Z) (held : jar) : option string :=
  match held with
  | Some (t, Some until) => if now <=? until then Some t else None
  | Some (t, None) => Some t
  | None => None
  end.

Definition hands_in (req : auth_request) : bool :=
  match req with ReqRefresh | ReqLogout => true | _ => false end.

Inductive web_event :=
  | BrowserAsks (env : auth_env) (req : auth_request)
  | OthersCall (c : auth_call).

(** The clocks of the browser and of the service agree. *)
Definition reply_of (env : auth_env) (req : auth_request) (b : browser) : auth * auth_reply :=
  serve_auth jm frontendURL secureCookies env (sent_cookie (an_clock env) (br_jar b)) req (br_auth b).

Definition spent_by (env : auth_env) (req : auth_request) (b : browser) (r : auth_reply) : list string :=
  match sent_cookie (an_clock env) (br_jar b) with
  | Some t => if hands_in req && (resp_status r.1 =? StatusOK) then [t] else []
  | None => []
  end.

Definition happens (e : web_event) (b : browser) : browser :=
  match e with
  | OthersCall c => mkBrowser (serve jm frontendURL c (br_auth b)) (br_jar b) (br_spent b)
  | BrowserAsks env req =>
      let '(st, r) := reply_of env req b in
      mkBrowser st (keep_cookie (an_clock env) (br_jar b) r.2) (spent_by env req b r ++ br_spent b)
  end.

Fixpoint browse (es : list web_event) (b : browser) : browser :=
  match es with
  | [] => b
  | e :: es => browse es (happens e b)
  end.

Definition new_browser : browser := mkBrowser empty_auth None [].

(** Random tokens do not repeat the cookies that were handed in before. *)
Definition spent_hash (b : browser) (h : string) : Prop := h ∈ hashToken <$> br_spent b.

Definition draws_anew (e : web_event) (b : browser) : Prop :=
  match e with
  | BrowserAsks env _ => draws_outside (spent_hash b) env
  | OthersCall c => avoids (spent_hash b) c
  end.

Fixpoint all_anew (es : list web_event) (b : browser) : Prop :=
  match es with
  | [] => True
  | e :: es => draws_anew e b /\ all_anew es (happens e b)
  end.

(** ** The replies *)

Lemma calling_reply {A} (call : M auth auth_error A) ok err st st' r :
  calling call ok err st = (st', r) ->
  (exists a, call st = (st', Ok a) /\ r = ok a) \/
  (exists e, call st = (st', Err e) /\ r = plain_reply (err e)).
Proof. unfold calling. destruct (call st) as [s [a | e]]; intros [= <- <-]; eauto. Qed.

(** An error answer is no success. *)
Lemma login_error_status e : 400 <= resp_status (login_error e).
Proof. unfold login_error. by repeat apply error_case_status. Qed.

Lemma refresh_error_status e : 400 <= resp_status (refresh_error e).
Proof. unfold refresh_error. by repeat apply error_case_status. Qed.

Lemma on_authdb_err {A} (m : M authdb auth_error A) st st' e :
  on_authdb m st = (st', Err e) -> m (as_db st) = (as_db st', Err e) /\ as_mail st' = as_mail st.
Proof. unfold on_authdb. destruct (m (as_db st)). by intros [= <- ->]. Qed.

Lemma renewal_reply env t st st' r :
  t <> "" -> RefreshToken_handler jm secureCookies env (Some t) st = (st', r) ->
  (exists resp, RefreshToken_ jm env t (as_db st) = (as_db st', Ok resp) /\
     as_mail st' = as_mail st /\ r = session_reply secureCookies resp) \/
  (exists e, RefreshToken_ jm env t (as_db st) = (as_db st', Err e) /\
     as_mail st' = as_mail st /\ r = plain_reply (refresh_error e)).
Proof.
  unfold RefreshToken_handler, required. simpl. intros Ht. rewrite bool_decide_eq_false_2 by done.
  intros [(resp & [? ?]%on_authdb_ok & ->) | (e & [? ?]%on_authdb_err & ->)]%calling_reply; eauto.
Qed.

Lemma logout_reply env t st st' r :
  t <> "" -> Logout_handler secureCookies env (Some t) st = (st', r) ->
  (Logout env t (as_db st) = (as_db st', Ok tt) /\
     r = (RespondJSON StatusOK (AuthMessage "logged out successfully"),
          Some (clearRefreshTokenCookie secureCookies))) \/
  (exists e, r = plain_reply (internal "failed to logout" e)).
Proof.
  unfold Logout_handler, required. simpl. intros Ht. rewrite bool_decide_eq_false_2 by done.
  intros [([] & [? ?]%on_authdb_ok & ->) | (e & _ & ->)]%calling_reply; eauto.
Qed.

(** The cookie of a session holds the token that was drawn. *)
Lemma Login_token env email password db db' resp :
  Login jm env email password db = (db', Ok resp) -> an_token env = Ok (ar_RefreshToken resp).
Proof.
  unfold Login, generateAuthResponse. rewrite bind_ok. intros (d1 & i & _ & Hk).
  rewrite bind_ok in Hk. destruct Hk as (d2 & _ & _ & Hk).
  rewrite bind_ok in Hk. destruct Hk as (d3 & u & _ & Hk).
  rewrite bind_ok in Hk. destruct Hk as (d4 & _ & _ & Hk).
  rewrite bind_ok_unit in Hk. destruct Hk as (d5 & _ & Hk).
  rewrite bind_ok in Hk. destruct Hk as (d6 & a & _ & Hk).
  rewrite bind_ok in Hk. destruct Hk as (d7 & t & [Ht _]%random_token_ok & Hk).
  rewrite bind_ok_unit in Hk. by destruct Hk as (d8 & _ & [= <- <-]).
Qed.

Lemma RefreshToken_token us ul env token db db' resp :
  auth_inv us ul db -> RefreshToken_ jm env token db = (db', Ok resp) ->
  an_token env = Ok (ar_RefreshToken resp) /\ hashToken (ar_RefreshToken resp) <> hashToken token.
Proof.
  intros Hdb Hr. unfold RefreshToken_ in Hr. rewrite bind_ok in Hr.
  destruct Hr as (d1 & [old u] & (-> & Hh & [k Hk] & _)%usable_refresh_token_ok & Hx). simpl in *.
  rewrite <- (keyed_key _ _ _ (ai_tokens _ _ _ Hdb) _ _ Hk) in Hk.
  apply exchange_refresh_token_ok in Hx as (_ & Hne & _ & _ & Ht & _); [| done]. by rewrite <- Hh.
Qed.

(** ** What has been handed in is dead *)

Lemma calling_keeps {A} (P : auth -> Prop) (call : M auth auth_error A) ok err st :
  keeps P call -> P st -> P (calling call ok err st).1.
Proof. intros Hc Hst. unfold calling. specialize (Hc st Hst). by destruct (call st). Qed.

(** Each request keeps the invariant of the tables. *)
Lemma serve_auth_keeps us ul env cookie req st :
  draws_outside (fun h => us h \/ ul h) env -> auth_inv us ul (as_db st) ->
  auth_inv us ul (as_db (serve_auth jm frontendURL secureCookies env cookie req st).1).
Proof.
  intros Hd Hst. set (P := fun st => auth_inv us ul (as_db st)). change (P st) in Hst.
  change (P (serve_auth jm frontendURL secureCookies env cookie req st).1).
  destruct req as [[] | [] | | | [] | h]; simpl;
    unfold Register_handler, Login_handler, RefreshToken_handler, Logout_handler, VerifyEmail_handler,
      GetCurrentUser_handler, decoded, required; repeat case_match; try done; apply calling_keeps; try done.
  - by apply Register_keeps.
  - by apply keeps_on_authdb, Login_keeps.
  - by apply keeps_on_authdb, RefreshToken_keeps.
  - by apply keeps_on_authdb, Logout_keeps.
  - by apply VerifyEmail_keeps.
  - apply keeps_on_authdb. eauto with capstone.
Qed.

(** The value that is kept. *)
Definition kept_value (held : option string) (set : option Cookie) : option string :=
  match set with
  | None => held
  | Some c => if ck_MaxAge c <? 0 then None else Some (ck_Value c)
  end.

Lemma keep_cookie_value now held set : fst <$> keep_cookie now held set = kept_value (fst <$> held) set.
Proof. destruct set as [c |]; [| done]. simpl. by destruct (ck_MaxAge c <? 0). Qed.

Lemma sent_cookie_kept now held t : sent_cookie now held = Some t -> fst <$> held = Some t.
Proof. unfold sent_cookie. destruct held as [[w [until |]] |]; [| by intros [= ->] | done].
  destruct (now <=? until); [by intros [= ->] | done].
Qed.

(** The cookie that is held afterwards is none of the used ones, nor one
    that the request has just used up. *)
Lemma kept_cookie us env kept cookie req st st' r held :
  auth_inv us unused (as_db st) -> draws_outside us env ->
  (forall t, kept = Some t -> ~ us (hashToken t)) ->
  serve_auth jm frontendURL secureCookies env cookie req st = (st', r) ->
  kept_value kept r.2 = Some held ->
  ~ us (hashToken held) /\
  (hands_in req = true -> resp_status r.1 = StatusOK ->
   forall t, cookie = Some t -> hashToken held <> hashToken t).
Proof.
  intros Hdb Hd Hcookie. destruct req as [[] | [] | | | [] | h]; simpl;
    unfold Register_handler, Login_handler, VerifyEmail_handler, GetCurrentUser_handler, decoded, required.
  all: try (repeat case_match;
            first [ intros [= <- <-] | intros [(a & _ & ->) | (e & _ & ->)]%calling_reply];
            simpl; by eauto).
  - repeat case_match; try (intros [= <- <-]; simpl; by eauto).
    intros [(resp & [Hl _]%on_authdb_ok & ->) | (e & _ & ->)]%calling_reply; simpl; [| by eauto].
    intros [= <-]. split; [| done]. by apply Hd, (Login_token _ _ _ _ _ _ Hl).
  - destruct cookie as [t |]; [destruct (decide (t = "")) as [-> | Hne] |];
      try (intros [= <- <-]; simpl; by naive_solver).
    intros [(resp & Hr & _ & ->) | (e & _ & _ & ->)]%renewal_reply; simpl; [| | done].
    + intros [= <-]. apply (RefreshToken_token us unused _ _ _ _ _ Hdb) in Hr as [Ht Hne'].
      split; [by apply Hd | by intros _ _ ? [= ->]].
    + intros Hk. split; [by apply Hcookie |]. intros _ Hok. pose proof (refresh_error_status e) as He.
      rewrite Hok in He. done.
  - destruct cookie as [t |]; [destruct (decide (t = "")) as [-> | Hne] |];
      try (intros [= <- <-]; simpl; by naive_solver).
    intros [(_ & ->) | (e & ->)]%logout_reply; simpl; [done | by eauto | done].
  - destruct (AuthMiddleware _ _ _); [| intros [= <- <-]; simpl; by eauto].
    intros [(u & _ & ->) | (e & _ & ->)]%calling_reply; simpl; by eauto.
Qed.

(** A request that is answered with success uses up the cookie it hands in. *)
Lemma hand_in_uses_up us env t req st st' r :
  auth_inv us unused (as_db st) -> draws_outside us env -> hands_in req = true ->
  serve_auth jm frontendURL secureCookies env (Some t) req st = (st', r) ->
  resp_status r.1 = StatusOK ->
  t <> "" /\ auth_inv (fun h => us h \/ h = hashToken t) unused (as_db st').
Proof.
  intros Hdb Hd Hin Hs Hok. destruct (decide (t = "")) as [-> | Ht].
  { by destruct req; try done; injection Hs as <- <-. }
  split; [done |]. destruct req; try done; simpl in Hs.
  - apply renewal_reply in Hs as [(resp & Hr & _ & ->) | (e & _ & _ & ->)]; [| | done].
    + apply (RefreshToken_uses_up jm us unused env t (as_db st) _ resp Hdb); [| done].
      intros w Hw [? | []]. by apply (Hd w Hw).
    + pose proof (refresh_error_status e). simpl in Hok. unfold StatusOK in Hok. lia.
  - apply logout_reply in Hs as [(Hl & ->) | (e & ->)]; [| done | done].
    by apply (Logout_uses_up us unused env t (as_db st)).
Qed.

(** The cookies handed in are used up and the one that is held is not one of
    them. *)
Record session_inv (b : browser) : Prop := {
  si_auth : auth_inv (spent_hash b) unused (as_db (br_auth b));
  si_spent t : t ∈ br_spent b -> t <> "";
  si_held t : br_cookie b = Some t -> ~ spent_hash b (hashToken t)
}.

Lemma auth_inv_more us us' ul db :
  (forall h, us' h -> us h) -> auth_inv us ul db -> auth_inv us' ul db.
Proof. intros Hsub [N1 N2 N3 N4 N5 N6]. split; [done .. | | done]. intros k t Ht Hu. eauto. Qed.

Lemma happens_keeps e b : session_inv b -> draws_anew e b -> session_inv (happens e b).
Proof.
  intros [Hdb Hsp Hheld] Hd. destruct e as [env req | c]; simpl in *.
  2: { split; simpl; [| done | done]. apply serve_keeps; [| done].
       unfold avoids, draws_outside, unused in *. case_match; naive_solver. }
  assert (draws_outside (fun h => spent_hash b h \/ unused h) env) as Hd'.
  { intros t Ht [Hu | []]. by apply (Hd t Ht). }
  pose proof (serve_auth_keeps (spent_hash b) unused env (sent_cookie (an_clock env) (br_jar b)) req
    (br_auth b) Hd' Hdb) as Hnew.
  unfold reply_of. destruct (serve_auth _ _ _ env _ req (br_auth b)) as [st r] eqn:Hs.
  simpl in Hnew. pose proof (fun w => kept_cookie _ _ (br_cookie b) _ _ _ _ _ w Hdb Hd Hheld Hs) as Hkept.
  unfold spent_by. unfold br_cookie in Hkept at 1. setoid_rewrite <- (keep_cookie_value (an_clock env)) in Hkept.
  destruct (sent_cookie (an_clock env) (br_jar b)) as [t |] eqn:Hc;
    [destruct (hands_in req && (resp_status r.1 =? StatusOK)) eqn:Hin |].
  - apply andb_prop in Hin as [Hin Hok%Z.eqb_eq].
    destruct (hand_in_uses_up _ _ _ _ _ _ _ Hdb Hd Hin Hs Hok) as [Ht Hup]. split; simpl.
    + eapply auth_inv_more, Hup. unfold spent_hash. simpl. set_solver.
    + set_solver.
    + intros w Hw. destruct (Hkept w Hw) as [Hold Hnot]. specialize (Hnot Hin Hok t eq_refl).
      unfold spent_hash in *. simpl. set_solver.
  - split; simpl; [done | done |]. intros w Hw. by apply Hkept.
  - split; simpl; [done | done |]. intros w Hw. by apply Hkept.
Qed.

Lemma browse_keeps es b : all_anew es b -> session_inv b -> session_inv (browse es b).
Proof. revert b. induction es as [| e es IH]; intros b; [done |]. intros [He Hes] Hb. by apply IH, happens_keeps. Qed.

Lemma new_browser_inv : session_inv new_browser.
Proof. split; simpl; [apply auth_inv_empty | intros t Ht; set_solver | done]. Qed.

(** C27. What a browser has handed in is dead.  After any history of requests
    of the browser and calls of other clients, among which the random
    generator did not repeat a token that was handed in before: the cookie
    that the browser holds is none of those that it traded for a new session
    or signed out with, and whoever sends one of these again is turned away
    with an error, 401 unless a statement fails, gets no cookie, and changes
    nothing. *)
Theorem spent_cookies_are_dead es env t :
  let b := browse es new_browser in
  all_anew es new_browser -> t ∈ br_spent b ->
  br_cookie b <> Some t /\
  exists r, RefreshToken_handler jm secureCookies env (Some t) (br_auth b) = (br_auth b, (r, None)) /\
    400 <= resp_status r /\ (an_io env 0%nat = None -> resp_status r = StatusUnauthorized).
Proof.
  intros b Hes Ht. destruct (browse_keeps es new_browser Hes new_browser_inv) as [Hdb Hsp Hheld].
  fold b in Hdb, Hsp, Hheld. assert (spent_hash b (hashToken t)) as Hused by (by apply list_elem_of_fmap_2).
  split; [intros Hc; by apply (Hheld t Hc) |].
  destruct (revoked_token_is_refused jm env t (as_db (br_auth b))) as (e & He & Hio).
  { intros k w Hk Hh. apply (ai_revoked _ _ _ Hdb k w Hk). by rewrite <- Hh. }
  exists (refresh_error e). unfold RefreshToken_handler, required, calling, on_authdb. simpl.
  rewrite bool_decide_eq_false_2 by (by apply Hsp). rewrite He.
  split_and!; [by destruct (br_auth b) | apply refresh_error_status |].
  intros Hnone. by destruct (Hio Hnone) as [-> | ->].
Qed.
End Browser.

(** ** A concrete run *)

Module SessionExample.
Import AuthExample.
#[local] Existing Instance lower_same.
#[local] Existing Instance plain_bcrypt.
#[local] Existing Instance plain_url.
#[local] Existing Instance one_token.

Definition others : list web_event := OthersCall <$> confirmed.
Definition sign_in : web_event :=
  BrowserAsks login (ReqLogin (Some (mkLoginRequestDTO "ada@x.org" "correct horse"))).
Definition session : list web_event := others ++ [sign_in; BrowserAsks exchange1 ReqRefresh].

Lemma nothing_spent (b : browser) env : br_spent b = [] -> draws_outside (spent_hash b) env.
Proof. unfold draws_outside, spent_hash. intros -> t _. apply not_elem_of_nil. Qed.

Lemma session_run :
  br_cookie (browse jm frontend true session new_browser) = Some "refresh-2" /\
  br_spent (browse jm frontend true session new_browser) = ["refresh-1"].
Proof. split; vm_compute; reflexivity. Qed.

Lemma spent_cookies_are_dead_witness :
  let b := browse jm frontend true session new_browser in
  exists r, RefreshToken_handler jm true exchange2 (Some "refresh-1") (br_auth b) = (br_auth b, (r, None)) /\
    resp_status r = StatusUnauthorized.
Proof.
  intros b. pose proof session_run as [Hc Hs].
  destruct (spent_cookies_are_dead jm frontend true session exchange2 "refresh-1") as (_ & r & Hr & _ & Hno).
  - repeat split; apply nothing_spent; vm_compute; reflexivity.
  - rewrite Hs. apply list_elem_of_here.
  - exists r. split; [exact Hr | apply Hno; reflexivity].
Defined.
End SessionExample.
