(* ===== verification/AuthRenewal.v ===== *)
(** * Auth: sessions last

    A session that is renewed in time goes on, whatever the other clients of
    the service do in between: each renewal is answered with the next cookie,
    and the last one can be signed out. *)

From S2P Require Import Prelude Sql GoStrings CPHttp AuthRepo AuthService AuthFacts AuthTheorems.
From S2P Require Import ApiHttp AuthHttp AuthSessions.

Section Alive.
Context `{DbLower} `{AuthCrypto}.

(** The row of a session's token, and its user. *)
Definition session_row (uid : uuid) (hash : string) (expires : Z) (db : authdb) (t : RefreshToken) : Prop :=
  rt_TokenHash t = hash /\ rt_RevokedAt t = None /\ rt_ExpiresAt t = expires /\ rt_UserID t = uid /\
  references (au_identities db) (rt_AuthIdentityID t) = true.

Definition alive (k uid : uuid) (hash : string) (expires : Z) (db : authdb) : Prop :=
  (exists t, au_tokens db !! k = Some t /\ session_row uid hash expires db t) /\
  (exists u, au_users db !! uid = Some u /\ may_have_session u = Ok tt).

(** The calls of others that do not end it: nobody else has its token, its
    user's tokens are not all revoked, and the clean-up does not run thirty
    days after its expiry. *)
Definition spares (uid : uuid) (hash : string) (expires : Z) (c : auth_call) : Prop :=
  match c with
  | CallRefreshToken _ token | CallLogout _ token => hashToken token <> hash
  | CallRevokeAllUserTokens _ _ userID => userID <> uid
  | CallCleanupExpiredTokens _ now => now - 30 * 24 * 60 * time_Minute <= expires
  | _ => True
  end.

Section Kept.
Context (k uid : uuid) (hash : string) (expires : Z).
Notation Alive := (alive k uid hash expires).

Lemma references_mono {V} (t t' : gmap uuid V) (id : option uuid) :
  (forall i, is_Some (t !! i) -> is_Some (t' !! i)) -> references t id = true -> references t' id = true.
Proof. unfold references. destruct id; [| done]. rewrite !bool_decide_eq_true. auto. Qed.

Lemma alive_users db users :
  (forall u, au_users db !! uid = Some u -> may_have_session u = Ok tt ->
     exists u', users !! uid = Some u' /\ may_have_session u' = Ok tt) ->
  Alive db -> Alive (set_users db users).
Proof. intros Hu [Ht (u & Hk & Hm)]. split; [done | by apply (Hu u)]. Qed.

Lemma alive_identities db ids :
  (forall i, is_Some (au_identities db !! i) -> is_Some (ids !! i)) ->
  Alive db -> Alive (set_identities db ids).
Proof.
  intros Hi [(t & Ht & ? & ? & ? & ? & Hr) Hu]. split; [| done]. exists t. unfold session_row. split_and!; [done .. |].
  by apply (references_mono (au_identities db)).
Qed.

Lemma alive_tokens db ts :
  (forall t, au_tokens db !! k = Some t -> session_row uid hash expires db t ->
     exists t', ts !! k = Some t' /\ session_row uid hash expires db t') ->
  Alive db -> Alive (set_tokens db ts).
Proof. intros Ht [(t & Hk & Hs) Hu]. split; [by apply (Ht t) | done]. Qed.

Lemma CreateUser_spares io u : keeps Alive (CreateUser io u).
Proof.
  intros db Hdb. unfold CreateUser, failed_unique, failed.
  destruct (bool_decide (au_users db !! u_ID u = None)) eqn:E;
    repeat case_match; simpl; try done. rewrite bool_decide_eq_true in E.
  apply alive_users; [| done]. intros w Hw Hm. exists w. split; [| done].
  rewrite lookup_insert_ne; [done | congruence].
Qed.

Lemma CreateIdentity_spares io i : keeps Alive (CreateIdentity io i).
Proof.
  intros db Hdb. unfold CreateIdentity, failed_unique, failed. repeat case_match; simpl; try done.
  apply alive_identities; [| done]. intros j Hj. by apply lookup_insert_is_Some'; right.
Qed.

Lemma UpdateLastLogin_spares io now id : keeps Alive (UpdateLastLogin io now id).
Proof.
  apply keeps_statement. intros db Hdb. apply alive_identities; [| done]. intros j Hj.
  destruct (update_key_cases id (fun _ => true) (logged_in now) (au_identities db))
    as [(v & Hv & _ & ->) | [_ ->]]; [| done]. by apply lookup_insert_is_Some'; right.
Qed.

Lemma CreateRefreshToken_spares io t : keeps Alive (CreateRefreshToken io t).
Proof.
  apply keeps_statement. intros db Hdb. unfold failed.
  destruct (bool_decide (au_tokens db !! rt_ID t = None)) eqn:E; repeat case_match; simpl; try done.
  rewrite bool_decide_eq_true in E. apply alive_tokens; [| done]. intros w Hw Hs. exists w.
  split; [| done]. rewrite lookup_insert_ne; [done | congruence].
Qed.

Lemma RevokeRefreshToken_spares io now id by_ : id <> k -> keeps Alive (RevokeRefreshToken io now id by_).
Proof.
  intros Hne. apply keeps_statement. intros db Hdb. case_match; [done |]. simpl.
  apply alive_tokens; [| done]. intros w Hw Hs. exists w. split; [| done].
  destruct (update_key_cases id (fun _ => true) (revoked now by_) (au_tokens db))
    as [(v & Hv & _ & ->) | [_ ->]]; [| done]. simpl. by rewrite lookup_insert_ne.
Qed.

Lemma RevokeAll_spares io now u : u <> uid -> keeps Alive (RevokeAllUserTokens io now u).
Proof.
  intros Hne. apply keeps_statement. intros db Hdb. apply alive_tokens; [| done]. intros w Hw Hs.
  exists w. split; [| done]. rewrite (lookup_update_where_Some _ _ _ _ _ Hw). unfold live_token_of.
  destruct Hs as (_ & _ & _ & Hu & _). rewrite Hu. by rewrite bool_decide_eq_false_2.
Qed.

Lemma Cleanup_spares io now :
  now - 30 * 24 * 60 * time_Minute <= expires -> keeps Alive (CleanupExpiredTokens io now).
Proof.
  intros Hnow. apply keeps_statement. intros db Hdb. apply alive_tokens; [| done]. intros w Hw Hs.
  eexists. split.
  - rewrite lookup_fmap_Some. exists w. split; [reflexivity |]. apply map_lookup_filter_Some.
    split; [done |]. destruct Hs as (_ & _ & He & _). unfold long_expired. simpl. lia.
  - by destruct Hs as (? & ? & ? & ? & ?).
Qed.

Lemma CreateLink_spares io now fresh u h : keeps Alive (CreateEmailVerificationToken io now fresh u h).
Proof. apply keeps_statement. intros db Hdb. unfold failed. by repeat case_match. Qed.

Lemma DropLink_spares io id : keeps Alive (DeleteEmailVerificationTokenByID io id).
Proof. apply keeps_statement. intros db Hdb. unfold failed. by repeat case_match. Qed.

(** The row that is written back is that of a user who may go on. *)
Lemma UpdateUser_spares io u :
  (u_ID u = uid -> may_have_session u = Ok tt) -> keeps Alive (UpdateUser io u).
Proof.
  intros Hu db Hdb. unfold UpdateUser, failed.
  assert (Alive (set_users db (update_key (u_ID u) (fun _ => true) (written_back u) (au_users db)).1)) as Hup.
  { apply alive_users; [| done]. intros w Hw Hm.
    destruct (update_key_cases (u_ID u) (fun _ => true) (written_back u) (au_users db))
      as [(v & Hv & _ & ->) | [_ ->]]; [| eauto]. simpl.
    destruct (decide (u_ID u = uid)) as [Heq | Hne].
    - exists (written_back u v). rewrite Heq, lookup_insert_eq. split; [done |]. by apply Hu.
    - exists w. by rewrite lookup_insert_ne. }
  destruct (update_key _ _ _ _) as [users n]. by repeat case_match.
Qed.
End Kept.
End Alive.

#[export] Hint Resolve CreateUser_spares CreateIdentity_spares UpdateLastLogin_spares
  CreateRefreshToken_spares CreateLink_spares DropLink_spares : capstone.

Section Others.
Context `{DbLower} `{Bcrypt} `{AuthCrypto} `{GoURL}.
Context (jm : JWTManager) (frontendURL : string).
Context (k uid : uuid) (hash : string) (expires : Z).
Notation Alive := (alive k uid hash expires).

Lemma draws_any env : draws_outside unused env.
Proof. intros t _ []. Qed.

(** A stored token with another hash is another row. *)
Lemma other_row us ul db j t :
  auth_inv us ul db -> Alive db -> au_tokens db !! j = Some t -> rt_TokenHash t <> hash -> rt_ID t <> k.
Proof.
  intros Hdb [(w & Hw & Hh & _) _] Ht Hne Heq. rewrite <- (keyed_key _ _ _ (ai_tokens _ _ _ Hdb) _ _ Ht) in Ht.
  rewrite Heq in Ht. congruence.
Qed.

Lemma RefreshToken_spares env token db :
  auth_inv unused unused db -> hashToken token <> hash -> Alive db ->
  Alive (RefreshToken_ jm env token db).1.
Proof.
  intros Hdb Hne Ha. unfold RefreshToken_. apply keeps_guarded; [| done |].
  { unfold usable_refresh_token. repeat (apply readonly_bind; [| intros ?]); eauto with capstone. }
  intros [old u] (_ & Hh & (j & Hj) & _)%usable_refresh_token_ok. simpl in *.
  assert (rt_ID old <> k) as Hk by (apply (other_row _ _ _ _ _ Hdb Ha Hj); congruence).
  pose proof (draws_any env). pose proof (RevokeRefreshToken_spares k uid hash expires) as Hrev.
  revert db Hdb Ha Hj. assert (keeps Alive (exchange_refresh_token jm env old u)) as Hx; [| auto].
  unfold exchange_refresh_token. keeping.
Qed.

Lemma Logout_spares env token db :
  auth_inv unused unused db -> hashToken token <> hash -> Alive db -> Alive (Logout env token db).1.
Proof.
  intros Hdb Hne Ha. unfold Logout. apply keeps_guarded; [by apply readonly_attempt, readonly_GetRefreshTokenByHash | done |].
  intros r Hr. destruct r as [old | e]; [| by case_match].
  assert (GetRefreshTokenByHash (an_io env) (hashToken token) db = (db, Ok old)) as Hg.
  { revert Hr. mrun. destruct (GetRefreshTokenByHash _ _ db). naive_solver. }
  apply GetRefreshTokenByHash_ok in Hg as (_ & Hh & j & Hj).
  apply keeps_map_err; [| done]. apply RevokeRefreshToken_spares.
  apply (other_row _ _ _ _ _ Hdb Ha Hj). congruence.
Qed.

Lemma consume_spares env link db :
  auth_inv unused unused db -> Alive db -> Alive (consume env link db).1.
Proof.
  intros Hdb Ha. unfold consume. apply keeps_guarded; [eauto with capstone | done |].
  intros u Hu. rewrite map_err_ok, GetUserByID_ok in Hu. destruct Hu as (_ & Hu & _).
  assert (keeps Alive (UpdateUser (shift_faults 4 (an_io env)) (verified (an_clock env) u))) as Hup.
  { apply UpdateUser_spares. simpl. intros Heq. destruct Ha as [_ (w & Hw & Hm)].
    rewrite <- (ai_users _ _ _ Hdb _ _ Hu) in Hu. rewrite Heq in Hu. simplify_eq. revert Hm. unfold may_have_session. simpl. by case_match. }
  clear Hdb Hu. revert db Ha. assert (keeps Alive
    (_ ← map_err (wrap (if u_EmailVerified u then "remove used verification token"
                        else "consume verification token"))
       (DeleteEmailVerificationTokenByID (shift_faults 2 (an_io env)) (ev_ID link));
     if u_EmailVerified u then mret tt
     else map_err (wrap "update user")
            (UpdateUser (shift_faults 4 (an_io env)) (verified (an_clock env) u)))) as Hk; [| auto].
  keeping.
Qed.

Lemma VerifyEmail_spares env token :
  keeps (fun st => auth_inv unused unused (as_db st) /\ Alive (as_db st)) (VerifyEmail frontendURL env token).
Proof.
  pose proof (draws_any env). pose proof (draws_unused env). unfold VerifyEmail.
  set (P := fun db => auth_inv unused unused db /\ Alive db).
  case_match; [by intros st Hst |]. apply keeps_bind; [apply (keeps_on_authdb P); keeping | intros link].
  case_match; (apply keeps_bind; [apply (keeps_on_authdb P); intros db [Hdb Ha]; split | intros ?]).
  - clear Ha. revert db Hdb. change (keeps (auth_inv unused unused) (resend frontendURL env link)).
    unfold resend. keeping.
  - clear Hdb. revert db Ha. change (keeps Alive (resend frontendURL env link)). unfold resend. keeping.
  - apply keeps_bind; [apply (keeps_publish P) | by intros ? st Hst].
  - clear Ha. revert db Hdb. change (keeps (auth_inv unused unused) (consume env link)).
    unfold consume. keeping.
  - by apply consume_spares.
  - by intros st Hst.
Qed.

(** What the others do, it stays. *)
Lemma serve_spares c st :
  auth_inv unused unused (as_db st) -> spares uid hash expires c -> Alive (as_db st) ->
  Alive (as_db (serve jm frontendURL c st)).
Proof.
  intros Hdb Hc Ha. destruct c; simpl in *.
  - assert (keeps (fun st => Alive (as_db st)) (Register frontendURL env req)) as Hk; [| auto].
    pose proof (draws_any env). apply keeps_bind; [apply keeps_on_authdb | intros ?; apply keeps_publish].
    unfold register_account. keeping.
  - revert Ha. apply keeps_on_authdb. pose proof (draws_any env). unfold Login, generateAuthResponse. keeping.
  - unfold on_authdb. pose proof (RefreshToken_spares env token _ Hdb Hc Ha).
    by destruct (RefreshToken_ _ _ _ _).
  - unfold on_authdb. pose proof (Logout_spares env token _ Hdb Hc Ha). by destruct (Logout _ _ _).
  - by apply (VerifyEmail_spares env token st (conj Hdb Ha)).
  - revert Ha. by apply keeps_on_authdb, RevokeAll_spares.
  - revert Ha. by apply keeps_on_authdb, Cleanup_spares.
Qed.
End Others.

(** ** Renewals *)

Section Renewals.
Context `{DbLower} `{Bcrypt} `{AuthCrypto} `{GoURL}.
Context (jm : JWTManager) (frontendURL : string) (secureCookies : bool).

(** Nothing fails at a renewal, and what is drawn is new. *)
Definition ready (env : auth_env) (uid : uuid) (token : string) (db : authdb) : Prop :=
  an_io env = no_faults /\ an_token env = Ok token /\ token <> "" /\
  au_tokens db !! an_id1 env = None /\ no_row (has_hash (hashToken token)) (au_tokens db) = true /\
  forall u, au_users db !! uid = Some u -> exists access,
    GenerateAccessToken jm (an_clock env) (u_ID u) (u_Handle u) (permission_keys env) = Ok access.

Lemma alive_found k uid t expires db :
  auth_inv unused unused db -> alive k uid (hashToken t) expires db ->
  exists row, au_tokens db !! k = Some row /\ rt_ID row = k /\
    session_row uid (hashToken t) expires db row /\
    select_where (has_hash (hashToken t)) (au_tokens db) = [row].
Proof.
  intros Hdb [(row & Hk & Hs) _]. exists row. split_and!; try done.
  - apply (keyed_key _ _ _ (ai_tokens _ _ _ Hdb) _ _ Hk).
  - pose proof Hs as [Hh _]. apply (select_unique rt_ID rt_TokenHash _ _ _ _ (ai_tokens _ _ _ Hdb)) with (2 := Hk).
    + intros w Hw%bool_decide_eq_true. congruence.
    + by apply bool_decide_eq_true.
Qed.

Lemma renewal_succeeds k uid t expires env token db :
  auth_inv unused unused db -> alive k uid (hashToken t) expires db -> an_clock env <= expires ->
  ready env uid token db ->
  exists db' resp, RefreshToken_ jm env t db = (db', Ok resp) /\ ar_RefreshToken resp = token /\
    alive (an_id1 env) uid (hashToken token) (an_clock env + jm_refreshTokenDuration jm) db'.
Proof.
  intros Hdb Ha Hnow (Hio & Htok & _ & Hfresh & Hrow & Hsign).
  destruct (alive_found _ _ _ _ _ Hdb Ha) as (row & Hk & Hid & (Hh & Hr & He & Hu & Href) & Hsel).
  destruct Ha as [_ (u & Huser & Hmay)]. destruct (Hsign u Huser) as [access Hacc].
  pose proof (ai_users _ _ _ Hdb _ _ Huser) as Huid.
  assert (check_refresh_token (an_clock env) row = Ok tt) as Hcheck
    by (apply check_refresh_token_ok; split; [done | lia]).
  assert (usable_refresh_token env t db = (db, Ok (row, u))) as Husable.
  { unfold usable_refresh_token, GetRefreshTokenByHash, GetUserByID, statement, select_one. mrun.
    rewrite Hio, Hsel. unfold no_faults, shift_faults. mrun. rewrite Hcheck. mrun.
    rewrite Hu, Huser. mrun. by rewrite Hmay. }
  unfold RefreshToken_, mbind, M_bind. rewrite Husable. simpl.
  set (new := new_refresh_token jm env (u_ID u) (rt_AuthIdentityID row) token).
  set (db1 := set_tokens db (<[an_id1 env := new]> (au_tokens db))).
  set (db2 := set_tokens db1 (<[k := revoked (an_now env) (Some (an_id1 env)) row]> (au_tokens db1))).
  assert (an_id1 env <> k) as Hne by congruence.
  assert (CreateRefreshToken (shift_faults 2 (an_io env)) new db = (db1, Ok tt)) as Hc.
  { unfold CreateRefreshToken, statement. rewrite Hio. unfold shift_faults, no_faults. simpl.
    rewrite Hfresh, Hrow, Huid, Huser, Href. done. }
  assert (RevokeRefreshToken (shift_faults 3 (an_io env)) (an_now env) k (Some (an_id1 env)) db1
    = (db2, Ok tt)) as Hv.
  { unfold RevokeRefreshToken, statement. rewrite Hio. unfold shift_faults, no_faults. simpl.
    rewrite lookup_insert_eq. rewrite (bool_decide_eq_true_2 (is_Some (Some new))) by done.
    rewrite andb_false_r.
    rewrite (update_key_hit k (fun _ => true) _ _ row); [done | | done]. by rewrite lookup_insert_ne. }
  unfold exchange_refresh_token, random_token, sign. rewrite Htok. mrun. fold new. rewrite Hc, Hid, Hv, Hacc.
  do 2 eexists. split_and!; [done | done |]. split; simpl.
  - exists new. rewrite lookup_insert_ne, lookup_insert_eq by done. split; [done |].
    unfold session_row, new. by rewrite Huid.
  - by exists u.
Qed.

Lemma signout_succeeds k uid t expires env db :
  auth_inv unused unused db -> alive k uid (hashToken t) expires db -> an_io env = no_faults ->
  exists db', Logout env t db = (db', Ok tt).
Proof.
  intros Hdb Ha Hio. destruct (alive_found _ _ _ _ _ Hdb Ha) as (row & Hk & Hid & _ & Hsel).
  unfold Logout, GetRefreshTokenByHash, RevokeRefreshToken, statement, select_one. rewrite Hio.
  mrun. unfold no_faults, shift_faults. rewrite Hsel. simpl. rewrite andb_false_r. by eexists.
Qed.

(** A sign-in opens a session. *)
Lemma Login_alive env email password db db' resp :
  auth_inv unused unused db -> Login jm env email password db = (db', Ok resp) ->
  alive (an_id1 env) (u_ID (ar_User resp)) (hashToken (ar_RefreshToken resp))
    (an_clock env + jm_refreshTokenDuration jm) db'.
Proof.
  intros Hdb Hl. unfold Login in Hl. rewrite bind_ok in Hl. destruct Hl as (d1 & i & Hi & Hk).
  rewrite map_err_ok in Hi. apply GetIdentity_ok in Hi as (-> & _ & j & Hj).
  rewrite bind_ok in Hk. destruct Hk as (d2 & [] & [_ ->]%lift_ok & Hk).
  rewrite bind_ok in Hk. destruct Hk as (d3 & u & Hu & Hk).
  rewrite map_err_ok, GetUserByID_ok in Hu. destruct Hu as (_ & Hu & ->).
  rewrite bind_ok in Hk. destruct Hk as (d4 & [] & [Hmay ->]%lift_ok & Hk).
  rewrite bind_ok_unit in Hk. destruct Hk as (d5 & Hl & Hk).
  rewrite map_err_ok in Hl. apply UpdateLastLogin_ok in Hl as ->.
  apply generateAuthResponse_ok in Hk as (_ & -> & -> & _). simpl.
  rewrite <- (ai_identities _ _ _ Hdb _ _ Hj) in Hj. split; simpl.
  - eexists. rewrite lookup_insert_eq. split; [done |]. unfold session_row. simpl. split_and!; [done .. |].
    rewrite (update_key_hit _ _ _ _ i Hj eq_refl). simpl. by rewrite lookup_insert_eq.
  - exists u. by rewrite (ai_users _ _ _ Hdb _ _ Hu).
Qed.

(** Visits of the browser to the renewal, each after calls of others: the
    answers, and what is left. *)
Fixpoint visits (vs : list (list auth_call * auth_env)) (b : browser) : list auth_reply * browser :=
  match vs with
  | [] => ([], b)
  | (others, env) :: vs =>
      let b1 := browse jm frontendURL secureCookies (OthersCall <$> others) b in
      let r := (reply_of jm frontendURL secureCookies env ReqRefresh b1).2 in
      let '(rs, b2) := visits vs (happens jm frontendURL secureCookies (BrowserAsks env ReqRefresh) b1) in
      (r :: rs, b2)
  end.

(** How long the browser keeps the session's cookie, whatever duration is
    configured for the tokens. *)
Definition cookie_age : Z := 7 * 24 * 60 * 60 * time_Second.

(** Each visit comes before the session's row expires and while the browser
    has the cookie, the others spare it, and the renewal has what it needs; the
    next row and the next cookie last as long again. *)
Fixpoint in_time (uid : uuid) (t : string) (expires until : Z)
    (vs : list (list auth_call * auth_env)) (b : browser) : Prop :=
  match vs with
  | [] => True
  | (others, env) :: vs =>
      let b1 := browse jm frontendURL secureCookies (OthersCall <$> others) b in
      Forall (spares uid (hashToken t) expires) others /\ an_clock env <= expires /\
      an_clock env <= until /\
      exists token, ready env uid token (as_db (br_auth b1)) /\
        in_time uid token (an_clock env + jm_refreshTokenDuration jm) (an_clock env + cookie_age) vs
          (happens jm frontendURL secureCookies (BrowserAsks env ReqRefresh) b1)
  end.

(** When the browser was last given a cookie: at the last visit, or before. *)
Definition last_given (given : Z) (vs : list (list auth_call * auth_env)) : Z :=
  List.last (an_clock <$> vs.*2) given.

Definition holds (k uid : uuid) (t : string) (expires until : Z) (b : browser) : Prop :=
  br_jar b = Some (t, Some until) /\ t <> "" /\ auth_inv unused unused (as_db (br_auth b)) /\
  alive k uid (hashToken t) expires (as_db (br_auth b)).

Lemma happens_inv e b :
  auth_inv unused unused (as_db (br_auth b)) ->
  auth_inv unused unused (as_db (br_auth (happens jm frontendURL secureCookies e b))).
Proof.
  intros Hb. destruct e as [env req | c]; simpl.
  - unfold reply_of. pose proof (serve_auth_keeps jm frontendURL secureCookies unused unused env
      (sent_cookie (an_clock env) (br_jar b)) req (br_auth b) (draws_unused env) Hb). by destruct (serve_auth _ _ _ _ _ _ _).
  - apply serve_keeps; [| done]. by apply Forall_singleton, avoids_unused.
Qed.

Lemma browse_inv es b :
  auth_inv unused unused (as_db (br_auth b)) ->
  auth_inv unused unused (as_db (br_auth (browse jm frontendURL secureCookies es b))).
Proof. revert b. induction es as [| e es IH]; intros b Hb; [done |]. by apply IH, happens_inv. Qed.

Lemma others_hold k uid t expires until others b :
  holds k uid t expires until b -> Forall (spares uid (hashToken t) expires) others ->
  holds k uid t expires until (browse jm frontendURL secureCookies (OthersCall <$> others) b).
Proof.
  intros Hb Ho. revert b Hb. induction Ho as [| c others Hc _ IH]; intros b (Hck & Hne & Hdb & Ha); [done |].
  apply IH. split_and!; [done | done | by apply (happens_inv (OthersCall c)) |]. by apply serve_spares.
Qed.

(** A visit in time is answered with the next cookie. *)
Lemma visit_holds k uid t expires until env token b :
  holds k uid t expires until b -> an_clock env <= expires -> an_clock env <= until ->
  ready env uid token (as_db (br_auth b)) ->
  resp_status (reply_of jm frontendURL secureCookies env ReqRefresh b).2.1 = StatusOK /\
  holds (an_id1 env) uid token (an_clock env + jm_refreshTokenDuration jm) (an_clock env + cookie_age)
    (happens jm frontendURL secureCookies (BrowserAsks env ReqRefresh) b).
Proof.
  intros (Hck & Hne & Hdb & Ha) Hnow Huntil Hready.
  destruct (renewal_succeeds _ _ _ _ _ _ _ Hdb Ha Hnow Hready) as (db' & resp & Hr & Htok & Ha').
  pose proof (happens_inv (BrowserAsks env ReqRefresh) b Hdb) as Hdb'. revert Hdb'. unfold holds. simpl.
  unfold reply_of, sent_cookie. rewrite Hck, (proj2 (Z.leb_le _ _) Huntil). simpl.
  unfold RefreshToken_handler, required, calling, on_authdb. simpl. rewrite bool_decide_eq_false_2 by done. rewrite Hr. simpl. rewrite Htok. intros Hdb'.
  by destruct Hready as (_ & _ & ? & _).
Qed.

Lemma last_given_cons given others env vs :
  last_given given ((others, env) :: vs) = last_given (an_clock env) vs.
Proof.
  unfold last_given. rewrite !fmap_cons. simpl snd. generalize (an_clock <$> vs.*2) as l.
  intros l. revert given. generalize (an_clock env).
  induction l as [| x l IH]; intros c given; [done |].
  change (List.last (x :: l) given = List.last (x :: l) c). by rewrite !IH.
Qed.

Lemma visits_hold vs k uid t expires given b :
  holds k uid t expires (given + cookie_age) b -> in_time uid t expires (given + cookie_age) vs b ->
  Forall (fun r : auth_reply => resp_status r.1 = StatusOK) (visits vs b).1 /\
  exists k' t' expires', holds k' uid t' expires' (last_given given vs + cookie_age) (visits vs b).2.
Proof.
  revert k t expires given b. induction vs as [| [others env] vs IH]; intros k t expires given b Hb; simpl.
  { intros _. split; [constructor | by eexists _, _, _]. }
  intros (Ho & Hnow & Huntil & token & Hready & Hrest).
  destruct (visit_holds _ _ _ _ _ _ _ _ (others_hold _ _ _ _ _ _ _ Hb Ho) Hnow Huntil Hready) as [Hok Hnext].
  rewrite last_given_cons.
  destruct (IH _ _ _ _ _ Hnext Hrest) as [Hoks Hend]. destruct (visits vs _) as [rs b2]. simpl in *.
  split; [by constructor | done].
Qed.

(** C28. A session lasts.  Whatever has happened before, once a sign-in is
    answered with a session, a browser that comes back to renew it before the
    last token's expiry (the configured duration after it was drawn) and
    within the seven days for which it keeps the cookie (whatever duration is
    configured), is answered with success and the next cookie each time, any
    number of times and whatever calls of other clients are served in between,
    unless they use its own token, revoke all tokens of its user or clean up
    as if it were thirty days past the expiry; and when it signs out at last,
    within seven days again, that succeeds and removes the cookie; after these
    seven days it sends no cookie any more.  No statement of the browser's own
    requests fails and the tokens and identifiers they draw are new. *)
Theorem sessions_last es env body st resp vs :
  let b := browse jm frontendURL secureCookies es new_browser in
  reply_of jm frontendURL secureCookies env (ReqLogin body) b = (st, session_reply secureCookies resp) ->
  ar_RefreshToken resp <> "" ->
  let b1 := happens jm frontendURL secureCookies (BrowserAsks env (ReqLogin body)) b in
  in_time (u_ID (ar_User resp)) (ar_RefreshToken resp) (an_clock env + jm_refreshTokenDuration jm)
    (an_clock env + cookie_age) vs b1 ->
  Forall (fun r : auth_reply => resp_status r.1 = StatusOK) (visits vs b1).1 /\
  let b2 := (visits vs b1).2 in
  let until := last_given (an_clock env) vs + cookie_age in
  is_Some (br_cookie b2) /\
  (forall env', an_io env' = no_faults -> an_clock env' <= until ->
    resp_status (reply_of jm frontendURL secureCookies env' ReqLogout b2).2.1 = StatusOK /\
    br_cookie (happens jm frontendURL secureCookies (BrowserAsks env' ReqLogout) b2) = None) /\
  (forall now, until < now -> sent_cookie now (br_jar b2) = None).
Proof.
  intros b Hlogin Hne b1 Htime. assert (auth_inv unused unused (as_db (br_auth b))) as Hdb
    by apply browse_inv, auth_inv_empty.
  assert (holds (an_id1 env) (u_ID (ar_User resp)) (ar_RefreshToken resp)
    (an_clock env + jm_refreshTokenDuration jm) (an_clock env + cookie_age) b1) as Hb1.
  { pose proof (happens_inv (BrowserAsks env (ReqLogin body)) b Hdb) as Hdb1. fold b1 in Hdb1.
    unfold holds. revert Hdb1. subst b1. unfold happens. rewrite Hlogin. simpl. intros Hdb1.
    split_and!; [done .. |]. revert Hlogin. unfold reply_of. simpl. unfold Login_handler, decoded, required.
    repeat case_match; try done.
    intros [(resp' & [Hl _]%on_authdb_ok & Heq) | (e & _ & Heq)]%calling_reply; [| done].
    injection Heq as <-. by apply (Login_alive _ _ _ _ _ _ Hdb Hl). }
  destruct (visits_hold _ _ _ _ _ _ _ Hb1 Htime) as [Hoks (k & t & expires & Hck & Ht & Hdb2 & Ha2)].
  split; [done |]. intros b2 until. fold b2 until in Hck, Hdb2, Ha2. unfold br_cookie.
  split_and!; [by rewrite Hck | |].
  - intros env' Hio Hnow. destruct (signout_succeeds _ _ _ _ _ _ Hdb2 Ha2 Hio) as [db' Hout]. simpl.
    unfold reply_of, sent_cookie. rewrite Hck, (proj2 (Z.leb_le _ _) Hnow). simpl.
    unfold Logout_handler, required, calling, on_authdb. simpl.
    rewrite bool_decide_eq_false_2 by done. by rewrite Hout.
  - intros now Hnow. unfold sent_cookie. by rewrite Hck, (proj2 (Z.leb_gt _ _)).
Qed.
End Renewals.

(** ** A concrete run *)

Module RenewalExample.
Import AuthExample SessionExample.
#[local] Existing Instance lower_same.
#[local] Existing Instance plain_bcrypt.
#[local] Existing Instance plain_url.
#[local] Existing Instance one_token.

Definition renewals : list (list auth_call * auth_env) :=
  [([CallLogin login "eve@x.org" "guess"; CallRefreshToken exchange2 "guess"], exchange1);
   ([CallCleanupExpiredTokens no_faults (30 * time_Second)], exchange2)].

Definition opened : AuthResponse :=
  mkAuthResponse "aa.bb.cc" "refresh-1" 604800
    (mkUser 1%N "ada" (Some "ada@x.org") true None None UserStatusActive 0 (10 * time_Second)).

Definition visitor : browser := browse jm frontend true others new_browser.
Definition signed_in_browser : browser := happens jm frontend true sign_in visitor.

Lemma opened_run :
  (reply_of jm frontend true login
     (ReqLogin (Some (mkLoginRequestDTO "ada@x.org" "correct horse"))) visitor).2
  = session_reply true opened.
Proof. vm_compute. reflexivity. Qed.

Lemma renewals_in_time :
  in_time jm frontend true 1%N "refresh-1" ((20 + 604800) * time_Second)
    ((20 + 604800) * time_Second) renewals signed_in_browser.
Proof.
  repeat split.
  - repeat constructor. vm_compute. discriminate.
  - vm_compute. discriminate.
  - vm_compute. discriminate.
  - exists "refresh-2". split.
    + split_and!; try (vm_compute; congruence).
      intros u Hu. vm_compute in Hu. injection Hu as <-. eexists. vm_compute. reflexivity.
    + repeat split.
      * repeat constructor. vm_compute. discriminate.
      * vm_compute. discriminate.
      * vm_compute. discriminate.
      * exists "refresh-3". split; [| done]. split_and!; try (vm_compute; congruence).
        intros u Hu. vm_compute in Hu. injection Hu as <-. eexists. vm_compute. reflexivity.
Qed.

Lemma sessions_last_witness :
  Forall (fun r : auth_reply => resp_status r.1 = StatusOK)
    (visits jm frontend true renewals signed_in_browser).1 /\
  is_Some (br_cookie (visits jm frontend true renewals signed_in_browser).2).
Proof.
  destruct (sessions_last jm frontend true others login
    (Some (mkLoginRequestDTO "ada@x.org" "correct horse"))
    (reply_of jm frontend true login
      (ReqLogin (Some (mkLoginRequestDTO "ada@x.org" "correct horse"))) visitor).1 opened renewals)
    as [Hoks [Hheld _]].
  - rewrite <- opened_run. apply surjective_pairing.
  - discriminate.
  - apply renewals_in_time.
  - split; [exact Hoks | exact Hheld].
Defined.
End RenewalExample.
