(* ===== verification/RbacRepo.v ===== *)
(** * Access control: data and repositories

    [internal/api/rbac/domain/models.go] and [internal/api/rbac/repository]
    over the tables [roles], [permissions], [user_roles] and
    [role_permissions].  Deleting a role or a permission takes its
    assignments with it (ON DELETE CASCADE). *)

From S2P Require Import Prelude GoStrings Sql.

(** ** Data *)

Record Role := mkRole {
  role_ID : uuid;
  role_Name : string;
  role_Description : option string;
  role_CreatedAt : Z;
  role_UpdatedAt : Z
}.

Record Permission := mkPermission {
  perm_ID : uuid;
  perm_Key : string;
  perm_Description : option string;
  perm_CreatedAt : Z;
  perm_UpdatedAt : Z
}.

Record UserRole := mkUserRole {
  ur_UserID : uuid;
  ur_RoleID : uuid;
  ur_GrantedBy : option uuid;
  ur_GrantedAt : Z
}.

Record RoleWithPermissions := mkRoleWithPermissions {
  rwp_Role : Role;
  rwp_Permissions : list Permission
}.

Record UserWithRoles := mkUserWithRoles {
  uw_UserID : uuid;
  uw_Roles : list Role;
  uw_Permissions : list Permission
}.

(** The maps by name and by key, which the first question builds. *)
Definition RoleMap (u : UserWithRoles) : gmap string Role :=
  foldl (fun m r => <[role_Name r := r]> m) ∅ (uw_Roles u).
Definition PermMap (u : UserWithRoles) : gmap string Permission :=
  foldl (fun m p => <[perm_Key p := p]> m) ∅ (uw_Permissions u).

Definition HasRole (u : UserWithRoles) (roleName : string) : bool :=
  bool_decide (is_Some (RoleMap u !! roleName)).
Definition HasPermission (u : UserWithRoles) (permKey : string) : bool :=
  bool_decide (is_Some (PermMap u !! permKey)).

Fixpoint HasAnyPermission (u : UserWithRoles) (permKeys : list string) : bool :=
  match permKeys with
  | [] => false
  | key :: rest => if HasPermission u key then true else HasAnyPermission u rest
  end.

Fixpoint HasAllPermissions (u : UserWithRoles) (permKeys : list string) : bool :=
  match permKeys with
  | [] => true
  | key :: rest => if negb (HasPermission u key) then false else HasAllPermissions u rest
  end.

Definition GetPermissionKeys (u : UserWithRoles) : list string := perm_Key <$> uw_Permissions u.

(** ** Errors *)

Inductive rbac_sentinel :=
  | ErrRoleNotFound
  | ErrRoleAlreadyExists
  | ErrPermissionNotFound
  | ErrPermissionAlreadyExists.

#[export] Instance rbac_sentinel_eq_dec : EqDecision rbac_sentinel.
Proof. solve_decision. Defined.

#[export] Instance rbac_sentinel_text : SentinelText rbac_sentinel := fun s =>
  match s with
  | ErrRoleNotFound => "role not found"
  | ErrRoleAlreadyExists => "role already exists"
  | ErrPermissionNotFound => "permission not found"
  | ErrPermissionAlreadyExists => "permission already exists"
  end.

Abbreviation rbac_error := (goerr rbac_sentinel).

(** ** The database: the four tables and the users they refer to *)

Record rbacdb := mkRbacDb {
  rb_users : gset uuid;
  rb_roles : gmap uuid Role;
  rb_permissions : gmap uuid Permission;
  rb_user_roles : gmap (uuid * uuid) UserRole;
  rb_role_permissions : gset (uuid * uuid)
}.

Definition set_roles (db : rbacdb) roles : rbacdb :=
  mkRbacDb (rb_users db) roles (rb_permissions db) (rb_user_roles db) (rb_role_permissions db).
Definition set_permissions (db : rbacdb) perms : rbacdb :=
  mkRbacDb (rb_users db) (rb_roles db) perms (rb_user_roles db) (rb_role_permissions db).
Definition set_user_roles (db : rbacdb) urs : rbacdb :=
  mkRbacDb (rb_users db) (rb_roles db) (rb_permissions db) urs (rb_role_permissions db).
Definition set_role_permissions (db : rbacdb) rps : rbacdb :=
  mkRbacDb (rb_users db) (rb_roles db) (rb_permissions db) (rb_user_roles db) rps.

Abbreviation rbac_op A := (M rbacdb rbac_error A).

(** An INSERT or UPDATE that a UNIQUE constraint rejects: [exists_] is the
    error meant for it, when the driver's text is recognised. *)
Definition rejected {A} (what : string) (exists_ : rbac_sentinel) (text : string) : rbac_op A := fun db =>
  (db, Err (if isUniqueViolation text then Sentinel exists_ else failed_to what text)).

Section Repositories.
Context `{DbCollation}.

(** ** Roles *)

Definition has_name (name : string) (r : Role) : bool := bool_decide (role_Name r = name).

Definition CreateRole_row (io : faults) (role : Role) : rbac_op () := fun db =>
  match io 0%nat with
  | Some e => rejected "create role" ErrRoleAlreadyExists e db
  | None =>
      if negb (bool_decide (rb_roles db !! role_ID role = None)) then
        rejected "create role" ErrRoleAlreadyExists (unique_violation "roles_pkey") db
      else if negb (no_row (has_name (role_Name role)) (rb_roles db)) then
        rejected "create role" ErrRoleAlreadyExists (unique_violation "roles_name_key") db
      else (set_roles db (<[role_ID role := role]> (rb_roles db)), Ok tt)
  end.

Definition GetRoleByID (io : faults) (id : uuid) : rbac_op Role :=
  statement (failed_to "get role by id") io (fun db =>
    (db, match rb_roles db !! id with
         | Some r => Ok r
         | None => Err (Sentinel ErrRoleNotFound)
         end)).

Definition GetRoleByName (io : faults) (name : string) : rbac_op Role :=
  statement (failed_to "get role by name") io (fun db =>
    (db, select_one (has_name name) (rb_roles db) ErrRoleNotFound)).

Definition by_name (r s : Role) : bool := db_collate (role_Name r) (role_Name s).

Definition ListRoles (io : faults) : rbac_op (list Role) :=
  query_rows "list roles" io (fun db => order_by by_name (rows (rb_roles db))).

(** [SET name, description, updated_at] *)
Definition renamed (role : Role) (row : Role) : Role :=
  mkRole (role_ID row) (role_Name role) (role_Description role) (role_CreatedAt row)
    (role_UpdatedAt role).

Definition other_role (role : Role) (r : Role) : bool :=
  negb (bool_decide (role_ID r = role_ID role)) && has_name (role_Name role) r.

Definition UpdateRole_row (io : faults) (role : Role) : rbac_op () := fun db =>
  match io 0%nat with
  | Some e => rejected "update role" ErrRoleAlreadyExists e db
  | None =>
      if bool_decide (is_Some (rb_roles db !! role_ID role)) &&
         negb (no_row (other_role role) (rb_roles db)) then
        rejected "update role" ErrRoleAlreadyExists (unique_violation "roles_name_key") db
      else
        let '(roles, n) := update_key (role_ID role) (fun _ => true) (renamed role) (rb_roles db) in
        (set_roles db roles, affected io n ErrRoleNotFound)
  end.

(** The row and, by ON DELETE CASCADE, its assignments. *)
Definition drop_role (id : uuid) (db : rbacdb) : rbacdb :=
  mkRbacDb (rb_users db) (delete id (rb_roles db)) (rb_permissions db)
    (filter (fun kv => kv.1.2 <> id) (rb_user_roles db))
    (filter (fun rp => rp.1 <> id) (rb_role_permissions db)).

Definition DeleteRole (io : faults) (id : uuid) : rbac_op () :=
  statement (failed_to "delete role") io (fun db =>
    match rb_roles db !! id with
    | None => (db, affected io 0 ErrRoleNotFound)
    | Some _ => (drop_role id db, affected io 1 ErrRoleNotFound)
    end).

Definition by_key (p q : Permission) : bool := db_collate (perm_Key p) (perm_Key q).

Definition granted_to (db : rbacdb) (roleID : uuid) (p : Permission) : bool :=
  bool_decide ((roleID, perm_ID p) ∈ rb_role_permissions db).

Definition GetRoleWithPermissions (io : faults) (roleID : uuid) : rbac_op RoleWithPermissions :=
  role ← GetRoleByID io roleID;
  permissions ← query_rows "get role permissions" (shift_faults 1 io) (fun db =>
    order_by by_key (select_where (granted_to db roleID) (rb_permissions db)));
  mret (mkRoleWithPermissions role permissions).

(** ** Permissions *)

Definition has_key (key : string) (p : Permission) : bool := bool_decide (perm_Key p = key).

Definition CreatePermission_row (io : faults) (permission : Permission) : rbac_op () := fun db =>
  match io 0%nat with
  | Some e => rejected "create permission" ErrPermissionAlreadyExists e db
  | None =>
      if negb (bool_decide (rb_permissions db !! perm_ID permission = None)) then
        rejected "create permission" ErrPermissionAlreadyExists (unique_violation "permissions_pkey") db
      else if negb (no_row (has_key (perm_Key permission)) (rb_permissions db)) then
        rejected "create permission" ErrPermissionAlreadyExists
          (unique_violation "permissions_key_key") db
      else (set_permissions db (<[perm_ID permission := permission]> (rb_permissions db)), Ok tt)
  end.

Definition GetPermissionByID (io : faults) (id : uuid) : rbac_op Permission :=
  statement (failed_to "get permission by id") io (fun db =>
    (db, match rb_permissions db !! id with
         | Some p => Ok p
         | None => Err (Sentinel ErrPermissionNotFound)
         end)).

Definition GetPermissionByKey (io : faults) (key : string) : rbac_op Permission :=
  statement (failed_to "get permission by key") io (fun db =>
    (db, select_one (has_key key) (rb_permissions db) ErrPermissionNotFound)).

Definition ListPermissions (io : faults) : rbac_op (list Permission) :=
  query_rows "list permissions" io (fun db => order_by by_key (rows (rb_permissions db))).

Definition rekeyed (permission : Permission) (row : Permission) : Permission :=
  mkPermission (perm_ID row) (perm_Key permission) (perm_Description permission)
    (perm_CreatedAt row) (perm_UpdatedAt permission).

Definition other_permission (permission : Permission) (p : Permission) : bool :=
  negb (bool_decide (perm_ID p = perm_ID permission)) && has_key (perm_Key permission) p.

Definition UpdatePermission_row (io : faults) (permission : Permission) : rbac_op () := fun db =>
  match io 0%nat with
  | Some e => rejected "update permission" ErrPermissionAlreadyExists e db
  | None =>
      if bool_decide (is_Some (rb_permissions db !! perm_ID permission)) &&
         negb (no_row (other_permission permission) (rb_permissions db)) then
        rejected "update permission" ErrPermissionAlreadyExists
          (unique_violation "permissions_key_key") db
      else
        let '(perms, n) :=
          update_key (perm_ID permission) (fun _ => true) (rekeyed permission) (rb_permissions db) in
        (set_permissions db perms, affected io n ErrPermissionNotFound)
  end.

Definition drop_permission (id : uuid) (db : rbacdb) : rbacdb :=
  mkRbacDb (rb_users db) (rb_roles db) (delete id (rb_permissions db)) (rb_user_roles db)
    (filter (fun rp => rp.2 <> id) (rb_role_permissions db)).

Definition DeletePermission (io : faults) (id : uuid) : rbac_op () :=
  statement (failed_to "delete permission") io (fun db =>
    match rb_permissions db !! id with
    | None => (db, affected io 0 ErrPermissionNotFound)
    | Some _ => (drop_permission id db, affected io 1 ErrPermissionNotFound)
    end).

(** ** Assignments *)

Definition known_user (db : rbacdb) (id : option uuid) : bool :=
  match id with Some id => bool_decide (id ∈ rb_users db) | None => true end.

(** [ON CONFLICT DO NOTHING] comes before the foreign keys are looked at. *)
Definition AssignRoleToUser_row (io : faults) (ur : UserRole) : rbac_op () :=
  statement (failed_to "assign role to user") io (fun db =>
    match rb_user_roles db !! (ur_UserID ur, ur_RoleID ur) with
    | Some _ => (db, Ok tt)
    | None =>
        if negb (known_user db (Some (ur_UserID ur))) then
          failed "assign role to user"
            (foreign_key_violation "user_roles" "user_roles_user_id_fkey") db
        else if negb (bool_decide (is_Some (rb_roles db !! ur_RoleID ur))) then
          failed "assign role to user"
            (foreign_key_violation "user_roles" "user_roles_role_id_fkey") db
        else if negb (known_user db (ur_GrantedBy ur)) then
          failed "assign role to user"
            (foreign_key_violation "user_roles" "user_roles_granted_by_fkey") db
        else (set_user_roles db (<[(ur_UserID ur, ur_RoleID ur) := ur]> (rb_user_roles db)), Ok tt)
    end).

Definition RemoveRoleFromUser (io : faults) (userID roleID : uuid) : rbac_op () :=
  statement (failed_to "remove role from user") io (fun db =>
    (set_user_roles db (delete (userID, roleID) (rb_user_roles db)), Ok tt)).

Definition assigned (db : rbacdb) (userID roleID : uuid) : bool :=
  bool_decide (is_Some (rb_user_roles db !! (userID, roleID))).

Definition GetUserRoles (io : faults) (userID : uuid) : rbac_op (list Role) :=
  query_rows "get user roles" io (fun db =>
    order_by by_name (select_where (fun r => assigned db userID (role_ID r)) (rb_roles db))).

(** [SELECT DISTINCT]: a permission that several roles give comes once. *)
Definition granted_by_a_role (db : rbacdb) (userID : uuid) (p : Permission) : bool :=
  existsb (fun rp => bool_decide (rp.2 = perm_ID p) && assigned db userID rp.1)
    (elements (rb_role_permissions db)).

Definition GetUserPermissions (io : faults) (userID : uuid) : rbac_op (list Permission) :=
  query_rows "get user permissions" io (fun db =>
    order_by by_key (select_where (granted_by_a_role db userID) (rb_permissions db))).

Definition GetUserWithRoles (io : faults) (userID : uuid) : rbac_op UserWithRoles :=
  roles ← GetUserRoles io userID;
  permissions ← GetUserPermissions (shift_faults 2 io) userID;
  mret (mkUserWithRoles userID roles permissions).

Definition AssignPermissionToRole (io : faults) (roleID permissionID : uuid) : rbac_op () :=
  statement (failed_to "assign permission to role") io (fun db =>
    if bool_decide ((roleID, permissionID) ∈ rb_role_permissions db) then (db, Ok tt)
    else if negb (bool_decide (is_Some (rb_roles db !! roleID))) then
      failed "assign permission to role"
        (foreign_key_violation "role_permissions" "role_permissions_role_id_fkey") db
    else if negb (bool_decide (is_Some (rb_permissions db !! permissionID))) then
      failed "assign permission to role"
        (foreign_key_violation "role_permissions" "role_permissions_permission_id_fkey") db
    else (set_role_permissions db ({[(roleID, permissionID)]} ∪ rb_role_permissions db), Ok tt)).

Definition RemovePermissionFromRole (io : faults) (roleID permissionID : uuid) : rbac_op () :=
  statement (failed_to "remove permission from role") io (fun db =>
    (set_role_permissions db (rb_role_permissions db ∖ {[(roleID, permissionID)]}), Ok tt)).
End Repositories.
