(* ===== verification/RbacService.v ===== *)
(** * Access control: service and seeding

    [internal/api/rbac/service/rbac.go] and [internal/api/rbac/seed.go]. *)

From S2P Require Import Prelude GoStrings Sql ApiHttp RbacRepo.

(** What the outside decides while a call runs: the statements' faults, the
    service's clock and the identifier it draws. *)
Record rbac_env := mkRbacEnv { rv_io : faults; rv_clock : Z; rv_id : uuid }.

Definition rbac_wrap (what : string) (e : rbac_error) : rbac_error :=
  Wrapf ("failed to " ++s what ++s ": ") e "".

Section Service.
Context `{DbCollation}.

(** ** Roles and permissions *)

Definition CreateRole (env : rbac_env) (name : string) (description : option string) : rbac_op Role :=
  let role := mkRole (rv_id env) name description (rv_clock env) (rv_clock env) in
  _ ← map_err (rbac_wrap "create role") (CreateRole_row (rv_io env) role);
  mret role.

Definition GetRole (env : rbac_env) := GetRoleByID (rv_io env).

Definition UpdateRole (env : rbac_env) (roleID : uuid) (name : string) (description : option string)
  : rbac_op Role :=
  role ← GetRoleByID (rv_io env) roleID;
  let role := mkRole (role_ID role) name description (role_CreatedAt role) (rv_clock env) in
  _ ← map_err (rbac_wrap "update role") (UpdateRole_row (shift_faults 1 (rv_io env)) role);
  mret role.

Definition CreatePermission (env : rbac_env) (key : string) (description : option string)
  : rbac_op Permission :=
  let permission := mkPermission (rv_id env) key description (rv_clock env) (rv_clock env) in
  _ ← map_err (rbac_wrap "create permission") (CreatePermission_row (rv_io env) permission);
  mret permission.

Definition GetPermission (env : rbac_env) := GetPermissionByID (rv_io env).

Definition UpdatePermission (env : rbac_env) (permissionID : uuid) (key : string)
    (description : option string) : rbac_op Permission :=
  p ← GetPermissionByID (rv_io env) permissionID;
  let permission := mkPermission (perm_ID p) key description (perm_CreatedAt p) (rv_clock env) in
  _ ← map_err (rbac_wrap "update permission")
        (UpdatePermission_row (shift_faults 1 (rv_io env)) permission);
  mret permission.

(** ** Assignments and questions *)

Definition AssignRoleToUser (env : rbac_env) (userID roleID : uuid) (grantedBy : option uuid)
  : rbac_op () :=
  AssignRoleToUser_row (rv_io env) (mkUserRole userID roleID grantedBy (rv_clock env)).

Definition UserHasPermission (io : faults) (userID : uuid) (permissionKey : string) : rbac_op bool :=
  u ← map_err (rbac_wrap "get user roles") (GetUserWithRoles io userID);
  mret (HasPermission u permissionKey).

Definition UserHasRole (io : faults) (userID : uuid) (roleName : string) : rbac_op bool :=
  u ← map_err (rbac_wrap "get user roles") (GetUserWithRoles io userID);
  mret (HasRole u roleName).

(** ** Seeding *)

Definition CorePermissions : list (string * string) :=
  [(RBACRolesView, "View roles and their permissions");
   (RBACRolesManage, "Create, update, delete roles and manage role permissions");
   (RBACPermissionsView, "View permissions");
   (RBACPermissionsManage, "Create, update, delete permissions");
   (RBACUsersView, "View user roles and permissions");
   (RBACUsersManage, "Assign and remove roles from users");
   (AdminAccess, "Access admin dashboard");
   (ProblemsManage, "Create, update, delete problems");
   (SubmissionsViewAll, "View any user's submissions")].

Definition CoreRoles : list (string * string * list string) :=
  [("super_admin", "Super administrator with full RBAC management access",
    [RBACRolesView; RBACRolesManage; RBACPermissionsView; RBACPermissionsManage; RBACUsersView;
     RBACUsersManage; AdminAccess; ProblemsManage; SubmissionsViewAll]);
   ("admin", "Administrator with user management access", [RBACUsersView; RBACUsersManage])].

(** A lookup whose every error means that the row is to be created. *)
Definition find_or_create {A} (find create : rbac_op A) (what : string) : rbac_op A :=
  existing ← attempt find;
  match existing with
  | Ok a => mret a
  | Err _ => map_err (rbac_wrap what) create
  end.

(** The environment of the [n]-th item: [draw n] is the identifier it may
    draw, its statements follow those of the items before. *)
Definition item_env (env : rbac_env) (draw : nat -> uuid) (n used : nat) : rbac_env :=
  mkRbacEnv (shift_faults used (rv_io env)) (rv_clock env) (draw n).

(** The first loop; [n] items are done and each took two statements. *)
Fixpoint seed_permissions (env : rbac_env) (draw : nat -> uuid) (n : nat)
    (perms : list (string * string)) (permissionMap : gmap string uuid) : rbac_op (gmap string uuid) :=
  match perms with
  | [] => mret permissionMap
  | (key, description) :: rest =>
      let env1 := item_env env draw n (2 * n) in
      p ← find_or_create (GetPermissionByKey (rv_io env1) key)
            (CreatePermission (mkRbacEnv (shift_faults 1 (rv_io env1)) (rv_clock env1) (rv_id env1))
               key (Some description))
            ("create permission " ++s key);
      seed_permissions env draw (S n) rest (<[key := perm_ID p]> permissionMap)
  end.

Fixpoint seed_role_permissions (io : faults) (name : string) (roleID : uuid) (keys : list string)
    (permissionMap : gmap string uuid) : rbac_op () :=
  match keys with
  | [] => mret tt
  | key :: rest =>
      match permissionMap !! key with
      | None => fail (Opaque ("permission " ++s key ++s " not found for role " ++s name))
      | Some permID =>
          _ ← map_err (rbac_wrap ("assign permission " ++s key ++s " to role " ++s name))
                (AssignPermissionToRole io roleID permID);
          seed_role_permissions (shift_faults 1 io) name roleID rest permissionMap
      end
  end.

(** The second loop, after [n] items and [used] statements. *)
Fixpoint seed_roles (env : rbac_env) (draw : nat -> uuid) (n used : nat)
    (roles : list (string * string * list string)) (permissionMap : gmap string uuid) : rbac_op () :=
  match roles with
  | [] => mret tt
  | (name, description, keys) :: rest =>
      let env1 := item_env env draw n used in
      r ← find_or_create (GetRoleByName (rv_io env1) name)
            (CreateRole (mkRbacEnv (shift_faults 1 (rv_io env1)) (rv_clock env1) (rv_id env1))
               name (Some description))
            ("create role " ++s name);
      _ ← seed_role_permissions (shift_faults 2 (rv_io env1)) name (role_ID r) keys permissionMap;
      seed_roles env draw (S n) (2 + length keys + used) rest permissionMap
  end.

Definition SeedCoreRBAC (env : rbac_env) (draw : nat -> uuid) : rbac_op () :=
  permissionMap ← seed_permissions env draw 0 CorePermissions ∅;
  seed_roles env draw (length CorePermissions) (2 * length CorePermissions) CoreRoles permissionMap.
End Service.
