(* ===== verification/RbacHttp.v ===== *)
(** * Access control: HTTP

    The handlers of [internal/api/rbac/http] with their routes of
    [cmd/api/routes.go], and [RequireRole] of [internal/api/rbac/manager.go].
    A path parameter or an identifier in a body is what [uuid.Parse] makes of
    it. *)

From S2P Require Import Prelude GoStrings Sql CPHttp AuthService ApiHttp.
From S2P Require Import RbacRepo RbacService.

(** ** Requests and responses *)

Inductive rbac_request :=
  | ReqListRoles
  | ReqGetRole (roleID : option uuid)
  | ReqGetRolePermissions (roleID : option uuid)
  | ReqCreateRole (body : option (string * option string))
  | ReqUpdateRole (roleID : option uuid) (body : option (string * option string))
  | ReqDeleteRole (roleID : option uuid)
  | ReqAssignPermissionToRole (roleID : option uuid) (body : option (option uuid))
  | ReqRemovePermissionFromRole (roleID permissionID : option uuid)
  | ReqListPermissions
  | ReqGetPermission (permissionID : option uuid)
  | ReqCreatePermission (body : option (string * option string))
  | ReqUpdatePermission (permissionID : option uuid) (body : option (string * option string))
  | ReqDeletePermission (permissionID : option uuid)
  | ReqGetUserRoles (userID : option uuid)
  | ReqGetUserPermissions (userID : option uuid)
  | ReqAssignRoleToUser (userID : option uuid) (body : option (option uuid))
  | ReqRemoveRoleFromUser (userID roleID : option uuid)
  | ReqGetMyRoles
  | ReqGetMyPermissions.

Inductive rbac_data :=
  | RoleBody (r : Role)
  | RolesBody (rs : list Role)
  | PermissionBody (p : Permission)
  | PermissionsBody (ps : list Permission)
  | RoleWithPermissionsBody (r : RoleWithPermissions)
  | MessageBody (message : string).

Abbreviation rbac_response := (api_response rbac_data).
Abbreviation rbac_handler := (api_handler rbacdb rbac_data).

(** An identifier that does not parse. *)
Definition with_id (what : string) : option uuid -> (uuid -> rbac_handler) -> rbac_handler :=
  with_parsed ("invalid " ++s what ++s " ID").

(** [name] or [key] is required. *)
Definition with_text (what text : string) (k : rbac_handler) : rbac_handler :=
  if bool_decide (text = "") then refuse StatusBadRequest (what ++s " is required") else k.

Definition ok_data (d : rbac_data) : rbac_response := RespondJSON StatusOK d.
Definition ok_message {A} (message : string) (_ : A) : rbac_response :=
  RespondJSON StatusOK (MessageBody message).

Section Handlers.
Context `{DbCollation}.

(** ** Roles *)

Definition CreateRole_handler (env : rbac_env) (body : option (string * option string)) : rbac_handler :=
  with_body body (fun '(name, description) =>
    with_text "name" name
      (answer (CreateRole env name description) (fun r => RespondJSON StatusCreated (RoleBody r))
         (conflict_or ErrRoleAlreadyExists "role already exists" (internal "failed to create role")))).

Definition GetRole_handler (env : rbac_env) (roleID : option uuid) : rbac_handler :=
  with_id "role" roleID (fun id =>
    answer (GetRole env id) (fun r => ok_data (RoleBody r))
      (not_found_or ErrRoleNotFound "role not found" (internal "failed to get role"))).

Definition ListRoles_handler (env : rbac_env) : rbac_handler :=
  answer (ListRoles (rv_io env)) (fun rs => ok_data (RolesBody rs)) (internal "failed to list roles").

Definition UpdateRole_handler (env : rbac_env) (roleID : option uuid)
    (body : option (string * option string)) : rbac_handler :=
  with_id "role" roleID (fun id => with_body body (fun '(name, description) =>
    with_text "name" name
      (answer (UpdateRole env id name description) (fun r => ok_data (RoleBody r))
         (not_found_or ErrRoleNotFound "role not found"
            (conflict_or ErrRoleAlreadyExists "role name already exists"
               (internal "failed to update role")))))).

Definition DeleteRole_handler (env : rbac_env) (roleID : option uuid) : rbac_handler :=
  with_id "role" roleID (fun id =>
    answer (DeleteRole (rv_io env) id) (ok_message "role deleted successfully")
      (not_found_or ErrRoleNotFound "role not found" (internal "failed to delete role"))).

Definition GetRolePermissions_handler (env : rbac_env) (roleID : option uuid) : rbac_handler :=
  with_id "role" roleID (fun id =>
    answer (GetRoleWithPermissions (rv_io env) id) (fun r => ok_data (RoleWithPermissionsBody r))
      (not_found_or ErrRoleNotFound "role not found" (internal "failed to get role permissions"))).

Definition AssignPermissionToRole_handler (env : rbac_env) (roleID : option uuid)
    (body : option (option uuid)) : rbac_handler :=
  with_id "role" roleID (fun id => with_body body (fun permissionID =>
    with_id "permission" permissionID (fun pid =>
      answer (AssignPermissionToRole (rv_io env) id pid)
        (ok_message "permission assigned successfully")
        (internal "failed to assign permission to role")))).

Definition RemovePermissionFromRole_handler (env : rbac_env) (roleID permissionID : option uuid)
  : rbac_handler :=
  with_id "role" roleID (fun id => with_id "permission" permissionID (fun pid =>
    answer (RemovePermissionFromRole (rv_io env) id pid)
      (ok_message "permission removed successfully")
      (internal "failed to remove permission from role"))).

(** ** Permissions *)

Definition CreatePermission_handler (env : rbac_env) (body : option (string * option string))
  : rbac_handler :=
  with_body body (fun '(key, description) =>
    with_text "key" key
      (answer (CreatePermission env key description)
         (fun p => RespondJSON StatusCreated (PermissionBody p))
         (conflict_or ErrPermissionAlreadyExists "permission already exists"
            (internal "failed to create permission")))).

Definition GetPermission_handler (env : rbac_env) (permissionID : option uuid) : rbac_handler :=
  with_id "permission" permissionID (fun id =>
    answer (GetPermission env id) (fun p => ok_data (PermissionBody p))
      (not_found_or ErrPermissionNotFound "permission not found" (internal "failed to get permission"))).

Definition ListPermissions_handler (env : rbac_env) : rbac_handler :=
  answer (ListPermissions (rv_io env)) (fun ps => ok_data (PermissionsBody ps))
    (internal "failed to list permissions").

Definition UpdatePermission_handler (env : rbac_env) (permissionID : option uuid)
    (body : option (string * option string)) : rbac_handler :=
  with_id "permission" permissionID (fun id => with_body body (fun '(key, description) =>
    with_text "key" key
      (answer (UpdatePermission env id key description) (fun p => ok_data (PermissionBody p))
         (not_found_or ErrPermissionNotFound "permission not found"
            (conflict_or ErrPermissionAlreadyExists "permission key already exists"
               (internal "failed to update permission")))))).

Definition DeletePermission_handler (env : rbac_env) (permissionID : option uuid) : rbac_handler :=
  with_id "permission" permissionID (fun id =>
    answer (DeletePermission (rv_io env) id) (ok_message "permission deleted successfully")
      (not_found_or ErrPermissionNotFound "permission not found"
         (internal "failed to delete permission"))).

(** ** Users *)

Definition AssignRoleToUser_handler (env : rbac_env) (c : caller) (userID : option uuid)
    (body : option (option uuid)) : rbac_handler :=
  with_id "user" userID (fun id => with_body body (fun roleID => with_id "role" roleID (fun rid =>
    answer (AssignRoleToUser env id rid (c_UserID c)) (ok_message "role assigned successfully")
      (internal "failed to assign role to user")))).

Definition RemoveRoleFromUser_handler (env : rbac_env) (userID roleID : option uuid) : rbac_handler :=
  with_id "user" userID (fun id => with_id "role" roleID (fun rid =>
    answer (RemoveRoleFromUser (rv_io env) id rid) (ok_message "role removed successfully")
      (internal "failed to remove role from user"))).

Definition GetUserRoles_handler (env : rbac_env) (userID : option uuid) : rbac_handler :=
  with_id "user" userID (fun id =>
    answer (GetUserRoles (rv_io env) id) (fun rs => ok_data (RolesBody rs))
      (internal "failed to get user roles")).

Definition GetUserPermissions_handler (env : rbac_env) (userID : option uuid) : rbac_handler :=
  with_id "user" userID (fun id =>
    answer (GetUserPermissions (rv_io env) id) (fun ps => ok_data (PermissionsBody ps))
      (internal "failed to get user permissions")).

Definition GetMyRoles_handler (env : rbac_env) (c : caller) : rbac_handler :=
  match c_UserID c with
  | None => refuse StatusUnauthorized "user not authenticated"
  | Some id => answer (GetUserRoles (rv_io env) id) (fun rs => ok_data (RolesBody rs))
                 (internal "failed to get user roles")
  end.

Definition GetMyPermissions_handler (env : rbac_env) (c : caller) : rbac_handler :=
  match c_UserID c with
  | None => refuse StatusUnauthorized "user not authenticated"
  | Some id => answer (GetUserPermissions (rv_io env) id) (fun ps => ok_data (PermissionsBody ps))
                 (internal "failed to get user permissions")
  end.

(** [RequireRole]: the request goes on, or is answered with a status. *)
Definition RequireRole (io : faults) (roleName : string) (c : caller) (db : rbacdb) : option Z :=
  match c_UserID c with
  | None => Some StatusUnauthorized
  | Some userID =>
      match (UserHasRole io userID roleName db).2 with
      | Err _ => Some StatusInternalServerError
      | Ok false => Some StatusForbidden
      | Ok true => None
      end
  end.

(** ** Routes *)

(** The permission that [routes.go] demands for each route. *)
Definition required_permission (req : rbac_request) : option string :=
  match req with
  | ReqListRoles | ReqGetRole _ | ReqGetRolePermissions _ => Some RBACRolesView
  | ReqCreateRole _ | ReqUpdateRole _ _ | ReqDeleteRole _ | ReqAssignPermissionToRole _ _
  | ReqRemovePermissionFromRole _ _ => Some RBACRolesManage
  | ReqListPermissions | ReqGetPermission _ => Some RBACPermissionsView
  | ReqCreatePermission _ | ReqUpdatePermission _ _ | ReqDeletePermission _ =>
      Some RBACPermissionsManage
  | ReqGetUserRoles _ | ReqGetUserPermissions _ => Some RBACUsersView
  | ReqAssignRoleToUser _ _ | ReqRemoveRoleFromUser _ _ => Some RBACUsersManage
  | ReqGetMyRoles | ReqGetMyPermissions => None
  end.

Definition handle_rbac (env : rbac_env) (c : caller) (req : rbac_request) : rbac_handler :=
  match req with
  | ReqListRoles => ListRoles_handler env
  | ReqGetRole id => GetRole_handler env id
  | ReqGetRolePermissions id => GetRolePermissions_handler env id
  | ReqCreateRole body => CreateRole_handler env body
  | ReqUpdateRole id body => UpdateRole_handler env id body
  | ReqDeleteRole id => DeleteRole_handler env id
  | ReqAssignPermissionToRole id body => AssignPermissionToRole_handler env id body
  | ReqRemovePermissionFromRole id pid => RemovePermissionFromRole_handler env id pid
  | ReqListPermissions => ListPermissions_handler env
  | ReqGetPermission id => GetPermission_handler env id
  | ReqCreatePermission body => CreatePermission_handler env body
  | ReqUpdatePermission id body => UpdatePermission_handler env id body
  | ReqDeletePermission id => DeletePermission_handler env id
  | ReqGetUserRoles id => GetUserRoles_handler env id
  | ReqGetUserPermissions id => GetUserPermissions_handler env id
  | ReqAssignRoleToUser id body => AssignRoleToUser_handler env c id body
  | ReqRemoveRoleFromUser id rid => RemoveRoleFromUser_handler env id rid
  | ReqGetMyRoles => GetMyRoles_handler env c
  | ReqGetMyPermissions => GetMyPermissions_handler env c
  end.

(** [AuthMiddleware], then the permission check, then the handler. *)
Definition serve_rbac `{AuthCrypto} (jm : JWTManager) (now : Z) (authHeader : string)
    (env : rbac_env) (req : rbac_request) : rbac_handler := fun db =>
  match AuthMiddleware jm now authHeader with
  | Err text => refuse StatusUnauthorized text db
  | Ok ctx =>
      let c := caller_of (Some ctx) in
      match required_permission req with
      | None => handle_rbac env c req db
      | Some key =>
          match RequirePermission key c with
          | Some status => refuse status "forbidden: insufficient permissions" db
          | None => handle_rbac env c req db
          end
      end
  end.
End Handlers.
