(* ===== verification/RbacFacts.v ===== *)
(** * Access control: tables and the abstract machine

    Well-formed tables, which every operation keeps, and the abstract
    role-based access control the tables stand for: who holds which role and
    which role gives which permission key. *)

From S2P Require Import Prelude GoStrings Sql ApiHttp RbacRepo RbacService.

(** ** Well-formed tables *)

Record rbac_wf (db : rbacdb) : Prop := {
  wf_roles : keyed role_ID role_Name (rb_roles db);
  wf_permissions : keyed perm_ID perm_Key (rb_permissions db);
  wf_user_roles u r ur : rb_user_roles db !! (u, r) = Some ur ->
    ur_UserID ur = u /\ ur_RoleID ur = r /\ u ∈ rb_users db /\ is_Some (rb_roles db !! r);
  wf_role_permissions r p : (r, p) ∈ rb_role_permissions db ->
    is_Some (rb_roles db !! r) /\ is_Some (rb_permissions db !! p)
}.

Definition empty_rbac (users : gset uuid) : rbacdb := mkRbacDb users ∅ ∅ ∅ ∅.

Lemma empty_rbac_wf users : rbac_wf (empty_rbac users).
Proof.
  split; [apply keyed_empty .. | |]; cbn; [intros u r ur | intros r p].
  - by rewrite lookup_empty.
  - by rewrite elem_of_empty.
Qed.

Lemma update_key_dom {K V} `{Countable K} k (f : V -> V) (t : gmap K V) j :
  is_Some ((update_key k (fun _ => true) f t).1 !! j) <-> is_Some (t !! j).
Proof.
  destruct (update_key_cases k (fun _ => true) f t) as [(v & Hv & _ & ->) | [_ ->]]; simpl; [| done].
  destruct (decide (j = k)) as [-> |]; [by rewrite lookup_insert_eq, Hv | by rewrite lookup_insert_ne].
Qed.

(** A keyed UPDATE that no other row's value is in the way of. *)
Lemma keyed_rewritten {K V U} `{Countable K} `{EqDecision U} (key : V -> K) (col : V -> U) (t : gmap K V) k f :
  keyed key col t -> (forall v, key (f v) = key v) ->
  (forall v j w, t !! k = Some v -> t !! j = Some w -> j <> k -> col w <> col (f v)) ->
  keyed key col (update_key k (fun _ => true) f t).1.
Proof.
  intros Ht Hf Hother.
  destruct (update_key_cases k (fun _ => true) f t) as [(v & Hv & _ & ->) | [_ ->]]; simpl; [| done].
  pose proof (keyed_key _ _ _ Ht _ _ Hv) as Hk. destruct Ht as [Hkey Hu]. split.
  - intros j w [[<- <-] | [_ Hw]]%lookup_insert_Some; [by rewrite Hf | eauto].
  - intros j w j' w' [[<- <-] | [Hj Hw]]%lookup_insert_Some
      [[<- <-] | [Hj' Hw']]%lookup_insert_Some Heq; [done | | | eauto].
    + by destruct (Hother v j' w' Hv Hw' (not_eq_sym Hj')).
    + by destruct (Hother v j w Hv Hw (not_eq_sym Hj)).
Qed.

Section Kept.
Context `{DbCollation}.
Implicit Types (io : faults).

Lemma keeps_rejected {A} P what e text : keeps P (rejected (A := A) what e text).
Proof. by intros db Hdb. Qed.

Lemma keeps_CreateRole_row io role : keeps rbac_wf (CreateRole_row io role).
Proof.
  intros db Hdb. unfold CreateRole_row, rejected.
  destruct (no_row (has_name (role_Name role)) (rb_roles db)) eqn:Hn; repeat case_match; simpl; try done.
  rewrite no_row_spec in Hn. destruct Hdb as [W1 W2 W3 W4]. split; simpl; [| done | |].
  - apply keyed_insert; [done |]. intros k w Hw. by apply Hn, bool_decide_eq_false in Hw.
  - intros u r ur Hur. destruct (W3 u r ur Hur) as (? & ? & ? & ?). split_and!; try done.
    by apply lookup_insert_is_Some'; right.
  - intros r p Hrp. destruct (W4 r p Hrp). split; [by apply lookup_insert_is_Some'; right | done].
Qed.

Lemma keeps_CreatePermission_row io p : keeps rbac_wf (CreatePermission_row io p).
Proof.
  intros db Hdb. unfold CreatePermission_row, rejected.
  destruct (no_row (has_key (perm_Key p)) (rb_permissions db)) eqn:Hn;
    repeat case_match; simpl; try done.
  rewrite no_row_spec in Hn. destruct Hdb as [W1 W2 W3 W4]. split; simpl; [done | | done |].
  - apply keyed_insert; [done |]. intros k w Hw. by apply Hn, bool_decide_eq_false in Hw.
  - intros r q Hrq. destruct (W4 r q Hrq). split; [done | by apply lookup_insert_is_Some'; right].
Qed.

Lemma other_rows {V} (key : V -> uuid) (hit : V -> bool) (t : gmap uuid V) id :
  bool_decide (is_Some (t !! id)) && negb (no_row (fun v => negb (bool_decide (key v = id)) && hit v) t)
    = false ->
  forall v j w, t !! id = Some v -> t !! j = Some w -> key w <> id -> hit w = false.
Proof.
  intros Hno v j w Hv Hw Hne. apply andb_false_iff in Hno as [Hno | Hno].
  - apply bool_decide_eq_false in Hno. by rewrite Hv in Hno; destruct Hno.
  - apply negb_false_iff in Hno. rewrite no_row_spec in Hno. specialize (Hno j w Hw).
    by rewrite bool_decide_eq_false_2 in Hno.
Qed.

Lemma keeps_UpdateRole_row io role : keeps rbac_wf (UpdateRole_row io role).
Proof.
  intros db Hdb. unfold UpdateRole_row, rejected. case_match; [done |].
  destruct (_ && _) eqn:Hno; [done |].
  pose proof (other_rows role_ID (has_name (role_Name role)) _ _ Hno) as Hother.
  destruct (update_key (role_ID role) _ _ _) as [roles n] eqn:E. simpl.
  assert (roles = (update_key (role_ID role) (fun _ => true) (renamed role) (rb_roles db)).1) as ->
    by by rewrite E.
  destruct Hdb as [W1 W2 W3 W4]. split; simpl; [| done | |].
  - apply keyed_rewritten; [done | done |]. intros v j w Hv Hw Hj Heq.
    assert (has_name (role_Name role) w = false) as Hf.
    { apply (Hother v j w Hv Hw). by rewrite (keyed_key _ _ _ W1 _ _ Hw). }
    by apply bool_decide_eq_false in Hf.
  - intros u r ur Hur. rewrite update_key_dom. by apply W3.
  - intros r p Hrp. rewrite update_key_dom. by apply W4.
Qed.

Lemma keeps_UpdatePermission_row io p : keeps rbac_wf (UpdatePermission_row io p).
Proof.
  intros db Hdb. unfold UpdatePermission_row, rejected. case_match; [done |].
  destruct (_ && _) eqn:Hno; [done |].
  pose proof (other_rows perm_ID (has_key (perm_Key p)) _ _ Hno) as Hother.
  destruct (update_key (perm_ID p) _ _ _) as [perms n] eqn:E. simpl.
  assert (perms = (update_key (perm_ID p) (fun _ => true) (rekeyed p) (rb_permissions db)).1) as ->
    by by rewrite E.
  destruct Hdb as [W1 W2 W3 W4]. split; simpl; [done | | done |].
  - apply keyed_rewritten; [done | done |]. intros v j w Hv Hw Hj Heq.
    assert (has_key (perm_Key p) w = false) as Hf.
    { apply (Hother v j w Hv Hw). by rewrite (keyed_key _ _ _ W2 _ _ Hw). }
    by apply bool_decide_eq_false in Hf.
  - intros r q Hrq. rewrite update_key_dom. by apply W4.
Qed.

Lemma keeps_DeleteRole io id : keeps rbac_wf (DeleteRole io id).
Proof.
  apply keeps_statement. intros db Hdb. destruct (rb_roles db !! id) as [old |]; [| done]. simpl.
  destruct Hdb as [W1 W2 W3 W4]. split; simpl; [by apply keyed_delete | done | |].
  - intros u r ur [Hur Hne]%map_lookup_filter_Some. simpl in Hne. rewrite lookup_delete_ne by done.
    by apply W3.
  - intros r p [Hne Hrp]%elem_of_filter. simpl in Hne. rewrite lookup_delete_ne by done. by apply W4.
Qed.

Lemma keeps_DeletePermission io id : keeps rbac_wf (DeletePermission io id).
Proof.
  apply keeps_statement. intros db Hdb. destruct (rb_permissions db !! id) as [old |]; [| done]. simpl.
  destruct Hdb as [W1 W2 W3 W4]. split; simpl; [done | by apply keyed_delete | done |].
  intros r p [Hne Hrp]%elem_of_filter. simpl in Hne. rewrite (lookup_delete_ne (rb_permissions db)) by done.
  by apply W4.
Qed.

Lemma keeps_AssignRoleToUser_row io ur : keeps rbac_wf (AssignRoleToUser_row io ur).
Proof.
  apply keeps_statement. intros db Hdb. unfold failed, known_user.
  destruct (rb_user_roles db !! _); [done |].
  destruct (bool_decide (ur_UserID ur ∈ rb_users db)) eqn:Hu; simpl; [| done].
  destruct (bool_decide (is_Some (rb_roles db !! ur_RoleID ur))) eqn:Hr; simpl; [| done].
  apply bool_decide_eq_true in Hu, Hr. case_match; [done |]. simpl.
  destruct Hdb as [W1 W2 W3 W4]. split; simpl; [done .. | | done].
  intros u r ur' [[[= <- <-] <-] | [_ Hur]]%lookup_insert_Some; [done | by apply W3].
Qed.

Lemma keeps_RemoveRoleFromUser io u r : keeps rbac_wf (RemoveRoleFromUser io u r).
Proof.
  apply keeps_statement. intros db [W1 W2 W3 W4]. split; simpl; [done .. | | done].
  intros u' r' ur [_ Hur]%lookup_delete_Some. by apply W3.
Qed.

Lemma keeps_AssignPermissionToRole io r p : keeps rbac_wf (AssignPermissionToRole io r p).
Proof.
  apply keeps_statement. intros db Hdb. unfold failed. case_match; [done |].
  destruct (bool_decide (is_Some (rb_roles db !! r))) eqn:Hr; simpl; [| done].
  destruct (bool_decide (is_Some (rb_permissions db !! p))) eqn:Hp; simpl; [| done].
  apply bool_decide_eq_true in Hr, Hp. destruct Hdb as [W1 W2 W3 W4]. split; simpl; [done .. |].
  intros r' p' [[= -> ->]%elem_of_singleton | Hrp]%elem_of_union; [done | by apply W4].
Qed.

Lemma keeps_RemovePermissionFromRole io r p : keeps rbac_wf (RemovePermissionFromRole io r p).
Proof.
  apply keeps_statement. intros db [W1 W2 W3 W4]. split; simpl; [done .. |].
  intros r' p' [Hrp _]%elem_of_difference. by apply W4.
Qed.

Lemma readonly_GetRoleByID io id : readonly (GetRoleByID io id).
Proof. apply readonly_select. Qed.
Lemma readonly_GetRoleByName io name : readonly (GetRoleByName io name).
Proof. apply readonly_select. Qed.
Lemma readonly_GetPermissionByID io id : readonly (GetPermissionByID io id).
Proof. apply readonly_select. Qed.
Lemma readonly_GetPermissionByKey io key : readonly (GetPermissionByKey io key).
Proof. apply readonly_select. Qed.
Lemma readonly_GetUserWithRoles io u : readonly (GetUserWithRoles io u).
Proof. unfold GetUserWithRoles, GetUserRoles, GetUserPermissions. eauto with capstone. Qed.
Lemma readonly_GetRoleWithPermissions io r : readonly (GetRoleWithPermissions io r).
Proof.
  unfold GetRoleWithPermissions.
  apply readonly_bind; [apply readonly_GetRoleByID | eauto with capstone].
Qed.
End Kept.

#[export] Hint Resolve keeps_CreateRole_row keeps_CreatePermission_row keeps_UpdateRole_row
  keeps_UpdatePermission_row keeps_DeleteRole keeps_DeletePermission keeps_AssignRoleToUser_row
  keeps_RemoveRoleFromUser keeps_AssignPermissionToRole keeps_RemovePermissionFromRole
  readonly_GetRoleByID readonly_GetRoleByName readonly_GetPermissionByID
  readonly_GetPermissionByKey readonly_GetUserWithRoles readonly_GetRoleWithPermissions : capstone.
