(* ===== verification/CoreRbac.v ===== *)
(** * Access control: the abstract machine

    Role-based access control without tables: users hold roles, roles give
    permission keys, and a user can do what some role of theirs gives.  The
    requests' effects on it, and the proof that the operations of the
    repositories have exactly these effects. *)

From S2P Require Import Prelude GoStrings Sql CPHttp ApiHttp.
From S2P Require Import RbacRepo RbacService RbacHttp RbacFacts.

(** ** The machine *)

Record core_rbac := mkCore { holds : uuid -> uuid -> Prop; gives : uuid -> string -> Prop }.

Definition core_eq (A B : core_rbac) : Prop :=
  (forall u r, holds A u r <-> holds B u r) /\ (forall r k, gives A r k <-> gives B r k).

#[export] Instance core_eq_equiv : Equivalence core_eq.
Proof.
  split; [by intros A | intros A B [H1 H2]; by split; intros; symmetry |].
  intros A B C [H1 H2] [H3 H4]. split; intros; [by rewrite H1, H3 | by rewrite H2, H4].
Qed.

(** What a user can do. *)
Definition can (A : core_rbac) (u : uuid) (key : string) : Prop :=
  exists r, holds A u r /\ gives A r key.

#[export] Instance can_proper : Proper (core_eq ==> eq ==> eq ==> iff) can.
Proof.
  intros A B [H1 H2] u ? <- k ? <-. unfold can. by setoid_rewrite H1; setoid_rewrite H2.
Qed.

(** ** What the tables stand for *)

Definition key_of (db : rbacdb) (p : uuid) : option string := perm_Key <$> rb_permissions db !! p.

Definition abs (db : rbacdb) : core_rbac := mkCore
  (fun u r => is_Some (rb_user_roles db !! (u, r)))
  (fun r k => exists p, (r, p) ∈ rb_role_permissions db /\ key_of db p = Some k).

(** ** The requests' effects; [key] names permissions *)

Definition effect (key : uuid -> option string) (req : rbac_request) (A : core_rbac) : core_rbac :=
  match req with
  | ReqAssignRoleToUser (Some u) (Some (Some r)) =>
      mkCore (fun u' r' => holds A u' r' \/ (u' = u /\ r' = r)) (gives A)
  | ReqRemoveRoleFromUser (Some u) (Some r) =>
      mkCore (fun u' r' => holds A u' r' /\ ~ (u' = u /\ r' = r)) (gives A)
  | ReqDeleteRole (Some r) =>
      mkCore (fun u' r' => holds A u' r' /\ r' <> r) (fun r' k => gives A r' k /\ r' <> r)
  | ReqAssignPermissionToRole (Some r) (Some (Some p)) =>
      mkCore (holds A) (fun r' k => gives A r' k \/ (r' = r /\ key p = Some k))
  | ReqRemovePermissionFromRole (Some r) (Some p) =>
      mkCore (holds A) (fun r' k => gives A r' k /\ ~ (r' = r /\ key p = Some k))
  | ReqUpdatePermission (Some p) (Some (new, _)) =>
      mkCore (holds A) (fun r' k =>
        (k = new /\ exists old, key p = Some old /\ gives A r' old) \/
        (gives A r' k /\ key p <> Some k))
  | ReqDeletePermission (Some p) =>
      mkCore (holds A) (fun r' k => gives A r' k /\ key p <> Some k)
  | _ => A
  end.

(** ** The operations have these effects *)

(** [m] moves the tables as [eff] moves the machine; when it fails it has
    done nothing, or it has done its work and an error without a name of its
    own is reported. *)
Definition does {A} (eff : rbacdb -> core_rbac -> core_rbac) (m : rbac_op A) : Prop :=
  forall db db' r, rbac_wf db -> m db = (db', r) ->
    match r with
    | Ok _ => core_eq (abs db') (eff db (abs db))
    | Err e => db' = db \/ (core_eq (abs db') (eff db (abs db)) /\ forall s, errors_Is e s = false)
    end.

Definition nothing (db : rbacdb) (A : core_rbac) : core_rbac := A.

Lemma does_readonly {A} (m : rbac_op A) : readonly m -> does nothing m.
Proof.
  intros Hm db db' r _ E. pose proof (readonly_run _ _ _ _ Hm E) as ->. destruct r; [done | by left].
Qed.

Lemma does_statement {A} eff what io (m : rbac_op A) :
  does eff m -> does eff (statement (failed_to what) io m).
Proof.
  intros Hm db db' r Hdb. unfold statement. case_match; [intros [= <- <-]; by left | by apply Hm].
Qed.

Lemma does_map_err {A} eff what (m : rbac_op A) : does eff m -> does eff (map_err (rbac_wrap what) m).
Proof.
  intros Hm db db' r Hdb. unfold map_err. destruct (m db) as [d [a | e]] eqn:E; intros [= <- <-];
    exact (Hm db d _ Hdb E).
Qed.

Lemma does_then_ret {A B} eff (m : rbac_op A) (f : A -> B) :
  does eff m -> does eff (a ← m; mret (f a)).
Proof.
  intros Hm db db' r Hdb. mrun. destruct (m db) as [d [a | e]] eqn:E; intros [= <- <-];
    exact (Hm db d _ Hdb E).
Qed.

(** A look first. *)
Lemma does_after_read {A B} eff (m : rbac_op A) (k : A -> rbac_op B) :
  readonly m -> (forall a, does eff (k a)) -> does eff (m ≫= k).
Proof.
  intros Hm Hk db db' r Hdb. unfold mbind, M_bind. specialize (Hm db).
  destruct (m db) as [d [a | e]]; simpl in Hm; subst; [by apply Hk |].
  intros [= <- <-]. by left.
Qed.

(** The row count of a statement that changed [n] rows. *)
Lemma does_affected eff db db' io n (missing : rbac_sentinel) r :
  core_eq (abs db') (eff db (abs db)) -> (n = 0%nat -> db' = db) ->
  (db', affected io n missing) = (db', r) ->
  match r with
  | Ok _ => core_eq (abs db') (eff db (abs db))
  | Err e => db' = db \/ (core_eq (abs db') (eff db (abs db)) /\ forall s, errors_Is e s = false)
  end.
Proof.
  intros Heff Hn [= <-]. unfold affected. destruct (io 1%nat); [by right |].
  destruct n; simpl; [left; auto | done].
Qed.

Section Effects.
Context `{DbCollation}.

Lemma abs_set_roles db roles : core_eq (abs (set_roles db roles)) (abs db).
Proof. done. Qed.

Lemma does_CreateRole_row io role : does nothing (CreateRole_row io role).
Proof.
  intros db db' r _. unfold CreateRole_row, rejected, nothing. intros E.
  repeat case_match; simplify_eq; first [by left | by apply abs_set_roles].
Qed.

Lemma does_UpdateRole_row io role : does nothing (UpdateRole_row io role).
Proof.
  intros db db' r _. unfold UpdateRole_row, rejected.
  destruct (io 0%nat); [intros [= <- <-]; by left |]. case_match; [intros [= <- <-]; by left |].
  destruct (update_key_cases (role_ID role) (fun _ => true) (renamed role) (rb_roles db))
    as [(v & _ & _ & ->) | [_ ->]]; intros [= <- <-].
  - by apply (does_affected nothing db _ io 1 ErrRoleNotFound).
  - apply (does_affected nothing db _ io 0 ErrRoleNotFound); [done | by destruct db | done].
Qed.

Lemma does_CreatePermission_row io p : does nothing (CreatePermission_row io p).
Proof.
  intros db db' r [_ Wp _ Wrp]. unfold CreatePermission_row, rejected, nothing. intros E.
  destruct (io 0%nat); [simplify_eq; by left |].
  destruct (bool_decide (rb_permissions db !! perm_ID p = None)) eqn:Hfresh; simpl in E;
    [| simplify_eq; by left].
  apply bool_decide_eq_true in Hfresh. case_match; simplify_eq; [by left |].
  split; [done |]. intros rid k. split; intros (q & Hrq & Hq); exists q; (split; [done |]);
    unfold key_of in *; simpl in *; destruct (Wrp _ _ Hrq) as [_ [w Hw]];
    rewrite ?lookup_insert_ne in * by congruence; done.
Qed.

Lemma does_DeleteRole io id :
  does (fun db => effect (key_of db) (ReqDeleteRole (Some id))) (DeleteRole io id).
Proof.
  apply does_statement. intros db db' r Hdb. destruct (rb_roles db !! id) as [old |] eqn:E.
  - intros [= <- <-].
    apply (does_affected (fun db => effect (key_of db) (ReqDeleteRole (Some id))) _ _ io 1 ErrRoleNotFound);
      [| done | done].
    split; simpl.
    + intros u r. unfold is_Some. setoid_rewrite map_lookup_filter_Some. naive_solver.
    + intros r k. unfold key_of. simpl. setoid_rewrite elem_of_filter. naive_solver.
  - intros [= <- <-].
    apply (does_affected (fun db => effect (key_of db) (ReqDeleteRole (Some id))) _ _ io 0 ErrRoleNotFound);
      [| done | done].
    destruct Hdb as [_ _ W3 W4]. split; simpl.
    + intros u r. split; [| naive_solver]. intros [ur Hur]. split; [by exists ur |]. intros ->.
      destruct (W3 _ _ _ Hur) as (_ & _ & _ & [? Hr]). congruence.
    + intros r k. split; [| naive_solver]. intros (p & Hp & Hk). split; [by exists p |]. intros ->.
      destruct (W4 _ _ Hp) as [[? Hr] _]. congruence.
Qed.

(** Keys name permissions one to one. *)
Lemma key_of_inj db p q k : rbac_wf db -> key_of db p = Some k -> key_of db q = Some k -> p = q.
Proof.
  unfold key_of. intros [_ Wp _ _] (v & Hv & ->)%fmap_Some (w & Hw & Hk)%fmap_Some.
  by apply (keyed_unique _ _ _ Wp _ _ _ _ Hv Hw Hk).
Qed.

Lemma does_DeletePermission io id :
  does (fun db => effect (key_of db) (ReqDeletePermission (Some id))) (DeletePermission io id).
Proof.
  apply does_statement. intros db db' r Hdb. destruct (rb_permissions db !! id) as [old |] eqn:E.
  - intros [= <- <-].
    apply (does_affected (fun db => effect (key_of db) (ReqDeletePermission (Some id))) _ _ io 1
      ErrPermissionNotFound); [| done | done].
    split; [done |]. intros r k. simpl. setoid_rewrite elem_of_filter. split.
    + intros (p & [Hne Hp] & Hk). unfold key_of in Hk. simpl in *.
      rewrite lookup_delete_ne in Hk by done. split; [by exists p |]. intros Hid.
      by destruct Hne; apply (key_of_inj db p id k Hdb).
    + intros [(p & Hp & Hk) Hid]. assert (p <> id) as Hne by congruence. exists p. split; [done |].
      unfold key_of. simpl. by rewrite lookup_delete_ne.
  - intros [= <- <-].
    apply (does_affected (fun db => effect (key_of db) (ReqDeletePermission (Some id))) _ _ io 0
      ErrPermissionNotFound); [| done | done].
    assert (key_of db id = None) as Hn by by unfold key_of; rewrite E.
    split; [done |]. intros r k. simpl. rewrite Hn. naive_solver.
Qed.

Lemma does_UpdatePermission_row io p d :
  does (fun db => effect (key_of db) (ReqUpdatePermission (Some (perm_ID p)) (Some (perm_Key p, d))))
    (UpdatePermission_row io p).
Proof.
  intros db db' r Hdb. unfold UpdatePermission_row, rejected.
  destruct (io 0%nat); [intros [= <- <-]; by left |]. case_match; [intros [= <- <-]; by left |].
  set (eff := fun db => effect (key_of db) (ReqUpdatePermission (Some (perm_ID p)) (Some (perm_Key p, d)))).
  destruct (update_key_cases (perm_ID p) (fun _ => true) (rekeyed p) (rb_permissions db))
    as [(v & Hv & _ & ->) | [Hnone ->]]; intros [= <- <-].
  - apply (does_affected eff db _ io 1 ErrPermissionNotFound); [| done | done].
    assert (key_of db (perm_ID p) = Some (perm_Key v)) as Hold by by unfold key_of; rewrite Hv.
    assert (forall q, key_of (set_permissions db (<[perm_ID p := rekeyed p v]> (rb_permissions db))) q
              = if decide (q = perm_ID p) then Some (perm_Key p) else key_of db q) as Hnew.
    { intros q. unfold key_of. simpl. case_decide as Hq; [by rewrite Hq, lookup_insert_eq |].
      by rewrite lookup_insert_ne. }
    split; [done |]. intros rid k. simpl. setoid_rewrite Hnew. split.
    + intros (q & Hq & Hk). case_decide as Hd; [subst; left; naive_solver |].
      right. split; [by exists q |]. intros Hid. by destruct Hd; apply (key_of_inj db q _ k Hdb).
    + intros [[-> (old & Ho & q & Hq & Hk)] | [(q & Hq & Hk) Hid]]; exists q; (split; [done |]).
      * assert (q = perm_ID p) as -> by by apply (key_of_inj db q _ old Hdb). by rewrite decide_True.
      * rewrite decide_False; [done |]. congruence.
  - assert (rb_permissions db !! perm_ID p = None) as Hn.
    { destruct (rb_permissions db !! perm_ID p) as [w |]; [by specialize (Hnone w eq_refl) | done]. }
    apply (does_affected eff db _ io 0 ErrPermissionNotFound); [| by destruct db | done].
    assert (key_of db (perm_ID p) = None) as Hk by by unfold key_of; rewrite Hn.
    split; [done |]. intros rid k. simpl. rewrite Hk. unfold key_of. simpl. naive_solver.
Qed.

Lemma does_AssignRoleToUser io clock u r by_ :
  does (fun db => effect (key_of db) (ReqAssignRoleToUser (Some u) (Some (Some r))))
    (AssignRoleToUser_row io (mkUserRole u r by_ clock)).
Proof.
  apply does_statement. intros db db' res _. simpl. unfold failed.
  destruct (rb_user_roles db !! (u, r)) as [old |] eqn:E.
  - intros [= <- <-]. split; [| done]. intros u' r'. simpl. split; [by left |].
    intros [? | [-> ->]]; [done | by exists old].
  - intros Hr. repeat case_match; simplify_eq/=; try by left. split; [| done].
    intros u' r'. simpl. rewrite lookup_insert_is_Some'. naive_solver.
Qed.

Lemma does_RemoveRoleFromUser io u r :
  does (fun db => effect (key_of db) (ReqRemoveRoleFromUser (Some u) (Some r)))
    (RemoveRoleFromUser io u r).
Proof.
  apply does_statement. intros db db' res _ [= <- <-]. split; [| done]. intros u' r'. simpl.
  rewrite lookup_delete_is_Some. naive_solver.
Qed.

Lemma does_AssignPermissionToRole io r p :
  does (fun db => effect (key_of db) (ReqAssignPermissionToRole (Some r) (Some (Some p))))
    (AssignPermissionToRole io r p).
Proof.
  apply does_statement. intros db db' res _. unfold failed.
  destruct (bool_decide ((r, p) ∈ rb_role_permissions db)) eqn:E.
  - apply bool_decide_eq_true in E. intros [= <- <-]. split; [done |]. intros r' k. simpl.
    split; [by left |]. intros [? | [-> Hk]]; [done | by exists p].
  - intros Hr. repeat case_match; simplify_eq/=; try by left. split; [done |].
    intros r' k. simpl. unfold key_of. simpl. setoid_rewrite elem_of_union.
    setoid_rewrite elem_of_singleton. naive_solver.
Qed.

Lemma does_RemovePermissionFromRole io r p :
  does (fun db => effect (key_of db) (ReqRemovePermissionFromRole (Some r) (Some p)))
    (RemovePermissionFromRole io r p).
Proof.
  apply does_statement. intros db db' res Hdb [= <- <-]. split; [done |]. intros r' k. simpl.
  setoid_rewrite elem_of_difference. setoid_rewrite elem_of_singleton. split.
  - intros (q & [Hq Hne] & Hk). split; [by exists q |]. intros [-> Hp]. destruct Hne. f_equal.
    by apply (key_of_inj db q p k Hdb).
  - intros [(q & Hq & Hk) Hne]. exists q. naive_solver.
Qed.
End Effects.
