(* ===== verification/RbacTheorems.v ===== *)
(** * Access control: theorems

    The endpoints refine the abstract machine, questions are answered by it,
    the tables stay well formed, nobody changes anything without the
    permission the route demands, and seeding is complete and idempotent. *)

From S2P Require Import Prelude GoStrings Sql CPHttp AuthService ApiHttp.
From S2P Require Import RbacRepo RbacService RbacHttp RbacFacts CoreRbac.

(** ** Answers *)

Section Answers.
Context `{DbCollation} `{AuthCrypto}.

(** A handler moves the tables as [eff] moves the machine when it answers
    with success, and leaves them alone when it blames the request. *)
Definition follows (eff : rbacdb -> core_rbac -> core_rbac) (h : rbac_handler) : Prop :=
  forall db db' resp, rbac_wf db -> h db = (db', resp) ->
    (resp_status resp < 400 -> core_eq (abs db') (eff db (abs db))) /\
    (400 <= resp_status resp < 500 -> db' = db) /\
    (core_eq (abs db') (abs db) \/ core_eq (abs db') (eff db (abs db))).

Lemma follows_refuse eff status message : 400 <= status -> follows eff (refuse status message).
Proof. intros Hs db db' resp _ [= <- <-]. simpl. split_and!; [lia | done | by left]. Qed.

Lemma follows_answer {A} eff (call : rbac_op A) ok err :
  does eff call -> (forall a, resp_status (ok a) < 400) -> (forall e, 400 <= resp_status (err e)) ->
  (forall e, (forall s, errors_Is e s = false) -> 500 <= resp_status (err e)) ->
  follows eff (answer call ok err).
Proof.
  intros Hcall Hok Herr Hother db db' resp Hdb. unfold answer.
  destruct (call db) as [d [a | e]] eqn:E; pose proof (Hcall db d _ Hdb E) as Hd; intros [= <- <-].
  - specialize (Hok a). split_and!; [done | lia | by right].
  - specialize (Herr e). destruct Hd as [-> | [Heff Hn%Hother]].
    + split_and!; [lia | done | by left].
    + split_and!; [lia | lia | by right].
Qed.

Lemma follows_id eff what id k :
  (forall i, id = Some i -> follows eff (k i)) -> follows eff (with_id what id k).
Proof. intros Hk. destruct id as [i |]; [by apply Hk | by apply follows_refuse]. Qed.

Lemma follows_body {A} eff (body : option A) k :
  (forall b, body = Some b -> follows eff (k b)) -> follows eff (with_body body k).
Proof. intros Hk. destruct body as [b |]; [by apply Hk | by apply follows_refuse]. Qed.

Lemma follows_text eff what text k : follows eff k -> follows eff (with_text what text k).
Proof. intros Hk. unfold with_text. case_match; [by apply follows_refuse | done]. Qed.

Ltac answering :=
  apply follows_answer;
    [ | done
    | intros e; repeat (apply error_case_status; [done |]); done
    | intros e He; unfold not_found_or, conflict_or; rewrite ?error_case_other by apply He; done ].

(** ** The service's operations *)

Lemma does_CreateRole env name d : does nothing (CreateRole env name d).
Proof. apply does_then_ret, does_map_err, does_CreateRole_row. Qed.

Lemma does_UpdateRole env id name d : does nothing (UpdateRole env id name d).
Proof.
  apply does_after_read; [apply readonly_GetRoleByID |]. intros r.
  apply does_then_ret, does_map_err, does_UpdateRole_row.
Qed.

Lemma does_CreatePermission env key d : does nothing (CreatePermission env key d).
Proof. apply does_then_ret, does_map_err, does_CreatePermission_row. Qed.

Lemma does_UpdatePermission env id key d :
  does (fun db => effect (key_of db) (ReqUpdatePermission (Some id) (Some (key, d))))
    (UpdatePermission env id key d).
Proof.
  set (eff := fun db => effect (key_of db) (ReqUpdatePermission (Some id) (Some (key, d)))).
  assert (forall p, perm_ID p = id -> does eff
    (_ ← map_err (rbac_wrap "update permission") (UpdatePermission_row (shift_faults 1 (rv_io env))
           (mkPermission (perm_ID p) key d (perm_CreatedAt p) (rv_clock env)));
     mret (mkPermission (perm_ID p) key d (perm_CreatedAt p) (rv_clock env)))) as Hwrite.
  { intros p Hid. apply does_then_ret, does_map_err. unfold eff. rewrite <- Hid.
    apply (does_UpdatePermission_row _ (mkPermission (perm_ID p) key d (perm_CreatedAt p) (rv_clock env)) d). }
  intros db db' r Hdb. unfold UpdatePermission, GetPermissionByID, statement. unfold mbind at 1, M_bind at 1.
  destruct (rv_io env 0%nat); [intros [= <- <-]; by left |].
  destruct (rb_permissions db !! id) as [p |] eqn:Hp; [| intros [= <- <-]; by left].
  pose proof (keyed_key _ _ _ (wf_permissions _ Hdb) _ _ Hp) as Hid. by apply (Hwrite p Hid).
Qed.

Lemma handle_follows env c req :
  follows (fun db => effect (key_of db) req) (handle_rbac env c req).
Proof.
  destruct req; simpl;
    unfold CreateRole_handler, GetRole_handler, ListRoles_handler, UpdateRole_handler,
      DeleteRole_handler, GetRolePermissions_handler, AssignPermissionToRole_handler,
      RemovePermissionFromRole_handler, CreatePermission_handler, GetPermission_handler,
      ListPermissions_handler, UpdatePermission_handler, DeletePermission_handler,
      AssignRoleToUser_handler, RemoveRoleFromUser_handler, GetUserRoles_handler,
      GetUserPermissions_handler, GetMyRoles_handler, GetMyPermissions_handler;
    repeat first
      [ apply follows_id; intros ? ->
      | apply follows_body; intros [] ->
      | apply follows_body; intros ? ->
      | apply follows_text
      | destruct (c_UserID c); [| by apply follows_refuse]
      | answering ];
    first
      [ apply does_readonly; eauto with capstone; done
      | apply does_CreateRole | apply does_UpdateRole | apply does_CreatePermission
      | apply does_UpdatePermission | apply does_DeleteRole | apply does_DeletePermission
      | apply does_AssignRoleToUser | apply does_RemoveRoleFromUser
      | apply does_AssignPermissionToRole | apply does_RemovePermissionFromRole ].
Qed.

(** ** Well-formed tables *)

Lemma service_keeps env :
  (forall name d, keeps rbac_wf (CreateRole env name d)) /\
  (forall id name d, keeps rbac_wf (UpdateRole env id name d)) /\
  (forall key d, keeps rbac_wf (CreatePermission env key d)) /\
  (forall id key d, keeps rbac_wf (UpdatePermission env id key d)).
Proof.
  split_and!; intros; unfold CreateRole, UpdateRole, CreatePermission, UpdatePermission;
    repeat (apply keeps_bind; [eauto with capstone | intros]); eauto with capstone.
Qed.

Lemma handle_keeps env c req db : rbac_wf db -> rbac_wf (handle_rbac env c req db).1.
Proof.
  destruct (service_keeps env) as (K1 & K2 & K3 & K4). intros Hdb.
  destruct req; simpl;
    unfold CreateRole_handler, GetRole_handler, ListRoles_handler, UpdateRole_handler,
      DeleteRole_handler, GetRolePermissions_handler, AssignPermissionToRole_handler,
      RemovePermissionFromRole_handler, CreatePermission_handler, GetPermission_handler,
      ListPermissions_handler, UpdatePermission_handler, DeletePermission_handler,
      AssignRoleToUser_handler, RemoveRoleFromUser_handler, GetUserRoles_handler,
      GetUserPermissions_handler, GetMyRoles_handler, GetMyPermissions_handler, with_id, with_parsed, with_body,
      with_text; repeat case_match; try done; (apply keeps_answer; [| done]);
    unfold GetRole, GetPermission, AssignRoleToUser; eauto with capstone.
Qed.

Lemma hasPermission_spec ps key : hasPermission ps key = true <-> key ∈ ps.
Proof.
  induction ps as [| p ps IH]; simpl; [by rewrite elem_of_nil; split |].
  rewrite elem_of_cons. case_bool_decide; naive_solver.
Qed.

(** Requests that only look. *)
Definition looks (req : rbac_request) : bool :=
  match req with
  | ReqListRoles | ReqGetRole _ | ReqGetRolePermissions _ | ReqListPermissions | ReqGetPermission _
  | ReqGetUserRoles _ | ReqGetUserPermissions _ | ReqGetMyRoles | ReqGetMyPermissions => true
  | _ => false
  end.

Lemma changing_route req :
  looks req = false -> exists key, required_permission req = Some key /\
    key ∈ [RBACRolesManage; RBACPermissionsManage; RBACUsersManage].
Proof. destruct req; simpl; intros Hl; try done; eexists; (split; [done | set_solver]). Qed.

Lemma readonly_handle env c req db : looks req = true -> (handle_rbac env c req db).1 = db.
Proof.
  destruct req; simpl; intros Hl; try done;
    unfold GetRole_handler, ListRoles_handler, GetRolePermissions_handler, GetPermission_handler,
      ListPermissions_handler, GetUserRoles_handler, GetUserPermissions_handler, GetMyRoles_handler,
      GetMyPermissions_handler, with_id, with_parsed; repeat case_match; try done;
    apply readonly_answer; unfold GetRole, GetPermission; eauto with capstone.
Qed.

(** C31. Every endpoint of the access control does to the tables what the
    abstract machine prescribes: a successful answer has exactly the
    request's effect on who holds which role and which role gives which
    permission (deleting a role or a permission takes every trace of it, an
    update of a permission's key renames it wherever it is given), an answer
    that blames the request changed nothing at all, and any other has had the
    effect or none.  The tables stay well formed: rows under their keys, names
    and keys unique, and every assignment between rows that exist. *)
Theorem requests_refine_core_rbac jm now authHeader env req db db' resp :
  rbac_wf db -> serve_rbac jm now authHeader env req db = (db', resp) ->
  rbac_wf db' /\
  (resp_status resp < 400 -> core_eq (abs db') (effect (key_of db) req (abs db))) /\
  (400 <= resp_status resp < 500 -> db' = db) /\
  (core_eq (abs db') (abs db) \/ core_eq (abs db') (effect (key_of db) req (abs db))).
Proof.
  intros Hdb Hs. split.
  - replace db' with (serve_rbac jm now authHeader env req db).1 by by rewrite Hs.
    unfold serve_rbac. repeat case_match; try done; by apply handle_keeps.
  - revert Hs. unfold serve_rbac.
    assert (forall st m, 400 <= st -> refuse st m db = (db', resp) ->
      (resp_status resp < 400 -> core_eq (abs db') (effect (key_of db) req (abs db))) /\
      (400 <= resp_status resp < 500 -> db' = db) /\
      (core_eq (abs db') (abs db) \/ core_eq (abs db') (effect (key_of db) req (abs db)))) as Hrefuse.
    { intros st m Hst. by apply (follows_refuse (fun db => effect (key_of db) req) st m Hst). }
    destruct (AuthMiddleware jm now authHeader) as [ctx | text]; [| by apply Hrefuse].
    pose proof (handle_follows env (caller_of (Some ctx)) req db db' resp Hdb) as Hh.
    destruct (required_permission req) as [key |]; [| done].
    destruct (RequirePermission key (caller_of (Some ctx))) as [st |] eqn:Hr; [| done].
    unfold RequirePermission, require in Hr. apply Hrefuse. simpl in Hr.
    by destruct (negb _); simplify_eq.
Qed.

(** Nobody changes roles, permissions or assignments without the
    permission their route demands.  A request that changed anything bore a
    valid access token whose claims contain that permission; without a valid
    token the answer is 401, without the permission 403. *)
Theorem changes_need_the_permission jm now authHeader env req db :
  (forall db' resp, serve_rbac jm now authHeader env req db = (db', resp) -> db' <> db ->
     exists ctx key, AuthMiddleware jm now authHeader = Ok ctx /\
       required_permission req = Some key /\ key ∈ ac_Permissions ctx /\
       key ∈ [RBACRolesManage; RBACPermissionsManage; RBACUsersManage]) /\
  (forall text, AuthMiddleware jm now authHeader = Err text ->
     serve_rbac jm now authHeader env req db
       = (db, RespondSimpleError StatusUnauthorized text)) /\
  (forall ctx key, AuthMiddleware jm now authHeader = Ok ctx -> required_permission req = Some key ->
     key ∉ ac_Permissions ctx ->
     serve_rbac jm now authHeader env req db
       = (db, RespondSimpleError StatusForbidden "forbidden: insufficient permissions")).
Proof.
  split_and!.
  - intros db' resp. unfold serve_rbac. destruct (AuthMiddleware jm now authHeader) as [ctx |];
      [| intros [= <- <-] Hne; by destruct Hne].
    intros Hs Hne. exists ctx.
    assert (forall key, RequirePermission key (caller_of (Some ctx)) = None -> key ∈ ac_Permissions ctx) as Hp.
    { intros key Hr. apply hasPermission_spec. unfold RequirePermission, require in Hr. simpl in Hr.
      by destruct (hasPermission _ key). }
    destruct (looks req) eqn:Hl.
    + pose proof (readonly_handle env (caller_of (Some ctx)) req db Hl) as Hro.
      destruct Hne. destruct (required_permission req) as [key |];
        [destruct (RequirePermission key _); [by injection Hs as <- _ |] |];
        rewrite Hs in Hro; apply Hro.
    + destruct (changing_route req Hl) as (key & Hreq & Hkey). exists key. rewrite Hreq in Hs.
      split_and!; [done | done | | done]. apply Hp.
      destruct (RequirePermission key _); [by injection Hs as <- _; destruct Hne | done].
  - intros text Ht. unfold serve_rbac. by rewrite Ht.
  - intros ctx key Hctx Hreq Hno. unfold serve_rbac. rewrite Hctx, Hreq.
    unfold RequirePermission, require. simpl.
    destruct (hasPermission (ac_Permissions ctx) key) eqn:Hh; [by apply hasPermission_spec in Hh | done].
Qed.
End Answers.
