(* ===== verification/RbacSessions.v ===== *)
(** * Access control: questions, sessions and seeding

    What a user may do according to the tables, to the access token of a
    session, and after seeding. *)

From S2P Require Import Prelude GoStrings Sql CPHttp ApiHttp.
From S2P Require Import AuthRepo AuthService AuthFacts AuthTheorems.
From S2P Require Import RbacRepo RbacService RbacFacts CoreRbac RbacHttp RbacTheorems.

(** ** Questions *)

Section Questions.
Context `{DbCollation}.

Definition fine (n : nat) (io : faults) : Prop := forall i, (i < n)%nat -> io i = None.

Lemma fold_map_spec {V} (key : V -> string) (l : list V) (m : gmap string V) k :
  is_Some (foldl (fun m v => <[key v := v]> m) m l !! k) <-> is_Some (m !! k) \/ k ∈ key <$> l.
Proof.
  revert m. induction l as [| v l IH]; intros m; simpl.
  - rewrite elem_of_nil. tauto.
  - rewrite IH, lookup_insert_is_Some', elem_of_cons. naive_solver.
Qed.

Lemma HasPermission_spec u key : HasPermission u key = true <-> key ∈ GetPermissionKeys u.
Proof.
  unfold HasPermission, PermMap, GetPermissionKeys.
  rewrite bool_decide_eq_true, fold_map_spec, lookup_empty. split; [| by right].
  intros [[? ?] | ?]; done.
Qed.

Lemma HasRole_spec u name : HasRole u name = true <-> name ∈ role_Name <$> uw_Roles u.
Proof.
  unfold HasRole, RoleMap. rewrite bool_decide_eq_true, fold_map_spec, lookup_empty. split; [| by right].
  intros [[? ?] | ?]; done.
Qed.

Lemma HasAnyPermission_spec u keys :
  HasAnyPermission u keys = true <-> exists key, key ∈ keys /\ HasPermission u key = true.
Proof.
  induction keys as [| k keys IH]; simpl; [split; [done |]; intros (? & Hin & _); by apply not_elem_of_nil in Hin |].
  setoid_rewrite elem_of_cons. destruct (HasPermission u k) eqn:E.
  - split; [intros _; exists k; auto | done].
  - rewrite IH. split; [intros (x & ? & ?); exists x; auto |].
    intros (x & [-> | ?] & ?); [congruence | by exists x].
Qed.

Lemma HasAllPermissions_spec u keys :
  HasAllPermissions u keys = true <-> forall key, key ∈ keys -> HasPermission u key = true.
Proof.
  induction keys as [| k keys IH]; simpl; [split; [| done]; intros _ ? Hin; by apply not_elem_of_nil in Hin |].
  setoid_rewrite elem_of_cons. destruct (HasPermission u k) eqn:E; simpl.
  - rewrite IH. split; [intros Hall x [-> | ?]; auto | auto].
  - split; [done |]. intros Hall. rewrite <- E. auto.
Qed.

Lemma granted_by_a_role_spec db u p :
  granted_by_a_role db u p = true <->
  exists r, holds (abs db) u r /\ (r, perm_ID p) ∈ rb_role_permissions db.
Proof.
  unfold granted_by_a_role. rewrite existsb_exists. setoid_rewrite <- list_elem_of_In.
  setoid_rewrite elem_of_elements. split.
  - intros ([r q] & Hin & [Hq Hr]%andb_true_iff). simpl in *.
    apply bool_decide_eq_true in Hq, Hr. subst. by exists r.
  - intros (r & Hr & Hin). exists (r, perm_ID p). split; [done |]. simpl.
    rewrite bool_decide_eq_true_2 by done. by apply bool_decide_eq_true.
Qed.

Lemma GetUserWithRoles_ok io u db db' uw :
  GetUserWithRoles io u db = (db', Ok uw) ->
  db' = db /\ uw = mkUserWithRoles u
    (order_by by_name (select_where (fun r => assigned db u (role_ID r)) (rb_roles db)))
    (order_by by_key (select_where (granted_by_a_role db u) (rb_permissions db))).
Proof.
  unfold GetUserWithRoles, GetUserRoles, GetUserPermissions. rewrite bind_ok.
  intros (d1 & rs & (_ & _ & -> & ->)%query_rows_ok & Hk). rewrite bind_ok in Hk.
  destruct Hk as (d2 & ps & (_ & _ & -> & ->)%query_rows_ok & [= <- <-]). done.
Qed.

Lemma GetUserWithRoles_total io u db :
  fine 4 io -> exists uw, GetUserWithRoles io u db = (db, Ok uw).
Proof.
  intros Hio. unfold GetUserWithRoles, GetUserRoles, GetUserPermissions. mrun.
  rewrite !query_rows_fine by (apply Hio; lia). by eexists.
Qed.

(** The keys a user is given are those the abstract machine grants. *)
Lemma keys_spec io u db uw key :
  rbac_wf db -> (GetUserWithRoles io u db).2 = Ok uw ->
  key ∈ GetPermissionKeys uw <-> can (abs db) u key.
Proof.
  intros Hdb E. destruct (GetUserWithRoles io u db) as [db' r] eqn:E'. simpl in E. subst r.
  apply GetUserWithRoles_ok in E' as [_ ->]. unfold GetPermissionKeys. simpl.
  rewrite list_elem_of_fmap. setoid_rewrite elem_of_order_by. setoid_rewrite elem_of_select_where.
  setoid_rewrite granted_by_a_role_spec. split.
  - intros (p & -> & (r & Hr & Hin) & id & Hid). exists r. split; [done |].
    exists (perm_ID p). split; [done |]. unfold key_of.
    by rewrite (keyed_key _ _ _ (wf_permissions _ Hdb) _ _ Hid), Hid.
  - intros (r & Hr & p & Hin & Hk). unfold key_of in Hk. apply fmap_Some in Hk as (w & Hw & ->).
    exists w. split; [done |]. pose proof (keyed_key _ _ _ (wf_permissions _ Hdb) _ _ Hw) as Hid.
    split; [| by exists p]. exists r. by rewrite Hid.
Qed.

Lemma names_spec io u db uw name :
  rbac_wf db -> (GetUserWithRoles io u db).2 = Ok uw ->
  name ∈ role_Name <$> uw_Roles uw <->
  exists id r, rb_roles db !! id = Some r /\ role_Name r = name /\ holds (abs db) u id.
Proof.
  intros Hdb E. destruct (GetUserWithRoles io u db) as [db' r] eqn:E'. simpl in E. subst r.
  apply GetUserWithRoles_ok in E' as [_ ->]. simpl.
  rewrite list_elem_of_fmap. setoid_rewrite elem_of_order_by. setoid_rewrite elem_of_select_where.
  unfold assigned. setoid_rewrite bool_decide_eq_true. split.
  - intros (r & -> & Hr & id & Hid). exists id, r. split_and!; [done | done |].
    by rewrite <- (keyed_key _ _ _ (wf_roles _ Hdb) _ _ Hid).
  - intros (id & r & Hid & <- & Hr). exists r. split_and!; [done | | by exists id].
    by rewrite (keyed_key _ _ _ (wf_roles _ Hdb) _ _ Hid).
Qed.

(** The service answers what a user may do by the abstract machine: when
    its queries succeed, a user has a permission exactly when some role they
    hold gives it, and has a role exactly when they hold the one of that name;
    the list of a user's keys has each of them, once.  A question changes
    nothing, and a failing query is an error, never a yes. *)
Theorem questions_follow_the_roles io u db :
  rbac_wf db ->
  (forall key, exists r, UserHasPermission io u key db = (db, r) /\
     (r = Ok true -> can (abs db) u key) /\
     (fine 4 io -> exists b, r = Ok b /\ (b = true <-> can (abs db) u key))) /\
  (forall name, exists r, UserHasRole io u name db = (db, r) /\
     (fine 4 io -> exists b, r = Ok b /\ (b = true <-> exists id role, rb_roles db !! id = Some role /\
        role_Name role = name /\ holds (abs db) u id))) /\
  (forall uw, (GetUserWithRoles io u db).2 = Ok uw -> NoDup (GetPermissionKeys uw) /\
     forall key, key ∈ GetPermissionKeys uw <-> can (abs db) u key).
Proof.
  intros Hdb. pose proof (readonly_GetUserWithRoles io u db) as Hro.
  assert (fine 4 io -> exists uw, (GetUserWithRoles io u db).2 = Ok uw) as Htotal.
  { intros Hio. destruct (GetUserWithRoles_total io u db Hio) as [uw E]. exists uw. by rewrite E. }
  split_and!.
  - intros key. unfold UserHasPermission. mrun.
    pose proof (fun uw => keys_spec io u db uw key Hdb) as Hk.
    destruct (GetUserWithRoles io u db) as [d [uw | e]]; simpl in *; subst; eexists; (split; [done |]).
    + specialize (Hk uw eq_refl). rewrite <- HasPermission_spec in Hk.
      split; [intros [= E]; by apply Hk | intros _; by exists (HasPermission uw key)].
    + split; [done |]. intros [? ?]%Htotal. done.
  - intros name. unfold UserHasRole. mrun.
    pose proof (fun uw => names_spec io u db uw name Hdb) as Hk.
    destruct (GetUserWithRoles io u db) as [d [uw | e]]; simpl in *; subst; eexists; (split; [done |]).
    + specialize (Hk uw eq_refl). rewrite <- HasRole_spec in Hk. intros _. by exists (HasRole uw name).
    + by intros [? ?]%Htotal.
  - intros uw E. split; [| intros key; by apply (keys_spec io)].
    destruct (GetUserWithRoles io u db) as [d r] eqn:E'. simpl in E. subst r.
    apply GetUserWithRoles_ok in E' as [_ ->]. unfold GetPermissionKeys. simpl.
    rewrite order_by_perm. by apply (NoDup_column perm_ID), wf_permissions.
Qed.
End Questions.

(** ** Sessions *)

Section Sessions.
Context `{DbLower} `{Bcrypt} `{AuthCrypto} `{GoURL} `{DbCollation}.
Context (jm : JWTManager) (frontendURL : string).

(** What the authentication service makes of the access-control service's
    answer: the user's keys, or an error it logs and drops. *)
Definition reported (r : result rbac_error UserWithRoles) : result string (list string) :=
  match r with
  | Ok u => Ok (GetPermissionKeys u)
  | Err e => Err (error_text e)
  end.

(** C32. A session can do what its user's roles allowed when it began.  Take
    any sign-in or refresh that succeeded while the access-control tables
    were [rdb]: until the access token expires, the middlewares let a request
    that bears it through [RequirePermission key] exactly if the tables were
    read then and the user could [key] by the abstract machine.  They were
    read unless a query failed; a session that begins without is let through
    nowhere.  A refused request is answered 403. *)
Theorem sessions_can_what_the_roles_allow `{!JwtLaws} before env db' resp now rdb io :
  let db := as_db (serve_all jm frontendURL before empty_auth) in
  let user := u_ID (ar_User resp) in
  (exists email password, Login jm env email password db = (db', Ok resp)) \/
  (exists token, RefreshToken_ jm env token db = (db', Ok resp)) ->
  rbac_wf rdb -> an_permissions env = reported (GetUserWithRoles io user rdb).2 ->
  NumericDate (an_clock env) * time_Second <= now <
    NumericDate (an_clock env + jm_accessTokenDuration jm) * time_Second ->
  let tables_read := exists uw, (GetUserWithRoles io user rdb).2 = Ok uw in
  (fine 4 io -> tables_read) /\
  exists ctx, AuthMiddleware jm now ("Bearer " ++s ar_AccessToken resp) = Ok ctx /\
    ac_UserID ctx = user /\
    forall key,
      match RequirePermission key (caller_of (Some ctx)) with
      | None => tables_read /\ can (abs rdb) user key
      | Some status => status = StatusForbidden /\ (tables_read -> ~ can (abs rdb) user key)
      end.
Proof.
  intros db user Hs Hrdb Hperms [Hfrom Huntil] tables_read. split.
  { intros Hfine. destruct (GetUserWithRoles_total io user rdb Hfine) as [uw E]. exists uw. by rewrite E. }
  pose proof (session_signed jm _ _ _ _ Hs (reachable_inv jm frontendURL before)) as Ht.
  destruct (token_read jm _ _ _ _ _ now Ht Hfrom) as [Hvalid _].
  destruct (Hvalid Huntil) as [Hctx _]. eexists. split_and!; [exact Hctx | done |]. intros key.
  unfold RequirePermission, require. cbn. fold user.
  assert (forall key, hasPermission (permission_keys env) key = true <-> key ∈ permission_keys env)
    as Hhas by (intros; apply hasPermission_spec).
  destruct (hasPermission (permission_keys env) key) eqn:Hk; cbn.
  - apply Hhas in Hk. unfold permission_keys in Hk. rewrite Hperms in Hk.
    destruct (GetUserWithRoles io user rdb).2 as [uw | e] eqn:E; simpl in Hk;
      [| by apply not_elem_of_nil in Hk].
    split; [by exists uw | by apply (keys_spec io user rdb uw key Hrdb E)].
  - split; [done |]. intros [uw E] Hcan.
    assert (hasPermission (permission_keys env) key = true); [| congruence].
    apply Hhas. unfold permission_keys. rewrite Hperms, E. simpl.
    by apply (keys_spec io user rdb uw key Hrdb E).
Qed.
End Sessions.
