(* ===== verification/RbacSeed.v ===== *)
(** * Access control: seeding, and concrete runs

    [SeedCoreRBAC] makes sure that the core permissions and roles exist and
    that the roles give their permissions; it only ever adds, and running it
    again changes nothing.  At the end, one user with one role that gives one
    permission, on which the theorems of the access control are applied. *)

From S2P Require Import Prelude GoStrings Sql CPHttp ApiHttp.
From S2P Require Import AuthRepo AuthService AuthFacts AuthTheorems.
From S2P Require Import RbacRepo RbacService RbacFacts CoreRbac RbacHttp.
From S2P Require Import RbacTheorems RbacSessions.

Section Seeding.
Context `{DbCollation}.

(** ** Databases that only grow *)

Record grows (db db' : rbacdb) : Prop := {
  gr_users : rb_users db' = rb_users db;
  gr_roles : rb_roles db ⊆ rb_roles db';
  gr_permissions : rb_permissions db ⊆ rb_permissions db';
  gr_user_roles : rb_user_roles db' = rb_user_roles db;
  gr_role_permissions : rb_role_permissions db ⊆ rb_role_permissions db'
}.

#[local] Instance grows_preorder : PreOrder grows.
Proof.
  split; [intros db; by split |]. intros d1 d2 d3 [] []. split; [congruence | | | congruence |];
    by etrans.
Qed.

(** Growing operations, and that they may be chained. *)
Definition growing {A} (m : rbac_op A) : Prop := forall db, grows db (m db).1.

Lemma growing_readonly {A} (m : rbac_op A) : readonly m -> growing m.
Proof. intros Hm db. by rewrite Hm. Qed.

Lemma growing_bind {A B} (m : rbac_op A) (k : A -> rbac_op B) :
  growing m -> (forall a, growing (k a)) -> growing (m ≫= k).
Proof.
  intros Hm Hk db. unfold mbind, M_bind. specialize (Hm db).
  destruct (m db) as [d [a | e]]; [| done]. simpl in Hm. by etrans; [| apply Hk].
Qed.

Lemma growing_attempt {A} (m : rbac_op A) : growing m -> growing (attempt m : rbac_op _).
Proof. intros Hm db. unfold attempt. specialize (Hm db). by destruct (m db). Qed.

Lemma growing_map_err {A} f (m : rbac_op A) : growing m -> growing (map_err f m).
Proof. intros Hm db. unfold map_err. specialize (Hm db). by destruct (m db) as [? []]. Qed.

Lemma growing_CreateRole env name d : growing (CreateRole env name d).
Proof.
  apply growing_bind; [apply growing_map_err | by intros ? ?].
  intros db. unfold CreateRole_row, rejected.
  destruct (bool_decide (rb_roles db !! _ = None)) eqn:E; repeat case_match; simpl; try done.
  apply bool_decide_eq_true in E. split; simpl; try done. by apply insert_subseteq.
Qed.

Lemma growing_CreatePermission env key d : growing (CreatePermission env key d).
Proof.
  apply growing_bind; [apply growing_map_err | by intros ? ?].
  intros db. unfold CreatePermission_row, rejected.
  destruct (bool_decide (rb_permissions db !! _ = None)) eqn:E; repeat case_match; simpl; try done.
  apply bool_decide_eq_true in E. split; simpl; try done. by apply insert_subseteq.
Qed.

Lemma growing_AssignPermissionToRole io r p : growing (AssignPermissionToRole io r p).
Proof.
  intros db. unfold AssignPermissionToRole, statement, failed. repeat case_match; simpl; try done.
  split; simpl; try done. set_solver.
Qed.

Lemma growing_find_or_create {A} (f c : rbac_op A) what :
  readonly f -> growing c -> growing (find_or_create f c what).
Proof.
  intros Hf Hc. apply growing_bind; [by apply growing_readonly, readonly_attempt |].
  intros [a | e]; [by apply growing_readonly | by apply growing_map_err].
Qed.

Lemma growing_seed_permissions env draw n perms pm : growing (seed_permissions env draw n perms pm).
Proof.
  revert n pm. induction perms as [| [key d] perms IH]; intros n pm; [done |].
  apply growing_bind; [| intros p; apply IH].
  apply growing_find_or_create; [apply readonly_GetPermissionByKey | apply growing_CreatePermission].
Qed.

Lemma growing_seed_role_permissions io name id keys pm :
  growing (seed_role_permissions io name id keys pm).
Proof.
  revert io. induction keys as [| key keys IH]; intros io; [done |]. simpl.
  destruct (pm !! key); [| done]. apply growing_bind; [| intros; apply IH].
  apply growing_map_err, growing_AssignPermissionToRole.
Qed.

Lemma growing_seed_roles env draw n used roles pm : growing (seed_roles env draw n used roles pm).
Proof.
  revert n used. induction roles as [| [[name d] keys] roles IH]; intros n used; [done |].
  apply growing_bind; [| intros r; apply growing_bind; [| intros; apply IH]].
  - apply growing_find_or_create; [apply readonly_GetRoleByName | apply growing_CreateRole].
  - apply growing_seed_role_permissions.
Qed.

(** ** The same for well-formedness *)

Lemma keeps_find_or_create {A} (f c : rbac_op A) what :
  readonly f -> keeps rbac_wf c -> keeps rbac_wf (find_or_create f c what).
Proof.
  intros Hf Hc. apply keeps_bind; [by apply keeps_readonly, readonly_attempt |].
  intros [a | e]; [by apply keeps_readonly | by apply keeps_map_err].
Qed.

Lemma keeps_CreateRole env name d : keeps rbac_wf (CreateRole env name d).
Proof. apply keeps_bind; [eauto with capstone | by intros ? ?]. Qed.

Lemma keeps_CreatePermission env key d : keeps rbac_wf (CreatePermission env key d).
Proof. apply keeps_bind; [eauto with capstone | by intros ? ?]. Qed.

Lemma keeps_seed_permissions env draw n perms pm : keeps rbac_wf (seed_permissions env draw n perms pm).
Proof.
  revert n pm. induction perms as [| [key d] perms IH]; intros n pm; [by intros db |].
  apply keeps_bind; [| intros p; apply IH].
  apply keeps_find_or_create; [apply readonly_GetPermissionByKey | apply keeps_CreatePermission].
Qed.

Lemma keeps_seed_role_permissions io name id keys pm :
  keeps rbac_wf (seed_role_permissions io name id keys pm).
Proof.
  revert io. induction keys as [| key keys IH]; intros io; [by intros db |]. simpl.
  destruct (pm !! key); [| by intros db]. apply keeps_bind; [| intros; apply IH].
  eauto with capstone.
Qed.

Lemma keeps_seed_roles env draw n used roles pm : keeps rbac_wf (seed_roles env draw n used roles pm).
Proof.
  revert n used. induction roles as [| [[name d] keys] roles IH]; intros n used; [by intros db |].
  apply keeps_bind; [| intros r; apply keeps_bind; [| intros; apply IH]].
  - apply keeps_find_or_create; [apply readonly_GetRoleByName | apply keeps_CreateRole].
  - apply keeps_seed_role_permissions.
Qed.

(** ** Runs without faults *)

Definition faultless (io : faults) : Prop := forall i, io i = None.

(** Keys from [m] on are free. *)
Definition free_from {V} (draw : nat -> uuid) (n : nat) (t : gmap uuid V) : Prop :=
  forall m, (n <= m)%nat -> t !! draw m = None.

Lemma free_after {V} draw n (t : gmap uuid V) v :
  (forall i j, draw i = draw j -> i = j) -> free_from draw n t ->
  free_from draw (S n) (<[draw n := v]> t).
Proof.
  intros Hinj Hfree m Hm. rewrite lookup_insert_ne; [apply Hfree; lia |]. intros E%Hinj. lia.
Qed.

Lemma find_permission io key db p :
  rbac_wf db -> faultless io -> key_of db p = Some key ->
  exists row, GetPermissionByKey io key db = (db, Ok row) /\ perm_ID row = p.
Proof.
  intros Hdb Hio Hk. unfold key_of in Hk. apply fmap_Some in Hk as (row & Hrow & ->). exists row.
  unfold GetPermissionByKey. rewrite statement_none by apply Hio. unfold select_one.
  rewrite (select_unique perm_ID perm_Key _ _ p row (wf_permissions _ Hdb)); [| | done |].
  - by rewrite (keyed_key _ _ _ (wf_permissions _ Hdb) _ _ Hrow).
  - intros w Hw. by apply bool_decide_eq_true in Hw.
  - by apply bool_decide_eq_true.
Qed.

Lemma find_role io name db id r :
  rbac_wf db -> faultless io -> rb_roles db !! id = Some r -> role_Name r = name ->
  GetRoleByName io name db = (db, Ok r).
Proof.
  intros Hdb Hio Hr <-. unfold GetRoleByName. rewrite statement_none by apply Hio. unfold select_one.
  rewrite (select_unique role_ID role_Name _ _ id r (wf_roles _ Hdb)); [done | | done |].
  - intros w Hw. by apply bool_decide_eq_true in Hw.
  - by apply bool_decide_eq_true.
Qed.

Lemma key_of_grows db db' id k : grows db db' -> key_of db id = Some k -> key_of db' id = Some k.
Proof.
  unfold key_of. intros [_ _ Hp _ _] (row & Hrow & ->)%fmap_Some.
  by rewrite (lookup_weaken _ _ _ _ Hrow Hp).
Qed.

Lemma found_or_created {A} (f c : rbac_op A) what db (Q : rbacdb -> A -> Prop) :
  readonly f -> growing c -> keeps rbac_wf c -> rbac_wf db ->
  (exists db' a, find_or_create f c what db = (db', Ok a) /\ Q db' a) ->
  exists db' a, find_or_create f c what db = (db', Ok a) /\ grows db db' /\ rbac_wf db' /\ Q db' a.
Proof.
  intros Hf Hg Hk Hdb (db' & a & E & HQ). exists db', a.
  pose proof (growing_find_or_create f c what Hf Hg db) as Hgrow.
  pose proof (keeps_find_or_create f c what Hf Hk db Hdb) as Hwf. rewrite E in Hgrow, Hwf. done.
Qed.

(** One item of the first loop. *)
Lemma permission_step io1 io2 clock id key d db :
  rbac_wf db -> faultless io1 -> faultless io2 -> rb_permissions db !! id = None ->
  exists db' p,
    find_or_create (GetPermissionByKey io1 key) (CreatePermission (mkRbacEnv io2 clock id) key (Some d))
      ("create permission " ++s key) db = (db', Ok p) /\ grows db db' /\ rbac_wf db' /\
    key_of db' (perm_ID p) = Some key /\ rb_roles db' = rb_roles db /\
    (forall j, j <> id -> rb_permissions db' !! j = rb_permissions db !! j) /\
    ((exists j, key_of db j = Some key) -> db' = db).
Proof.
  intros Hdb Hio1 Hio2 Hid. eapply found_or_created;
    [apply readonly_GetPermissionByKey | apply growing_CreatePermission | apply keeps_CreatePermission
    | done |].
  unfold find_or_create, attempt. mrun.
  destruct (no_row (has_key key) (rb_permissions db)) eqn:Hn.
  - assert (forall j, key_of db j <> Some key) as Hnone.
    { rewrite no_row_spec in Hn. intros j (row & Hrow & ->)%fmap_Some.
      specialize (Hn j row Hrow). by apply bool_decide_eq_false in Hn. }
    rewrite no_row_spec in Hn. unfold GetPermissionByKey. rewrite statement_none by apply Hio1.
    rewrite select_one_none by done.
    unfold CreatePermission, CreatePermission_row. mrun. cbn [rv_io rv_id rv_clock perm_ID perm_Key].
    rewrite Hio2, Hid. rewrite bool_decide_eq_true_2 by done. cbn [negb].
    rewrite (proj2 (no_row_spec (has_key key) _) Hn). cbn [negb]. do 2 eexists. split; [done |].
    unfold key_of. cbn. rewrite lookup_insert_eq. split_and!; [done | done | |].
    + intros j Hj. by rewrite lookup_insert_ne.
    + intros (j & Hj). by destruct (Hnone j).
  - assert (exists j, key_of db j = Some key) as [j Hj].
    { unfold no_row in Hn. apply Nat.eqb_neq in Hn. unfold count_where in Hn.
      destruct (select_where (has_key key) (rb_permissions db)) as [| row l] eqn:E; [done |].
      assert (row ∈ select_where (has_key key) (rb_permissions db)) as Hin
        by (rewrite E; apply list_elem_of_here).
      apply elem_of_select_where in Hin as (Hkey%bool_decide_eq_true & j & Hj).
      exists j. unfold key_of. by rewrite Hj, <- Hkey. }
    destruct (find_permission io1 key db j Hdb Hio1 Hj) as (row & -> & <-).
    do 2 eexists. split; [done |]. by split_and!.
Qed.

(** The first loop: its map names a row for every key. *)
Lemma seed_permissions_run env draw n perms pm db :
  rbac_wf db -> faultless (rv_io env) -> (forall i j, draw i = draw j -> i = j) ->
  free_from draw n (rb_permissions db) ->
  (forall k id, pm !! k = Some id -> key_of db id = Some k) ->
  exists db' pm', seed_permissions env draw n perms pm db = (db', Ok pm') /\
    rb_roles db' = rb_roles db /\
    (forall k id, pm' !! k = Some id -> key_of db' id = Some k) /\
    (forall k, is_Some (pm !! k) \/ k ∈ perms.*1 -> is_Some (pm' !! k)) /\
    ((forall k, k ∈ perms.*1 -> exists j, key_of db j = Some k) -> db' = db).
Proof.
  revert n pm db. induction perms as [| [key d] perms IH]; intros n pm db Hdb Hio Hinj Hfree Hpm.
  { exists db, pm. split_and!; try done. intros k [? | Hk]; [done | by apply not_elem_of_nil in Hk]. }
  cbn [seed_permissions]. unfold mbind, M_bind, item_env. cbn [rv_io rv_clock rv_id].
  destruct (permission_step (shift_faults (2 * n) (rv_io env))
    (shift_faults 1 (shift_faults (2 * n) (rv_io env))) (rv_clock env) (draw n) key d db)
    as (d1 & p & E & Hgrow & Hd1 & Hkey & Hroles & Hother & Hsame);
    [done | by intros i; apply Hio | by intros i; apply Hio | by apply Hfree |].
  rewrite E.
  destruct (IH (S n) (<[key := perm_ID p]> pm) d1) as (d2 & pm' & E2 & Hr2 & Hpm' & Hall & Hsame2); try done.
  - intros m Hm. rewrite Hother; [apply Hfree; lia |]. intros Eq%Hinj. lia.
  - intros k id [[<- <-] | [_ Hk]]%lookup_insert_Some; [done |].
    by apply (key_of_grows db d1), Hpm.
  - exists d2, pm'. split_and!; [done | congruence | done | |].
    + intros k Hk. apply Hall. cbn in Hk. rewrite elem_of_cons in Hk.
      destruct Hk as [Hk | [-> | Hk]]; [left | left | by right].
      * by rewrite lookup_insert_is_Some'; right.
      * by rewrite lookup_insert_eq.
    + intros Hex. assert (d1 = db) as -> by (apply Hsame, Hex; cbn; apply list_elem_of_here).
      apply Hsame2. intros k Hk. apply Hex. cbn. by apply list_elem_of_further.
Qed.

(** ** The second loop *)

Lemma gives_grows db db' r k : grows db db' -> gives (abs db) r k -> gives (abs db') r k.
Proof.
  intros Hg (p & Hp & Hk). exists p. split; [| by apply (key_of_grows db)].
  by apply (gr_role_permissions _ _ Hg).
Qed.

Lemma role_step io1 io2 clock id name d db :
  rbac_wf db -> faultless io1 -> faultless io2 -> rb_roles db !! id = None ->
  exists db' r,
    find_or_create (GetRoleByName io1 name) (CreateRole (mkRbacEnv io2 clock id) name (Some d))
      ("create role " ++s name) db = (db', Ok r) /\ grows db db' /\ rbac_wf db' /\
    rb_roles db' !! role_ID r = Some r /\ role_Name r = name /\
    (forall j, j <> id -> rb_roles db' !! j = rb_roles db !! j) /\
    ((exists j row, rb_roles db !! j = Some row /\ role_Name row = name) -> db' = db).
Proof.
  intros Hdb Hio1 Hio2 Hid. eapply found_or_created;
    [apply readonly_GetRoleByName | apply growing_CreateRole | apply keeps_CreateRole | done |].
  unfold find_or_create, attempt. mrun.
  destruct (no_row (has_name name) (rb_roles db)) eqn:Hn.
  - rewrite no_row_spec in Hn. unfold GetRoleByName. rewrite statement_none by apply Hio1.
    rewrite select_one_none by done.
    unfold CreateRole, CreateRole_row. mrun. cbn [rv_io rv_id rv_clock role_ID role_Name].
    rewrite Hio2, Hid. rewrite bool_decide_eq_true_2 by done. cbn [negb].
    rewrite (proj2 (no_row_spec (has_name name) _) Hn). cbn [negb]. do 2 eexists. split; [done |].
    cbn. rewrite lookup_insert_eq. split_and!; [done | done | |].
    + intros j Hj. by rewrite lookup_insert_ne.
    + intros (j & row & Hj & Hname). specialize (Hn j row Hj).
      by apply bool_decide_eq_false in Hn.
  - unfold no_row, count_where in Hn. apply Nat.eqb_neq in Hn.
    destruct (select_where (has_name name) (rb_roles db)) as [| row l] eqn:E; [done |].
    assert (row ∈ select_where (has_name name) (rb_roles db)) as Hin
      by (rewrite E; apply list_elem_of_here).
    apply elem_of_select_where in Hin as (Hname%bool_decide_eq_true & j & Hj).
    rewrite (find_role io1 name db j row Hdb Hio1 Hj Hname).
    do 2 eexists. split; [done |]. by rewrite (keyed_key _ _ _ (wf_roles _ Hdb) _ _ Hj).
Qed.

Lemma seed_role_permissions_run io name id keys pm db :
  rbac_wf db -> faultless io -> is_Some (rb_roles db !! id) ->
  (forall key, key ∈ keys -> exists p, pm !! key = Some p /\ key_of db p = Some key) ->
  exists db', seed_role_permissions io name id keys pm db = (db', Ok tt) /\ grows db db' /\
    rbac_wf db' /\ rb_roles db' = rb_roles db /\
    (forall key, key ∈ keys -> gives (abs db') id key) /\
    ((forall key, key ∈ keys -> gives (abs db) id key) -> db' = db).
Proof.
  revert io db. induction keys as [| key keys IH]; intros io db Hdb Hio Hid Hpm.
  { exists db. split_and!; try done. intros key Hk. by apply not_elem_of_nil in Hk. }
  cbn [seed_role_permissions]. destruct (Hpm key) as (p & -> & Hkey); [apply list_elem_of_here |].
  unfold mbind, M_bind.
  assert (exists d1, map_err (rbac_wrap ("assign permission " ++s key ++s " to role " ++s name))
      (AssignPermissionToRole io id p) db = (d1, Ok tt) /\ rb_roles d1 = rb_roles db /\
      gives (abs d1) id key /\ (gives (abs db) id key -> d1 = db)) as (d1 & E & Hroles & Hgives & Hsame).
  { unfold map_err, AssignPermissionToRole. rewrite statement_none by apply Hio.
    case_bool_decide as Hin.
    - exists db. split_and!; [done | done | by exists p | done].
    - rewrite bool_decide_eq_true_2 by done. cbn [negb].
      rewrite bool_decide_eq_true_2 by (unfold key_of in Hkey; by destruct (rb_permissions db !! p)).
      cbn [negb]. eexists. split_and!; [done | done | |].
      + exists p. cbn. split; [set_solver | done].
      + intros (q & Hq & Hqk). destruct Hin. by rewrite <- (key_of_inj db q p key Hdb). }
  rewrite E.
  pose proof (growing_map_err (rbac_wrap ("assign permission " ++s key ++s " to role " ++s name)) _
    (growing_AssignPermissionToRole io id p) db) as Hg. rewrite E in Hg. simpl in Hg.
  pose proof (keeps_map_err _ (rbac_wrap ("assign permission " ++s key ++s " to role " ++s name)) _
    (keeps_AssignPermissionToRole io id p) db Hdb) as Hd1. rewrite E in Hd1. simpl in Hd1.
  destruct (IH (shift_faults 1 io) d1) as (d2 & -> & Hg2 & Hd2 & Hr2 & Hall & Hsame2); try done.
  - by intros i; apply Hio.
  - by rewrite Hroles.
  - intros k Hk. destruct (Hpm k) as (q & Hq & Hqk); [by apply list_elem_of_further |].
    exists q. split; [done |]. by apply (key_of_grows db).
  - exists d2. split_and!; [done | by etrans | done | congruence | |].
    + intros k [-> | Hk]%elem_of_cons; [by apply (gives_grows d1) | by apply Hall].
    + intros Hex. assert (d1 = db) as -> by (apply Hsame, Hex, list_elem_of_here).
      apply Hsame2. intros k Hk. apply Hex. by apply list_elem_of_further.
Qed.

(** A role of that name gives at least those keys. *)
Definition has_core_role (db : rbacdb) (role : string * string * list string) : Prop :=
  exists id r, rb_roles db !! id = Some r /\ role_Name r = role.1.1 /\
    forall key, key ∈ role.2 -> gives (abs db) id key.

Lemma has_core_role_grows db db' role : grows db db' -> has_core_role db role -> has_core_role db' role.
Proof.
  intros Hg (id & r & Hr & Hname & Hkeys). exists id, r. split_and!; [| done |].
  - by apply (lookup_weaken _ _ _ _ Hr), gr_roles.
  - intros key Hk. by apply (gives_grows db), Hkeys.
Qed.

Lemma seed_roles_run env draw n used roles pm db :
  rbac_wf db -> faultless (rv_io env) -> (forall i j, draw i = draw j -> i = j) ->
  free_from draw n (rb_roles db) ->
  (forall role key, role ∈ roles -> key ∈ role.2 -> exists p, pm !! key = Some p /\ key_of db p = Some key) ->
  exists db', seed_roles env draw n used roles pm db = (db', Ok tt) /\
    (forall role, role ∈ roles -> has_core_role db' role) /\
    ((forall role, role ∈ roles -> has_core_role db role) -> db' = db).
Proof.
  revert n used db. induction roles as [| [[name d] keys] roles IH]; intros n used db Hdb Hio Hinj Hfree Hpm.
  { exists db. split_and!; try done. intros role Hr. by apply not_elem_of_nil in Hr. }
  cbn [seed_roles]. unfold mbind, M_bind, item_env. cbn [rv_io rv_clock rv_id].
  destruct (role_step (shift_faults used (rv_io env)) (shift_faults 1 (shift_faults used (rv_io env)))
    (rv_clock env) (draw n) name d db) as (d1 & r & -> & Hg1 & Hd1 & Hr & Hname & Hother & Hsame1);
    [done | by intros i; apply Hio | by intros i; apply Hio | by apply Hfree |].
  destruct (seed_role_permissions_run (shift_faults 2 (shift_faults used (rv_io env))) name (role_ID r)
    keys pm d1) as (d2 & -> & Hg2 & Hd2 & Hr2 & Hall & Hsame2);
    [done | by intros i; apply Hio | by rewrite Hr | |].
  { intros key Hk. destruct (Hpm (name, d, keys) key) as (p & Hp & Hkey); [apply list_elem_of_here | done |].
    exists p. split; [done |]. by apply (key_of_grows db). }
  assert (grows db d2) as Hg by by etrans.
  destruct (IH (S n) (2 + length keys + used)%nat d2) as (d3 & E3 & Hcore & Hsame3); try done.
  - intros m Hm. rewrite Hr2, Hother; [apply Hfree; lia |]. intros Eq%Hinj. lia.
  - intros role key Hrole Hk. destruct (Hpm role key) as (p & Hp & Hkey);
      [by apply list_elem_of_further | done |].
    exists p. split; [done |]. by apply (key_of_grows db).
  - pose proof (growing_seed_roles env draw (S n) (2 + length keys + used) roles pm d2) as Hg3.
    rewrite E3 in Hg3. simpl in Hg3. exists d3. split_and!; [done | |].
    + intros role [-> | Hrole]%elem_of_cons; [| by apply Hcore]. apply (has_core_role_grows d2); [done |].
      exists (role_ID r), r. split_and!; [by rewrite Hr2 | done | done].
    + intros Hex. assert (d1 = db) as ->.
      { apply Hsame1. destruct (Hex (name, d, keys)) as (id & row & ? & ? & _); [apply list_elem_of_here |].
        by exists id, row. }
      assert (d2 = db) as ->.
      { apply Hsame2. destruct (Hex (name, d, keys)) as (id & row & Hid & Hn & Hk); [apply list_elem_of_here |].
        simpl in Hn, Hk. assert (id = role_ID r) as ->; [| done].
        apply (keyed_unique _ _ _ (wf_roles _ Hdb) _ _ _ _ Hid Hr). congruence. }
      apply Hsame3. intros role Hrole. apply Hex. by apply list_elem_of_further.
Qed.

Definition core_keys_known : bool :=
  forallb (fun role => forallb (fun key => bool_decide (key ∈ CorePermissions.*1)) role.2) CoreRoles.

Lemma core_roles_use_core_keys role key : role ∈ CoreRoles -> key ∈ role.2 -> key ∈ CorePermissions.*1.
Proof.
  assert (core_keys_known = true) as Hk by (vm_compute; reflexivity).
  unfold core_keys_known in Hk. rewrite forallb_forall in Hk. intros Hr Hin.
  apply list_elem_of_In in Hr, Hin. specialize (Hk role Hr). rewrite forallb_forall in Hk.
  specialize (Hk key Hin). by apply bool_decide_eq_true in Hk.
Qed.

(** However it ends, seeding only adds. *)
Lemma seeding_grows env draw db :
  rbac_wf db -> grows db (SeedCoreRBAC env draw db).1 /\ rbac_wf (SeedCoreRBAC env draw db).1.
Proof.
  intros Hdb. split.
  - apply (growing_bind _ _ (growing_seed_permissions env draw 0 CorePermissions ∅)).
    intros. apply growing_seed_roles.
  - apply (keeps_bind rbac_wf _ _ (keeps_seed_permissions env draw 0 CorePermissions ∅)); [| done].
    intros. apply keeps_seed_roles.
Qed.

Definition has_core_permission (db : rbacdb) (key : string) : Prop := exists p, key_of db p = Some key.

Lemma seeding_runs env draw db :
  rbac_wf db -> faultless (rv_io env) -> (forall i j, draw i = draw j -> i = j) ->
  free_from draw 0 (rb_permissions db) -> free_from draw 0 (rb_roles db) ->
  exists db', SeedCoreRBAC env draw db = (db', Ok tt) /\
    (forall key, key ∈ CorePermissions.*1 -> has_core_permission db' key) /\
    (forall role, role ∈ CoreRoles -> has_core_role db' role) /\
    ((forall key, key ∈ CorePermissions.*1 -> has_core_permission db key) ->
     (forall role, role ∈ CoreRoles -> has_core_role db role) -> db' = db).
Proof.
  intros Hdb Hio Hinj Hfp Hfr.
  destruct (seed_permissions_run env draw 0 CorePermissions ∅ db Hdb Hio Hinj Hfp)
    as (d1 & pm & E1 & Hroles & Hpm & Hall & Hsame1); [intros k id; by rewrite lookup_empty |].
  pose proof (keeps_seed_permissions env draw 0 CorePermissions ∅ db Hdb) as Hd1.
  rewrite E1 in Hd1. simpl in Hd1.
  assert (forall key, key ∈ CorePermissions.*1 -> exists p, pm !! key = Some p /\ key_of d1 p = Some key) as Hnames.
  { intros key Hk. destruct (Hall key (or_intror Hk)) as [p Hp]. exists p. split; [done |]. by apply Hpm. }
  destruct (seed_roles_run env draw (length CorePermissions) (2 * length CorePermissions) CoreRoles pm d1)
    as (d2 & E2 & Hcore & Hsame2); try done.
  { intros m Hm. rewrite Hroles. apply Hfr. lia. }
  { intros role key Hr Hk. by apply Hnames, (core_roles_use_core_keys role). }
  exists d2. unfold SeedCoreRBAC, mbind, M_bind. rewrite E1. split_and!; [done | | done |].
  - intros key Hk. destruct (Hnames key Hk) as (p & _ & Hp). exists p.
    pose proof (growing_seed_roles env draw (length CorePermissions) (2 * length CorePermissions)
      CoreRoles pm d1) as Hg. rewrite E2 in Hg. by apply (key_of_grows d1).
  - intros Hkeys Hex. assert (d1 = db) as -> by by apply Hsame1. by apply Hsame2.
Qed.

(** Seeding makes the core of the access control complete, whatever part
    of it is there, and is idempotent.  It never removes or alters a row and
    assigns no role to anyone, even when it is cut short by a fault.  Without
    faults it succeeds, every core permission and every core role exists
    afterwards with each of its permissions given, and another run changes
    nothing.  [draw] is the sequence of fresh identifiers. *)
Theorem seeding_is_complete_and_idempotent env draw db :
  rbac_wf db -> (forall i j, draw i = draw j -> i = j) ->
  free_from draw 0 (rb_permissions db) -> free_from draw 0 (rb_roles db) ->
  (grows db (SeedCoreRBAC env draw db).1 /\ rbac_wf (SeedCoreRBAC env draw db).1) /\
  (faultless (rv_io env) ->
   exists db', SeedCoreRBAC env draw db = (db', Ok tt) /\
     (forall key, key ∈ CorePermissions.*1 -> has_core_permission db' key) /\
     (forall role, role ∈ CoreRoles -> has_core_role db' role) /\
     forall env' draw', faultless (rv_io env') -> (forall i j, draw' i = draw' j -> i = j) ->
       free_from draw' 0 (rb_permissions db') -> free_from draw' 0 (rb_roles db') ->
       SeedCoreRBAC env' draw' db' = (db', Ok tt)).
Proof.
  intros Hdb Hinj Hfp Hfr. split; [by apply seeding_grows |]. intros Hio.
  destruct (seeding_runs env draw db) as (db' & E & Hkeys & Hcore & _); try done.
  exists db'. split_and!; [done .. |]. intros env' draw' Hio' Hinj' Hfp' Hfr'.
  destruct (seeding_grows env draw db Hdb) as [_ Hdb']. rewrite E in Hdb'.
  destruct (seeding_runs env' draw' db') as (db2 & E2 & _ & _ & Hsame); try done.
  by rewrite E2, Hsame.
Qed.
End Seeding.

(** * Concrete runs *)

Module RbacExample.
Import AuthTheorems.AuthExample.

#[local] Instance byte_order : DbCollation := String.leb.

(** ** The tables *)

Definition renv (id : uuid) : rbac_env := mkRbacEnv no_faults 0 id.
Definition run_request (id : uuid) (req : rbac_request) (db : rbacdb) : rbacdb :=
  (handle_rbac (renv id) (caller_of None) req db).1.

Definition tables : rbacdb :=
  run_request 0%N (ReqAssignRoleToUser (Some 1%N) (Some (Some 10%N)))
    (run_request 0%N (ReqAssignPermissionToRole (Some 10%N) (Some (Some 20%N)))
       (run_request 20%N (ReqCreatePermission (Some ("problem:create", None)))
          (run_request 10%N (ReqCreateRole (Some ("author", None))) (empty_rbac {[ 1%N ]})))).

Lemma tables_wf : rbac_wf tables.
Proof. repeat apply handle_keeps. apply empty_rbac_wf. Qed.

(** ** A manager's token *)

Definition manager : TokenClaims := mkTokenClaims 2%N "root" [RBACRolesManage] 920 20 20.

Definition manager_crypto : AuthCrypto := {|
  sha256 s := s;
  jwt_Sign _ _ := Err "unsupported";
  jwt_Parse _ _ t := if decide (t = "xx.yy.zz") then ParsedValid manager else ParsedInvalid
|}.

Lemma requests_refine_core_rbac_witness :
  exists db', serve_rbac (H0 := manager_crypto) jm 0 "Bearer xx.yy.zz" (renv 0%N)
      (ReqDeleteRole (Some 10%N)) tables
    = (db', RespondJSON StatusOK (MessageBody "role deleted successfully")) /\
    rbac_wf db' /\ ~ holds (abs db') 1%N 10%N /\ ~ gives (abs db') 10%N "problem:create".
Proof.
  destruct (serve_rbac (H0 := manager_crypto) jm 0 "Bearer xx.yy.zz" (renv 0%N)
    (ReqDeleteRole (Some 10%N)) tables) as [db' resp] eqn:E.
  pose proof (requests_refine_core_rbac (H0 := manager_crypto) jm 0 "Bearer xx.yy.zz" (renv 0%N)
    (ReqDeleteRole (Some 10%N)) tables db' resp tables_wf E) as (Hwf & Heff & _).
  assert (resp = RespondJSON StatusOK (MessageBody "role deleted successfully")) as ->.
  { transitivity (serve_rbac (H0 := manager_crypto) jm 0 "Bearer xx.yy.zz" (renv 0%N)
      (ReqDeleteRole (Some 10%N)) tables).2; [by rewrite E | vm_compute; reflexivity]. }
  exists db'. destruct (Heff eq_refl) as [Hholds Hgives]. split_and!; [done | done | |].
  - rewrite Hholds. by intros [_ []].
  - rewrite Hgives. by intros [_ []].
Defined.

Lemma questions_follow_the_roles_witness :
  can (abs tables) 1%N "problem:create" /\ ~ can (abs tables) 1%N "rbac.users.manage".
Proof.
  destruct (questions_follow_the_roles no_faults 1%N tables tables_wf) as (Hask & _).
  split.
  - destruct (Hask "problem:create") as (r & E & Hyes & _). apply Hyes.
    transitivity (UserHasPermission no_faults 1%N "problem:create" tables).2;
      [by rewrite E | vm_compute; reflexivity].
  - destruct (Hask "rbac.users.manage") as (r & E & _ & Hfine).
    destruct (Hfine (fun _ _ => eq_refl)) as (b & -> & Hb). rewrite <- Hb.
    assert (Ok b = (UserHasPermission no_faults 1%N "rbac.users.manage" tables).2) as Hr by by rewrite E.
    vm_compute in Hr. injection Hr as ->. done.
Defined.

#[local] Existing Instances lower_same plain_bcrypt plain_url one_token one_token_laws.

Lemma sessions_can_what_the_roles_allow_witness :
  exists ctx, AuthMiddleware jm (100 * time_Second) "Bearer aa.bb.cc" = Ok ctx /\
    RequirePermission "problem:create" (caller_of (Some ctx)) = None /\
    can (abs tables) (ac_UserID ctx) "problem:create".
Proof.
  set (db := as_db (serve_all jm frontend confirmed empty_auth)).
  destruct (Login jm login "ada@x.org" "correct horse" db) as [db' r] eqn:E.
  assert (r = (Login jm login "ada@x.org" "correct horse" db).2) as Hr by by rewrite E.
  vm_compute in Hr. subst r.
  destruct (sessions_can_what_the_roles_allow jm frontend confirmed login db' _ (100 * time_Second)
    tables no_faults (or_introl (ex_intro _ "ada@x.org" (ex_intro _ "correct horse" E))) tables_wf)
    as (_ & ctx & Hctx & Huser & Hall).
  - vm_compute. reflexivity.
  - split; vm_compute; [discriminate | reflexivity].
  - exists ctx. split; [exact Hctx |]. specialize (Hall "problem:create").
    assert (Ok ctx = AuthMiddleware jm (100 * time_Second) "Bearer aa.bb.cc") as Hc by by rewrite <- Hctx.
    vm_compute in Hc. injection Hc as ->. split; [vm_compute; reflexivity |]. exact (proj2 Hall).
Defined.

(** ** Seeding *)

Definition draw (n : nat) : uuid := (100 + N.of_nat n)%N.

Lemma draw_inj i j : draw i = draw j -> i = j.
Proof. unfold draw. lia. Qed.

Lemma tables_free {V} (t : gmap uuid V) : (forall id, is_Some (t !! id) -> (id < 100)%N) -> free_from draw 0 t.
Proof.
  intros Ht m _. destruct (t !! draw m) eqn:E; [| done].
  assert (draw m < 100)%N as Hlt by (apply Ht; by eexists). unfold draw in Hlt. lia.
Qed.

Lemma seeding_is_complete_and_idempotent_witness :
  exists db', SeedCoreRBAC (renv 0%N) draw (empty_rbac ∅) = (db', Ok tt) /\
    has_core_role db' ("admin", "Administrator with user management access",
      [RBACUsersView; RBACUsersManage]).
Proof.
  destruct (seeding_is_complete_and_idempotent (renv 0%N) draw (empty_rbac ∅) (empty_rbac_wf ∅) draw_inj)
    as [_ Hrun].
  - apply tables_free. intros id [x Hx]. cbn in Hx. by rewrite lookup_empty in Hx.
  - apply tables_free. intros id [x Hx]. cbn in Hx. by rewrite lookup_empty in Hx.
  - destruct (Hrun (fun _ => eq_refl)) as (db' & E & _ & Hcore & _). exists db'. split; [exact E |].
    apply Hcore. apply list_elem_of_further, list_elem_of_here.
Defined.

(** A caller with nothing but [rbac.users.manage] can take any role. *)
Definition user_manager : TokenClaims := mkTokenClaims 1%N "ada" [RBACUsersManage] 920 20 20.

Definition user_manager_crypto : AuthCrypto := {|
  sha256 s := s;
  jwt_Sign _ _ := Err "unsupported";
  jwt_Parse _ _ t := if decide (t = "xx.yy.zz") then ParsedValid user_manager else ParsedInvalid
|}.

Example user_managers_can_take_any_role :
  let seeded := (SeedCoreRBAC (renv 0%N) draw (empty_rbac {[ 1%N ]})).1 in
  let '(db', resp) := serve_rbac (H0 := user_manager_crypto) jm 0 "Bearer xx.yy.zz" (renv 0%N)
    (ReqAssignRoleToUser (Some 1%N) (Some (Some (draw 9)))) seeded in
  resp_status resp = StatusOK /\
  (UserHasRole no_faults 1%N "super_admin" db').2 = Ok true.
Proof. vm_compute. done. Qed.

End RbacExample.
