(* ===== verification/SubRepo.v ===== *)
(** * Submissions: data and repository

    [internal/api/submissions/domain/models.go] and
    [internal/api/submissions/repository/submissions.go] over the tables
    [submissions], [submission_results], [problem_test_cases], [languages],
    [problem_languages] and [security_events] of the API's database.  As in
    [JobRepo], a statement is one atomic change or an answer of [io]. *)

From S2P Require Import Prelude Sql GoStrings.

(** ** Domain *)

Inductive SubmissionStatus :=
  | StatusPending
  | StatusQueued
  | StatusRunning
  | StatusAccepted
  | StatusWrongAnswer
  | StatusTimeLimitExceeded
  | StatusMemoryLimitExceeded
  | StatusRuntimeError
  | StatusCompilationError
  | StatusInternalError
  | StatusBlocked.

#[export] Instance SubmissionStatus_eq_dec : EqDecision SubmissionStatus.
Proof. solve_decision. Defined.

Inductive SubmissionKind := KindRun | KindSubmit.

#[export] Instance SubmissionKind_eq_dec : EqDecision SubmissionKind.
Proof. solve_decision. Defined.

Definition IsTerminal (s : SubmissionStatus) : bool :=
  match s with
  | StatusAccepted | StatusWrongAnswer | StatusTimeLimitExceeded | StatusMemoryLimitExceeded
  | StatusRuntimeError | StatusCompilationError | StatusInternalError | StatusBlocked => true
  | _ => false
  end.

(** JSON values the service passes through are kept as their text. *)
Record TestcaseResultEntry := mkEntry {
  te_TestcaseID : string;
  te_Verdict : string;
  te_TimeMs : option Z;
  te_MemoryKb : option Z;
  te_ActualOutput : option string;
  te_StdoutOutput : option string;
  te_InputData : option string;
  te_ExpectedData : option string
}.

#[export] Instance TestcaseResultEntry_eq_dec : EqDecision TestcaseResultEntry.
Proof. solve_decision. Defined.

Record SubmissionResult := mkSubmissionResult {
  sres_SubmissionID : uuid;
  sres_OverallVerdict : string;
  sres_TotalTimeMs : option Z;
  sres_MaxMemoryKb : option Z;
  sres_WallTimeMs : option Z;
  sres_CompilerOutput : option string;
  sres_TestcaseResults : list TestcaseResultEntry;
  sres_CreatedAt : Z
}.

(** The details of a validation are a JSON object, kept as its text. *)
Record CodeValidation := mkCodeValidation {
  cv_IsAllowed : bool;
  cv_Severity : string;
  cv_Reason : string;
  cv_Details : string
}.

Record Submission := mkSubmission {
  sub_ID : uuid;
  sub_UserID : uuid;
  sub_ProblemID : uuid;
  sub_LanguageID : uuid;
  sub_LanguageKey : string;
  sub_SourceText : option string;
  sub_Status : SubmissionStatus;
  sub_Kind : SubmissionKind;
  sub_CPJobID : option uuid;
  sub_Result : option SubmissionResult;
  sub_Validation : option CodeValidation;
  sub_CreatedAt : Z
}.

Record ProblemTestCase := mkProblemTestCase {
  pt_ID : uuid;
  pt_ProblemID : uuid;
  pt_ExternalID : string;
  pt_InputData : string;
  pt_ExpectedData : string;
  pt_OrderIndex : Z;
  pt_IsActive : bool;
  pt_IsHidden : bool
}.

Record CreateSubmissionRequest := mkCreateSubmissionRequest {
  cs_LanguageKey : string;
  cs_SourceText : string
}.

Record ListFilters := mkListFilters {
  lf_UserID : uuid;
  lf_ProblemID : option uuid
}.

(** ** Errors: the repository's and the service's sentinels *)

Inductive sub_sentinel :=
  | ErrSubmissionNotFound
  | ErrLanguageNotFound
  | ErrLanguageNotAllowed
  | ErrForbidden
  | ErrNoTestCases
  | ErrInvalidInput
  | ErrProblemNotFound
  | ErrExecutionSuspended.

#[export] Instance sub_sentinel_eq_dec : EqDecision sub_sentinel.
Proof. solve_decision. Defined.

#[export] Instance sub_sentinel_text : SentinelText sub_sentinel := fun s =>
  match s with
  | ErrSubmissionNotFound => "submission not found"
  | ErrLanguageNotFound => "language not found or not enabled"
  | ErrLanguageNotAllowed => "language not allowed for this problem"
  | ErrForbidden => "access denied"
  | ErrNoTestCases => "problem has no active test cases"
  | ErrInvalidInput => "invalid input"
  | ErrProblemNotFound => "problem not found"
  | ErrExecutionSuspended => "execution temporarily suspended due to repeated security violations"
  end.

Abbreviation sub_error := (goerr sub_sentinel).

(** ** The database *)

Record sub_row := mkSubRow {
  sr_ID : uuid;
  sr_UserID : uuid;
  sr_ProblemID : uuid;
  sr_LanguageID : uuid;
  sr_SourceText : option string;
  sr_Status : SubmissionStatus;
  sr_Kind : SubmissionKind;
  sr_CPJobID : option uuid;
  sr_CreatedAt : Z
}.

Record sres_row := mkSresRow {
  sw_OverallVerdict : string;
  sw_TotalTimeMs : option Z;
  sw_MaxMemoryKb : option Z;
  sw_WallTimeMs : option Z;
  sw_CompilerOutput : option string;
  sw_TestcaseResults : string;
  sw_CreatedAt : Z
}.

Record language_row := mkLanguageRow { lr_Key : string; lr_IsEnabled : bool }.

Record event_row := mkEventRow {
  ev_SubmissionID : uuid;
  ev_Category : string;
  ev_Severity : string;
  ev_Detail : list (string * string);
  ev_CreatedAt : Z
}.

Record subdb := mkSubDb {
  sd_submissions : gmap uuid sub_row;
  sd_results : gmap uuid sres_row;
  sd_languages : gmap uuid language_row;
  sd_problem_languages : gset (uuid * uuid);
  sd_test_cases : gmap uuid ProblemTestCase;
  sd_events : list event_row
}.

Definition set_submissions (db : subdb) subs : subdb :=
  mkSubDb subs (sd_results db) (sd_languages db) (sd_problem_languages db)
    (sd_test_cases db) (sd_events db).
Definition set_results (db : subdb) res : subdb :=
  mkSubDb (sd_submissions db) res (sd_languages db) (sd_problem_languages db)
    (sd_test_cases db) (sd_events db).
Definition add_event (db : subdb) ev : subdb :=
  mkSubDb (sd_submissions db) (sd_results db) (sd_languages db) (sd_problem_languages db)
    (sd_test_cases db) (sd_events db ++ [ev]).

Definition with_status (s : SubmissionStatus) (r : sub_row) : sub_row :=
  mkSubRow (sr_ID r) (sr_UserID r) (sr_ProblemID r) (sr_LanguageID r) (sr_SourceText r)
    s (sr_Kind r) (sr_CPJobID r) (sr_CreatedAt r).
Definition with_cp_job (job : uuid) (r : sub_row) : sub_row :=
  mkSubRow (sr_ID r) (sr_UserID r) (sr_ProblemID r) (sr_LanguageID r) (sr_SourceText r)
    (sr_Status r) (sr_Kind r) (Some job) (sr_CreatedAt r).

Definition pq_error : string := "pq: constraint violation".

(** ** JSON of the result entries *)

Class EntryJSON := {
  json_Marshal_entries : list TestcaseResultEntry -> result string string;
  json_Unmarshal_entries : string -> result string (list TestcaseResultEntry)
}.

(** ** Operations *)

Definition submission_of (r : sub_row) (key : string) : Submission :=
  mkSubmission (sr_ID r) (sr_UserID r) (sr_ProblemID r) (sr_LanguageID r) key (sr_SourceText r)
    (sr_Status r) (sr_Kind r) (sr_CPJobID r) None None (sr_CreatedAt r).

(** [SELECT key FROM languages WHERE id = $1] *)
Definition language_key (languageID : uuid) : M subdb sub_error string := fun db =>
  match sd_languages db !! languageID with
  | Some l => (db, Ok (lr_Key l))
  | None => (db, Err (Opaque "sql: no rows in result set"))
  end.

Definition insert_submission (row : sub_row) : M subdb sub_error () := fun db =>
  if bool_decide (sd_submissions db !! sr_ID row = None) &&
     bool_decide (is_Some (sd_languages db !! sr_LanguageID row))
  then (set_submissions db (<[sr_ID row := row]> (sd_submissions db)), Ok tt)
  else (db, Err (Opaque pq_error)).

(** Two statements and no transaction.  An absent kind is the empty string. *)
Definition Create (io : faults) (now : Z) (fresh userID problemID languageID : uuid)
    (sourceText : string) (kind : option SubmissionKind) : M subdb sub_error Submission :=
  let kind := match kind with None => KindSubmit | Some k => k end in
  let row := mkSubRow fresh userID problemID languageID (Some sourceText) StatusPending kind
               None now in
  _ ← statement Opaque io (insert_submission row);
  key ← statement Opaque (shift_faults 1 io) (language_key languageID);
  mret (submission_of row key).

Definition GetByID (io : faults) (id : uuid) : M subdb sub_error Submission :=
  statement Opaque io (fun db =>
    match sd_submissions db !! id with
    | None => (db, Err (Sentinel ErrSubmissionNotFound))
    | Some r =>
        match sd_languages db !! sr_LanguageID r with
        | None => (db, Err (Sentinel ErrSubmissionNotFound))
        | Some l => (db, Ok (submission_of r (lr_Key l)))
        end
    end).

(** The WHERE of [List]. *)
Definition listed (filters : ListFilters) (r : sub_row) : bool :=
  bool_decide (sr_UserID r = lf_UserID filters) && bool_decide (sr_Kind r = KindSubmit) &&
  match lf_ProblemID filters with
  | None => true
  | Some p => bool_decide (sr_ProblemID r = p)
  end.

(** ORDER BY created_at DESC; [tie] orders equal times. *)
Definition newest_first (tie : sub_row -> sub_row -> bool) (x y : sub_row) : bool :=
  (sr_CreatedAt y <? sr_CreatedAt x) || ((sr_CreatedAt x =? sr_CreatedAt y) && tie x y).

Definition joined (db : subdb) (rs : list sub_row) : list Submission :=
  omap (fun r => submission_of r ∘ lr_Key <$> sd_languages db !! sr_LanguageID r) rs.

Definition List_ (io : faults) (tie : sub_row -> sub_row -> bool) (filters : ListFilters)
    (limit offset : Z) : M subdb sub_error (list Submission * Z) :=
  total ← statement Opaque io (fun db =>
    (db, Ok (Z.of_nat (count_where (listed filters) (sd_submissions db)))));
  subs ← statement Opaque (shift_faults 1 io) (fun db =>
    (db, Ok (take (Z.to_nat limit) (drop (Z.to_nat offset)
       (joined db (order_by (newest_first tie) (select_where (listed filters) (sd_submissions db))))))));
  mret (subs, total).

Definition UpdateCPJobID (io : faults) (id cpJobID : uuid) : M subdb sub_error () :=
  statement Opaque io (fun db =>
    (set_submissions db (update_key id (fun _ => true) (with_cp_job cpJobID) (sd_submissions db)).1,
     Ok tt)).

Definition set_status (id : uuid) (status : SubmissionStatus) : M subdb sub_error () := fun db =>
  (set_submissions db (update_key id (fun _ => true) (with_status status) (sd_submissions db)).1,
   Ok tt).

Definition UpdateStatus (io : faults) (id : uuid) (status : SubmissionStatus) : M subdb sub_error () :=
  statement Opaque io (set_status id status).

Definition int4_ok_result (r : SubmissionResult) : bool :=
  int4_opt_ok (sres_TotalTimeMs r) && int4_opt_ok (sres_MaxMemoryKb r) &&
  int4_opt_ok (sres_WallTimeMs r).

(** [INSERT ... ON CONFLICT (submission_id) DO NOTHING] *)
Definition insert_result (now : Z) (result : SubmissionResult) (tcJSON : string)
  : M subdb sub_error () := fun db =>
  let id := sres_SubmissionID result in
  if int4_ok_result result && bool_decide (is_Some (sd_submissions db !! id)) then
    match sd_results db !! id with
    | Some _ => (db, Ok tt)
    | None =>
        (set_results db (<[id := mkSresRow (sres_OverallVerdict result) (sres_TotalTimeMs result)
           (sres_MaxMemoryKb result) (sres_WallTimeMs result) (sres_CompilerOutput result)
           tcJSON now]> (sd_results db)), Ok tt)
    end
  else (db, Err (Opaque pq_error)).

Section Results.
Context `{EntryJSON}.

Definition SaveResult (io : faults) (now : Z) (result : SubmissionResult)
    (status : SubmissionStatus) : M subdb sub_error () :=
  match json_Marshal_entries (sres_TestcaseResults result) with
  | Err e => fail (Opaque e)
  | Ok tcJSON =>
      transaction (
        _ ← statement Opaque io (mret tt);
        _ ← statement Opaque (shift_faults 1 io) (insert_result now result tcJSON);
        _ ← statement Opaque (shift_faults 2 io) (set_status (sres_SubmissionID result) status);
        statement Opaque (shift_faults 3 io) (mret tt))
  end.

Definition GetResult (io : faults) (submissionID : uuid) : M subdb sub_error SubmissionResult :=
  statement Opaque io (fun db =>
    match sd_results db !! submissionID with
    | None => (db, Err (Sentinel ErrSubmissionNotFound))
    | Some w =>
        match json_Unmarshal_entries (sw_TestcaseResults w) with
        | Err e => (db, Err (Opaque e))
        | Ok entries =>
            (db, Ok (mkSubmissionResult submissionID (sw_OverallVerdict w) (sw_TotalTimeMs w)
               (sw_MaxMemoryKb w) (sw_WallTimeMs w) (sw_CompilerOutput w) entries
               (sw_CreatedAt w)))
        end
    end).
End Results.

(** [key] is unique, so at most one row matches. *)
Definition ResolveLanguage (io : faults) (languageKey : string)
  : M subdb sub_error (uuid * string) :=
  statement Opaque io (fun db =>
    match List.filter (fun kv => bool_decide (lr_Key kv.2 = languageKey) && lr_IsEnabled kv.2)
            (map_to_list (sd_languages db)) with
    | [] => (db, Err (Sentinel ErrLanguageNotFound))
    | kv :: _ => (db, Ok (kv.1, lr_Key kv.2))
    end).

Definition IsLanguageAllowed (io : faults) (problemID languageID : uuid) : M subdb sub_error bool :=
  statement Opaque io (fun db =>
    (db, Ok (bool_decide ((problemID, languageID) ∈ sd_problem_languages db)))).

(** The values of the SECURITY_SEVERITY type. *)
Definition severities : list string := ["info"; "warn"; "high"; "block"].

Definition SecurityCategoryCodeBlocked : string := "code_blocked".
Definition SecurityCategorySandboxEscape : string := "sandbox_escape_attempt".

Definition LogSecurityEvent (io : faults) (now : Z) (submissionID : uuid)
    (category severity : string) (detail : list (string * string)) : M subdb sub_error () :=
  statement Opaque io (fun db =>
    if bool_decide (severity ∈ severities) &&
       bool_decide (is_Some (sd_submissions db !! submissionID))
    then (add_event db (mkEventRow submissionID category severity detail now), Ok tt)
    else (db, Err (Opaque pq_error))).

(** The JOIN and WHERE of [CountRecentSecurityEvents]. *)
Definition recent_event (db : subdb) (userID : uuid) (since : Z) (ev : event_row) : bool :=
  match sd_submissions db !! ev_SubmissionID ev with
  | None => false
  | Some r => bool_decide (sr_UserID r = userID) && (since <? ev_CreatedAt ev)
  end.

Definition CountRecentSecurityEvents (io : faults) (userID : uuid) (since : Z)
  : M subdb sub_error Z :=
  statement Opaque io (fun db =>
    (db, Ok (Z.of_nat (length (List.filter (recent_event db userID since) (sd_events db)))))).

(** ORDER BY order_index ASC; [tie] orders equal indices. *)
Definition by_order_index (tie : ProblemTestCase -> ProblemTestCase -> bool)
    (x y : ProblemTestCase) : bool :=
  (pt_OrderIndex x <? pt_OrderIndex y) || ((pt_OrderIndex x =? pt_OrderIndex y) && tie x y).

Definition active_case (problemID : uuid) (tc : ProblemTestCase) : bool :=
  bool_decide (pt_ProblemID tc = problemID) && pt_IsActive tc.

Definition GetTestCasesForProblem (io : faults)
    (tie : ProblemTestCase -> ProblemTestCase -> bool) (problemID : uuid)
  : M subdb sub_error (list ProblemTestCase) :=
  statement Opaque io (fun db =>
    (db, Ok (order_by (by_order_index tie) (select_where (active_case problemID) (sd_test_cases db))))).
