(* ===== verification/SubService.v ===== *)
(** * Submissions: the service

    [internal/api/submissions/service/submissions.go] and the control-plane
    client of [internal/api/submissions/client/cp_client.go].  The Go
    interfaces the service is given (the AI validator, the problems reader,
    the job publisher) are records of what they answer; each call of the
    repository has its own place in [io], whether or not the calls before it
    were made. *)

From S2P Require Import Prelude Sql GoStrings CPDomain CPHttp Driver.
From S2P Require Import AiDomain SubRepo.

(** ** The control plane's client *)

(** [bad_request] is the error of building the request, if there is one; the
    text of an error reply is left out, as in [CPHttp.post]. *)
Definition get {A} (bad_request : option string) (decode : payload -> result string A)
    (rep : reply) : result string A :=
  match bad_request with
  | Some e => Err ("build request: " ++s e)
  | None =>
      match rep with
      | NoReply e => Err ("http do: " ++s e)
      | Reply r =>
          if 400 <=? status r then Err ("control-plane returned " ++s show_int (status r))
          else match decode (via_json (body r)) with
               | Err e => Err ("decode response: " ++s e)
               | Ok a => Ok a
               end
      end
  end.

Definition decode_job (p : payload) : result string Job :=
  match p with JobBody j => Ok j | _ => Err "unexpected body" end.
Definition decode_job_result (p : payload) : result string JobResult :=
  match p with ResultBody r => Ok r | _ => Err "unexpected body" end.

Definition prefixed {A} (pre : string) (r : result string A) : result string A :=
  match r with Ok a => Ok a | Err e => Err (pre ++s e) end.

Definition CPClient_GetJobBySubmission (bad : option string) (rep : reply) : result string Job :=
  prefixed "get job by submission: " (get bad decode_job rep).
Definition CPClient_GetJobResult (bad : option string) (rep : reply) : result string JobResult :=
  prefixed "get job result: " (get bad decode_job_result rep).

(** ** The service's interfaces *)

(** The fields of an [aidomain.CodeValidation] the service reads. *)
Record ai_validation := mkAIValidation {
  av_IsAllowed : bool;
  av_Severity : option string;
  av_Reason : option string;
  av_ValidationMeta : string
}.

(** A nil pointer without an error is [Ok None]. *)
Record AIValidator := mkAIValidator {
  ValidateCodeSubmission : ValidateCodeRequest -> result string (option ai_validation);
  GetValidationBySubmission : uuid -> result string (option ai_validation)
}.

(** The fields of a [problemsdomain.Problem] the service reads. *)
Record problem_view := mkProblemView {
  pv_TimeLimitMs : Z;
  pv_MemoryLimitMb : Z;
  pv_FunctionSpec : option FunctionSpec
}.

(** Publishing: whether the message reached the broker, and the error. *)
Record publication := mkPublication {
  pb_delivered : bool;
  pb_error : option string
}.

(** The API's database and the creation requests the broker has received. *)
Record api := mkApi { ap_db : subdb; ap_queue : list CreateJobRequest }.

Definition on_db {A} (m : M subdb sub_error A) : M api sub_error A := fun st =>
  let '(db, r) := m (ap_db st) in (mkApi db (ap_queue st), r).

(** What the outside decides while a request is served. *)
Record create_env := mkCreateEnv {
  ce_io : faults;
  ce_clock : Z;
  ce_now : Z;
  ce_fresh : uuid;
  ce_tie : ProblemTestCase -> ProblemTestCase -> bool;
  ce_problem : result string problem_view;
  ce_publication : publication
}.

Definition violationWindow : Z := 10 * time_Minute.
Definition violationThreshold : Z := 3.

(** ** attachValidation *)

Definition with_validation (v : option CodeValidation) (sub : Submission) : Submission :=
  mkSubmission (sub_ID sub) (sub_UserID sub) (sub_ProblemID sub) (sub_LanguageID sub)
    (sub_LanguageKey sub) (sub_SourceText sub) (sub_Status sub) (sub_Kind sub) (sub_CPJobID sub)
    (sub_Result sub) v (sub_CreatedAt sub).
Definition sub_with_status (s : SubmissionStatus) (sub : Submission) : Submission :=
  mkSubmission (sub_ID sub) (sub_UserID sub) (sub_ProblemID sub) (sub_LanguageID sub)
    (sub_LanguageKey sub) (sub_SourceText sub) s (sub_Kind sub) (sub_CPJobID sub)
    (sub_Result sub) (sub_Validation sub) (sub_CreatedAt sub).
Definition with_result (r : option SubmissionResult) (sub : Submission) : Submission :=
  mkSubmission (sub_ID sub) (sub_UserID sub) (sub_ProblemID sub) (sub_LanguageID sub)
    (sub_LanguageKey sub) (sub_SourceText sub) (sub_Status sub) (sub_Kind sub) (sub_CPJobID sub)
    r (sub_Validation sub) (sub_CreatedAt sub).

Definition attachValidation (aiValidator : option AIValidator) (sub : Submission) : Submission :=
  match aiValidator with
  | None => sub
  | Some ai =>
      match GetValidationBySubmission ai (sub_ID sub) with
      | Ok (Some v) =>
          with_validation (Some (mkCodeValidation (av_IsAllowed v) (default "" (av_Severity v))
            (default "" (av_Reason v)) (av_ValidationMeta v))) sub
      | _ => sub
      end
  end.

(** ** create *)

(** What the checks before the INSERT have found. *)
Record admission := mkAdmission {
  ad_langID : uuid;
  ad_langKey : string;
  ad_problem : problem_view;
  ad_testCases : list ProblemTestCase;
  ad_sourceToSend : string
}.

Definition cp_test_case (tc : ProblemTestCase) : TestCase :=
  mkTestCase (pt_ExternalID tc) (pt_InputData tc) (pt_ExpectedData tc).

(** A run sees the visible test cases only. *)
Definition cases_for (kind : SubmissionKind) (tcs : list ProblemTestCase) : list ProblemTestCase :=
  match kind with
  | KindRun => List.filter (fun tc => negb (pt_IsHidden tc)) tcs
  | KindSubmit => tcs
  end.

Section Service.
Context `{GoUnicode} `{EntryJSON} (aiValidator : option AIValidator).

(** The count is 0 when it cannot be read. *)
Definition recent_events (env : create_env) (userID : uuid) : M subdb sub_error Z := fun db =>
  match CountRecentSecurityEvents (ce_io env) userID (ce_clock env - violationWindow) db with
  | (db', Ok count) => (db', Ok count)
  | (db', Err _) => (db', Ok 0)
  end.

Definition resolve_allowed (env : create_env) (problemID : uuid) (languageKey : string)
  : M subdb sub_error (uuid * string) :=
  lang ← ResolveLanguage (shift_faults 1 (ce_io env)) languageKey;
  allowed ← IsLanguageAllowed (shift_faults 2 (ce_io env)) problemID lang.1;
  if negb allowed then fail (Sentinel ErrLanguageNotAllowed) else mret lang.

Definition wrapped_source (problem : problem_view) (langKey src : string) : result sub_error string :=
  match pv_FunctionSpec problem with
  | None => Err (Wrapf "" (Sentinel ErrInvalidInput) ": problem missing function spec")
  | Some spec =>
      match Wrap spec langKey src with
      | Err e => Err (Wrapf "" (Sentinel ErrInvalidInput) (": " ++s e))
      | Ok source => Ok source
      end
  end.

Definition admit_request (env : create_env) (userID problemID : uuid)
    (req : CreateSubmissionRequest) (kind : SubmissionKind) : M subdb sub_error admission :=
  if bool_decide (TrimSpace (cs_SourceText req) = "") ||
     bool_decide (TrimSpace (cs_LanguageKey req) = "")
  then fail (Sentinel ErrInvalidInput)
  else
    count ← recent_events env userID;
    if violationThreshold <=? count then fail (Sentinel ErrExecutionSuspended)
    else
      lang ← resolve_allowed env problemID (cs_LanguageKey req);
      problem ← lift (match ce_problem env with
                      | Err _ => Err (Sentinel ErrProblemNotFound)
                      | Ok p => Ok p
                      end);
      tcs ← GetTestCasesForProblem (shift_faults 3 (ce_io env)) (ce_tie env) problemID;
      match cases_for kind tcs with
      | [] => fail (Sentinel ErrNoTestCases)
      | testCases =>
          source ← lift (wrapped_source problem lang.2 (cs_SourceText req));
          mret (mkAdmission lang.1 lang.2 problem testCases source)
      end.

(** The validator's refusal, if it answers with one. *)
Definition validate_code (userID problemID : uuid) (req : CreateSubmissionRequest)
    (ad : admission) (sub : Submission) : option ai_validation :=
  match aiValidator with
  | None => None
  | Some ai =>
      match ValidateCodeSubmission ai
              (mkValidateCodeRequest (sub_ID sub) userID problemID (cs_SourceText req)
                 (ad_langID ad) (ad_langKey ad)) with
      | Ok (Some v) => if av_IsAllowed v then None else Some v
      | _ => None
      end
  end.

Definition block (env : create_env) (ad : admission) (sub : Submission) (v : ai_validation)
  : M subdb sub_error Submission :=
  _ ← ignore (UpdateStatus (shift_faults 6 (ce_io env)) (sub_ID sub) StatusBlocked);
  _ ← ignore (LogSecurityEvent (shift_faults 7 (ce_io env)) (ce_now env) (sub_ID sub)
                SecurityCategoryCodeBlocked (default "block" (av_Severity v))
                [("reason", default "" (av_Reason v)); ("language_key", ad_langKey ad)]);
  mret (attachValidation aiValidator (sub_with_status StatusBlocked sub)).

Definition creation_request (ad : admission) (sub : Submission) : CreateJobRequest :=
  mkCreateJobRequest (sub_ID sub) (ad_langKey ad) (Some (ad_sourceToSend ad)) None None
    (pv_TimeLimitMs (ad_problem ad)) (pv_MemoryLimitMb (ad_problem ad))
    (cp_test_case <$> ad_testCases ad) 0.

Definition PublishJobCreation (p : publication) (req : CreateJobRequest) : M api sub_error () := fun st =>
  (mkApi (ap_db st) (if pb_delivered p then ap_queue st ++ [req] else ap_queue st),
   match pb_error p with Some e => Err (Opaque e) | None => Ok tt end).

Definition schedule (env : create_env) (ad : admission) (sub : Submission)
  : M api sub_error Submission := fun st =>
  match PublishJobCreation (ce_publication env) (creation_request ad sub) st with
  | (st', Err e) =>
      ((on_db (ignore (UpdateStatus (shift_faults 6 (ce_io env)) (sub_ID sub) StatusInternalError)) st').1,
       Err e)
  | (st', Ok _) =>
      ((on_db (ignore (UpdateStatus (shift_faults 6 (ce_io env)) (sub_ID sub) StatusQueued)) st').1,
       Ok (sub_with_status StatusQueued sub))
  end.

Definition create (env : create_env) (userID problemID : uuid) (req : CreateSubmissionRequest)
    (kind : SubmissionKind) : M api sub_error Submission :=
  ad ← on_db (admit_request env userID problemID req kind);
  sub ← on_db (Create (shift_faults 4 (ce_io env)) (ce_now env) (ce_fresh env) userID problemID
                 (ad_langID ad) (cs_SourceText req) (Some kind));
  match validate_code userID problemID req ad sub with
  | Some v => on_db (block env ad sub v)
  | None => schedule env ad sub
  end.

Definition Submit (env : create_env) (userID problemID : uuid) (req : CreateSubmissionRequest) :=
  create env userID problemID req KindSubmit.
Definition Run (env : create_env) (userID problemID : uuid) (req : CreateSubmissionRequest) :=
  create env userID problemID req KindRun.

(** ** GetSubmission *)

Definition jobStateToStatus (state : JobState) : SubmissionStatus :=
  match state with
  | JobStateQueued => StatusQueued
  | JobStateAssigned | JobStateRunning => StatusRunning
  | JobStateCompleted => StatusRunning
  | JobStateFailed | JobStateRetryPending => StatusInternalError
  end.

Definition verdictToStatus (verdict : string) : SubmissionStatus :=
  switch verdict
    [ ("Accepted", StatusAccepted);
      ("WrongAnswer", StatusWrongAnswer);
      ("TimeLimitExceeded", StatusTimeLimitExceeded);
      ("MemoryLimitExceeded", StatusMemoryLimitExceeded);
      ("RuntimeError", StatusRuntimeError);
      ("CompilationError", StatusCompilationError);
      ("SandboxViolation", StatusBlocked) ]
    StatusInternalError.

Definition entry_of_tc (tc : TestcaseResult) : TestcaseResultEntry :=
  mkEntry (tr_TestcaseID tc) (tr_Verdict tc) (tr_TimeMs tc) (tr_MemoryKb tc)
    (tr_ActualOutput tc) (tr_StdoutRef tc) None None.

(** [time.Time{}]: the first instant of year 1. *)
Definition zero_time : Z := - 62135596800 * time_Second.

Definition cpResultToSubmissionResult (submissionID : uuid) (r : JobResult) : SubmissionResult :=
  mkSubmissionResult submissionID (jr_OverallVerdict r) (jr_TotalTimeMs r) (jr_MaxMemoryKb r)
    (jr_WallTimeMs r) (jr_CompilerOutput r) (entry_of_tc <$> jr_TestcaseResults r) zero_time.

(** [tcMap]: a later test case replaces an earlier one of the same id. *)
Definition tc_map (tcs : list ProblemTestCase) : gmap string ProblemTestCase :=
  foldl (fun m tc => <[pt_ExternalID tc := tc]> m) ∅ tcs.

Definition enrich_entry (m : gmap string ProblemTestCase) (e : TestcaseResultEntry)
  : TestcaseResultEntry :=
  let hide := mkEntry (te_TestcaseID e) (te_Verdict e) (te_TimeMs e) (te_MemoryKb e)
                None None (te_InputData e) (te_ExpectedData e) in
  match m !! te_TestcaseID e with
  | None => hide
  | Some tc =>
      if pt_IsHidden tc then hide
      else mkEntry (te_TestcaseID e) (te_Verdict e) (te_TimeMs e) (te_MemoryKb e)
             (te_ActualOutput e) (te_StdoutOutput e)
             (Some (pt_InputData tc)) (Some (pt_ExpectedData tc))
  end.

Definition with_entries (es : list TestcaseResultEntry) (r : SubmissionResult) : SubmissionResult :=
  mkSubmissionResult (sres_SubmissionID r) (sres_OverallVerdict r) (sres_TotalTimeMs r)
    (sres_MaxMemoryKb r) (sres_WallTimeMs r) (sres_CompilerOutput r) es (sres_CreatedAt r).

(** What the outside decides while a submission is read. *)
Record view_env := mkViewEnv {
  ve_io : faults;
  ve_now : Z;
  ve_tie : ProblemTestCase -> ProblemTestCase -> bool;
  ve_bad_request : option string;
  ve_job : reply;
  ve_job_result : reply
}.

Definition enrichResult (env : view_env) (problemID : uuid) (result : SubmissionResult)
  : M subdb sub_error SubmissionResult := fun db =>
  match sres_TestcaseResults result with
  | [] => (db, Ok result)
  | entries =>
      match GetTestCasesForProblem (shift_faults 7 (ve_io env)) (ve_tie env) problemID db with
      | (db', Err _) => (db', Ok result)
      | (db', Ok tcs) => (db', Ok (with_entries (enrich_entry (tc_map tcs) <$> entries) result))
      end
  end.

Definition get_terminal (env : view_env) (sub : Submission) : M subdb sub_error Submission :=
  r ← attempt (GetResult (shift_faults 1 (ve_io env)) (sub_ID sub));
  match r with
  | Err e =>
      if errors_Is e ErrSubmissionNotFound
      then mret (attachValidation aiValidator (with_result None sub))
      else fail e
  | Ok result =>
      result ← enrichResult env (sub_ProblemID sub) result;
      mret (attachValidation aiValidator (with_result (Some result) sub))
  end.

Definition violation_detail (r : JobResult) : list (string * string) :=
  ("verdict", "SandboxViolation") ::
  match jr_CompilerOutput r with Some d => [("detail", d)] | None => [] end.

(** The job has ended and its result is here. *)
Definition settle (env : view_env) (sub : Submission) (jobResult : JobResult)
  : M subdb sub_error Submission :=
  let result := cpResultToSubmissionResult (sub_ID sub) jobResult in
  let finalStatus := verdictToStatus (jr_OverallVerdict jobResult) in
  _ ← (if bool_decide (jr_OverallVerdict jobResult = "SandboxViolation") then
         ignore (LogSecurityEvent (shift_faults 2 (ve_io env)) (ve_now env) (sub_ID sub)
                   SecurityCategorySandboxEscape "block" (violation_detail jobResult))
       else mret tt);
  _ ← ignore (SaveResult (shift_faults 3 (ve_io env)) (ve_now env) result finalStatus);
  result ← enrichResult env (sub_ProblemID sub) result;
  mret (attachValidation aiValidator (with_result (Some result) (sub_with_status finalStatus sub))).

Definition refresh (env : view_env) (sub : Submission) (job : Job) : M subdb sub_error Submission :=
  let newStatus := jobStateToStatus (j_State job) in
  _ ← (if bool_decide (newStatus = sub_Status sub) then mret tt
       else ignore (UpdateStatus (shift_faults 1 (ve_io env)) (sub_ID sub) newStatus));
  let sub := sub_with_status newStatus sub in
  if bool_decide (j_State job = JobStateCompleted) || bool_decide (j_State job = JobStateFailed) then
    match CPClient_GetJobResult (ve_bad_request env) (ve_job_result env) with
    | Err _ => mret (attachValidation aiValidator sub)
    | Ok jobResult => settle env sub jobResult
    end
  else mret (attachValidation aiValidator sub).

Definition GetSubmission (env : view_env) (id callerUserID : uuid) (callerIsAdmin : bool)
  : M subdb sub_error Submission :=
  sub ← GetByID (ve_io env) id;
  if negb (bool_decide (sub_UserID sub = callerUserID)) && negb callerIsAdmin then
    fail (Sentinel ErrForbidden)
  else if IsTerminal (sub_Status sub) then get_terminal env sub
  else
    match CPClient_GetJobBySubmission (ve_bad_request env) (ve_job env) with
    | Err _ => mret (attachValidation aiValidator sub)
    | Ok job => refresh env sub job
    end.

(** ** ListSubmissions *)

Definition ListSubmissions (io : faults) (tie : sub_row -> sub_row -> bool)
    (filters : ListFilters) (limit offset : Z) : M subdb sub_error (list Submission * Z) :=
  let limit := if (limit <=? 0) || (100 <? limit) then 50 else limit in
  let offset := if offset <? 0 then 0 else offset in
  page ← List_ io tie filters limit offset;
  mret (attachValidation aiValidator <$> page.1, page.2).
End Service.
