(* ===== verification/SubTheorems.v ===== *)
(** * Submissions: what the service guarantees *)

From S2P Require Import Prelude Sql GoStrings CPDomain CPHttp Driver.
From S2P Require Import AiDomain SubRepo SubService.

(** ** Operations that only read *)

Lemma ResolveLanguage_readonly io key : readonly (ResolveLanguage io key).
Proof. apply readonly_statement. intros db. by case_match. Qed.

Lemma GetByID_readonly io id : readonly (GetByID io id).
Proof. apply readonly_statement. intros db. by repeat case_match. Qed.

Lemma GetTestCases_readonly io tie p : readonly (GetTestCasesForProblem io tie p).
Proof. by apply readonly_statement. Qed.

Lemma GetResult_readonly `{EntryJSON} io id : readonly (GetResult io id).
Proof. apply readonly_statement. intros db. by repeat case_match. Qed.

Lemma IsLanguageAllowed_readonly io p l : readonly (IsLanguageAllowed io p l).
Proof. by apply readonly_statement. Qed.

#[export] Hint Resolve ResolveLanguage_readonly GetByID_readonly GetTestCases_readonly
  GetResult_readonly IsLanguageAllowed_readonly : capstone.

(** ** Admission *)

Section Admission.
Context `{GoUnicode}.

(** What a request has passed when it is admitted. *)
Record admitted (env : create_env) (db : subdb) (userID problemID : uuid)
    (req : CreateSubmissionRequest) (kind : SubmissionKind) (ad : admission) : Prop := {
  adm_source : TrimSpace (cs_SourceText req) <> "";
  adm_violations :
    ce_io env 0%nat = None ->
    Z.of_nat (length (List.filter (recent_event db userID (ce_clock env - violationWindow))
                        (sd_events db))) < violationThreshold;
  adm_language :
    sd_languages db !! ad_langID ad = Some (mkLanguageRow (ad_langKey ad) true);
  adm_key : ad_langKey ad = cs_LanguageKey req;
  adm_allowed : (problemID, ad_langID ad) ∈ sd_problem_languages db;
  adm_problem : ce_problem env = Ok (ad_problem ad);
  adm_cases : forall tc, tc ∈ ad_testCases ad <->
    (exists k, sd_test_cases db !! k = Some tc) /\ pt_ProblemID tc = problemID /\
    pt_IsActive tc = true /\ (kind = KindRun -> pt_IsHidden tc = false);
  adm_some : ad_testCases ad <> [];
  adm_wrapped : exists spec, pv_FunctionSpec (ad_problem ad) = Some spec /\
    Wrap spec (ad_langKey ad) (cs_SourceText req) = Ok (ad_sourceToSend ad)
}.

Lemma recent_events_readonly env userID : readonly (recent_events env userID).
Proof.
  intros db. unfold recent_events, CountRecentSecurityEvents, statement.
  by destruct (ce_io env 0%nat).
Qed.

Lemma resolve_allowed_readonly env p key : readonly (resolve_allowed env p key).
Proof.
  apply readonly_bind; [auto with capstone |]. intros lang.
  apply readonly_bind; [auto with capstone |]. intros allowed. by destruct (negb allowed).
Qed.

Lemma admit_readonly env u p req kind : readonly (admit_request env u p req kind).
Proof.
  unfold admit_request. destruct (_ || _); [done |].
  apply readonly_bind; [apply recent_events_readonly |]. intros count.
  destruct (_ <=? _); [done |].
  apply readonly_bind; [apply resolve_allowed_readonly |]. intros lang.
  apply readonly_bind; [done |]. intros pv.
  apply readonly_bind; [auto with capstone |]. intros tcs.
  destruct (cases_for kind tcs); [done |].
  apply readonly_bind; [done |]. done.
Qed.

Lemma cases_for_spec kind tcs tc :
  tc ∈ cases_for kind tcs <-> tc ∈ tcs /\ (kind = KindRun -> pt_IsHidden tc = false).
Proof.
  destruct kind; simpl; [| naive_solver].
  rewrite !list_elem_of_In, filter_In, negb_true_iff. naive_solver.
Qed.

Lemma resolve_allowed_ok env db db' p key lang :
  resolve_allowed env p key db = (db', Ok lang) ->
  lang.2 = key /\ sd_languages db !! lang.1 = Some (mkLanguageRow key true) /\
  (p, lang.1) ∈ sd_problem_languages db.
Proof.
  intros (db1 & l & H1 & (db2 & al & H2 & H3)%bind_ok)%bind_ok.
  pose proof (readonly_run _ _ _ _ (ResolveLanguage_readonly _ _) H1) as ->.
  pose proof (readonly_run _ _ _ _ (IsLanguageAllowed_readonly _ _ _) H2) as ->.
  apply statement_ok in H1 as [_ H1]. apply statement_ok in H2 as [_ H2].
  injection H2 as <-. destruct (negb _) eqn:Ea; [done |]. injection H3 as <- <-.
  apply negb_false_iff, bool_decide_eq_true in Ea.
  destruct (List.filter _ _) as [| kv rest] eqn:El; [done |]. injection H1 as <-.
  assert (In kv (kv :: rest)) as Hin by (by left). rewrite <- El in Hin.
  apply filter_In in Hin as [Hin [Hk He]%andb_true_iff].
  apply bool_decide_eq_true in Hk. apply list_elem_of_In in Hin.
  destruct kv as [k [lk le]]. apply elem_of_map_to_list in Hin. simpl in *. by subst.
Qed.

Lemma admit_ok env db db' u p req kind ad :
  admit_request env u p req kind db = (db', Ok ad) ->
  db' = db /\ admitted env db u p req kind ad.
Proof.
  intros Hrun. split; [by eapply readonly_run, Hrun; apply admit_readonly |]. revert Hrun.
  unfold admit_request. destruct (_ || _) eqn:Eb; [done |].
  apply orb_false_iff in Eb as [Hsrc _]. apply bool_decide_eq_false in Hsrc.
  intros (db1 & count & H1 & H2)%bind_ok.
  pose proof (readonly_run _ _ _ _ (recent_events_readonly _ _) H1) as ->.
  destruct (_ <=? _) eqn:Ec; [done |]. apply Z.leb_gt in Ec.
  apply bind_ok in H2 as (db2 & lang & H2 & (db3 & pv & H3 & (db4 & tcs & H4 & H5)%bind_ok)%bind_ok).
  pose proof (readonly_run _ _ _ _ (resolve_allowed_readonly _ _ _) H2) as ->.
  apply resolve_allowed_ok in H2 as (Hkey & Hlang & Hallowed).
  injection H3 as <- Hpv. apply statement_ok in H4 as [_ H4]. injection H4 as <- <-.
  destruct (ce_problem env) as [pv' | e] eqn:Ep; [| done]. injection Hpv as ->.
  match type of H5 with match ?t with _ => _ end _ = _ => destruct t as [| tc0 tcs0] eqn:Etc end;
    [done |].
  apply bind_ok in H5 as (db5 & src & H5 & H6). injection H5 as <- Hw. injection H6 as _ <-.
  split; simpl; try done.
  - intros Hio. revert H1. unfold recent_events, CountRecentSecurityEvents, statement.
    rewrite Hio. intros [= <-]. done.
  - by rewrite Hkey.
  - intros tc. rewrite <- Etc, cases_for_spec, elem_of_order_by, elem_of_select_where.
    unfold active_case. rewrite andb_true_iff, bool_decide_eq_true. naive_solver.
  - unfold wrapped_source in Hw. destruct (pv_FunctionSpec pv) as [spec |]; [| done].
    exists spec. split; [done |]. by destruct (Wrap _ _ _); simplify_eq.
Qed.
End Admission.

(** ** Frames *)

Lemma with_status_same row : with_status (sr_Status row) row = row.
Proof. by destruct row. Qed.

Lemma with_status_twice s s' row : with_status s (with_status s' row) = with_status s row.
Proof. done. Qed.

(** Between two databases only the status of submission [id], and the
    security events, have changed. *)
Record quiet (id : uuid) (db db' : subdb) : Prop := {
  q_results : sd_results db' = sd_results db;
  q_languages : sd_languages db' = sd_languages db;
  q_allowed : sd_problem_languages db' = sd_problem_languages db;
  q_cases : sd_test_cases db' = sd_test_cases db;
  q_others : forall j, j <> id -> sd_submissions db' !! j = sd_submissions db !! j;
  q_row : forall row, sd_submissions db !! id = Some row ->
    exists s, sd_submissions db' !! id = Some (with_status s row)
}.

Lemma quiet_refl id db : quiet id db db.
Proof. split; try done. intros row E. exists (sr_Status row). by rewrite with_status_same. Qed.

Lemma quiet_trans id db1 db2 db3 : quiet id db1 db2 -> quiet id db2 db3 -> quiet id db1 db3.
Proof.
  intros [A1 A2 A3 A4 A5 A6] [B1 B2 B3 B4 B5 B6]. split; try congruence.
  - intros j Hj. by rewrite B5, A5.
  - intros row E. destruct (A6 row E) as [s E1]. destruct (B6 _ E1) as [s' E2]. eauto.
Qed.

(** An operation that leaves the rest of the database alone. *)
Definition quiet_op {A} (id : uuid) (m : M subdb sub_error A) : Prop := forall db, quiet id db (m db).1.

Lemma quiet_readonly {A} id (m : M subdb sub_error A) : readonly m -> quiet_op id m.
Proof. intros Hm db. rewrite Hm. apply quiet_refl. Qed.

Lemma quiet_bind {A B} id (m : M subdb sub_error A) (k : A -> M subdb sub_error B) :
  quiet_op id m -> (forall a, quiet_op id (k a)) -> quiet_op id (m ≫= k).
Proof.
  intros Hm Hk db. unfold mbind, M_bind. specialize (Hm db).
  destruct (m db) as [db1 [a | e]]; simpl in *; [| done].
  eapply quiet_trans; [exact Hm | apply Hk].
Qed.

Lemma quiet_ignore {A} id (m : M subdb sub_error A) : quiet_op id m -> quiet_op id (ignore m : M subdb sub_error ()).
Proof. done. Qed.

Lemma quiet_statement {A} id io (m : M subdb sub_error A) : quiet_op id m -> quiet_op id (statement Opaque io m).
Proof. intros Hm db. unfold statement. destruct (io 0%nat); [apply quiet_refl | apply Hm]. Qed.

Lemma quiet_set_status id s : quiet_op id (set_status id s).
Proof.
  intros db. unfold set_status. simpl.
  destruct (update_key_cases id (fun _ => true) (with_status s) (sd_submissions db))
    as [(row & E & _ & ->) | [Hn ->]]; split; try done; simpl.
  - intros j Hj. by rewrite lookup_insert_ne.
  - intros row' E'. exists s. rewrite lookup_insert_eq. congruence.
  - intros row E. exfalso. by specialize (Hn row E).
Qed.

Lemma quiet_UpdateStatus io id s : quiet_op id (UpdateStatus io id s).
Proof. apply quiet_statement, quiet_set_status. Qed.

Lemma quiet_LogSecurityEvent io now id id' c s d : quiet_op id (LogSecurityEvent io now id' c s d).
Proof.
  apply quiet_statement. intros db. destruct (_ && _); [| apply quiet_refl].
  split; try done. intros row E. exists (sr_Status row). by rewrite with_status_same.
Qed.

#[export] Hint Resolve quiet_readonly quiet_bind quiet_ignore quiet_UpdateStatus
  quiet_LogSecurityEvent : capstone.

(** ** Creating a submission *)

Section Create.
Context `{GoUnicode} `{EntryJSON} (ai : option AIValidator).

(** The row that [Create] stores. *)
Definition fresh_row (env : create_env) (userID problemID : uuid) (req : CreateSubmissionRequest)
    (kind : SubmissionKind) (ad : admission) : sub_row :=
  mkSubRow (ce_fresh env) userID problemID (ad_langID ad) (Some (cs_SourceText req)) StatusPending
    kind None (ce_now env).

(** Between two states one submission has been stored. *)
Record stored (row : sub_row) (db db' : subdb) : Prop := {
  st_fresh : sd_submissions db !! sr_ID row = None;
  st_quiet : quiet (sr_ID row) (set_submissions db (<[sr_ID row := row]> (sd_submissions db))) db'
}.

Lemma insert_cases env u p req kind ad db db' r :
  let row := fresh_row env u p req kind ad in
  Create (shift_faults 4 (ce_io env)) (ce_now env) (ce_fresh env) u p (ad_langID ad)
    (cs_SourceText req) (Some kind) db = (db', r) ->
  (db' = db /\ exists e, r = Err e) \/
  (stored row db db' /\ sd_events db' = sd_events db /\
   forall sub, r = Ok sub -> exists key, sub = submission_of row key).
Proof.
  cbn zeta. unfold Create. cbn iota zeta.
  change (mkSubRow (ce_fresh env) u p (ad_langID ad) (Some (cs_SourceText req)) StatusPending
    kind None (ce_now env)) with (fresh_row env u p req kind ad).
  set (row := fresh_row env u p req kind ad).
  unfold mbind at 1, M_bind at 1. unfold statement at 1.
  destruct (shift_faults 4 (ce_io env) 0%nat); [intros [= <- <-]; left; eauto |].
  unfold insert_submission.
  destruct (bool_decide _) eqn:E1; cbn [andb]; [| intros [= <- <-]; left; eauto].
  destruct (bool_decide (is_Some _)) eqn:E2; [| intros [= <- <-]; left; eauto].
  intros Hrun. right. apply bool_decide_eq_true in E1.
  set (db1 := set_submissions db (<[sr_ID row := row]> (sd_submissions db))) in Hrun.
  assert (stored row db db1) as Hst by (split; [done | apply quiet_refl]).
  revert Hrun. unfold mbind, M_bind, statement, language_key.
  destruct (shift_faults 1 _ 0%nat) as [e |];
    [| destruct (sd_languages db1 !! ad_langID ad) as [l |]];
    (intros Hrun; injection Hrun as <- <-; split; [exact Hst |]; split; [done |]);
    intros sub Hsub; simplify_eq. by eexists.
Qed.

Lemma UpdateStatus_events io id s db : sd_events (UpdateStatus io id s db).1 = sd_events db.
Proof. unfold UpdateStatus, statement. by destruct (io 0%nat). Qed.

Lemma block_spec env ad sub v db :
  quiet (sub_ID sub) db (block ai env ad sub v db).1 /\
  (block ai env ad sub v db).2 = Ok (attachValidation ai (sub_with_status StatusBlocked sub)) /\
  exists evs, sd_events (block ai env ad sub v db).1 = sd_events db ++ evs /\
    ((forall n, ce_io env n = None) -> default "block" (av_Severity v) ∈ severities ->
     is_Some (sd_submissions db !! sub_ID sub) ->
     exists c s d, evs = [mkEventRow (sub_ID sub) c s d (ce_now env)]).
Proof.
  split; [| split].
  - apply quiet_bind; [apply quiet_ignore, quiet_UpdateStatus |]. intros _.
    apply quiet_bind; [apply quiet_ignore, quiet_LogSecurityEvent |]. intros _.
    by apply quiet_readonly.
  - done.
  - unfold block, ignore, mbind, M_bind, mret, M_ret. cbn [fst snd].
    set (db1 := (UpdateStatus _ _ _ db).1).
    assert (quiet (sub_ID sub) db db1) as Hq by apply quiet_UpdateStatus.
    assert (sd_events db1 = sd_events db) as <- by apply UpdateStatus_events.
    unfold LogSecurityEvent, statement. destruct (shift_faults 7 _ 0%nat) as [e |] eqn:Eio.
    { exists []. rewrite app_nil_r. split; [done |]. intros Hio. unfold shift_faults in Eio. by rewrite Hio in Eio. }
    destruct (_ && _) eqn:Ec.
    + eexists [_]. split; [reflexivity |]. eauto.
    + exists []. rewrite app_nil_r. split; [done |]. intros _ Hsev [row Hrow].
      destruct (q_row _ _ _ Hq row Hrow) as [s' Hs]. exfalso.
      rewrite !bool_decide_eq_true_2 in Ec by (done || by rewrite Hs). done.
Qed.

Lemma attach_ID sub : sub_ID (attachValidation ai sub) = sub_ID sub.
Proof. unfold attachValidation. by repeat case_match. Qed.
Lemma attach_Status sub : sub_Status (attachValidation ai sub) = sub_Status sub.
Proof. unfold attachValidation. by repeat case_match. Qed.

Lemma schedule_spec env ad sub st :
  let '(st', r) := schedule env ad sub st in
  quiet (sub_ID sub) (ap_db st) (ap_db st') /\ sd_events (ap_db st') = sd_events (ap_db st) /\
  ap_queue st' = (if pb_delivered (ce_publication env)
                  then ap_queue st ++ [creation_request ad sub] else ap_queue st) /\
  forall sub', r = Ok sub' -> sub_ID sub' = sub_ID sub /\ sub_Status sub' = StatusQueued /\
    pb_error (ce_publication env) = None.
Proof.
  unfold schedule, PublishJobCreation. destruct (pb_error _) as [e |] eqn:Ee;
    (split; [apply quiet_UpdateStatus |]); (split; [apply UpdateStatus_events |]); (split; [done |]).
  - done.
  - intros sub' [= <-]. done.
Qed.

Lemma stored_row row db db' :
  stored row db db' -> exists s, sd_submissions db' !! sr_ID row = Some (with_status s row).
Proof. intros [_ Q]. apply (q_row _ _ _ Q). simpl. by rewrite lookup_insert_eq. Qed.

Lemma stored_quiet row db db1 db2 : stored row db db1 -> quiet (sr_ID row) db1 db2 -> stored row db db2.
Proof. intros [F Q] Q2. split; [done |]. by eapply quiet_trans. Qed.

Lemma on_db_run {A} (m : M subdb sub_error A) st :
  on_db m st = (mkApi (m (ap_db st)).1 (ap_queue st), (m (ap_db st)).2).
Proof. unfold on_db. by destruct (m (ap_db st)). Qed.

(** The outcomes of [create]. *)
Inductive created (env : create_env) (u p : uuid) (req : CreateSubmissionRequest)
    (kind : SubmissionKind) (st : api) : api -> result sub_error Submission -> Prop :=
  | created_refused e : created env u p req kind st st (Err e)
  | created_orphan ad db e :
      admitted env (ap_db st) u p req kind ad -> stored (fresh_row env u p req kind ad) (ap_db st) db ->
      sd_events db = sd_events (ap_db st) ->
      created env u p req kind st (mkApi db (ap_queue st)) (Err e)
  | created_blocked ad key v db sub evs :
      admitted env (ap_db st) u p req kind ad -> stored (fresh_row env u p req kind ad) (ap_db st) db ->
      validate_code ai u p req ad (submission_of (fresh_row env u p req kind ad) key) = Some v ->
      sub_ID sub = ce_fresh env -> sub_Status sub = StatusBlocked ->
      sub = attachValidation ai (sub_with_status StatusBlocked
              (submission_of (fresh_row env u p req kind ad) key)) ->
      sd_events db = sd_events (ap_db st) ++ evs ->
      ((forall n, ce_io env n = None) -> default "block" (av_Severity v) ∈ severities ->
       exists c s d, evs = [mkEventRow (ce_fresh env) c s d (ce_now env)]) ->
      created env u p req kind st (mkApi db (ap_queue st)) (Ok sub)
  | created_sent ad key db r :
      admitted env (ap_db st) u p req kind ad -> stored (fresh_row env u p req kind ad) (ap_db st) db ->
      validate_code ai u p req ad (submission_of (fresh_row env u p req kind ad) key) = None ->
      (forall sub, r = Ok sub -> sub_ID sub = ce_fresh env /\ sub_Status sub = StatusQueued /\
         pb_error (ce_publication env) = None) ->
      created env u p req kind st
        (mkApi db (if pb_delivered (ce_publication env)
                   then ap_queue st ++ [creation_request ad (submission_of (fresh_row env u p req kind ad) key)]
                   else ap_queue st)) r.

Lemma create_cases env u p req kind st st' r :
  create ai env u p req kind st = (st', r) -> created env u p req kind st st' r.
Proof.
  unfold create. unfold mbind at 1, M_bind at 1. rewrite on_db_run.
  destruct (admit_request env u p req kind (ap_db st)) as [db1 ra] eqn:Ea. simpl.
  pose proof (readonly_run _ _ _ _ (admit_readonly _ _ _ _ _) Ea) as ->.
  destruct st as [db0 q]. simpl in *.
  destruct ra as [ad | e]; [| intros [= <- <-]; by constructor].
  apply admit_ok in Ea as [_ Had]. unfold mbind, M_bind. rewrite on_db_run. simpl.
  destruct (Create _ _ _ _ _ _ _ _ db0) as [db1 rc] eqn:Ec. simpl.
  apply insert_cases in Ec as [(-> & e & ->) | (Hst & Hev & Hsub)];
    [intros [= <- <-]; by constructor |].
  destruct rc as [sub | e]; [| intros [= <- <-]; by eapply created_orphan].
  destruct (Hsub sub eq_refl) as [key ->].
  destruct (validate_code ai u p req ad _) as [v |] eqn:Ev.
  - rewrite on_db_run. cbn [ap_db ap_queue].
    destruct (block_spec env ad (submission_of (fresh_row env u p req kind ad) key) v db1)
      as (Hq & Hr & evs & Hevs & Hlog).
    rewrite Hr. intros [= <- <-]. rewrite Hev in Hevs. eapply created_blocked; try done.
    + by eapply stored_quiet.
    + by rewrite attach_ID.
    + by rewrite attach_Status.
    + intros Hio Hsev. apply Hlog; [done | done |].
      destruct (stored_row _ _ _ Hst) as [s Hrow]. exists (with_status s (fresh_row env u p req kind ad)).
      exact Hrow.
  - pose proof (schedule_spec env ad (submission_of (fresh_row env u p req kind ad) key)
      (mkApi db1 q)) as Hs.
    destruct (schedule _ _ _ _) as [[db2 q2] rs]. simpl in Hs. destruct Hs as (Hq & _ & -> & Hr).
    intros [= <- <-]. eapply created_sent; try done. by eapply stored_quiet.
Qed.
Lemma stored_other row db db' id :
  stored row db db' -> id <> sr_ID row -> sd_submissions db' !! id = sd_submissions db !! id.
Proof. intros [_ Q] Hne. rewrite (q_others _ _ _ Q) by done. simpl. by rewrite lookup_insert_ne. Qed.

(** C20. Only admitted code reaches the control plane.  Whatever fails,
    [create] publishes at most one message, and only for a request that has
    passed every check ([admitted]: not suspended, an enabled language the
    problem allows, a problem with a specification that the source is wrapped
    by, at least one active test case, only visible ones for a run) and that
    the validator has not refused; the message carries the
    wrapped source and those test cases under the identifier of a row stored
    with the user's source.  A submission is returned only as queued or as
    blocked, and a blocked one has published nothing.  Other submissions and
    all results stay as they are.

    In particular a problem without a specification takes no submissions: the
    raw mode over stdin and stdout that the comment of
    [driver/generator.go] announces for such problems (lines 10-11) does not
    exist, since the service refuses them. *)
Theorem create_publishes_only_admitted_code (env : create_env) (userID problemID : uuid)
    (req : CreateSubmissionRequest) (kind : SubmissionKind) (st st' : api)
    (r : result sub_error Submission)
    (Hrun : create ai env userID problemID req kind st = (st', r)) :
  (ap_queue st' = ap_queue st \/
   exists ad sub row,
     admitted env (ap_db st) userID problemID req kind ad /\
     validate_code ai userID problemID req ad sub = None /\
     ap_queue st' = ap_queue st ++ [creation_request ad sub] /\
     sub_ID sub = ce_fresh env /\
     sd_submissions (ap_db st') !! ce_fresh env = Some row /\
     sr_UserID row = userID /\ sr_ProblemID row = problemID /\ sr_Kind row = kind /\
     sr_SourceText row = Some (cs_SourceText req)) /\
  (forall sub, r = Ok sub -> sub_ID sub = ce_fresh env /\
     (sub_Status sub = StatusQueued \/
      sub_Status sub = StatusBlocked /\ ap_queue st' = ap_queue st)) /\
  (forall id, id <> ce_fresh env ->
     sd_submissions (ap_db st') !! id = sd_submissions (ap_db st) !! id) /\
  sd_results (ap_db st') = sd_results (ap_db st).
Proof.
  apply create_cases in Hrun.
  assert (forall ad db, stored (fresh_row env userID problemID req kind ad) (ap_db st) db ->
    (forall id, id <> ce_fresh env -> sd_submissions db !! id = sd_submissions (ap_db st) !! id) /\
    sd_results db = sd_results (ap_db st)) as Hframe.
  { intros ad db Hst. split; [| by destruct Hst as [_ []]].
    intros id Hid. by apply (stored_other _ _ _ _ Hst). }
  destruct Hrun as [e | ad db e Had Hst Hev | ad key v db sub evs Had Hst Hv Hid Hs _ _ _
    | ad key db r Had Hst Hv Hr]; simpl.
  - split; [by left |]. split; [done |]. done.
  - split; [by left |]. split; [done |]. by eapply Hframe.
  - split; [by left |]. split; [| by eapply Hframe]. intros ? [= <-]. auto.
  - split; [| split; [| by eapply Hframe]].
    + destruct (pb_delivered _); [| by left]. right.
      destruct (stored_row _ _ _ Hst) as [s Hrow].
      eexists ad, _, _. do 3 (split; [done |]). split; [done |]. split; [exact Hrow |]. done.
    + intros sub E. destruct (Hr sub E) as (? & ? & ?). auto.
Qed.

(** ** Repeated violations *)

Definition violations (db : subdb) (userID : uuid) (since : Z) : nat :=
  length (List.filter (recent_event db userID since) (sd_events db)).

(** A request of the user that the validator refused, recorded after
    [since]: every statement was executed, and the validator's severities are
    ones the database knows. *)
Definition violation (since : Z) (userID : uuid) (st st' : api) : Prop :=
  exists env problemID req kind sub,
    create ai env userID problemID req kind st = (st', Ok sub) /\ sub_Status sub = StatusBlocked /\
    (forall n, ce_io env n = None) /\ since < ce_now env /\
    (forall v vreq w, ai = Some v -> ValidateCodeSubmission v vreq = Ok (Some w) ->
       default "block" (av_Severity w) ∈ severities).

Lemma length_filter_impl {A} (P Q : A -> bool) l :
  (forall x, P x = true -> Q x = true) ->
  (length (List.filter P l) <= length (List.filter Q l))%nat.
Proof.
  intros HPQ. induction l as [| x l IH]; simpl; [lia |].
  destruct (P x) eqn:E; [rewrite (HPQ x E); simpl; lia |]. destruct (Q x); simpl; lia.
Qed.

Lemma validate_code_some u p req ad sub w :
  validate_code ai u p req ad sub = Some w ->
  exists v vreq, ai = Some v /\ ValidateCodeSubmission v vreq = Ok (Some w).
Proof.
  unfold validate_code. destruct ai as [v |]; [| done].
  destruct (ValidateCodeSubmission v _) as [[w' |] |] eqn:E; [| done | done].
  destruct (av_IsAllowed w'); [done |]. intros [= ->]. eauto.
Qed.

Lemma violation_counts since userID st st' :
  violation since userID st st' ->
  (S (violations (ap_db st) userID since) <= violations (ap_db st') userID since)%nat.
Proof.
  intros (env & p & req & kind & sub & Hrun & Hb & Hio & Hnow & Hsev).
  apply create_cases in Hrun. inversion Hrun as [| | ad key v db sub' evs Had Hst Hv Hid Hs _ Hev Hlog
    | ad key db r Had Hst Hv Hr]; subst; simpl.
  - destruct (validate_code_some _ _ _ _ _ _ Hv) as (vd & vreq & E1 & E2).
    destruct (Hlog Hio (Hsev _ _ _ E1 E2)) as (c & s & d & ->).
    unfold violations. rewrite Hev, List.filter_app, length_app.
    destruct (stored_row _ _ _ Hst) as [s' Hrow]. simpl.
    assert (recent_event db userID since (mkEventRow (ce_fresh env) c s d (ce_now env)) = true) as ->.
    { unfold recent_event. simpl. change (ce_fresh env) with (sr_ID (fresh_row env userID p req kind ad)).
      rewrite Hrow. simpl. rewrite bool_decide_eq_true_2 by done. simpl. lia. }
    simpl. rewrite Nat.add_1_r. apply le_n_S, length_filter_impl.
    intros ev. unfold recent_event. destruct (decide (ev_SubmissionID ev = ce_fresh env)) as [E | Hne].
    + destruct Hst as [Hf _]. simpl in Hf. rewrite E, Hf. done.
    + rewrite (stored_other _ _ _ _ Hst) by done. done.
  - destruct (Hr sub eq_refl) as (_ & E & _). congruence.
Qed.

(** C21. Three violations suspend a user: when three requests of a user have
    been refused by the validator after an instant, then as long as that
    instant is inside the window of ten minutes every further request of the
    user with a source is refused as suspended, whatever its problem and
    language, and changes nothing. *)
Theorem three_violations_suspend (since : Z) (userID : uuid) (st st' : api)
    (Hviol : nsteps (violation since userID) 3 st st') :
  forall (env : create_env) (problemID : uuid) (req : CreateSubmissionRequest) (kind : SubmissionKind),
  ce_io env 0%nat = None -> ce_clock env - violationWindow <= since ->
  TrimSpace (cs_SourceText req) <> "" -> TrimSpace (cs_LanguageKey req) <> "" ->
  create ai env userID problemID req kind st' = (st', Err (Sentinel ErrExecutionSuspended)).
Proof.
  assert (3 <= violations (ap_db st') userID since)%nat as Hcount.
  { inversion Hviol as [| ? ? st1 ? H1 Hv1]; subst. inversion Hv1 as [| ? ? st2 ? H2 Hv2]; subst.
    inversion Hv2 as [| ? ? st3 ? H3 Hv3]; subst. inversion Hv3; subst.
    apply violation_counts in H1, H2, H3. lia. }
  intros env p req kind Hio Hclock Hsrc Hkey.
  unfold create. unfold mbind at 1, M_bind at 1. rewrite on_db_run. unfold admit_request.
  rewrite !bool_decide_eq_false_2 by done. cbn [orb].
  unfold mbind, M_bind, recent_events, CountRecentSecurityEvents, statement. rewrite Hio.
  assert (violations (ap_db st') userID since <=
    length (List.filter (recent_event (ap_db st') userID (ce_clock env - violationWindow))
              (sd_events (ap_db st'))))%nat as Hle.
  { apply length_filter_impl. intros ev. unfold recent_event.
    destruct (sd_submissions _ !! _); [| done]. rewrite !andb_true_iff. intros [-> ?]. split; [done | lia]. }
  rewrite (proj2 (Z.leb_le violationThreshold _)) by (unfold violationThreshold; lia).
  by destruct st'.
Qed.
End Create.

(** ** Witnesses *)

Module SubWitness.

(** A small world: one language, one problem with a visible and a hidden test
    case. *)
Definition visible_case : ProblemTestCase :=
  mkProblemTestCase 10%N 7%N "sample" "[1,2]" "3" 0 true false.
Definition hidden_case : ProblemTestCase :=
  mkProblemTestCase 11%N 7%N "secret" "[5,6]" "11" 1 true true.

Definition db0 : subdb :=
  mkSubDb ∅ ∅ {[1%N := mkLanguageRow "python" true]} {[(7%N, 1%N)]}
    (<[10%N := visible_case]> {[11%N := hidden_case]}) [].

Definition add_spec : FunctionSpec :=
  mkFunctionSpec "add" [mkParameter "a" TypeInt; mkParameter "b" TypeInt] TypeInt.

Definition env_at (now : Z) (fresh : uuid) : create_env :=
  mkCreateEnv no_faults now now fresh (fun _ _ => true)
    (Ok (mkProblemView 1000 256 (Some add_spec))) (mkPublication true None).

Definition request : CreateSubmissionRequest :=
  mkCreateSubmissionRequest "python" "def add(a, b): return a + b".

(** A validator that refuses everything. *)
Definition refusing : AIValidator :=
  mkAIValidator
    (fun _ => Ok (Some (mkAIValidation false (Some "block") (Some "network access") "")))
    (fun _ => Ok None).

Definition start : api := mkApi db0 [].
Definition user : uuid := 42%N.

#[export] Existing Instance ascii_tables.

Definition accepted : api * result sub_error Submission :=
  create None (env_at 0 100%N) user 7%N request KindRun start.

(** The user's requests, each refused. *)
Definition refuse (now : Z) (fresh : uuid) (st : api) : api * result sub_error Submission :=
  create (Some refusing) (env_at now fresh) user 7%N request KindSubmit st.
Definition refused1 : api := (refuse time_Second 101%N start).1.
Definition refused2 : api := (refuse (2 * time_Second) 102%N refused1).1.
Definition refused3 : api := (refuse (3 * time_Second) 103%N refused2).1.
End SubWitness.

Import SubWitness.

(** A run of the example publishes the visible test case only. *)
Example example_run_publishes :
  (cr_TestCases <$> ap_queue accepted.1) = [[mkTestCase "sample" "[1,2]" "3"]].
Proof. vm_compute. reflexivity. Qed.

Lemma create_publishes_only_admitted_code_witness :
  create None (env_at 0 100%N) user 7%N request KindRun start = (accepted.1, accepted.2) /\
  ((ap_queue accepted.1 = [] \/
    exists ad sub row,
      admitted (env_at 0 100%N) db0 user 7%N request KindRun ad /\
      validate_code None user 7%N request ad sub = None /\
      ap_queue accepted.1 = [] ++ [creation_request ad sub] /\
      sub_ID sub = 100%N /\
      sd_submissions (ap_db accepted.1) !! 100%N = Some row /\
      sr_UserID row = user /\ sr_ProblemID row = 7%N /\ sr_Kind row = KindRun /\
      sr_SourceText row = Some (cs_SourceText request)) /\
   (forall sub, accepted.2 = Ok sub -> sub_ID sub = 100%N /\
      (sub_Status sub = StatusQueued \/
       sub_Status sub = StatusBlocked /\ ap_queue accepted.1 = [])) /\
   (forall id, id <> 100%N ->
      sd_submissions (ap_db accepted.1) !! id = sd_submissions db0 !! id) /\
   sd_results (ap_db accepted.1) = ∅).
Proof.
  split; [exact (surjective_pairing accepted) |].
  exact (create_publishes_only_admitted_code None (env_at 0 100%N) user 7%N request KindRun start
    accepted.1 accepted.2 (surjective_pairing accepted)).
Defined.

Lemma refusal_is_a_violation now fresh st sub :
  0 < now -> refuse now fresh st = ((refuse now fresh st).1, Ok sub) ->
  sub_Status sub = StatusBlocked ->
  violation (Some refusing) 0 user st (refuse now fresh st).1.
Proof.
  intros Hnow Hrun Hb. exists (env_at now fresh), 7%N, request, KindSubmit, sub.
  split; [exact Hrun |]. split; [done |]. split; [done |]. split; [done |].
  intros v vreq w [= <-] [= <-]. simpl. set_solver.
Qed.

Lemma refusal_runs now fresh st :
  match (refuse now fresh st).2 with Ok sub => bool_decide (sub_Status sub = StatusBlocked) | Err _ => false end = true ->
  0 < now -> violation (Some refusing) 0 user st (refuse now fresh st).1.
Proof.
  destruct (refuse now fresh st) as [st' [sub | e]] eqn:E; [| done]. simpl.
  intros Hb%bool_decide_eq_true Hnow. replace st' with (refuse now fresh st).1 by by rewrite E.
  apply refusal_is_a_violation with (sub := sub); [done | by rewrite E | done].
Qed.

Lemma three_violations_suspend_witness :
  nsteps (violation (Some refusing) 0 user) 3 start refused3 /\
  create (Some refusing) (env_at time_Minute 104%N) user 7%N request KindRun refused3 =
    (refused3, Err (Sentinel ErrExecutionSuspended)).
Proof.
  assert (nsteps (violation (Some refusing) 0 user) 3 start refused3) as H.
  { apply nsteps_l with refused1; [apply refusal_runs; [vm_compute; reflexivity | done] |].
    apply nsteps_l with refused2; [apply refusal_runs; [vm_compute; reflexivity | done] |].
    apply nsteps_l with refused3; [apply refusal_runs; [vm_compute; reflexivity | done] |].
    apply nsteps_O. }
  split; [exact H |].
  apply (three_violations_suspend (Some refusing) 0 user start refused3 H (env_at time_Minute 104%N) 7%N request KindRun).
  - reflexivity.
  - vm_compute. discriminate.
  - vm_compute. discriminate.
  - vm_compute. discriminate.
Defined.
