(* ===== verification/SubViewTheorems.v ===== *)
(** * Submissions: what a reader is shown

    Theorems on [GetSubmission]: who may read a submission, which outputs of
    a result are shown, and that a result is settled once. *)

From S2P Require Import Prelude Sql GoStrings CPDomain CPHttp Driver.
From S2P Require Import SubRepo SubService SubTheorems.

(** ** Reading a submission *)

Section View.
Context `{EntryJSON} (ai : option AIValidator).

Lemma enrichResult_readonly env p res : readonly (enrichResult env p res).
Proof.
  intros db. unfold enrichResult. destruct (sres_TestcaseResults res) as [| e es]; [done |].
  pose proof (GetTestCases_readonly (shift_faults 7 (ve_io env)) (ve_tie env) p db) as E.
  by destruct (GetTestCasesForProblem _ _ _ db) as [db' [tcs | er]].
Qed.

(** The active test cases of a problem, as the repository returns them. *)
Definition active_cases (env : view_env) (p : uuid) (db : subdb) : list ProblemTestCase :=
  order_by (by_order_index (ve_tie env)) (select_where (active_case p) (sd_test_cases db)).

Lemma enrichResult_spec env p res db :
  ve_io env 7%nat = None ->
  enrichResult env p res db =
    (db, Ok (with_entries (enrich_entry (tc_map (active_cases env p db)) <$> sres_TestcaseResults res) res)).
Proof.
  intros Hio. unfold enrichResult. destruct res as [sid v t m w c es cr]; simpl.
  destruct es as [| e es]; [done |].
  unfold GetTestCasesForProblem, statement, shift_faults. simpl. by rewrite Hio.
Qed.

Lemma get_terminal_readonly env sub : readonly (get_terminal ai env sub).
Proof.
  apply readonly_bind; [auto with capstone |]. intros [res | e].
  - apply readonly_bind; [apply enrichResult_readonly |]. done.
  - by destruct (errors_Is _ _).
Qed.

Lemma attach_fields sub :
  sub_Result (attachValidation ai sub) = sub_Result sub /\
  sub_Status (attachValidation ai sub) = sub_Status sub /\
  sub_ID (attachValidation ai sub) = sub_ID sub.
Proof. unfold attachValidation. by repeat case_match. Qed.

(** *** The map of test cases *)

Lemma tc_map_lookup tcs x tc : tc_map tcs !! x = Some tc -> tc ∈ tcs /\ pt_ExternalID tc = x.
Proof.
  unfold tc_map. induction tcs as [| t tcs IH] using rev_ind; [done |].
  rewrite foldl_snoc, lookup_insert. case_decide as E; [intros [= <-]; set_solver |].
  intros Hx. apply IH in Hx. set_solver.
Qed.

Lemma tc_map_found tcs tc :
  tc ∈ tcs -> (forall tc', tc' ∈ tcs -> pt_ExternalID tc' = pt_ExternalID tc -> tc' = tc) ->
  tc_map tcs !! pt_ExternalID tc = Some tc.
Proof.
  intros Hin Huniq. destruct (tc_map tcs !! pt_ExternalID tc) as [tc' |] eqn:E.
  - apply tc_map_lookup in E as [Hin' E]. by rewrite (Huniq tc').
  - exfalso. revert E Hin. unfold tc_map. clear Huniq.
    induction tcs as [| t tcs IH] using rev_ind; [by intros _ ?%not_elem_of_nil |].
    rewrite foldl_snoc, lookup_insert. case_decide as Hd; [done |]. intros E Hin.
    apply IH; [done |]. apply elem_of_app in Hin as [Hin | ->%list_elem_of_singleton]; [done |].
    by destruct Hd.
Qed.

(** UNIQUE (problem_id, external_id) *)
Definition unique_cases (db : subdb) : Prop := forall k k' tc tc',
  sd_test_cases db !! k = Some tc -> sd_test_cases db !! k' = Some tc' ->
  pt_ProblemID tc = pt_ProblemID tc' -> pt_ExternalID tc = pt_ExternalID tc' -> tc = tc'.

Definition is_active_case (db : subdb) (p : uuid) (tc : ProblemTestCase) : Prop :=
  (exists k, sd_test_cases db !! k = Some tc) /\ pt_ProblemID tc = p /\ pt_IsActive tc = true.

Lemma elem_of_active_cases env p db tc : tc ∈ active_cases env p db <-> is_active_case db p tc.
Proof.
  unfold active_cases, is_active_case, active_case.
  rewrite elem_of_order_by, elem_of_select_where, andb_true_iff, bool_decide_eq_true. tauto.
Qed.

(** What a caller may see of a result's entry: the outputs of visible active
    test cases only, and then with the case's data. *)
Definition protected_entry (db : subdb) (p : uuid) (e : TestcaseResultEntry) : Prop :=
  (te_ActualOutput e <> None \/ te_StdoutOutput e <> None ->
   exists tc, is_active_case db p tc /\ pt_ExternalID tc = te_TestcaseID e /\
     pt_IsHidden tc = false /\ te_InputData e = Some (pt_InputData tc) /\
     te_ExpectedData e = Some (pt_ExpectedData tc)) /\
  (forall tc, unique_cases db -> is_active_case db p tc -> pt_ExternalID tc = te_TestcaseID e ->
     pt_IsHidden tc = true -> te_ActualOutput e = None /\ te_StdoutOutput e = None).

Lemma enrich_protected env p db e :
  protected_entry db p (enrich_entry (tc_map (active_cases env p db)) e).
Proof.
  unfold enrich_entry. destruct (tc_map _ !! te_TestcaseID e) as [tc |] eqn:E.
  - apply tc_map_lookup in E as [Hin Hid]. apply elem_of_active_cases in Hin.
    destruct (pt_IsHidden tc) eqn:Eh.
    + split; simpl; [by intros [[] | []] | done].
    + split; simpl.
      * intros _. by exists tc.
      * intros tc' Hu Hin' Hid' Hh. exfalso.
        destruct Hin as ((k & Hk) & Hp & _), Hin' as ((k' & Hk') & Hp' & _).
        assert (tc = tc') as -> by (apply (Hu k k'); congruence). congruence.
  - split; simpl; [by intros [[] | []] | done].
Qed.

Lemma protected_cases db db' p e :
  sd_test_cases db' = sd_test_cases db -> protected_entry db' p e -> protected_entry db p e.
Proof. unfold protected_entry, is_active_case, unique_cases. by intros ->. Qed.

(** *** What changes on the way *)

Lemma SaveResult_cases io now res s db :
  sd_test_cases (SaveResult io now res s db).1 = sd_test_cases db.
Proof.
  unfold SaveResult. destruct (json_Marshal_entries _) as [t | e]; [| done].
  unfold transaction, mbind, M_bind, mret, M_ret, statement, insert_result, set_status.
  repeat case_match; simplify_eq; done.
Qed.

Lemma refresh_cases env sub job :
  sub_Result sub = None ->
  forall db db' r, refresh ai env sub job db = (db', r) ->
  exists sub', r = Ok sub' /\ sd_test_cases db' = sd_test_cases db /\
    forall res, sub_Result sub' = Some res -> ve_io env 7%nat = None ->
      exists res0, sres_TestcaseResults res =
        enrich_entry (tc_map (active_cases env (sub_ProblemID sub) db)) <$> res0.
Proof.
  intros Hnone db db' r. unfold refresh. unfold mbind at 1, M_bind at 1.
  set (m1 := if bool_decide (_ = sub_Status sub) then _ else _).
  assert (exists db1, m1 db = (db1, Ok tt) /\ sd_test_cases db1 = sd_test_cases db)
    as (db1 & -> & H1).
  { unfold m1. destruct (bool_decide _); [by exists db |]. eexists. split; [reflexivity |].
    apply (q_cases _ _ _ (quiet_UpdateStatus _ _ _ db)). }
  set (sub1 := sub_with_status _ sub).
  destruct (_ || _).
  2: { intros [= <- <-]. eexists. split; [reflexivity |]. split; [done |].
       destruct (attach_fields sub1) as [-> _]. simpl. rewrite Hnone. done. }
  destruct (CPClient_GetJobResult _ _) as [jr | e].
  2: { intros [= <- <-]. eexists. split; [reflexivity |]. split; [done |].
       destruct (attach_fields sub1) as [-> _]. simpl. rewrite Hnone. done. }
  unfold settle. unfold mbind at 1, M_bind at 1.
  set (m2 := if bool_decide _ then _ else _).
  assert (exists db2, m2 db1 = (db2, Ok tt) /\ sd_test_cases db2 = sd_test_cases db)
    as (db2 & -> & H2).
  { unfold m2. destruct (bool_decide (jr_OverallVerdict jr = _)); [| by exists db1].
    eexists. split; [reflexivity |].
    rewrite <- H1.
    apply (q_cases _ _ _ (quiet_LogSecurityEvent _ _ (sub_ID sub) _ _ _ _ db1)). }
  unfold ignore at 1, mbind at 1, M_bind at 1.
  set (db3 := (SaveResult _ _ _ _ db2).1).
  assert (sd_test_cases db3 = sd_test_cases db) as H3 by (unfold db3; by rewrite SaveResult_cases).
  unfold mbind, M_bind.
  pose proof (enrichResult_readonly env (sub_ProblemID sub1) (cpResultToSubmissionResult (sub_ID sub1) jr) db3) as Hro.
  destruct (enrichResult env (sub_ProblemID sub1) _ db3) as [db4 re] eqn:Ee. simpl in Hro. subst db4.
  assert (exists res, re = Ok res) as [res ->].
  { revert Ee. unfold enrichResult. destruct (sres_TestcaseResults _); [by intros [= <-]; eauto |].
    destruct (GetTestCasesForProblem _ _ _ db3) as [? [? | ?]]; intros [= _ <-]; eauto. }
  intros [= <- <-]. eexists. split; [reflexivity |]. split; [done |].
  destruct (attach_fields (with_result (Some res)
    (sub_with_status (verdictToStatus (jr_OverallVerdict jr)) sub1))) as [-> _].
  simpl. intros res' [= <-] Hio. rewrite enrichResult_spec in Ee by done. injection Ee as <-.
  simpl. exists (entry_of_tc <$> jr_TestcaseResults jr). unfold active_cases. by rewrite H3.
Qed.

Lemma GetByID_ok io id db sub :
  GetByID io id db = (db, Ok sub) ->
  exists row key, sd_submissions db !! id = Some row /\ sub = submission_of row key.
Proof.
  intros [_ E]%statement_ok. destruct (sd_submissions db !! id) as [row |]; [| done].
  destruct (sd_languages db !! sr_LanguageID row) as [l |]; [| done].
  injection E as <-. eauto.
Qed.

Lemma enriched_protected env db p res es :
  sres_TestcaseResults res = enrich_entry (tc_map (active_cases env p db)) <$> es ->
  Forall (protected_entry db p) (sres_TestcaseResults res).
Proof. intros ->. apply Forall_fmap, Forall_true. intros e. apply enrich_protected. Qed.

(** C22. A submission is shown to its owner and to administrators only:
    whatever fails, anyone else gets an error and leaves the database alone.
    And when the test cases can be read, every entry of the result that is
    shown carries an actual output only for a visible active test case of the
    problem, together with that case's data; the outputs of a hidden one are
    removed. *)
Theorem submission_view_is_protected (env : view_env) (id callerUserID : uuid)
    (callerIsAdmin : bool) (db db' : subdb) (r : result sub_error Submission)
    (Hrun : GetSubmission ai env id callerUserID callerIsAdmin db = (db', r)) :
  match r with
  | Ok sub =>
      exists row, sd_submissions db !! id = Some row /\
        (sr_UserID row = callerUserID \/ callerIsAdmin = true) /\
        (ve_io env 7%nat = None -> forall res, sub_Result sub = Some res ->
           Forall (protected_entry db (sr_ProblemID row)) (sres_TestcaseResults res))
  | Err e =>
      db' = db /\
      forall row, sd_submissions db !! id = Some row -> sr_UserID row <> callerUserID ->
        callerIsAdmin = false -> ve_io env 0%nat = None ->
        is_Some (sd_languages db !! sr_LanguageID row) -> e = Sentinel ErrForbidden
  end.
Proof.
  revert Hrun. unfold GetSubmission. unfold mbind at 1, M_bind at 1.
  pose proof (GetByID_readonly (ve_io env) id db) as Hro.
  destruct (GetByID (ve_io env) id db) as [db1 [sub | e]] eqn:Eget; simpl in Hro; subst db1.
  2: { intros [= <- <-]. split; [done |]. intros row Hrow _ _ Hio [l Hl]. exfalso.
       unfold GetByID, statement in Eget. rewrite Hio, Hrow, Hl in Eget. done. }
  destruct (GetByID_ok _ _ _ _ Eget) as (row & key & Hrow & ->). cbn [sub_UserID submission_of].
  destruct (negb _ && negb _) eqn:Eacc.
  { intros [= <- <-]. split; [done |]. done. }
  assert (sr_UserID row = callerUserID \/ callerIsAdmin = true) as Hacc.
  { apply andb_false_iff in Eacc as [E | E]; apply negb_false_iff in E;
      [left; by apply bool_decide_eq_true in E | by right]. }
  assert (sr_UserID row <> callerUserID -> callerIsAdmin = false -> False) as Hno by naive_solver.
  assert (forall e' : sub_error, (db, Err (A := Submission) e') = (db', r) ->
    r = Err e' /\ db' = db) as Herr by (by intros e' [= <- <-]).
  destruct (IsTerminal _).
  - intros Hrun. pose proof (get_terminal_readonly env (submission_of row key) db) as Ht.
    rewrite Hrun in Ht. simpl in Ht. subst db'. clear Herr. destruct r as [sub' | e].
    + exists row. do 2 (split; [done |]). intros Hio res Hres.
      apply bind_ok in Hrun as (db1 & x & H1 & H2). unfold attempt in H1.
      pose proof (GetResult_readonly (shift_faults 1 (ve_io env)) (sub_ID (submission_of row key)) db) as Hg.
      destruct (GetResult _ _ db) as [db2 y]. simpl in Hg. subst db2. injection H1 as <- <-.
      destruct y as [res0 | e].
      * unfold mbind, M_bind in H2. rewrite enrichResult_spec in H2 by done. injection H2 as <-.
        destruct (attach_fields (with_result (Some (with_entries
          (enrich_entry (tc_map (active_cases env (sr_ProblemID row) db)) <$> sres_TestcaseResults res0)
          res0)) (submission_of row key))) as [E _].
        simpl in E. rewrite Hres in E. injection E as ->. by eapply enriched_protected.
      * destruct (errors_Is _ _); [| done]. injection H2 as <-.
        destruct (attach_fields (with_result None (submission_of row key))) as [E _].
        rewrite Hres in E. done.
    + split; [done |]. intros row' Hrow'. rewrite Hrow in Hrow'. injection Hrow' as <-.
      intros. exfalso. by apply Hno.
  - destruct (CPClient_GetJobBySubmission _ _) as [job | e].
    + intros Hrun. destruct (refresh_cases env (submission_of row key) job eq_refl db db' r Hrun)
        as (sub' & -> & _ & Hres).
      exists row. do 2 (split; [done |]). intros Hio res E. destruct (Hres res E Hio) as [es Hes].
      by eapply enriched_protected.
    + intros [= <- <-]. exists row. do 2 (split; [done |]). intros Hio res E.
      destruct (attach_fields (submission_of row key)) as [E' _]. rewrite E in E'. done.
Qed.

(** *** Results are settled once *)

Lemma verdict_terminal v : IsTerminal (verdictToStatus v) = true.
Proof. unfold verdictToStatus. cbn [switch]. by repeat (destruct (bool_decide _); [done |]). Qed.

(** The answer of the service when the job is over, nothing fails, and no
    result was stored before. *)
Record settles (env : view_env) (db : subdb) (id : uuid) (row : sub_row) (l : language_row)
    (jr : JobResult) (text : string) : Prop := {
  se_io : forall n, ve_io env n = None;
  se_row : sd_submissions db !! id = Some row;
  se_id : sr_ID row = id;
  se_language : sd_languages db !! sr_LanguageID row = Some l;
  se_open : IsTerminal (sr_Status row) = false;
  se_new : sd_results db !! id = None;
  se_job : exists job, CPClient_GetJobBySubmission (ve_bad_request env) (ve_job env) = Ok job /\
    j_State job = JobStateCompleted;
  se_result : CPClient_GetJobResult (ve_bad_request env) (ve_job_result env) = Ok jr;
  se_int : int4_ok_result (cpResultToSubmissionResult id jr) = true;
  se_marshal : json_Marshal_entries (entry_of_tc <$> jr_TestcaseResults jr) = Ok text
}.

Definition shown_result (env : view_env) (db : subdb) (row : sub_row) (jr : JobResult)
    (created : Z) : SubmissionResult :=
  let r := cpResultToSubmissionResult (sr_ID row) jr in
  mkSubmissionResult (sr_ID row) (sres_OverallVerdict r) (sres_TotalTimeMs r) (sres_MaxMemoryKb r)
    (sres_WallTimeMs r) (sres_CompilerOutput r)
    (enrich_entry (tc_map (active_cases env (sr_ProblemID row) db)) <$> sres_TestcaseResults r)
    created.

Definition result_row_of (env : view_env) (jr : JobResult) (text : string) : sres_row :=
  mkSresRow (jr_OverallVerdict jr) (jr_TotalTimeMs jr) (jr_MaxMemoryKb jr) (jr_WallTimeMs jr)
    (jr_CompilerOutput jr) text (ve_now env).

Lemma SaveResult_ok env db id row jr text s :
  (forall n, ve_io env n = None) -> sd_submissions db !! id = Some row -> sd_results db !! id = None ->
  int4_ok_result (cpResultToSubmissionResult id jr) = true ->
  json_Marshal_entries (entry_of_tc <$> jr_TestcaseResults jr) = Ok text ->
  SaveResult (shift_faults 3 (ve_io env)) (ve_now env) (cpResultToSubmissionResult id jr) s db =
  (set_submissions (set_results db (<[id := result_row_of env jr text]> (sd_results db)))
     (<[id := with_status s row]> (sd_submissions db)), Ok tt).
Proof.
  intros Hio Hrow Hnone Hint Hm. unfold SaveResult.
  change (sres_TestcaseResults (cpResultToSubmissionResult id jr))
    with (entry_of_tc <$> jr_TestcaseResults jr). rewrite Hm.
  unfold transaction, mbind, M_bind, mret, M_ret, statement, shift_faults. rewrite !Hio.
  unfold insert_result. cbn [sres_SubmissionID cpResultToSubmissionResult].
  rewrite Hint, bool_decide_eq_true_2 by (by rewrite Hrow). cbn [andb]. rewrite Hnone.
  unfold set_status. cbn [sd_submissions set_results].
  rewrite (update_key_hit _ _ _ _ row) by done. done.
Qed.

(** One more reading, once the row is final and the result stored. *)
Lemma view_settled env db id caller admin row l w es :
  (forall n, ve_io env n = None) -> sd_submissions db !! id = Some row -> sr_ID row = id ->
  sd_languages db !! sr_LanguageID row = Some l -> IsTerminal (sr_Status row) = true ->
  sr_UserID row = caller \/ admin = true ->
  sd_results db !! id = Some w -> json_Unmarshal_entries (sw_TestcaseResults w) = Ok es ->
  GetSubmission ai env id caller admin db =
    (db, Ok (attachValidation ai (with_result (Some (with_entries
       (enrich_entry (tc_map (active_cases env (sr_ProblemID row) db)) <$> es)
       (mkSubmissionResult id (sw_OverallVerdict w) (sw_TotalTimeMs w) (sw_MaxMemoryKb w)
          (sw_WallTimeMs w) (sw_CompilerOutput w) es (sw_CreatedAt w))))
       (submission_of row (lr_Key l))))).
Proof.
  intros Hio Hrow Hid Hl Hterm Hacc Hw Hes. unfold GetSubmission, GetByID, mbind, M_bind.
  rewrite statement_none by done. rewrite Hrow, Hl. cbn [sub_UserID sub_Status submission_of].
  assert (negb (bool_decide (sr_UserID row = caller)) && negb admin = false) as ->.
  { destruct Hacc as [-> | ->]; [by rewrite bool_decide_eq_true_2 | by rewrite andb_false_r]. }
  rewrite Hterm. unfold get_terminal, mbind, M_bind, attempt, GetResult.
  rewrite statement_none by apply Hio. cbn [sub_ID submission_of]. rewrite Hid, Hw, Hes.
  cbn [sub_ProblemID submission_of]. rewrite enrichResult_spec by done. done.
Qed.

Lemma GetSubmission_terminal_readonly env db id caller admin row :
  sd_submissions db !! id = Some row -> IsTerminal (sr_Status row) = true ->
  (GetSubmission ai env id caller admin db).1 = db.
Proof.
  intros Hrow Hterm. unfold GetSubmission, mbind, M_bind.
  pose proof (GetByID_readonly (ve_io env) id db) as Hro.
  destruct (GetByID (ve_io env) id db) as [db1 [sub | e]] eqn:E; simpl in Hro; subst; [| done].
  destruct (GetByID_ok _ _ _ _ E) as (row' & key & Hrow' & ->).
  rewrite Hrow in Hrow'. injection Hrow' as <-. cbn [sub_Status submission_of].
  destruct (negb _ && negb _); [done |]. rewrite Hterm. apply get_terminal_readonly.
Qed.

Lemma settle_run env db row l jr text s key :
  let id := sr_ID row in
  settles env db id row l jr text ->
  exists db',
    settle ai env (sub_with_status s (submission_of row key)) jr
      (set_submissions db (<[id := with_status s row]> (sd_submissions db))) =
      (db', Ok (attachValidation ai (with_result (Some (shown_result env db row jr zero_time))
         (sub_with_status (verdictToStatus (jr_OverallVerdict jr)) (submission_of row key))))) /\
    sd_submissions db' !! id = Some (with_status (verdictToStatus (jr_OverallVerdict jr)) row) /\
    sd_results db' !! id = Some (result_row_of env jr text) /\
    sd_languages db' = sd_languages db /\ sd_test_cases db' = sd_test_cases db.
Proof.
  intros id Hs. set (db0 := set_submissions _ _). unfold settle. unfold mbind at 1, M_bind at 1.
  set (m := if bool_decide (jr_OverallVerdict jr = _) then _ else _).
  assert (exists db1, m db0 = (db1, Ok tt) /\ quiet id db0 db1) as (db1 & -> & Hq).
  { unfold m. destruct (bool_decide (jr_OverallVerdict jr = _));
      [| exists db0; split; [done | apply quiet_refl]].
    eexists. split; [reflexivity |]. apply quiet_LogSecurityEvent. }
  destruct (q_row _ _ _ Hq (with_status s row)) as [s1 Hrow1]; [simpl; by rewrite lookup_insert_eq |].
  unfold ignore, mbind, M_bind. cbn [sub_ID sub_with_status submission_of].
  rewrite (SaveResult_ok env db1 id (with_status s1 (with_status s row)) jr text);
    [| apply Hs | done | rewrite (q_results _ _ _ Hq); apply Hs | apply Hs | apply Hs].
  cbn [fst]. rewrite enrichResult_spec by apply Hs.
  eexists. split; [| split; [| split; [| split]]]; simpl.
  - do 4 f_equal. unfold shown_result, active_cases. simpl.
    rewrite (q_cases _ _ _ Hq). done.
  - simpl. by rewrite lookup_insert_eq.
  - simpl. by rewrite lookup_insert_eq.
  - simpl. by rewrite (q_languages _ _ _ Hq).
  - simpl. by rewrite (q_cases _ _ _ Hq).
Qed.

(** C23. A result is settled once: when the job has completed and nothing
    fails, the first reading stores the result, moves the submission to the
    verdict's status, which is final, and shows the entries; every later
    reading, given that the entries' JSON reads back as what was written,
    shows the same verdict, figures and entries (its creation time is the
    row's, the first one's is zero), and no later reading, whatever it meets,
    changes the database. *)
Theorem results_are_settled_once (env env2 : view_env) (db : subdb) (id caller : uuid)
    (admin : bool) (row : sub_row) (l : language_row) (jr : JobResult) (text : string)
    (Hs : settles env db id row l jr text)
    (Hacc : sr_UserID row = caller \/ admin = true)
    (Hjson : json_Unmarshal_entries text = Ok (entry_of_tc <$> jr_TestcaseResults jr))
    (Hio2 : forall n, ve_io env2 n = None) (Htie : ve_tie env2 = ve_tie env) :
  exists db' sub sub2,
    GetSubmission ai env id caller admin db = (db', Ok sub) /\
    sub_Status sub = verdictToStatus (jr_OverallVerdict jr) /\ IsTerminal (sub_Status sub) = true /\
    sub_Result sub = Some (shown_result env db row jr zero_time) /\
    GetSubmission ai env2 id caller admin db' = (db', Ok sub2) /\
    sub_Status sub2 = sub_Status sub /\
    sub_Result sub2 = Some (shown_result env db row jr (ve_now env)) /\
    forall env3 caller3 admin3, (GetSubmission ai env3 id caller3 admin3 db').1 = db'.
Proof.
  destruct (se_job _ _ _ _ _ _ _ Hs) as (job & Hjob & Hdone).
  pose proof (se_id _ _ _ _ _ _ _ Hs) as Hid. symmetry in Hid. subst id.
  destruct (settle_run env db row l jr text StatusRunning (lr_Key l) Hs)
    as (db' & Hset & Hrow' & Hres' & Hlang' & Hcases').
  assert (GetSubmission ai env (sr_ID row) caller admin db =
    (db', Ok (attachValidation ai (with_result (Some (shown_result env db row jr zero_time))
      (sub_with_status (verdictToStatus (jr_OverallVerdict jr)) (submission_of row (lr_Key l)))))))
    as Hrun.
  { rewrite <- Hset. unfold GetSubmission, GetByID. unfold mbind at 1, M_bind at 1.
    rewrite statement_none by apply Hs.
    rewrite (se_row _ _ _ _ _ _ _ Hs), (se_language _ _ _ _ _ _ _ Hs).
    cbn [sub_UserID sub_Status submission_of].
    assert (negb (bool_decide (sr_UserID row = caller)) && negb admin = false) as ->.
    { destruct Hacc as [-> | ->]; [by rewrite bool_decide_eq_true_2 | by rewrite andb_false_r]. }
    rewrite (se_open _ _ _ _ _ _ _ Hs), Hjob. unfold refresh. rewrite Hdone.
    unfold mbind at 1, M_bind at 1. cbn [jobStateToStatus sub_Status submission_of].
    rewrite (bool_decide_eq_true_2 (JobStateCompleted = JobStateCompleted)) by done.
    cbn [orb]. rewrite (se_result _ _ _ _ _ _ _ Hs).
    case_bool_decide as Eq.
    - unfold mret, M_ret. f_equal. pose proof (se_row _ _ _ _ _ _ _ Hs) as Hrow.
      rewrite Eq, with_status_same, insert_id by done. by destruct db.
    - unfold ignore, UpdateStatus. rewrite statement_none by apply Hs.
      unfold set_status. cbn [fst sub_ID submission_of].
      by rewrite (update_key_hit _ _ _ _ row) by (done || apply Hs). }
  eexists db', _, _. split; [exact Hrun |].
  edestruct attach_fields as (E1 & E2 & _). rewrite E1, E2. cbn [sub_Status with_result sub_with_status].
  split; [done |]. split; [apply verdict_terminal |]. split; [done |]. split; [| split; [| split]].
  - apply view_settled with (es := entry_of_tc <$> jr_TestcaseResults jr)
      (w := result_row_of env jr text) (l := l)
      (row := with_status (verdictToStatus (jr_OverallVerdict jr)) row); try done.
    + rewrite Hlang'. apply Hs.
    + apply verdict_terminal.
  - edestruct attach_fields as (_ & -> & _). done.
  - edestruct attach_fields as (-> & _). simpl. unfold shown_result, active_cases.
    rewrite Htie, Hcases'. done.
  - intros env3 c3 a3. eapply GetSubmission_terminal_readonly; [exact Hrow' | apply verdict_terminal].
Qed.
End View.

(** ** Witnesses and examples *)

Module ViewWitness.
Import SubWitness.

(** A submission that is running; its job has completed on both test cases. *)
Definition owner : uuid := 42%N.
Definition example_row : sub_row :=
  mkSubRow 100%N owner 7%N 1%N (Some "def add(a, b): return a + b") StatusRunning KindSubmit None 0.

Definition view_db : subdb :=
  mkSubDb {[100%N := example_row]} ∅ (sd_languages db0) (sd_problem_languages db0)
    (sd_test_cases db0) [].

Definition tc_result (name out : string) : TestcaseResult :=
  mkTestcaseResult name "Accepted" (Some 3) None (Some out) None None.

Definition job_result (verdict : string) : JobResult :=
  mkJobResult 500%N verdict (Some 6) None None None
    [tc_result "sample" "3"; tc_result "secret" "11"] 0.

Definition completed_job : Job :=
  mkJob 500%N 100%N "python" (Some "") None None 1000 256 [] JobStateCompleted (Some "w1") None 0 3
    None 0 None None None.

Definition env_with (io : faults) (verdict : string) : view_env :=
  mkViewEnv io (5 * time_Second) (fun _ _ => true) None
    (Reply (mkResponse StatusOK (JobBody completed_job)))
    (Reply (mkResponse StatusOK (ResultBody (job_result verdict)))).

Definition entries : list TestcaseResultEntry :=
  entry_of_tc <$> jr_TestcaseResults (job_result "Accepted").

(** A JSON that is right on the entries of the example. *)
Definition entries_json : EntryJSON :=
  {| json_Marshal_entries es := if decide (es = entries) then Ok "entries" else Err "unknown";
     json_Unmarshal_entries s := if decide (s = "entries") then Ok entries else Err "unknown" |}.

#[export] Existing Instance entries_json.

Definition first_view : subdb * result sub_error Submission :=
  GetSubmission None (env_with no_faults "Accepted") 100%N owner false view_db.

Definition outputs (r : result sub_error Submission) : list (option string) :=
  match r with
  | Ok sub =>
      match sub_Result sub with
      | Some res => te_ActualOutput <$> sres_TestcaseResults res
      | None => []
      end
  | Err _ => []
  end.

(** Statement [n] fails. *)
Definition failing (n : nat) : faults := fun k => if (k =? n)%nat then Some "timeout" else None.
End ViewWitness.

Import ViewWitness.

(** The hidden test case's output is removed from the owner's view... *)
Example hidden_output_is_removed : outputs first_view.2 = [Some "3"; None].
Proof. vm_compute. reflexivity. Qed.

(** ...but when the test cases cannot be read the result is returned as it
    came from the worker, hidden outputs included. *)
Lemma hidden_output_leaks_when_cases_are_unreadable :
  outputs (GetSubmission None (env_with (failing 7) "Accepted") 100%N owner false view_db).2 =
  [Some "3"; Some "11"].
Proof. vm_compute. reflexivity. Qed.

(** One sandbox violation is recorded once per reading until a result can be
    saved: here the entries do not go through the result's transaction. *)
Lemma one_violation_is_logged_per_reading :
  let env := env_with (failing 4) "SandboxViolation" in
  let db1 := (GetSubmission None env 100%N owner false view_db).1 in
  let db2 := (GetSubmission None env 100%N owner false db1).1 in
  let db3 := (GetSubmission None env 100%N owner false db2).1 in
  violations db3 owner 0 = 3%nat.
Proof. vm_compute. reflexivity. Qed.

Lemma submission_view_is_protected_witness :
  GetSubmission None (env_with no_faults "Accepted") 100%N owner false view_db =
    (first_view.1, first_view.2) /\
  match first_view.2 with
  | Ok sub =>
      exists row, sd_submissions view_db !! 100%N = Some row /\
        (sr_UserID row = owner \/ false = true) /\
        (ve_io (env_with no_faults "Accepted") 7%nat = None ->
         forall res, sub_Result sub = Some res ->
           Forall (protected_entry view_db (sr_ProblemID row)) (sres_TestcaseResults res))
  | Err e =>
      first_view.1 = view_db /\
      forall row, sd_submissions view_db !! 100%N = Some row -> sr_UserID row <> owner ->
        false = false -> ve_io (env_with no_faults "Accepted") 0%nat = None ->
        is_Some (sd_languages view_db !! sr_LanguageID row) -> e = Sentinel ErrForbidden
  end.
Proof.
  split; [exact (surjective_pairing first_view) |].
  exact (submission_view_is_protected None (env_with no_faults "Accepted") 100%N owner false view_db
    first_view.1 first_view.2 (surjective_pairing first_view)).
Defined.

Lemma example_settles :
  settles (env_with no_faults "Accepted") view_db 100%N example_row (mkLanguageRow "python" true)
    (job_result "Accepted") "entries".
Proof.
  split; try reflexivity. by exists completed_job.
Qed.

Lemma results_are_settled_once_witness :
  exists db' sub sub2,
    GetSubmission None (env_with no_faults "Accepted") 100%N owner false view_db = (db', Ok sub) /\
    sub_Status sub = StatusAccepted /\ IsTerminal (sub_Status sub) = true /\
    sub_Result sub = Some (shown_result (env_with no_faults "Accepted") view_db example_row
                             (job_result "Accepted") zero_time) /\
    GetSubmission None (env_with no_faults "") 100%N owner false db' = (db', Ok sub2) /\
    sub_Status sub2 = sub_Status sub /\
    sub_Result sub2 = Some (shown_result (env_with no_faults "Accepted") view_db example_row
                              (job_result "Accepted") (5 * time_Second)) /\
    forall env3 caller3 admin3, (GetSubmission None env3 100%N caller3 admin3 db').1 = db'.
Proof.
  apply (results_are_settled_once None (env_with no_faults "Accepted") (env_with no_faults "")
    view_db 100%N owner false example_row (mkLanguageRow "python" true) (job_result "Accepted")
    "entries").
  - exact example_settles.
  - left. reflexivity.
  - reflexivity.
  - reflexivity.
  - reflexivity.
Defined.
