(* ===== verification/SubHttp.v ===== *)
(** * Submissions: HTTP

    The handlers of [internal/api/submissions/http], and what the endpoints
    answer. *)

From S2P Require Import Prelude Sql GoStrings CPHttp ApiHttp.
From S2P Require Import SubRepo SubService SubTheorems.

Inductive submissions_data :=
  | SubmissionBody (sub : Submission)
  | SubmissionsBody (submissions : list Submission) (total limit offset : Z).

Abbreviation sub_response := (api_response submissions_data).

(** ** Handlers *)

Section Handlers.
Context `{GoUnicode} `{EntryJSON} (aiValidator : option AIValidator).

(** The error answers of [Submit] and [Run]; they differ in the last text. *)
Definition create_error (failed : string) (err : sub_error) : sub_response :=
  if errors_Is err ErrExecutionSuspended then
    RespondError StatusTooManyRequests err (error_text err)
  else if errors_Is err ErrInvalidInput then RespondError StatusBadRequest err "invalid input"
  else if errors_Is err ErrProblemNotFound then
    RespondSimpleError StatusNotFound "problem not found"
  else if errors_Is err ErrLanguageNotFound || errors_Is err ErrLanguageNotAllowed ||
          errors_Is err ErrNoTestCases then
    RespondError StatusUnprocessableEntity err (error_text err)
  else RespondError StatusInternalServerError err failed.

Definition create_handler (kind : SubmissionKind) (failed : string) (env : create_env) (c : caller)
    (problemID : option uuid) (req : option CreateSubmissionRequest) (st : api)
  : api * sub_response :=
  match c_UserID c with
  | None => (st, RespondSimpleError StatusUnauthorized "unauthorized")
  | Some userID =>
      match problemID with
      | None => (st, RespondSimpleError StatusBadRequest "invalid problem id")
      | Some problemID =>
          match req with
          | None => (st, RespondSimpleError StatusBadRequest "invalid request body")
          | Some req =>
              match create aiValidator env userID problemID req kind st with
              | (st', Err err) => (st', create_error failed err)
              | (st', Ok sub) => (st', RespondJSON StatusCreated (SubmissionBody sub))
              end
          end
      end
  end.

Definition Submit_handler := create_handler KindSubmit "failed to create submission".
Definition Run_handler := create_handler KindRun "failed to create run".

Definition GetSubmission_handler (env : view_env) (c : caller) (id : option uuid) (db : subdb)
  : subdb * sub_response :=
  match c_UserID c with
  | None => (db, RespondSimpleError StatusUnauthorized "unauthorized")
  | Some userID =>
      match id with
      | None => (db, RespondSimpleError StatusBadRequest "invalid submission id")
      | Some id =>
          let isAdmin := CheckPermissionInContext c SubmissionsViewAll in
          match GetSubmission aiValidator env id userID isAdmin db with
          | (db', Ok sub) => (db', RespondJSON StatusOK (SubmissionBody sub))
          | (db', Err err) =>
              (db',
               if errors_Is err ErrSubmissionNotFound then
                 RespondSimpleError StatusNotFound "submission not found"
               else if errors_Is err ErrForbidden then
                 RespondSimpleError StatusForbidden "access denied"
               else RespondError StatusInternalServerError err "failed to get submission")
          end
      end
  end.

(** A query parameter that is absent, malformed or out of bounds leaves the
    default. *)
Definition query_limit (v : string) : Z :=
  match Atoi v with Some n => if (0 <? n) && (n <=? 100) then n else 50 | None => 50 end.
Definition query_offset (v : string) : Z :=
  match Atoi v with Some n => if 0 <=? n then n else 0 | None => 0 end.

(** [problem_id] is what [uuid.Parse] makes of the parameter, if anything. *)
Definition ListSubmissions_handler (io : faults) (tie : sub_row -> sub_row -> bool) (c : caller)
    (limit offset : string) (problem_id : option uuid) (db : subdb) : subdb * sub_response :=
  match c_UserID c with
  | None => (db, RespondSimpleError StatusUnauthorized "unauthorized")
  | Some userID =>
      let limit := query_limit limit in
      let offset := query_offset offset in
      match ListSubmissions aiValidator io tie (mkListFilters userID problem_id) limit offset db with
      | (db', Err err) =>
          (db', RespondError StatusInternalServerError err "failed to list submissions")
      | (db', Ok page) =>
          (db', RespondJSON StatusOK (SubmissionsBody page.1 page.2 limit offset))
      end
  end.
End Handlers.

(** ** What the endpoints answer *)

Section Endpoints.
Context `{GoUnicode} `{EntryJSON} (ai : option AIValidator).

Lemma query_limit_bounds v : 1 <= query_limit v <= 100.
Proof.
  unfold query_limit. destruct (Atoi v) as [n |]; [| lia].
  destruct (Z.ltb_spec 0 n), (Z.leb_spec n 100); simpl; lia.
Qed.

Lemma query_offset_bounds v : 0 <= query_offset v.
Proof.
  unfold query_offset. destruct (Atoi v) as [n |]; [| lia].
  destruct (Z.leb_spec 0 n); simpl; lia.
Qed.

(** The caller's submissions in the order of the page, on the whole list. *)
Definition all_listed (tie : sub_row -> sub_row -> bool) (filters : ListFilters) (db : subdb)
  : list Submission :=
  joined db (order_by (newest_first tie) (select_where (listed filters) (sd_submissions db))).

Lemma elem_of_joined db rs sub :
  sub ∈ joined db rs <->
  exists r l, r ∈ rs /\ sd_languages db !! sr_LanguageID r = Some l /\ sub = submission_of r (lr_Key l).
Proof.
  unfold joined. rewrite list_elem_of_omap. split.
  - intros (r & Hr & E). destruct (sd_languages db !! sr_LanguageID r) as [l |] eqn:El; [| done].
    simpl in E. injection E as <-. by exists r, l.
  - intros (r & l & Hr & El & ->). exists r. by rewrite El.
Qed.

Lemma elem_of_all_listed tie filters db sub :
  sub ∈ all_listed tie filters db <->
  exists k r l, sd_submissions db !! k = Some r /\ listed filters r = true /\
    sd_languages db !! sr_LanguageID r = Some l /\ sub = submission_of r (lr_Key l).
Proof.
  unfold all_listed. rewrite elem_of_joined. split.
  - intros (r & l & Hr & El & ->).
    apply elem_of_order_by, elem_of_select_where in Hr as (Hl & k & Hk). by exists k, r, l.
  - intros (k & r & l & Hk & Hl & El & ->). exists r, l. split; [| done].
    apply elem_of_order_by, elem_of_select_where. eauto.
Qed.

Lemma ListSubmissions_spec io tie filters limit offset db :
  1 <= limit <= 100 -> 0 <= offset ->
  (exists e, ListSubmissions ai io tie filters limit offset db = (db, Err e)) \/
  ListSubmissions ai io tie filters limit offset db =
    (db, Ok (attachValidation ai <$>
               take (Z.to_nat limit) (drop (Z.to_nat offset) (all_listed tie filters db)),
             Z.of_nat (count_where (listed filters) (sd_submissions db)))).
Proof.
  intros Hl Ho. unfold ListSubmissions.
  assert ((limit <=? 0) || (100 <? limit) = false) as -> by lia.
  assert (offset <? 0 = false) as -> by lia.
  unfold List_, mbind, M_bind, mret, M_ret, statement.
  destruct (io 0%nat); [by left; eauto |]. destruct (shift_faults 1 io 0%nat); [by left; eauto |].
  by right.
Qed.

Lemma attach_same sub :
  sub_UserID (attachValidation ai sub) = sub_UserID sub /\
  sub_Kind (attachValidation ai sub) = sub_Kind sub /\
  sub_ProblemID (attachValidation ai sub) = sub_ProblemID sub.
Proof. unfold attachValidation. by repeat case_match. Qed.

(** A page of submissions shows the caller's own: whatever the query
    says, the answer is an error or at most [limit] submissions, [limit]
    between 1 and 100, each a real submission (not a run) of the caller and
    of the problem asked for; the total is the number of all of them; and
    pages that follow each other cut one list, so none is shown twice or
    left out between them. *)
Theorem listing_shows_own_submissions (io : faults) (tie : sub_row -> sub_row -> bool)
    (userID : uuid) (perms : option (list string)) (limit offset : string)
    (problem_id : option uuid) (db : subdb) :
  let filters := mkListFilters userID problem_id in
  let '(db', resp) := ListSubmissions_handler ai io tie (mkCaller (Some userID) perms) limit offset
                        problem_id db in
  db' = db /\
  match resp_body resp with
  | Body (SubmissionsBody subs total lim off) =>
      resp_status resp = StatusOK /\ 1 <= lim <= 100 /\ 0 <= off /\ Z.of_nat (length subs) <= lim /\
      total = Z.of_nat (count_where (listed filters) (sd_submissions db)) /\
      (forall sub, sub ∈ subs -> sub_UserID sub = userID /\ sub_Kind sub = KindSubmit /\
         forall p, problem_id = Some p -> sub_ProblemID sub = p) /\
      exists before after,
        attachValidation ai <$> all_listed tie filters db = before ++ subs ++ after /\
        Z.of_nat (length before) = Z.min off (Z.of_nat (length (all_listed tie filters db)))
  | _ => resp_status resp = StatusInternalServerError
  end.
Proof.
  intros filters. pose proof (query_limit_bounds limit) as Hl.
  pose proof (query_offset_bounds offset) as Ho.
  unfold ListSubmissions_handler. cbn [c_UserID]. fold filters.
  destruct (ListSubmissions_spec io tie filters (query_limit limit) (query_offset offset) db Hl Ho)
    as [[e ->] | ->]; simpl; [done |].
  set (all := all_listed tie filters db). set (lim := query_limit limit) in *.
  set (off := query_offset offset) in *.
  split; [done |]. split; [done |]. split; [done |]. split; [done |]. split; [| split; [done | split]].
  - rewrite length_fmap, length_take. lia.
  - intros sub (s0 & -> & Hin)%list_elem_of_fmap.
    destruct (attach_same s0) as (-> & -> & ->).
    assert (s0 ∈ all) as Hall by (by eapply subseteq_drop, subseteq_take).
    apply elem_of_all_listed in Hall as (k & r & l & _ & Hlst & _ & ->). cbn.
    unfold listed in Hlst. rewrite !andb_true_iff, !bool_decide_eq_true in Hlst.
    destruct Hlst as [[-> ->] Hp]. split; [done |]. split; [done |].
    intros p ->. simpl in Hp. by apply bool_decide_eq_true in Hp.
  - exists (attachValidation ai <$> take (Z.to_nat off) all),
      (attachValidation ai <$> drop (Z.to_nat lim) (drop (Z.to_nat off) all)).
    split; [| rewrite length_fmap, length_take; lia].
    rewrite <- !fmap_app, take_drop, take_drop. done.
Qed.
End Endpoints.
