(* ===== verification/CatalogRepo.v ===== *)
(** * Catalogue: data and repositories

    [internal/api/problems/domain], [internal/api/problems/repository],
    [internal/api/tags/repository] and [internal/api/languages/repository]
    over the tables [problems], [problem_test_cases], [tags], [problem_tags],
    [languages], [problem_languages] and the columns of [submissions] their
    queries look at.  A value that the server cannot store (an INTEGER out of
    range, a label that its enumeration does not have, text that is no JSON)
    is rejected before any row is touched, then CHECK, UNIQUE and FOREIGN KEY
    constraints are. *)

From Stdlib Require Import SpecFloat.
From S2P Require Import Prelude GoStrings Sql Driver SubRepo.

(** ** Data *)

Definition VisibilityDraft : string := "draft".
Definition VisibilityPublished : string := "published".
Definition VisibilityArchived : string := "archived".
Definition DifficultyEasy : string := "easy".
Definition DifficultyMedium : string := "medium".
Definition DifficultyHard : string := "hard".

(** The labels of [PROBLEM_VISIBILITY] and [PROBLEM_DIFFICULTY]. *)
Definition visibilities : list string := [VisibilityDraft; VisibilityPublished; VisibilityArchived].
Definition difficulties : list string := [DifficultyEasy; DifficultyMedium; DifficultyHard].

(** [float64], as IEEE 754 binary64 computes it. *)
Definition float64 : Type := spec_float.
Definition float64_of_int (z : Z) : float64 := binary_normalize 53 1024 z 0 false.
Definition float64_div : float64 -> float64 -> float64 := SFdiv 53 1024.
Definition float64_mul : float64 -> float64 -> float64 := SFmul 53 1024.

Record Problem := mkProblem {
  pb_ID : uuid;
  pb_Slug : string;
  pb_Title : string;
  pb_Summary : string;
  pb_StatementMarkdown : string;
  pb_TimeLimitMs : Z;
  pb_MemoryLimitMb : Z;
  pb_TestsRef : string;
  pb_TestsHash : option string;
  pb_Visibility : string;
  pb_Difficulty : string;
  pb_CreatedByUserID : option uuid;
  pb_CreatedAt : Z;
  pb_UpdatedAt : Z;
  pb_Tags : list string;
  pb_AcceptanceRate : option float64;
  pb_IsSolved : bool;
  pb_FunctionSpec : option FunctionSpec
}.

Record CreateProblemRequest := mkCreateProblemRequest {
  cp_Title : string;
  cp_Summary : string;
  cp_StatementMarkdown : string;
  cp_TimeLimitMs : Z;
  cp_MemoryLimitMb : Z;
  cp_TestsRef : string;
  cp_Visibility : string;
  cp_Difficulty : string;
  cp_FunctionSpec : option FunctionSpec
}.

Record UpdateProblemRequest := mkUpdateProblemRequest {
  up_Slug : option string;
  up_Title : option string;
  up_Summary : option string;
  up_StatementMarkdown : option string;
  up_TimeLimitMs : option Z;
  up_MemoryLimitMb : option Z;
  up_TestsRef : option string;
  up_Visibility : option string;
  up_Difficulty : option string;
  up_FunctionSpec : option FunctionSpec
}.

(** A [json.RawMessage] is kept as its text; an absent one is empty. *)
Record TestCase := mkTestCase {
  tc_ID : uuid;
  tc_ProblemID : uuid;
  tc_ExternalID : string;
  tc_InputData : string;
  tc_ExpectedData : string;
  tc_OrderIndex : Z;
  tc_IsActive : bool;
  tc_IsHidden : bool;
  tc_CreatedAt : Z
}.

Record CreateTestCaseRequest := mkCreateTestCaseRequest {
  ct_InputData : string;
  ct_ExpectedData : string;
  ct_OrderIndex : Z;
  ct_IsHidden : bool
}.

Record UpdateTestCaseRequest := mkUpdateTestCaseRequest {
  ut_InputData : string;
  ut_ExpectedData : string;
  ut_OrderIndex : option Z;
  ut_IsHidden : option bool
}.

Record Tag := mkTag { tag_ID : uuid; tag_Name : string; tag_CreatedAt : Z }.

Record Language := mkLanguage {
  lang_ID : uuid;
  lang_Key : string;
  lang_DisplayName : string;
  lang_IsEnabled : bool;
  lang_CreatedAt : Z;
  lang_UpdatedAt : Z
}.

Record ProblemFilters := mkProblemFilters {
  pf_Visibility : option string;
  pf_Difficulty : option string;
  pf_Tags : list string;
  pf_Search : string
}.

(** ** Errors: [database/sql]'s, the repositories' and the services' *)

Inductive cat_sentinel :=
  | ErrNoRows
  | ErrProblemNotFound
  | ErrProblemSlugConflict
  | ErrTestCaseNotFound
  | ErrInvalidInput
  | ErrInvalidLanguage.

#[export] Instance cat_sentinel_eq_dec : EqDecision cat_sentinel.
Proof. solve_decision. Defined.

#[export] Instance cat_sentinel_text : SentinelText cat_sentinel := fun s =>
  match s with
  | ErrNoRows => "sql: no rows in result set"
  | ErrProblemNotFound => "problem not found"
  | ErrProblemSlugConflict => "problem with this slug already exists"
  | ErrTestCaseNotFound => "test case not found"
  | ErrInvalidInput | ErrInvalidLanguage => "invalid input"
  end.

Abbreviation cat_error := (goerr cat_sentinel).

(** ** The database *)

Record problem_row := mkProblemRow {
  pr_ID : uuid;
  pr_Slug : string;
  pr_Title : string;
  pr_Summary : string;
  pr_StatementMarkdown : string;
  pr_TimeLimitMs : Z;
  pr_MemoryLimitMb : Z;
  pr_TestsRef : string;
  pr_TestsHash : option string;
  pr_Visibility : string;
  pr_Difficulty : string;
  pr_CreatedByUserID : option uuid;
  pr_CreatedAt : Z;
  pr_UpdatedAt : Z;
  pr_FunctionSpec : option string
}.

Record catdb := mkCatDb {
  cd_users : gset uuid;
  cd_problems : gmap uuid problem_row;
  cd_test_cases : gmap uuid TestCase;
  cd_tags : gmap uuid Tag;
  cd_problem_tags : gset (uuid * uuid);
  cd_languages : gmap uuid Language;
  cd_problem_languages : gset (uuid * uuid);
  cd_submissions : gmap uuid sub_row
}.

Definition set_problems (db : catdb) problems : catdb :=
  mkCatDb (cd_users db) problems (cd_test_cases db) (cd_tags db) (cd_problem_tags db)
    (cd_languages db) (cd_problem_languages db) (cd_submissions db).
Definition set_test_cases (db : catdb) tcs : catdb :=
  mkCatDb (cd_users db) (cd_problems db) tcs (cd_tags db) (cd_problem_tags db)
    (cd_languages db) (cd_problem_languages db) (cd_submissions db).
Definition set_tags (db : catdb) tags : catdb :=
  mkCatDb (cd_users db) (cd_problems db) (cd_test_cases db) tags (cd_problem_tags db)
    (cd_languages db) (cd_problem_languages db) (cd_submissions db).
Definition set_problem_tags (db : catdb) pts : catdb :=
  mkCatDb (cd_users db) (cd_problems db) (cd_test_cases db) (cd_tags db) pts
    (cd_languages db) (cd_problem_languages db) (cd_submissions db).
Definition set_languages (db : catdb) langs : catdb :=
  mkCatDb (cd_users db) (cd_problems db) (cd_test_cases db) (cd_tags db) (cd_problem_tags db)
    langs (cd_problem_languages db) (cd_submissions db).
Definition set_problem_languages (db : catdb) pls : catdb :=
  mkCatDb (cd_users db) (cd_problems db) (cd_test_cases db) (cd_tags db) (cd_problem_tags db)
    (cd_languages db) pls (cd_submissions db).

Abbreviation cat_op A := (M catdb cat_error A).
Abbreviation cat_sql A := (M catdb string A).

(** [encoding/json], and the server's reading of JSON: the text that the
    column keeps, when there is one. *)
Class CatalogJSON := {
  json_Marshal_spec : FunctionSpec -> result string string;
  json_Unmarshal_spec : string -> option FunctionSpec;
  json_Valid : string -> bool;
  jsonb : string -> option string
}.

Section Repositories.
Context `{CatalogJSON} `{DbCollation} `{DbILike}.

(** ** Problems: reading rows *)

Definition scan_spec (fsRaw : option string) : option FunctionSpec :=
  match fsRaw with
  | None => None
  | Some raw =>
      if (0 <? len raw) && negb (bool_decide (raw = "null")) then json_Unmarshal_spec raw else None
  end.

Definition problem_of (r : problem_row) : Problem :=
  mkProblem (pr_ID r) (pr_Slug r) (pr_Title r) (pr_Summary r) (pr_StatementMarkdown r)
    (pr_TimeLimitMs r) (pr_MemoryLimitMb r) (pr_TestsRef r) (pr_TestsHash r) (pr_Visibility r)
    (pr_Difficulty r) (pr_CreatedByUserID r) (pr_CreatedAt r) (pr_UpdatedAt r) [] None false
    (scan_spec (pr_FunctionSpec r)).

Definition has_slug (slug : string) (r : problem_row) : bool := bool_decide (pr_Slug r = slug).

Definition GetProblemByID (io : faults) (id : uuid) : cat_op Problem :=
  statement (failed_to "get problem") io (fun db =>
    (db, match cd_problems db !! id with
         | Some r => Ok (problem_of r)
         | None => Err (Sentinel ErrProblemNotFound)
         end)).

Definition GetProblemBySlug_row (io : faults) (slug : string) : cat_op Problem :=
  statement (failed_to "get problem") io (fun db =>
    (db, match select_where (has_slug slug) (cd_problems db) with
         | r :: _ => Ok (problem_of r)
         | [] => Err (Sentinel ErrProblemNotFound)
         end)).

(** ** Problems: changes *)

(** The text of the driver's error is compared as a whole. *)
Definition slug_conflict_or (what text : string) : cat_error :=
  if bool_decide (text = "pq: duplicate key value violates unique constraint " ++s
                         quoted "problems_slug_key")
  then Sentinel ErrProblemSlugConflict
  else failed_to what text.

(** What [json.Marshal] makes of a specification: its error is dropped. *)
Definition spec_param (fs : option FunctionSpec) : option string :=
  match fs with
  | None => None
  | Some fs => match json_Marshal_spec fs with Ok text => Some text | Err _ => None end
  end.

Definition json_input (text : string) : cat_sql string :=
  match jsonb text with
  | Some kept => mret kept
  | None => fail "pq: invalid input syntax for type json"
  end.

Definition json_input_opt (text : option string) : cat_sql (option string) :=
  match text with
  | None => mret None
  | Some text => kept ← json_input text; mret (Some kept)
  end.

Definition int_input (z : Z) : cat_sql () := demand (int4_ok z) (out_of_range z).
Definition enum_input (type : string) (labels : list string) (v : string) : cat_sql () :=
  demand (bool_decide (v ∈ labels)) (bad_enum type v).
Definition optional {A} (input : A -> cat_sql ()) (a : option A) : cat_sql () :=
  match a with None => mret tt | Some a => input a end.

(** The CHECK constraints of [problems]. *)
Definition check_problem (r : problem_row) : cat_sql () :=
  _ ← demand (0 <? pr_TimeLimitMs r) (check_violation "problems" "problems_time_limit_ms_check");
  demand (0 <? pr_MemoryLimitMb r) (check_violation "problems" "problems_memory_limit_mb_check").

Definition known_author (db : catdb) (id : option uuid) : bool :=
  match id with Some id => bool_decide (id ∈ cd_users db) | None => true end.

Definition insert_problem (r : problem_row) : cat_sql () := fun db =>
  (_ ← demand (bool_decide (cd_problems db !! pr_ID r = None)) (unique_violation "problems_pkey");
   _ ← demand (no_row (has_slug (pr_Slug r)) (cd_problems db)) (unique_violation "problems_slug_key");
   _ ← demand (known_author db (pr_CreatedByUserID r))
         (foreign_key_violation "problems" "problems_created_by_user_id_fkey");
   put (set_problems db (<[pr_ID r := r]> (cd_problems db)))) db.

Definition CreateProblem_row (io : faults) (now : Z) (fresh : uuid) (req : CreateProblemRequest)
    (slug : string) (createdByUserID : uuid) : cat_op Problem :=
  execute (slug_conflict_or "create problem") io (
    _ ← int_input (cp_TimeLimitMs req);
    _ ← int_input (cp_MemoryLimitMb req);
    _ ← enum_input "problem_visibility" visibilities (cp_Visibility req);
    _ ← enum_input "problem_difficulty" difficulties (cp_Difficulty req);
    spec ← json_input_opt (spec_param (cp_FunctionSpec req));
    let row := mkProblemRow fresh slug (cp_Title req) (cp_Summary req) (cp_StatementMarkdown req)
                 (cp_TimeLimitMs req) (cp_MemoryLimitMb req) (cp_TestsRef req) None
                 (cp_Visibility req) (cp_Difficulty req) (Some createdByUserID) now now spec in
    _ ← check_problem row;
    _ ← insert_problem row;
    mret (problem_of row)).

(** [SET updated_at = NOW()] and the columns that the request names. *)
Definition updated (now : Z) (req : UpdateProblemRequest) (spec : option string) (r : problem_row)
  : problem_row :=
  mkProblemRow (pr_ID r) (default (pr_Slug r) (up_Slug req)) (default (pr_Title r) (up_Title req))
    (default (pr_Summary r) (up_Summary req))
    (default (pr_StatementMarkdown r) (up_StatementMarkdown req))
    (default (pr_TimeLimitMs r) (up_TimeLimitMs req))
    (default (pr_MemoryLimitMb r) (up_MemoryLimitMb req))
    (default (pr_TestsRef r) (up_TestsRef req)) (pr_TestsHash r)
    (default (pr_Visibility r) (up_Visibility req)) (default (pr_Difficulty r) (up_Difficulty req))
    (pr_CreatedByUserID r) (pr_CreatedAt r) now
    (match up_FunctionSpec req with None => pr_FunctionSpec r | Some _ => spec end).

Definition other_with_slug (r' r : problem_row) : bool :=
  negb (bool_decide (pr_ID r = pr_ID r')) && has_slug (pr_Slug r') r.

Definition rewrite_problem (r : problem_row) : cat_sql () := fun db =>
  (_ ← check_problem r;
   _ ← demand (no_row (other_with_slug r) (cd_problems db)) (unique_violation "problems_slug_key");
   put (set_problems db (<[pr_ID r := r]> (cd_problems db)))) db.

Definition UpdateProblem_row (io : faults) (now : Z) (id : uuid) (req : UpdateProblemRequest)
  : cat_op Problem :=
  r ← execute (slug_conflict_or "update problem") io (
    _ ← optional int_input (up_TimeLimitMs req);
    _ ← optional int_input (up_MemoryLimitMb req);
    _ ← optional (enum_input "problem_visibility" visibilities) (up_Visibility req);
    _ ← optional (enum_input "problem_difficulty" difficulties) (up_Difficulty req);
    spec ← json_input_opt (spec_param (up_FunctionSpec req));
    db ← get;
    match cd_problems db !! id with
    | None => mret None
    | Some r =>
        _ ← rewrite_problem (updated now req spec r);
        mret (Some (problem_of (updated now req spec r)))
    end);
  match r with
  | Some p => mret p
  | None => fail (Sentinel ErrProblemNotFound)
  end.

(** The row and, by ON DELETE CASCADE, what belongs to the problem. *)
Definition drop_problem (id : uuid) (db : catdb) : catdb :=
  mkCatDb (cd_users db) (delete id (cd_problems db))
    (filter (fun kv => tc_ProblemID kv.2 <> id) (cd_test_cases db))
    (cd_tags db) (filter (fun pt => pt.1 <> id) (cd_problem_tags db))
    (cd_languages db) (filter (fun pl => pl.1 <> id) (cd_problem_languages db))
    (filter (fun kv => sr_ProblemID kv.2 <> id) (cd_submissions db)).

Definition DeleteProblem_row (io : faults) (id : uuid) : cat_op () :=
  statement (failed_to "delete problem") io (fun db =>
    match cd_problems db !! id with
    | None => (db, affected io 0 ErrProblemNotFound)
    | Some _ => (drop_problem id db, affected io 1 ErrProblemNotFound)
    end).

(** ** Problems: the catalogue *)

Definition tagged (db : catdb) (names : list string) (r : problem_row) : bool :=
  existsb (fun pt => bool_decide (pt.1 = pr_ID r) &&
    match cd_tags db !! pt.2 with
    | Some t => bool_decide (tag_Name t ∈ names)
    | None => false
    end) (elements (cd_problem_tags db)).

(** The WHERE clauses of [List] and [Count]; the joins with [problem_tags] and
    [tags] are there when tags are asked for. *)
Definition matches (db : catdb) (filters : ProblemFilters) (r : problem_row) : bool :=
  (bool_decide (pf_Tags filters = []) || tagged db (pf_Tags filters) r) &&
  match pf_Visibility filters with None => true | Some v => bool_decide (pr_Visibility r = v) end &&
  match pf_Difficulty filters with None => true | Some d => bool_decide (pr_Difficulty r = d) end &&
  (bool_decide (pf_Search filters = "") ||
   (let pattern := "%" ++s pf_Search filters ++s "%" in
    ilike (pr_Title r) pattern || ilike (pr_Slug r) pattern || ilike (pr_Summary r) pattern)).

(** Labels that the enumerations do not have are errors. *)
Definition filters_input (filters : ProblemFilters) : cat_sql () :=
  _ ← optional (enum_input "problem_visibility" visibilities) (pf_Visibility filters);
  optional (enum_input "problem_difficulty" difficulties) (pf_Difficulty filters).

(** ORDER BY created_at DESC; [tie] orders equal times. *)
Definition latest_first (tie : problem_row -> problem_row -> bool) (x y : problem_row) : bool :=
  (pr_CreatedAt y <? pr_CreatedAt x) || ((pr_CreatedAt x =? pr_CreatedAt y) && tie x y).

(** OFFSET and LIMIT, each when it is positive. *)
Definition limited {A} (limit offset : Z) (l : list A) : list A :=
  let l := if 0 <? offset then drop (Z.to_nat offset) l else l in
  if 0 <? limit then take (Z.to_nat limit) l else l.

(** All the rows that match, in their order. *)
Definition catalogue (tie : problem_row -> problem_row -> bool) (filters : ProblemFilters) (db : catdb)
  : list problem_row :=
  order_by (latest_first tie) (select_where (matches db filters) (cd_problems db)).

Definition ListProblem_rows (io : faults) (tie : problem_row -> problem_row -> bool)
    (filters : ProblemFilters) (limit offset : Z) : cat_op (list Problem) :=
  _ ← execute (failed_to "list problems") io (filters_input filters);
  statement (fun e => Wrapf "error iterating problems: " (Opaque e) "") (shift_faults 1 io)
    (select (fun db => problem_of <$> limited limit offset (catalogue tie filters db))).

Definition CountProblems (io : faults) (filters : ProblemFilters) : cat_op Z :=
  execute (failed_to "count problems") io (
    _ ← filters_input filters;
    select (fun db => Z.of_nat (count_where (matches db filters) (cd_problems db)))).

(** ** Problems: what the submissions and tags tell *)

Definition solved_by (userID : uuid) (problemIDs : list uuid) (s : sub_row) : bool :=
  bool_decide (sr_UserID s = userID) && bool_decide (sr_Status s = StatusAccepted) &&
  bool_decide (sr_Kind s = KindSubmit) && bool_decide (sr_ProblemID s ∈ problemIDs).

Definition GetSolvedProblemIDs (io : faults) (userID : uuid) (problemIDs : list uuid)
  : cat_op (list uuid) :=
  match problemIDs with
  | [] => mret []
  | _ =>
      select_rows (failed_to "get solved problem IDs")
        (fun e => Wrapf "error iterating solved problem IDs: " (Opaque e) "") io
        (fun db => remove_dups
           (sr_ProblemID <$> select_where (solved_by userID problemIDs) (cd_submissions db)))
  end.

(** [(float64(accepted) / float64(total)) * 100] *)
Definition acceptance_rate (accepted total : Z) : float64 :=
  float64_mul (float64_div (float64_of_int accepted) (float64_of_int total)) (float64_of_int 100).

Definition counted (problemIDs : list uuid) (s : sub_row) : bool :=
  bool_decide (sr_ProblemID s ∈ problemIDs) && bool_decide (sr_Kind s = KindSubmit).

(** The groups' totals, and those accepted. *)
Definition group_counts (subs : list sub_row) (id : uuid) : Z * Z :=
  let group := List.filter (fun s => bool_decide (sr_ProblemID s = id)) subs in
  (Z.of_nat (length group),
   Z.of_nat (length (List.filter (fun s => bool_decide (sr_Status s = StatusAccepted)) group))).

Definition add_rate (subs : list sub_row) (rates : gmap uuid float64) (id : uuid)
  : gmap uuid float64 :=
  let '(total, accepted) := group_counts subs id in
  if 0 <? total then <[id := acceptance_rate accepted total]> rates else rates.

Definition GetAcceptanceRates (io : faults) (problemIDs : list uuid) : cat_op (gmap uuid float64) :=
  match problemIDs with
  | [] => mret ∅
  | _ =>
      select_rows (failed_to "get acceptance rates")
        (fun e => Wrapf "error iterating acceptance rates: " (Opaque e) "") io
        (fun db =>
           let subs := select_where (counted problemIDs) (cd_submissions db) in
           foldl (add_rate subs) ∅ (remove_dups (sr_ProblemID <$> subs)))
  end.

(** ORDER BY problem_id, name *)
Definition by_problem_and_name (x y : uuid * string) : bool :=
  (x.1 <? y.1)%N || ((x.1 =? y.1)%N && db_collate x.2 y.2).

Definition tag_names (db : catdb) (problemIDs : list uuid) : list (uuid * string) :=
  omap (fun pt => if bool_decide (pt.1 ∈ problemIDs)
                  then (fun t => (pt.1, tag_Name t)) <$> (cd_tags db !! pt.2) else None)
    (elements (cd_problem_tags db)).

Definition append_tag (tagsMap : gmap uuid (list string)) (row : uuid * string)
  : gmap uuid (list string) :=
  <[row.1 := default [] (tagsMap !! row.1) ++ [row.2]]> tagsMap.

Definition GetTagsOfProblems (io : faults) (problemIDs : list uuid)
  : cat_op (gmap uuid (list string)) :=
  match problemIDs with
  | [] => mret ∅
  | _ =>
      select_rows (failed_to "get problem tags")
        (fun e => Wrapf "error iterating problem tags: " (Opaque e) "") io
        (fun db => foldl append_tag ∅ (order_by by_problem_and_name (tag_names db problemIDs)))
  end.

(** ** Test cases *)

(** ORDER BY order_index ASC; [tie] orders equal indices. *)
Definition by_index (tie : TestCase -> TestCase -> bool) (x y : TestCase) : bool :=
  (tc_OrderIndex x <? tc_OrderIndex y) || ((tc_OrderIndex x =? tc_OrderIndex y) && tie x y).

Definition active_of (problemID : uuid) (tc : TestCase) : bool :=
  bool_decide (tc_ProblemID tc = problemID) && tc_IsActive tc.

Definition public_of (problemID : uuid) (tc : TestCase) : bool :=
  bool_decide (tc_ProblemID tc = problemID) && tc_IsActive tc && negb (tc_IsHidden tc).

Definition getTestCaseByID (io : faults) (id : uuid) : cat_op TestCase :=
  statement Opaque io (fun db =>
    (db, match cd_test_cases db !! id with
         | Some tc => if tc_IsActive tc then Ok tc else Err (Sentinel ErrNoRows)
         | None => Err (Sentinel ErrNoRows)
         end)).

Definition ListTestCases (io : faults) (tie : TestCase -> TestCase -> bool) (problemID : uuid)
  : cat_op (list TestCase) :=
  select_rows (fun e => Wrapf "list test cases: " (Opaque e) "") Opaque io
    (fun db => order_by (by_index tie) (select_where (active_of problemID) (cd_test_cases db))).

Definition ListPublicTestCases (io : faults) (tie : TestCase -> TestCase -> bool) (problemID : uuid)
  : cat_op (list TestCase) :=
  select_rows (fun e => Wrapf "list public test cases: " (Opaque e) "") Opaque io
    (fun db => order_by (by_index tie) (select_where (public_of problemID) (cd_test_cases db))).

(** [UNIQUE (problem_id, external_id)] *)
Definition same_external (tc' tc : TestCase) : bool :=
  bool_decide (tc_ProblemID tc = tc_ProblemID tc') && bool_decide (tc_ExternalID tc = tc_ExternalID tc').

Definition check_test_case (tc : TestCase) : cat_sql () :=
  demand (0 <=? tc_OrderIndex tc)
    (check_violation "problem_test_cases" "problem_test_cases_order_index_check").

Definition insert_test_case (tc : TestCase) : cat_sql () := fun db =>
  (_ ← demand (bool_decide (cd_test_cases db !! tc_ID tc = None))
         (unique_violation "problem_test_cases_pkey");
   _ ← demand (no_row (same_external tc) (cd_test_cases db))
         (unique_violation "problem_test_cases_problem_id_external_id_key");
   _ ← demand (bool_decide (is_Some (cd_problems db !! tc_ProblemID tc)))
         (foreign_key_violation "problem_test_cases" "problem_test_cases_problem_id_fkey");
   put (set_test_cases db (<[tc_ID tc := tc]> (cd_test_cases db)))) db.

(** [external] is the text of a fresh identifier. *)
Definition CreateTestCase_row (io : faults) (now : Z) (fresh : uuid) (external : string)
    (problemID : uuid) (req : CreateTestCaseRequest) : cat_op TestCase :=
  execute (fun e => Wrapf "create test case: " (Opaque e) "") io (
    inputData ← json_input (ct_InputData req);
    expectedData ← json_input (ct_ExpectedData req);
    _ ← int_input (ct_OrderIndex req);
    let tc := mkTestCase fresh problemID external inputData expectedData (ct_OrderIndex req) true
                (ct_IsHidden req) now in
    _ ← check_test_case tc;
    _ ← insert_test_case tc;
    mret tc).

(** The columns whose parameters the request gives. *)
Definition json_change (text : string) : cat_sql (option string) :=
  if 0 <? len text then json_input_opt (Some text) else mret None.

Definition changed_case (req : UpdateTestCaseRequest) (inputData expectedData : option string)
    (tc : TestCase) : TestCase :=
  mkTestCase (tc_ID tc) (tc_ProblemID tc) (tc_ExternalID tc) (default (tc_InputData tc) inputData)
    (default (tc_ExpectedData tc) expectedData) (default (tc_OrderIndex tc) (ut_OrderIndex req))
    (tc_IsActive tc) (default (tc_IsHidden tc) (ut_IsHidden req)) (tc_CreatedAt tc).

Definition names_no_column (req : UpdateTestCaseRequest) : bool :=
  negb (0 <? len (ut_InputData req)) && negb (0 <? len (ut_ExpectedData req)) &&
  bool_decide (ut_OrderIndex req = None) && bool_decide (ut_IsHidden req = None).

Definition UpdateTestCase_row (io : faults) (id : uuid) (req : UpdateTestCaseRequest)
  : cat_op TestCase :=
  if names_no_column req then getTestCaseByID io id
  else
    r ← execute (fun e => Wrapf "update test case: " (Opaque e) "") io (
      inputData ← json_change (ut_InputData req);
      expectedData ← json_change (ut_ExpectedData req);
      _ ← optional int_input (ut_OrderIndex req);
      db ← get;
      match cd_test_cases db !! id with
      | None => mret None
      | Some tc =>
          if tc_IsActive tc then
            let tc' := changed_case req inputData expectedData tc in
            _ ← check_test_case tc';
            _ ← put (set_test_cases db (<[id := tc']> (cd_test_cases db)));
            mret (Some tc')
          else mret None
      end);
    match r with
    | Some tc => mret tc
    | None => fail (Wrapf "update test case: " (Sentinel ErrNoRows) "")
    end.

Definition deactivate (tc : TestCase) : TestCase :=
  mkTestCase (tc_ID tc) (tc_ProblemID tc) (tc_ExternalID tc) (tc_InputData tc) (tc_ExpectedData tc)
    (tc_OrderIndex tc) false (tc_IsHidden tc) (tc_CreatedAt tc).

(** A deleted test case stays as an inactive row. *)
Definition DeleteTestCase (io : faults) (id : uuid) : cat_op () :=
  statement (fun e => Wrapf "delete test case: " (Opaque e) "") io (fun db =>
    let '(tcs, n) := update_key id tc_IsActive deactivate (cd_test_cases db) in
    (set_test_cases db tcs,
     match io 1%nat with
     | Some e => Err (Opaque e)
     | None => if (n =? 0)%nat then Err (Sentinel ErrTestCaseNotFound) else Ok tt
     end)).

(** ** Tags *)

Definition tag_named (name : string) (t : Tag) : bool := bool_decide (tag_Name t = name).
Definition by_tag_name (x y : Tag) : bool := db_collate (tag_Name x) (tag_Name y).

Definition CreateTag_row (io : faults) (now : Z) (fresh : uuid) (name : string) : cat_op Tag :=
  execute Opaque io (fun db =>
    let tag := mkTag fresh name now in
    (_ ← demand (bool_decide (cd_tags db !! fresh = None)) (unique_violation "tags_pkey");
     _ ← demand (no_row (tag_named name) (cd_tags db)) (unique_violation "tags_name_key");
     _ ← put (set_tags db (<[fresh := tag]> (cd_tags db)));
     mret tag) db).

Definition ListTags (io : faults) : cat_op (list Tag) :=
  select_rows Opaque Opaque io (fun db => order_by by_tag_name (rows (cd_tags db))).

Definition GetTagByID (io : faults) (id : uuid) : cat_op Tag :=
  statement Opaque io (fun db =>
    (db, match cd_tags db !! id with Some t => Ok t | None => Err (Sentinel ErrNoRows) end)).

Definition GetTagByName (io : faults) (name : string) : cat_op Tag :=
  statement Opaque io (fun db => (db, select_one (tag_named name) (cd_tags db) ErrNoRows)).

Definition insert_problem_tag (problemID tagID : uuid) : cat_sql () := fun db =>
  (_ ← demand (bool_decide ((problemID, tagID) ∉ cd_problem_tags db))
         (unique_violation "problem_tags_pkey");
   _ ← demand (bool_decide (is_Some (cd_problems db !! problemID)))
         (foreign_key_violation "problem_tags" "problem_tags_problem_id_fkey");
   _ ← demand (bool_decide (is_Some (cd_tags db !! tagID)))
         (foreign_key_violation "problem_tags" "problem_tags_tag_id_fkey");
   put (set_problem_tags db ({[(problemID, tagID)]} ∪ cd_problem_tags db))) db.

(** A loop of INSERTs over the identifiers, and the commit after it. *)
Fixpoint insert_each (io : faults) (insert : uuid -> cat_sql ()) (ids : list uuid) : cat_op () :=
  match ids with
  | [] => statement Opaque io (mret tt)
  | id :: ids => _ ← execute Opaque io (insert id); insert_each (shift_faults 1 io) insert ids
  end.

Definition SetProblemTags (io : faults) (problemID : uuid) (tagIDs : list uuid) : cat_op () :=
  transaction (
    _ ← statement Opaque io (mret tt);
    _ ← statement Opaque (shift_faults 1 io) (fun db =>
          (set_problem_tags db (filter (fun pt => pt.1 <> problemID) (cd_problem_tags db)), Ok tt));
    insert_each (shift_faults 2 io) (insert_problem_tag problemID) tagIDs).

Definition tag_of_problem (db : catdb) (problemID : uuid) (t : Tag) : bool :=
  bool_decide ((problemID, tag_ID t) ∈ cd_problem_tags db).

Definition GetProblemTags (io : faults) (problemID : uuid) : cat_op (list Tag) :=
  select_rows Opaque Opaque io (fun db =>
    order_by by_tag_name (select_where (tag_of_problem db problemID) (cd_tags db))).

(** ** Languages *)

Definition by_lang_key (x y : Language) : bool := db_collate (lang_Key x) (lang_Key y).

Definition language_found (search : string) (l : Language) : bool :=
  bool_decide (search = "") ||
  (let pattern := "%" ++s search ++s "%" in
   ilike (lang_Key l) pattern || ilike (lang_DisplayName l) pattern).

Definition ListLanguages_rows (io : faults) (search : string) : cat_op (list Language) :=
  select_rows Opaque Opaque io (fun db =>
    order_by by_lang_key (select_where (language_found search) (cd_languages db))).

Definition lang_keyed (key : string) (l : Language) : bool := bool_decide (lang_Key l = key).

(** [INSERT ... ON CONFLICT (key) DO UPDATE] *)
Definition UpsertLanguage (io : faults) (now : Z) (fresh : uuid) (key displayName : string)
    (enabled : bool) : cat_op Language :=
  execute Opaque io (fun db =>
    match select_where (lang_keyed key) (cd_languages db) with
    | old :: _ =>
        let lang := mkLanguage (lang_ID old) key displayName enabled (lang_CreatedAt old) now in
        (_ ← put (set_languages db (<[lang_ID old := lang]> (cd_languages db))); mret lang) db
    | [] =>
        let lang := mkLanguage fresh key displayName enabled now now in
        (_ ← demand (bool_decide (cd_languages db !! fresh = None)) (unique_violation "languages_pkey");
         _ ← put (set_languages db (<[fresh := lang]> (cd_languages db)));
         mret lang) db
    end).

Definition offered_for (db : catdb) (problemID : uuid) (l : Language) : bool :=
  bool_decide ((problemID, lang_ID l) ∈ cd_problem_languages db) && lang_IsEnabled l.

Definition ListLanguagesForProblem (io : faults) (problemID : uuid) : cat_op (list Language) :=
  select_rows Opaque Opaque io (fun db =>
    order_by by_lang_key (select_where (offered_for db problemID) (cd_languages db))).

(** [ON CONFLICT DO NOTHING] comes before the foreign keys are looked at. *)
Definition insert_problem_language (problemID languageID : uuid) : cat_sql () := fun db =>
  if bool_decide ((problemID, languageID) ∈ cd_problem_languages db) then (db, Ok tt)
  else
    (_ ← demand (bool_decide (is_Some (cd_problems db !! problemID)))
           (foreign_key_violation "problem_languages" "problem_languages_problem_id_fkey");
     _ ← demand (bool_decide (is_Some (cd_languages db !! languageID)))
           (foreign_key_violation "problem_languages" "problem_languages_language_id_fkey");
     put (set_problem_languages db ({[(problemID, languageID)]} ∪ cd_problem_languages db))) db.

Definition SetLanguagesForProblem (io : faults) (problemID : uuid) (languageIDs : list uuid)
  : cat_op () :=
  transaction (
    _ ← statement Opaque io (mret tt);
    _ ← statement Opaque (shift_faults 1 io) (fun db =>
          (set_problem_languages db
             (filter (fun pl => pl.1 <> problemID) (cd_problem_languages db)), Ok tt));
    insert_each (shift_faults 2 io) (insert_problem_language problemID) languageIDs).
End Repositories.
