(* ===== verification/CatalogService.v ===== *)
(** * Catalogue: services

    [internal/api/problems/slug.go], [internal/api/problems/service],
    [internal/api/tags/service] and [internal/api/languages/service]. *)

From S2P Require Import Prelude GoStrings Sql Driver SubRepo CatalogRepo.

(** ** Slugs *)

Definition hyphen : ascii := Ascii.ascii_of_nat 45.
Definition is_hyphen (c : ascii) : bool := is_byte 45 c.

(** [[a-z0-9-]] *)
Definition slug_byte (c : ascii) : bool :=
  byte_between 97 122 c || byte_between 48 57 c || is_hyphen c.

(** [-+] replaced by [-]: a hyphen before another one goes. *)
Fixpoint collapse_hyphens (s : string) : string :=
  match s with
  | EmptyString => ""
  | String c s' =>
      match s' with
      | String d _ =>
          if is_hyphen c && is_hyphen d then collapse_hyphens s' else String c (collapse_hyphens s')
      | EmptyString => s
      end
  end.

Definition GenerateSlug `{GoUnicode} (title : string) : string :=
  let slug := ToLower title in
  let slug := replace_byte (Ascii.ascii_of_nat 32) hyphen slug in
  let slug := replace_byte (Ascii.ascii_of_nat 95) hyphen slug in
  let slug := filter_bytes slug_byte slug in
  let slug := collapse_hyphens slug in
  trim_right is_hyphen (trim_left is_hyphen slug).

(** ** Validation *)

(** [utf8.RuneCountInString]; [skip] bytes are left of the rune that is being
    counted. *)
Fixpoint rune_count (skip : nat) (s : string) : Z :=
  match s with
  | EmptyString => 0
  | String _ s' =>
      match skip with
      | S k => rune_count k s'
      | O => 1 + rune_count (pred (rune_width s)) s'
      end
  end.

Definition RuneCountInString (s : string) : Z := rune_count 0 s.

Definition maxProblemSummaryRunes : Z := 500.

(** The first condition that holds gives the error. *)
Fixpoint first_error (checks : list (bool * string)) : option string :=
  match checks with
  | [] => None
  | (bad, text) :: rest => if bad : bool then Some text else first_error rest
  end.

Definition no_label (labels : list string) (v : string) : bool := negb (bool_decide (v ∈ labels)).

Definition validateCreateRequest (req : CreateProblemRequest) : option string :=
  first_error
    [(bool_decide (cp_Title req = ""), "title is required");
     (bool_decide (cp_StatementMarkdown req = ""), "statement is required");
     (cp_TimeLimitMs req <=? 0, "time_limit_ms must be positive");
     (cp_MemoryLimitMb req <=? 0, "memory_limit_mb must be positive");
     (no_label visibilities (cp_Visibility req), "invalid visibility value");
     (no_label difficulties (cp_Difficulty req), "invalid difficulty value");
     (maxProblemSummaryRunes <? RuneCountInString (cp_Summary req),
      "summary must be at most 500 characters")].

(** A field that is given, and bad. *)
Definition given {A} (bad : A -> bool) (a : option A) : bool :=
  match a with None => false | Some a => bad a end.

Definition is_empty (s : string) : bool := bool_decide (s = "").

Definition validateUpdateRequest (req : UpdateProblemRequest) : option string :=
  first_error
    [(given is_empty (up_Slug req), "slug cannot be empty");
     (given is_empty (up_Title req), "title cannot be empty");
     (given is_empty (up_StatementMarkdown req), "statement cannot be empty");
     (given (fun z => z <=? 0) (up_TimeLimitMs req), "time_limit_ms must be positive");
     (given (fun z => z <=? 0) (up_MemoryLimitMb req), "memory_limit_mb must be positive");
     (given is_empty (up_TestsRef req), "tests_ref cannot be empty");
     (given (no_label visibilities) (up_Visibility req), "invalid visibility value");
     (given (no_label difficulties) (up_Difficulty req), "invalid difficulty value");
     (given (fun s => maxProblemSummaryRunes <? RuneCountInString s) (up_Summary req),
      "summary must be at most 500 characters")].

Definition invalid_input (text : string) : cat_error := Wrapf "" (Sentinel ErrInvalidInput) (": " ++s text).

Definition checked {A} (error : option string) (k : cat_op A) : cat_op A :=
  match error with
  | Some text => fail (invalid_input text)
  | None => k
  end.

(** What the outside decides while a call runs: the statements' faults, the
    clock and the identifiers of each INSERT, and the order of equal rows. *)
Record catalog_env := mkCatalogEnv {
  ca_io : faults;
  ca_now : nat -> Z;
  ca_fresh : nat -> uuid;
  ca_external : string;
  ca_tie : problem_row -> problem_row -> bool;
  ca_case_tie : TestCase -> TestCase -> bool
}.

Section Service.
Context `{CatalogJSON} `{DbCollation} `{DbILike} `{GoUnicode}.

(** ** Problems *)

(** [k] attempts have been made; the next slug has the number of this one. *)
Definition next_slug (baseSlug : string) (k : nat) : string :=
  baseSlug ++s "-" ++s show_int (Z.of_nat k).

Fixpoint create_attempts (env : catalog_env) (req : CreateProblemRequest) (by_ : uuid)
    (baseSlug slug : string) (k n : nat) : cat_op Problem :=
  match n with
  | O => fail (Opaque "failed to generate unique slug after 10 attempts")
  | S n =>
      r ← attempt (CreateProblem_row (shift_faults k (ca_io env)) (ca_now env k) (ca_fresh env k) req
                     slug by_);
      match r with
      | Ok p => mret p
      | Err e =>
          if negb (errors_Is e ErrProblemSlugConflict) then fail e
          else create_attempts env req by_ baseSlug (next_slug baseSlug (S k)) (S k) n
      end
  end.

Definition CreateProblem (env : catalog_env) (req : CreateProblemRequest) (createdByUserID : uuid)
  : cat_op Problem :=
  checked (validateCreateRequest req)
    (let baseSlug := GenerateSlug (cp_Title req) in
     create_attempts env req createdByUserID baseSlug baseSlug 0 10).

Definition with_solved (b : bool) (p : Problem) : Problem :=
  mkProblem (pb_ID p) (pb_Slug p) (pb_Title p) (pb_Summary p) (pb_StatementMarkdown p)
    (pb_TimeLimitMs p) (pb_MemoryLimitMb p) (pb_TestsRef p) (pb_TestsHash p) (pb_Visibility p)
    (pb_Difficulty p) (pb_CreatedByUserID p) (pb_CreatedAt p) (pb_UpdatedAt p) (pb_Tags p)
    (pb_AcceptanceRate p) b (pb_FunctionSpec p).

(** An error of the query is dropped. *)
Definition enrichSingleSolved (io : faults) (problem : Problem) (userID : option uuid)
  : cat_op Problem :=
  match userID with
  | None => mret problem
  | Some userID =>
      ids ← attempt (GetSolvedProblemIDs io userID [pb_ID problem]);
      match ids with
      | Err _ => mret problem
      | Ok ids =>
          mret (if existsb (fun id => bool_decide (id = pb_ID problem)) ids
                then with_solved true problem else problem)
      end
  end.

Definition GetProblem (env : catalog_env) (id : uuid) (userID : option uuid) : cat_op Problem :=
  problem ← GetProblemByID (ca_io env) id;
  enrichSingleSolved (shift_faults 1 (ca_io env)) problem userID.

Definition GetProblemBySlug (env : catalog_env) (slug : string) (userID : option uuid)
  : cat_op Problem :=
  problem ← GetProblemBySlug_row (ca_io env) slug;
  enrichSingleSolved (shift_faults 1 (ca_io env)) problem userID.

Definition clamp_limit (limit : Z) : Z :=
  let limit := if limit <=? 0 then 50 else limit in
  if 100 <? limit then 100 else limit.
Definition clamp_offset (offset : Z) : Z := if offset <? 0 then 0 else offset.

Definition enriched (tagsMap : gmap uuid (list string)) (rates : gmap uuid float64)
    (solvedMap : gset uuid) (p : Problem) : Problem :=
  mkProblem (pb_ID p) (pb_Slug p) (pb_Title p) (pb_Summary p) (pb_StatementMarkdown p)
    (pb_TimeLimitMs p) (pb_MemoryLimitMb p) (pb_TestsRef p) (pb_TestsHash p) (pb_Visibility p)
    (pb_Difficulty p) (pb_CreatedByUserID p) (pb_CreatedAt p) (pb_UpdatedAt p)
    (default [] (tagsMap !! pb_ID p))
    (match rates !! pb_ID p with Some rate => Some rate | None => pb_AcceptanceRate p end)
    (bool_decide (pb_ID p ∈ solvedMap)) (pb_FunctionSpec p).

Definition wrap_failed (what : string) (e : cat_error) : cat_error :=
  Wrapf ("failed to " ++s what ++s ": ") e "".

Definition ListProblems (env : catalog_env) (filters : ProblemFilters) (userID : option uuid)
    (limit offset : Z) : cat_op (list Problem * Z) :=
  let io := ca_io env in
  problems ← ListProblem_rows io (ca_tie env) filters (clamp_limit limit) (clamp_offset offset);
  count ← CountProblems (shift_faults 2 io) filters;
  match problems with
  | [] => mret (problems, count)
  | _ =>
      let problemIDs := pb_ID <$> problems in
      tagsMap ← map_err (wrap_failed "get problem tags")
                  (GetTagsOfProblems (shift_faults 3 io) problemIDs);
      rates ← map_err (wrap_failed "get acceptance rates")
                (GetAcceptanceRates (shift_faults 5 io) problemIDs);
      solvedIDs ← match userID with
                  | None => mret []
                  | Some u => map_err (wrap_failed "get solved problem IDs")
                                (GetSolvedProblemIDs (shift_faults 7 io) u problemIDs)
                  end;
      let solvedMap : gset uuid := list_to_set solvedIDs in
      mret (enriched tagsMap rates solvedMap <$> problems, count)
  end.

Definition UpdateProblem (env : catalog_env) (id : uuid) (req : UpdateProblemRequest) : cat_op Problem :=
  checked (validateUpdateRequest req) (UpdateProblem_row (ca_io env) (ca_now env 0) id req).

Definition DeleteProblem (env : catalog_env) : uuid -> cat_op () := DeleteProblem_row (ca_io env).

(** ** Test cases *)

Definition not_json (text : string) : bool := negb (json_Valid text) || bool_decide (text = "null").

Definition CreateTestCase (env : catalog_env) (problemID : uuid) (req : CreateTestCaseRequest)
  : cat_op TestCase :=
  checked
    (first_error [(not_json (ct_InputData req), "input_data must be valid JSON");
                  (not_json (ct_ExpectedData req), "expected_data must be valid JSON")])
    (CreateTestCase_row (ca_io env) (ca_now env 0) (ca_fresh env 0) (ca_external env) problemID req).

Definition UpdateTestCase (env : catalog_env) (id : uuid) (req : UpdateTestCaseRequest)
  : cat_op TestCase :=
  checked
    (first_error
       [((0 <? len (ut_InputData req)) && not_json (ut_InputData req), "input_data must be valid JSON");
        ((0 <? len (ut_ExpectedData req)) && not_json (ut_ExpectedData req),
         "expected_data must be valid JSON")])
    (UpdateTestCase_row (ca_io env) id req).

(** ** Tags *)

Definition CreateTag (env : catalog_env) (name : string) : cat_op Tag :=
  if is_empty name then fail (Opaque "tag name is required")
  else
    existing ← attempt (GetTagByName (ca_io env) name);
    match existing with
    | Ok tag => mret tag
    | Err e =>
        if negb (errors_Is e ErrNoRows) then fail e
        else CreateTag_row (shift_faults 1 (ca_io env)) (ca_now env 0) (ca_fresh env 0) name
    end.

(** ** Languages *)

Definition ListLanguages (env : catalog_env) (search : string) : cat_op (list Language) :=
  ListLanguages_rows (ca_io env) (TrimSpace search).

Definition CreateLanguage (env : catalog_env) (key displayName : string) (isEnabled : option bool)
  : cat_op Language :=
  let key := ToLower (TrimSpace key) in
  let displayName := TrimSpace displayName in
  if is_empty key || is_empty displayName then fail (Sentinel ErrInvalidLanguage)
  else UpsertLanguage (ca_io env) (ca_now env 0) (ca_fresh env 0) key displayName
         (default true isEnabled).

(** The identifiers without repetitions; the nil one is refused. *)
Fixpoint dedup_ids (seen : gset uuid) (languageIDs : list uuid) : result cat_error (list uuid) :=
  match languageIDs with
  | [] => Ok []
  | id :: rest =>
      if bool_decide (id = uuid_Nil) then Err (Sentinel ErrInvalidLanguage)
      else if bool_decide (id ∈ seen) then dedup_ids seen rest
      else match dedup_ids ({[id]} ∪ seen) rest with
           | Ok ids => Ok (id :: ids)
           | Err e => Err e
           end
  end.

Definition UpdateProblemLanguages (env : catalog_env) (problemID : uuid) (languageIDs : list uuid)
  : cat_op () :=
  ids ← lift (dedup_ids ∅ languageIDs);
  SetLanguagesForProblem (ca_io env) problemID ids.
End Service.
