(* ===== verification/CatalogHttp.v ===== *)
(** * Catalogue: HTTP

    [internal/api/problems/http], [internal/api/problems/access],
    [internal/api/tags/http] and [internal/api/languages/http] with their
    routes of [cmd/api/routes.go].  An identifier in a path is what
    [uuid.Parse] makes of it, a body what the decoder makes of it. *)

From S2P Require Import Prelude GoStrings Sql CPHttp AuthService ApiHttp.
From S2P Require Import Driver SubRepo CatalogRepo CatalogService.

Definition StatusNoContent : Z := 204.

(** ** Requests and responses *)

(** Query parameters; an absent one is empty. *)
Record list_query := mkListQuery {
  lq_limit : string;
  lq_offset : string;
  lq_visibility : string;
  lq_difficulty : string;
  lq_search : string;
  lq_tags : list string
}.

Record language_body := mkLanguageBody {
  lb_Key : string;
  lb_DisplayName : string;
  lb_IsEnabled : option bool
}.

Inductive catalog_request :=
  | ReqListProblems (q : list_query)
  | ReqGetProblemBySlug (slug : string)
  | ReqGetProblem (id : option uuid)
  | ReqGetProblemTags (id : option uuid)
  | ReqGetProblemLanguages (id : option uuid)
  | ReqListPublicTestCases (id : option uuid)
  | ReqListTags
  | ReqCreateProblem (body : option CreateProblemRequest)
  | ReqUpdateProblem (id : option uuid) (body : option UpdateProblemRequest)
  | ReqDeleteProblem (id : option uuid)
  | ReqUpdateProblemTags (id : option uuid) (body : option (list uuid))
  | ReqGetInternalProblemLanguages (id : option uuid)
  | ReqUpdateProblemLanguages (id : option uuid) (body : option (list uuid))
  | ReqListTestCases (id : option uuid)
  | ReqCreateTestCase (id : option uuid) (body : option CreateTestCaseRequest)
  | ReqUpdateTestCase (id tcId : option uuid) (body : option UpdateTestCaseRequest)
  | ReqDeleteTestCase (id tcId : option uuid)
  | ReqCreateTag (body : option string)
  | ReqListLanguages (search : string)
  | ReqCreateLanguage (body : option language_body).

Inductive catalog_data :=
  | ProblemBody (p : Problem)
  | ProblemsBody (problems : list Problem) (total limit offset : Z)
  | TestCaseBody (tc : TestCase)
  | TestCasesBody (tcs : list TestCase)
  | TagBody (t : Tag)
  | TagsBody (ts : list Tag)
  | LanguageBody (l : Language)
  | LanguagesBody (ls : list Language)
  | CatalogMessage (message : string)
  | NoContent.

Abbreviation catalog_response := (api_response catalog_data).
Abbreviation catalog_handler := (api_handler catdb catalog_data).

(** ** Visibility *)

(** The loop over the permissions, with what it has seen. *)
Definition see_permission (seen : bool * bool) (p : string) : bool * bool :=
  if bool_decide (p = AdminAccess) then (true, seen.2)
  else if bool_decide (p = ProblemsManage) then (seen.1, true)
  else seen.

Definition CanViewUnpublishedProblems (c : caller) : bool :=
  match c_Permissions c with
  | None => false
  | Some perms => let '(hasAdmin, hasManage) := foldl see_permission (false, false) perms in
                  hasAdmin && hasManage
  end.

Definition IsPublished (p : Problem) : bool := bool_decide (pb_Visibility p = VisibilityPublished).

(** [if !IsPublished(problem) && !CanViewUnpublishedProblems(ctx)] *)
Definition hidden_from (c : caller) (p : Problem) : bool :=
  negb (IsPublished p) && negb (CanViewUnpublishedProblems c).

Section Handlers.
Context `{CatalogJSON} `{DbCollation} `{DbILike} `{GoUnicode}.

(** An error answer without the error's text. *)
Definition plainly (status : Z) (message : string) (_ : cat_error) : catalog_response :=
  RespondSimpleError status message.

Definition ok_body (d : catalog_data) : catalog_response := RespondJSON StatusOK d.

Definition with_problem_id : option uuid -> (uuid -> catalog_handler) -> catalog_handler :=
  with_parsed "invalid problem id".

(** ** Problems *)

Definition show_problem (c : caller) (p : Problem) : catalog_response :=
  if hidden_from c p
  then RespondError StatusNotFound (Sentinel ErrProblemNotFound) "problem not found"
  else ok_body (ProblemBody p).

Definition problem_missing : cat_error -> catalog_response :=
  not_found_or ErrProblemNotFound "problem not found" (internal "failed to get problem").

Definition GetProblem_handler (env : catalog_env) (c : caller) (id : option uuid) : catalog_handler :=
  with_problem_id id (fun id =>
    answer (GetProblem env id (c_UserID c)) (show_problem c) problem_missing).

Definition GetProblemBySlug_handler (env : catalog_env) (c : caller) (slug : string)
  : catalog_handler :=
  if is_empty slug then refuse StatusBadRequest "slug is required"
  else answer (GetProblemBySlug env slug (c_UserID c)) (show_problem c) problem_missing.

(** [if l, err := strconv.Atoi(s); err == nil { limit = l }] *)
Definition int_or (default_ : Z) (s : string) : Z :=
  if is_empty s then default_ else match Atoi s with Some n => n | None => default_ end.

(** The visibility that the query may ask for, or a refusal. *)
Definition visibility_filter (c : caller) (visibilityStr : string) : option (option string) :=
  if negb (CanViewUnpublishedProblems c) then
    if is_empty visibilityStr then Some (Some VisibilityPublished)
    else if bool_decide (visibilityStr = VisibilityPublished) then Some (Some VisibilityPublished)
    else None
  else if is_empty visibilityStr then Some None else Some (Some visibilityStr).

Definition ListProblems_handler (env : catalog_env) (c : caller) (q : list_query) : catalog_handler :=
  let limit := int_or 50 (lq_limit q) in
  let offset := int_or 0 (lq_offset q) in
  match visibility_filter c (lq_visibility q) with
  | None => refuse StatusForbidden "insufficient permissions to list non-published problems"
  | Some v =>
      let difficulty := if is_empty (lq_difficulty q) then None else Some (lq_difficulty q) in
      let filters := mkProblemFilters v difficulty (lq_tags q) (lq_search q) in
      answer (ListProblems env filters (c_UserID c) limit offset)
        (fun '(problems, total) => ok_body (ProblemsBody problems total limit offset))
        (internal "failed to list problems")
  end.

Definition CreateProblem_handler (env : catalog_env) (c : caller) (body : option CreateProblemRequest)
  : catalog_handler :=
  match c_UserID c with
  | None => refuse StatusUnauthorized "unauthorized"
  | Some userID =>
      with_body body (fun req =>
        answer (CreateProblem env req userID) (fun p => RespondJSON StatusCreated (ProblemBody p))
          (bad_request_or ErrInvalidInput "invalid input"
             (conflict_or ErrProblemSlugConflict "problem with this slug already exists"
                (internal "failed to create problem"))))
  end.

Definition UpdateProblem_handler (env : catalog_env) (id : option uuid)
    (body : option UpdateProblemRequest) : catalog_handler :=
  with_problem_id id (fun id => with_body body (fun req =>
    answer (UpdateProblem env id req) (fun p => ok_body (ProblemBody p))
      (not_found_or ErrProblemNotFound "problem not found"
         (bad_request_or ErrInvalidInput "invalid input"
            (conflict_or ErrProblemSlugConflict "problem with this slug already exists"
               (internal "failed to update problem")))))).

Definition DeleteProblem_handler (env : catalog_env) (id : option uuid) : catalog_handler :=
  with_problem_id id (fun id =>
    answer (DeleteProblem env id)
      (fun _ => ok_body (CatalogMessage "problem deleted successfully"))
      (not_found_or ErrProblemNotFound "problem not found" (internal "failed to delete problem"))).

(** ** Test cases *)

Definition ListTestCases_handler (env : catalog_env) (id : option uuid) : catalog_handler :=
  with_problem_id id (fun id =>
    answer (ListTestCases (ca_io env) (ca_case_tie env) id) (fun tcs => ok_body (TestCasesBody tcs))
      (internal "failed to list test cases")).

Definition ListPublicTestCases_handler (env : catalog_env) (id : option uuid) : catalog_handler :=
  with_problem_id id (fun id =>
    answer (ListPublicTestCases (ca_io env) (ca_case_tie env) id)
      (fun tcs => ok_body (TestCasesBody tcs)) (internal "failed to list test cases")).

Definition CreateTestCase_handler (env : catalog_env) (id : option uuid)
    (body : option CreateTestCaseRequest) : catalog_handler :=
  with_problem_id id (fun id => with_body body (fun req =>
    answer (CreateTestCase env id req) (fun tc => RespondJSON StatusCreated (TestCaseBody tc))
      (bad_request_or ErrInvalidInput "invalid input" (internal "failed to create test case")))).

(** The path's problem has to parse, and is not looked at. *)
Definition with_test_case_id (id tcId : option uuid) (k : uuid -> catalog_handler) : catalog_handler :=
  with_problem_id id (fun _ => with_parsed "invalid test case id" tcId k).

Definition no_test_case (other : cat_error -> catalog_response) (e : cat_error) : catalog_response :=
  if errors_Is e ErrTestCaseNotFound then RespondSimpleError StatusNotFound "test case not found"
  else other e.

Definition UpdateTestCase_handler (env : catalog_env) (id tcId : option uuid)
    (body : option UpdateTestCaseRequest) : catalog_handler :=
  with_test_case_id id tcId (fun tcID => with_body body (fun req =>
    answer (UpdateTestCase env tcID req) (fun tc => ok_body (TestCaseBody tc))
      (bad_request_or ErrInvalidInput "invalid input"
         (no_test_case (internal "failed to update test case"))))).

Definition DeleteTestCase_handler (env : catalog_env) (id tcId : option uuid) : catalog_handler :=
  with_test_case_id id tcId (fun tcID =>
    answer (DeleteTestCase (ca_io env) tcID) (fun _ => RespondJSON StatusNoContent NoContent)
      (no_test_case (internal "failed to delete test case"))).

(** ** Tags *)

Definition CreateTag_handler (env : catalog_env) (body : option string) : catalog_handler :=
  with_body body (fun name =>
    answer (CreateTag env name) (fun t => RespondJSON StatusCreated (TagBody t))
      (fun e =>
         if bool_decide (error_text e = "tag name is required") ||
            bool_decide (error_text e = "tag with this name already exists")
         then RespondSimpleError StatusBadRequest (error_text e)
         else RespondSimpleError StatusInternalServerError "failed to create tag")).

Definition ListTags_handler (env : catalog_env) : catalog_handler :=
  answer (ListTags (ca_io env)) (fun ts => ok_body (TagsBody ts))
    (plainly StatusInternalServerError "failed to list tags").

Definition UpdateProblemTags_handler (env : catalog_env) (id : option uuid)
    (body : option (list uuid)) : catalog_handler :=
  with_parsed "invalid problem ID" id (fun id => with_body body (fun tagIDs =>
    answer (SetProblemTags (ca_io env) id tagIDs)
      (fun _ => ok_body (CatalogMessage "tags updated successfully"))
      (plainly StatusInternalServerError "failed to update problem tags"))).

(** A problem that the caller may see, before what belongs to it. *)
Definition with_visible_problem (env : catalog_env) (c : caller) (id : uuid)
    (failed_ : cat_error -> catalog_response) (hidden : catalog_response) (k : catalog_handler)
  : catalog_handler := fun db =>
  match GetProblem env id None db with
  | (db, Err e) => (db, failed_ e)
  | (db, Ok problem) => if hidden_from c problem then (db, hidden) else k db
  end.

Definition GetProblemTags_handler (env : catalog_env) (c : caller) (id : option uuid)
  : catalog_handler :=
  with_parsed "invalid problem ID" id (fun id =>
    with_visible_problem env c id
      (not_found_or ErrProblemNotFound "problem not found"
         (plainly StatusInternalServerError "failed to get problem"))
      (RespondError StatusNotFound (Sentinel ErrProblemNotFound) "problem not found")
      (answer (GetProblemTags (shift_faults 1 (ca_io env)) id) (fun ts => ok_body (TagsBody ts))
         (fun e => if errors_Is e ErrNoRows then ok_body (TagsBody [])
                   else RespondSimpleError StatusInternalServerError "failed to get problem tags"))).

(** ** Languages *)

Definition ListLanguages_handler (env : catalog_env) (search : string) : catalog_handler :=
  answer (ListLanguages env search) (fun ls => ok_body (LanguagesBody ls))
    (plainly StatusInternalServerError "failed to list languages").

Definition CreateLanguage_handler (env : catalog_env) (body : option language_body)
  : catalog_handler :=
  with_body body (fun b =>
    answer (CreateLanguage env (lb_Key b) (lb_DisplayName b) (lb_IsEnabled b))
      (fun l => RespondJSON StatusCreated (LanguageBody l))
      (fun e => if errors_Is e ErrInvalidLanguage
                then RespondSimpleError StatusBadRequest "language key and display name are required"
                else RespondSimpleError StatusInternalServerError "failed to save language")).

Definition respondProblemLanguages (io : faults) (problemID : uuid) : catalog_handler :=
  answer (ListLanguagesForProblem io problemID) (fun ls => ok_body (LanguagesBody ls))
    (plainly StatusInternalServerError "failed to list problem languages").

Definition GetProblemLanguages_handler (env : catalog_env) (c : caller) (id : option uuid)
  : catalog_handler :=
  with_problem_id id (fun id =>
    with_visible_problem env c id
      (fun e => if errors_Is e ErrProblemNotFound
                then RespondSimpleError StatusNotFound "problem not found"
                else RespondSimpleError StatusInternalServerError "failed to get problem")
      (RespondSimpleError StatusNotFound "problem not found")
      (respondProblemLanguages (shift_faults 1 (ca_io env)) id)).

Definition GetInternalProblemLanguages_handler (env : catalog_env) (id : option uuid)
  : catalog_handler :=
  with_problem_id id (respondProblemLanguages (ca_io env)).

(** The statements of an update: begin, DELETE, one INSERT each, commit. *)
Definition update_statements (languageIDs : list uuid) : nat :=
  match dedup_ids ∅ languageIDs with Ok ids => (3 + length ids)%nat | Err _ => 0%nat end.

Definition UpdateProblemLanguages_handler (env : catalog_env) (id : option uuid)
    (body : option (list uuid)) : catalog_handler :=
  with_problem_id id (fun id => with_body body (fun languageIDs db =>
    match UpdateProblemLanguages env id languageIDs db with
    | (db, Err e) =>
        (db, if errors_Is e ErrInvalidLanguage
             then RespondSimpleError StatusBadRequest "invalid language id"
             else RespondSimpleError StatusInternalServerError "failed to update problem languages")
    | (db, Ok _) =>
        respondProblemLanguages (shift_faults (update_statements languageIDs) (ca_io env)) id db
    end)).

(** ** Routes *)

(** The permissions that [routes.go] demands, in their order; [None] for the
    routes that anyone may call. *)
Definition required_permissions (req : catalog_request) : option (list string) :=
  match req with
  | ReqListProblems _ | ReqGetProblemBySlug _ | ReqGetProblem _ | ReqGetProblemTags _
  | ReqGetProblemLanguages _ | ReqListPublicTestCases _ | ReqListTags => None
  | _ => Some [AdminAccess; ProblemsManage]
  end.

Definition handle_catalog (env : catalog_env) (c : caller) (req : catalog_request) : catalog_handler :=
  match req with
  | ReqListProblems q => ListProblems_handler env c q
  | ReqGetProblemBySlug slug => GetProblemBySlug_handler env c slug
  | ReqGetProblem id => GetProblem_handler env c id
  | ReqGetProblemTags id => GetProblemTags_handler env c id
  | ReqGetProblemLanguages id => GetProblemLanguages_handler env c id
  | ReqListPublicTestCases id => ListPublicTestCases_handler env id
  | ReqListTags => ListTags_handler env
  | ReqCreateProblem body => CreateProblem_handler env c body
  | ReqUpdateProblem id body => UpdateProblem_handler env id body
  | ReqDeleteProblem id => DeleteProblem_handler env id
  | ReqUpdateProblemTags id body => UpdateProblemTags_handler env id body
  | ReqGetInternalProblemLanguages id => GetInternalProblemLanguages_handler env id
  | ReqUpdateProblemLanguages id body => UpdateProblemLanguages_handler env id body
  | ReqListTestCases id => ListTestCases_handler env id
  | ReqCreateTestCase id body => CreateTestCase_handler env id body
  | ReqUpdateTestCase id tcId body => UpdateTestCase_handler env id tcId body
  | ReqDeleteTestCase id tcId => DeleteTestCase_handler env id tcId
  | ReqCreateTag body => CreateTag_handler env body
  | ReqListLanguages search => ListLanguages_handler env search
  | ReqCreateLanguage body => CreateLanguage_handler env body
  end.

(** The checks of the middleware chain, the first that refuses first. *)
Fixpoint passes (keys : list string) (c : caller) : option Z :=
  match keys with
  | [] => None
  | key :: keys =>
      match RequirePermission key c with
      | Some status => Some status
      | None => passes keys c
      end
  end.

(** The list of tags goes through no authentication; the other public routes
    through the optional one. *)
Definition serve_catalog `{AuthCrypto} (jm : JWTManager) (now : Z) (authHeader : string)
    (env : catalog_env) (req : catalog_request) : catalog_handler :=
  match required_permissions req with
  | None =>
      match req with
      | ReqListTags => handle_catalog env (caller_of None) req
      | _ =>
          match OptionalAuthMiddleware jm now authHeader with
          | Err text => refuse StatusUnauthorized text
          | Ok ctx => handle_catalog env (caller_of ctx) req
          end
      end
  | Some keys =>
      match AuthMiddleware jm now authHeader with
      | Err text => refuse StatusUnauthorized text
      | Ok ctx =>
          let c := caller_of (Some ctx) in
          match passes keys c with
          | Some status => refuse status "forbidden: insufficient permissions"
          | None => handle_catalog env c req
          end
      end
  end.
End Handlers.
