(* ===== verification/CatalogFacts.v ===== *)
(** * Catalogue: well-formed tables

    The invariant of the catalogue's tables, which every operation keeps
    however it ends. *)

From S2P Require Import Prelude GoStrings Sql Driver SubRepo CatalogRepo.
From S2P Require Import CatalogService.

(** ** The invariant *)

Record row_ok (users : gset uuid) (r : problem_row) : Prop := {
  ok_time : 0 < pr_TimeLimitMs r;
  ok_memory : 0 < pr_MemoryLimitMb r;
  ok_visibility : pr_Visibility r ∈ visibilities;
  ok_difficulty : pr_Difficulty r ∈ difficulties;
  ok_author u : pr_CreatedByUserID r = Some u -> u ∈ users
}.

Definition case_key (tc : TestCase) : uuid * string := (tc_ProblemID tc, tc_ExternalID tc).

Record catalog_wf (db : catdb) : Prop := {
  cw_problems : keyed pr_ID pr_Slug (cd_problems db);
  cw_rows k r : cd_problems db !! k = Some r -> row_ok (cd_users db) r;
  cw_cases : keyed tc_ID case_key (cd_test_cases db);
  cw_case_rows k tc : cd_test_cases db !! k = Some tc ->
    0 <= tc_OrderIndex tc /\ is_Some (cd_problems db !! tc_ProblemID tc);
  cw_tags : keyed tag_ID tag_Name (cd_tags db);
  cw_problem_tags p t : (p, t) ∈ cd_problem_tags db ->
    is_Some (cd_problems db !! p) /\ is_Some (cd_tags db !! t);
  cw_languages : keyed lang_ID lang_Key (cd_languages db);
  cw_problem_languages p l : (p, l) ∈ cd_problem_languages db ->
    is_Some (cd_problems db !! p) /\ is_Some (cd_languages db !! l)
}.

(** Users, and nothing else yet. *)
Definition empty_catalog (users : gset uuid) : catdb := mkCatDb users ∅ ∅ ∅ ∅ ∅ ∅ ∅.

Lemma empty_catalog_wf users : catalog_wf (empty_catalog users).
Proof. split; simpl; try apply keyed_empty; intros *; by rewrite ?lookup_empty, ?elem_of_empty. Qed.

(** ** Conditions in sequence *)

(** Take the next condition of a statement, with what it says. *)
Tactic Notation "learn" ident(x) ident(H) :=
  apply keeps_guarded; [by eauto 10 with capstone | done | intros x H].
Tactic Notation "learn" ident(H) := let x := fresh "x" in learn x H.

Ltac condition H :=
  learn H; apply demand_ok in H as [H _].

Lemma optional_ok {A} (P : A -> Prop) input (a : option A) s s' u :
  (forall a s s' u, input a s = (s', Ok u) -> P a /\ s' = s) ->
  optional input a s = (s', Ok u) -> (forall x, a = Some x -> P x) /\ s' = s.
Proof. intros Hin. destruct a; simpl; [intros [? ?]%Hin; naive_solver | intros [= <- <-]; done]. Qed.

Lemma int_input_ok z s s' u : int_input z s = (s', Ok u) -> int4_ok z = true /\ s' = s.
Proof. unfold int_input. by rewrite demand_ok. Qed.

Lemma enum_input_ok type labels v s s' u :
  enum_input type labels v s = (s', Ok u) -> v ∈ labels /\ s' = s.
Proof. unfold enum_input. rewrite demand_ok, bool_decide_eq_true. done. Qed.

Lemma readonly_optional {A} input (a : option A) :
  (forall a, readonly (input a)) -> readonly (optional input a).
Proof. intros Hin. destruct a; [apply Hin | done]. Qed.

Lemma readonly_int_input z : readonly (int_input z).
Proof. apply readonly_demand. Qed.

Lemma readonly_enum_input type labels v : readonly (enum_input type labels v).
Proof. apply readonly_demand. Qed.

Lemma default_ok {A} (P : A -> Prop) (a : A) (o : option A) :
  P a -> (forall x, o = Some x -> P x) -> P (default a o).
Proof. destruct o; simpl; auto. Qed.

#[export] Hint Resolve readonly_optional readonly_int_input readonly_enum_input : capstone.

Section Facts.
Context `{CatalogJSON} `{DbCollation} `{DbILike} `{GoUnicode}.

Lemma readonly_json_input text : readonly (json_input text).
Proof. intros s. unfold json_input. by case_match. Qed.

Lemma readonly_json_input_opt text : readonly (json_input_opt text).
Proof. destruct text; [| done]. apply readonly_bind; [apply readonly_json_input | done]. Qed.

Lemma readonly_json_change text : readonly (json_change text).
Proof. unfold json_change. case_match; [apply readonly_json_input_opt | done]. Qed.

Lemma readonly_check_problem r : readonly (check_problem r).
Proof. unfold check_problem. eauto with capstone. Qed.

Lemma readonly_filters_input f : readonly (filters_input f).
Proof. unfold filters_input. eauto 10 with capstone. Qed.

#[local] Hint Resolve readonly_json_input readonly_json_input_opt readonly_json_change
  readonly_check_problem readonly_filters_input : capstone.

(** ** Problems *)

Lemma known_author_spec db id : known_author db id = true <-> forall u, id = Some u -> u ∈ cd_users db.
Proof. destruct id; simpl; [rewrite bool_decide_eq_true |]; naive_solver. Qed.

Lemma problem_stays (t : gmap uuid problem_row) r p : is_Some (t !! p) -> is_Some (<[pr_ID r := r]> t !! p).
Proof. intros Hp. apply lookup_insert_is_Some'. by right. Qed.

(** A row under its own identifier, with a slug that no other row has. *)
Lemma store_problem_wf db r :
  catalog_wf db -> row_ok (cd_users db) r ->
  (forall k w, cd_problems db !! k = Some w -> k <> pr_ID r -> pr_Slug w <> pr_Slug r) ->
  catalog_wf (set_problems db (<[pr_ID r := r]> (cd_problems db))).
Proof.
  intros [W1 W2 W3 W4 W5 W6 W7 W8] Hr Hnew. split; simpl; try done.
  - destruct W1 as [Wk Wu]. split.
    + intros k w [[<- <-] | [_ Hw]]%lookup_insert_Some; eauto.
    + intros k w k' w' [[<- <-] | [Hk Hw]]%lookup_insert_Some
        [[<- <-] | [Hk' Hw']]%lookup_insert_Some Heq; [done | | | eauto].
      * exfalso. by eapply Hnew.
      * exfalso. by eapply Hnew.
  - intros k w [[<- <-] | [_ Hw]]%lookup_insert_Some; eauto.
  - intros k tc Htc. destruct (W4 k tc Htc). split; [done | by apply problem_stays].
  - intros p t Hpt. destruct (W6 p t Hpt). split; [by apply problem_stays | done].
  - intros p l Hpl. destruct (W8 p l Hpl). split; [by apply problem_stays | done].
Qed.

Lemma insert_problem_wf r db : catalog_wf db ->
  0 < pr_TimeLimitMs r -> 0 < pr_MemoryLimitMb r ->
  pr_Visibility r ∈ visibilities -> pr_Difficulty r ∈ difficulties ->
  catalog_wf (insert_problem r db).1.
Proof.
  intros Hdb Ht Hm Hv Hd. unfold insert_problem. condition Hid. condition Hslug. condition Hby.
  apply store_problem_wf; [done | split; try done; by apply known_author_spec |].
  intros k w Hw _. rewrite no_row_spec in Hslug. by apply Hslug, bool_decide_eq_false in Hw.
Qed.

Lemma check_problem_ok r s s' u :
  check_problem r s = (s', Ok u) -> 0 < pr_TimeLimitMs r /\ 0 < pr_MemoryLimitMb r.
Proof.
  unfold check_problem. rewrite bind_ok. intros (? & ? & [Ht _]%demand_ok & [Hm _]%demand_ok).
  lia.
Qed.

Lemma keeps_CreateProblem_row io now fresh req slug by_ :
  keeps catalog_wf (CreateProblem_row io now fresh req slug by_).
Proof.
  apply keeps_execute. intros db Hdb. learn Hi1. learn Hi2.
  learn Hv. apply enum_input_ok in Hv as [Hv _]. learn Hd. apply enum_input_ok in Hd as [Hd _].
  learn Hs. learn Hc. apply check_problem_ok in Hc as [Ht Hm].
  unfold mbind, M_bind. simpl in *.
  set (row := mkProblemRow _ _ _ _ _ _ _ _ _ _ _ _ _ _ _) in *.
  pose proof (insert_problem_wf row db Hdb Ht Hm Hv Hd).
  by destruct (insert_problem row db) as [d [|]].
Qed.

Lemma no_other_row {V} (key : V -> uuid) (hit : V -> bool) (t : gmap uuid V) id :
  no_row (fun v => negb (bool_decide (key v = id)) && hit v) t = true ->
  forall k w, t !! k = Some w -> key w <> id -> hit w = false.
Proof. rewrite no_row_spec. intros Hno k w Hw Hne. specialize (Hno k w Hw). by rewrite bool_decide_eq_false_2 in Hno. Qed.

Lemma rewrite_problem_wf r db :
  catalog_wf db -> row_ok (cd_users db) r -> catalog_wf (rewrite_problem r db).1.
Proof.
  intros Hdb Hr. unfold rewrite_problem. learn Hc. condition Hslug. simpl.
  apply store_problem_wf; [done | done |]. intros k w Hw Hk.
  assert (has_slug (pr_Slug r) w = false) as Hs.
  { apply (no_other_row pr_ID (has_slug (pr_Slug r)) _ _ Hslug k w Hw).
    by rewrite (keyed_key _ _ _ (cw_problems _ Hdb) _ _ Hw). }
  by apply bool_decide_eq_false in Hs.
Qed.

(** What an update writes is as good as the row and the request. *)
Lemma updated_ok users now req spec r s s' u :
  row_ok users r -> check_problem (updated now req spec r) s = (s', Ok u) ->
  (forall v, up_Visibility req = Some v -> v ∈ visibilities) ->
  (forall d, up_Difficulty req = Some d -> d ∈ difficulties) ->
  row_ok users (updated now req spec r).
Proof.
  intros [? ? ? ? ?] [? ?]%check_problem_ok Hv Hd. split; simpl; try done; by apply default_ok.
Qed.

Lemma keeps_UpdateProblem_row io now id req : keeps catalog_wf (UpdateProblem_row io now id req).
Proof.
  unfold UpdateProblem_row. apply keeps_bind; [| intros [p |]; eauto with capstone].
  apply keeps_execute. intros db Hdb. learn Hi1. learn Hi2.
  learn Hv. apply (optional_ok (fun v => v ∈ visibilities)) in Hv as [Hv _]; [| apply enum_input_ok].
  learn Hd. apply (optional_ok (fun d => d ∈ difficulties)) in Hd as [Hd _]; [| apply enum_input_ok].
  learn spec Hs. unfold mbind, M_bind, get. simpl. destruct (cd_problems db !! id) as [r |] eqn:Hr; [| done].
  set (r' := updated now req spec r) in *.
  enough (catalog_wf (rewrite_problem r' db).1) by by destruct (rewrite_problem r' db) as [d [|]].
  destruct (check_problem r' db) as [d [[] | e]] eqn:Hc.
  - apply rewrite_problem_wf; [done |]. eapply updated_ok; eauto using cw_rows.
  - unfold rewrite_problem, mbind, M_bind. rewrite Hc.
    pose proof (readonly_check_problem r' db) as Hro. by rewrite Hc in Hro; simpl in *; subst.
Qed.

(** Dropping the rows of one owner. *)
Lemma lookup_filter_rows {V} (P : uuid * V -> Prop) `{!forall kv, Decision (P kv)} (t : gmap uuid V) k v :
  filter P t !! k = Some v <-> t !! k = Some v /\ P (k, v).
Proof. apply map_lookup_filter_Some. Qed.

Lemma drop_problem_wf id db : catalog_wf db -> catalog_wf (drop_problem id db).
Proof.
  intros [W1 W2 W3 W4 W5 W6 W7 W8]. split; simpl; try done.
  - eauto with capstone.
  - intros k r [_ Hr]%lookup_delete_Some. eauto.
  - apply (keyed_changed _ _ (cd_test_cases db)); [done |].
    intros k tc [Htc _]%map_lookup_filter_Some. eauto.
  - intros k tc [Htc Hne]%map_lookup_filter_Some. simpl in Hne. destruct (W4 k tc Htc).
    split; [done | by rewrite lookup_delete_ne].
  - intros p t [Hne Hpt]%elem_of_filter. simpl in Hne. destruct (W6 p t Hpt).
    split; [by rewrite lookup_delete_ne | done].
  - intros p l [Hne Hpl]%elem_of_filter. simpl in Hne. destruct (W8 p l Hpl).
    split; [by rewrite lookup_delete_ne | done].
Qed.

Lemma keeps_DeleteProblem_row io id : keeps catalog_wf (DeleteProblem_row io id).
Proof. apply keeps_statement. intros db Hdb. case_match; [by apply drop_problem_wf | done]. Qed.

(** ** Test cases *)

Lemma store_case_wf db tc :
  catalog_wf db -> 0 <= tc_OrderIndex tc -> is_Some (cd_problems db !! tc_ProblemID tc) ->
  (forall k w, cd_test_cases db !! k = Some w -> k <> tc_ID tc -> case_key w <> case_key tc) ->
  catalog_wf (set_test_cases db (<[tc_ID tc := tc]> (cd_test_cases db))).
Proof.
  intros [W1 W2 W3 W4 W5 W6 W7 W8] Hi Hp Hnew. split; simpl; try done.
  - destruct W3 as [Wk Wu]. split.
    + intros k w [[<- <-] | [_ Hw]]%lookup_insert_Some; eauto.
    + intros k w k' w' [[<- <-] | [Hk Hw]]%lookup_insert_Some
        [[<- <-] | [Hk' Hw']]%lookup_insert_Some Heq; [done | | | eauto]; exfalso; by eapply Hnew.
  - intros k w [[<- <-] | [_ Hw]]%lookup_insert_Some; eauto.
Qed.

Lemma insert_test_case_wf tc db :
  catalog_wf db -> 0 <= tc_OrderIndex tc -> catalog_wf (insert_test_case tc db).1.
Proof.
  intros Hdb Hi. unfold insert_test_case. condition Hid. condition Hx. condition Hp. simpl.
  apply bool_decide_eq_true in Hp. apply store_case_wf; [done.. |].
  intros k w Hw _ [= He1 He2]. rewrite no_row_spec in Hx. specialize (Hx k w Hw).
  unfold same_external in Hx. by rewrite He1, He2, !bool_decide_eq_true_2 in Hx.
Qed.

Lemma keeps_CreateTestCase_row io now fresh ext p req :
  keeps catalog_wf (CreateTestCase_row io now fresh ext p req).
Proof.
  apply keeps_execute. intros db Hdb. learn Hi1. learn Hi2. learn Hi3. condition Hi.
  unfold mbind, M_bind. simpl in *. set (tc := mkTestCase _ _ _ _ _ _ _ _ _) in *.
  assert (catalog_wf (insert_test_case tc db).1) by (apply insert_test_case_wf; [done | simpl; lia]).
  by destruct (insert_test_case tc db) as [d [|]].
Qed.

Lemma update_case_wf db f id :
  catalog_wf db -> (forall tc, tc_ID (f tc) = tc_ID tc /\ case_key (f tc) = case_key tc) ->
  (forall tc, cd_test_cases db !! id = Some tc -> 0 <= tc_OrderIndex tc -> 0 <= tc_OrderIndex (f tc)) ->
  forall tc, cd_test_cases db !! id = Some tc ->
  catalog_wf (set_test_cases db (<[id := f tc]> (cd_test_cases db))).
Proof.
  intros Hdb Hf Hi tc Htc. destruct (Hf tc) as [Hid Hkey].
  pose proof (keyed_key _ _ _ (cw_cases _ Hdb) _ _ Htc) as Hk.
  destruct (cw_case_rows _ Hdb _ _ Htc) as [Hidx Hp].
  rewrite <- Hk, <- Hid. apply store_case_wf; [done | by apply Hi | |].
  - injection Hkey as Hpid _. by rewrite Hpid.
  - intros k w Hw Hne Heq. apply Hne. rewrite Hid, Hk.
    apply (keyed_unique _ _ _ (cw_cases _ Hdb) k w id tc Hw Htc). congruence.
Qed.

Lemma keeps_UpdateTestCase_row io id req : keeps catalog_wf (UpdateTestCase_row io id req).
Proof.
  unfold UpdateTestCase_row. case_match.
  { apply keeps_readonly. unfold getTestCaseByID. eauto with capstone. }
  apply keeps_bind; [| intros [p |]; eauto with capstone].
  apply keeps_execute. intros db Hdb. learn inp Hi1. learn exp Hi2. learn Hi3.
  unfold mbind at 1, M_bind at 1, get. destruct (cd_test_cases db !! id) as [tc |] eqn:Htc; [| done].
  case_match; [| done]. condition Hi. simpl in *.
  apply (update_case_wf db (changed_case req inp exp)); try done.
  intros tc' Htc' _. assert (tc' = tc) as -> by congruence. simpl. lia.
Qed.

Lemma keeps_DeleteTestCase io id : keeps catalog_wf (DeleteTestCase io id).
Proof.
  apply keeps_statement. intros db Hdb.
  destruct (update_key_cases id tc_IsActive deactivate (cd_test_cases db)) as
    [(tc & Htc & _ & ->) | [_ ->]]; simpl; [by apply (update_case_wf db deactivate) | by destruct db].
Qed.

(** ** Tags and languages *)

Lemma insert_tag_wf db tag :
  catalog_wf db -> cd_tags db !! tag_ID tag = None -> no_row (tag_named (tag_Name tag)) (cd_tags db) = true ->
  catalog_wf (set_tags db (<[tag_ID tag := tag]> (cd_tags db))).
Proof.
  intros [W1 W2 W3 W4 W5 W6 W7 W8] Hid Hname. split; simpl; try done.
  - apply keyed_insert; [done |]. intros k w Hw. rewrite no_row_spec in Hname.
    by apply Hname, bool_decide_eq_false in Hw.
  - intros p t Hpt. destruct (W6 p t Hpt). split; [done | by apply lookup_insert_is_Some'; right].
Qed.

Lemma keeps_CreateTag_row io now fresh name : keeps catalog_wf (CreateTag_row io now fresh name).
Proof.
  apply keeps_execute. intros db Hdb. simpl. condition Hid. condition Hname. simpl.
  apply bool_decide_eq_true in Hid. by apply (insert_tag_wf db (mkTag fresh name now)).
Qed.

Lemma set_problem_tags_wf db pts :
  catalog_wf db ->
  (forall p t, (p, t) ∈ pts -> is_Some (cd_problems db !! p) /\ is_Some (cd_tags db !! t)) ->
  catalog_wf (set_problem_tags db pts).
Proof. intros [W1 W2 W3 W4 W5 W6 W7 W8] Hp. by split. Qed.

Lemma set_problem_languages_wf db pls :
  catalog_wf db ->
  (forall p l, (p, l) ∈ pls -> is_Some (cd_problems db !! p) /\ is_Some (cd_languages db !! l)) ->
  catalog_wf (set_problem_languages db pls).
Proof. intros [W1 W2 W3 W4 W5 W6 W7 W8] Hp. by split. Qed.

Lemma keeps_insert_problem_tag p t : keeps catalog_wf (insert_problem_tag p t).
Proof.
  intros db Hdb. unfold insert_problem_tag. condition Hpk. condition Hp. condition Ht.
  apply bool_decide_eq_true in Hp, Ht. apply set_problem_tags_wf; [done |].
  intros p' t' [[= -> ->]%elem_of_singleton | Hin]%elem_of_union; [done | by apply (cw_problem_tags _ Hdb)].
Qed.

Lemma keeps_insert_problem_language p l : keeps catalog_wf (insert_problem_language p l).
Proof.
  intros db Hdb. unfold insert_problem_language. case_bool_decide; [done |]. condition Hp. condition Hl.
  apply bool_decide_eq_true in Hp, Hl. apply set_problem_languages_wf; [done |].
  intros p' l' [[= -> ->]%elem_of_singleton | Hin]%elem_of_union;
    [done | by apply (cw_problem_languages _ Hdb)].
Qed.

Lemma keeps_insert_each P io insert ids :
  (forall id, keeps P (insert id)) -> keeps P (insert_each io insert ids).
Proof.
  intros Hin. revert io. induction ids as [| id ids IH]; intros io; simpl; eauto with capstone.
Qed.

Lemma keeps_SetProblemTags io p ids : keeps catalog_wf (SetProblemTags io p ids).
Proof.
  apply keeps_transaction, keeps_bind; [eauto with capstone | intros _].
  apply keeps_bind; [| intros _; apply keeps_insert_each, keeps_insert_problem_tag].
  apply keeps_statement. intros db Hdb. apply set_problem_tags_wf; [done |].
  intros p' t [_ Hin]%elem_of_filter. by apply (cw_problem_tags _ Hdb).
Qed.

Lemma keeps_SetLanguagesForProblem io p ids : keeps catalog_wf (SetLanguagesForProblem io p ids).
Proof.
  apply keeps_transaction, keeps_bind; [eauto with capstone | intros _].
  apply keeps_bind; [| intros _; apply keeps_insert_each, keeps_insert_problem_language].
  apply keeps_statement. intros db Hdb. apply set_problem_languages_wf; [done |].
  intros p' l [_ Hin]%elem_of_filter. by apply (cw_problem_languages _ Hdb).
Qed.

Lemma store_language_wf db l :
  catalog_wf db ->
  (forall k w, cd_languages db !! k = Some w -> k <> lang_ID l -> lang_Key w <> lang_Key l) ->
  catalog_wf (set_languages db (<[lang_ID l := l]> (cd_languages db))).
Proof.
  intros [W1 W2 W3 W4 W5 W6 W7 W8] Hnew. split; simpl; try done.
  - destruct W7 as [Wk Wu]. split.
    + intros k w [[<- <-] | [_ Hw]]%lookup_insert_Some; eauto.
    + intros k w k' w' [[<- <-] | [Hk Hw]]%lookup_insert_Some
        [[<- <-] | [Hk' Hw']]%lookup_insert_Some Heq; [done | | | eauto]; exfalso; by eapply Hnew.
  - intros p t Hpt. destruct (W8 p t Hpt). split; [done | by apply lookup_insert_is_Some'; right].
Qed.

Lemma keeps_UpsertLanguage io now fresh key name enabled :
  keeps catalog_wf (UpsertLanguage io now fresh key name enabled).
Proof.
  apply keeps_execute. intros db Hdb. simpl.
  destruct (select_where (lang_keyed key) (cd_languages db)) as [| old l] eqn:Hold.
  - condition Hid. simpl. apply (store_language_wf db (mkLanguage fresh key name enabled now now)); [done |].
    intros k w Hw _ Heq. simpl in Heq.
    assert (w ∈ select_where (lang_keyed key) (cd_languages db)) as Hin.
    { apply elem_of_select_where. split; [by apply bool_decide_eq_true | eauto]. }
    rewrite Hold in Hin. by apply not_elem_of_nil in Hin.
  - assert (old ∈ select_where (lang_keyed key) (cd_languages db)) as Hin
      by (rewrite Hold; apply list_elem_of_here).
    apply elem_of_select_where in Hin as [Hkey%bool_decide_eq_true [k Hk]].
    pose proof (keyed_key _ _ _ (cw_languages _ Hdb) _ _ Hk) as Hid.
    apply (store_language_wf db (mkLanguage (lang_ID old) key name enabled (lang_CreatedAt old) now)); [done |].
    intros k' w Hw Hne Heq. apply Hne. simpl in *. rewrite Hid.
    apply (keyed_unique _ _ _ (cw_languages _ Hdb) k' w k old Hw Hk). congruence.
Qed.

(** ** Queries *)

Lemma readonly_GetProblemByID io id : readonly (GetProblemByID io id).
Proof. apply readonly_select. Qed.
Lemma readonly_GetProblemBySlug_row io slug : readonly (GetProblemBySlug_row io slug).
Proof. apply readonly_select. Qed.
Lemma readonly_GetSolvedProblemIDs io u ids : readonly (GetSolvedProblemIDs io u ids).
Proof. destruct ids; [done | apply readonly_select_rows]. Qed.
Lemma readonly_GetAcceptanceRates io ids : readonly (GetAcceptanceRates io ids).
Proof. destruct ids; [done | apply readonly_select_rows]. Qed.
Lemma readonly_GetTagsOfProblems io ids : readonly (GetTagsOfProblems io ids).
Proof. destruct ids; [done | apply readonly_select_rows]. Qed.
Lemma readonly_ListProblem_rows io tie f limit offset : readonly (ListProblem_rows io tie f limit offset).
Proof. apply readonly_bind; [apply readonly_statement, readonly_map_err; eauto with capstone |]. eauto with capstone. Qed.
Lemma readonly_CountProblems io f : readonly (CountProblems io f).
Proof. apply readonly_statement, readonly_map_err, readonly_bind; eauto with capstone. Qed.
Lemma readonly_getTestCaseByID io id : readonly (getTestCaseByID io id).
Proof. apply readonly_select. Qed.
Lemma readonly_GetTagByName io name : readonly (GetTagByName io name).
Proof. apply readonly_select. Qed.

#[local] Hint Resolve readonly_GetProblemByID readonly_GetProblemBySlug_row
  readonly_GetSolvedProblemIDs readonly_GetAcceptanceRates readonly_GetTagsOfProblems
  readonly_ListProblem_rows readonly_CountProblems readonly_getTestCaseByID readonly_GetTagByName : capstone.

Lemma readonly_enrichSingleSolved io p u : readonly (enrichSingleSolved io p u).
Proof.
  destruct u; [| done]. apply readonly_bind; [eauto with capstone |]. by intros [].
Qed.

Lemma readonly_GetProblem env id u : readonly (GetProblem env id u).
Proof. apply readonly_bind; [eauto with capstone | intros; apply readonly_enrichSingleSolved]. Qed.

Lemma readonly_GetProblemBySlug env slug u : readonly (GetProblemBySlug env slug u).
Proof. apply readonly_bind; [eauto with capstone | intros; apply readonly_enrichSingleSolved]. Qed.

Lemma readonly_ListProblems env f u limit offset : readonly (ListProblems env f u limit offset).
Proof.
  unfold ListProblems. apply readonly_bind; [eauto with capstone | intros [| p ps]]; 
    (apply readonly_bind; [eauto with capstone | intros n]); [done |].
  repeat (apply readonly_bind; [destruct u; eauto with capstone | intros ?]). done.
Qed.

(** ** The services' changes *)

(** What follows a validation may use that it found nothing. *)
Lemma keeps_checked {A} (P : catdb -> Prop) error (k : cat_op A) :
  (error = None -> keeps P k) -> keeps P (checked error k).
Proof. intros Hk. destruct error; simpl; [eauto with capstone | by apply Hk]. Qed.

Lemma keeps_create_attempts (P : catdb -> Prop) env req by_ base slug k n :
  (forall io now fresh slug, keeps P (CreateProblem_row io now fresh req slug by_)) ->
  keeps P (create_attempts env req by_ base slug k n).
Proof.
  intros Hrow. revert slug k. induction n as [| n IH]; intros slug k; simpl; [eauto with capstone |].
  apply keeps_bind; [apply keeps_attempt, Hrow |].
  intros [p | e]; [eauto with capstone |]. case_match; [eauto with capstone | apply IH].
Qed.

Lemma keeps_CreateTag (P : catdb -> Prop) env name :
  (name <> "" -> forall io now fresh, keeps P (CreateTag_row io now fresh name)) ->
  keeps P (CreateTag env name).
Proof.
  intros Hrow. unfold CreateTag, is_empty. case_bool_decide; [eauto with capstone |].
  apply keeps_bind; [eauto with capstone |]. intros [t | e]; [eauto with capstone |].
  case_match; [eauto with capstone | by apply Hrow].
Qed.

Lemma keeps_CreateLanguage (P : catdb -> Prop) env key name enabled :
  (ToLower (TrimSpace key) <> "" -> TrimSpace name <> "" -> forall io now fresh enabled,
     keeps P (UpsertLanguage io now fresh (ToLower (TrimSpace key)) (TrimSpace name) enabled)) ->
  keeps P (CreateLanguage env key name enabled).
Proof.
  intros Hrow. unfold CreateLanguage, is_empty. do 2 case_bool_decide; simpl; eauto with capstone.
Qed.

Lemma keeps_UpdateProblemLanguages env p ids : keeps catalog_wf (UpdateProblemLanguages env p ids).
Proof.
  apply keeps_bind; [eauto with capstone | intros l; apply keeps_SetLanguagesForProblem].
Qed.
End Facts.

#[export] Hint Resolve readonly_GetProblem readonly_GetProblemBySlug readonly_ListProblems
  readonly_json_input_opt readonly_json_input readonly_json_change readonly_filters_input
  keeps_checked keeps_create_attempts keeps_CreateTag keeps_CreateLanguage keeps_UpdateProblemLanguages
  keeps_CreateProblem_row keeps_CreateTag_row keeps_UpsertLanguage keeps_UpdateProblem_row keeps_DeleteProblem_row keeps_CreateTestCase_row keeps_UpdateTestCase_row
  keeps_DeleteTestCase keeps_SetProblemTags : capstone.
