(* ===== verification/CatalogTheorems.v ===== *)
(** * Catalogue: theorems on changes

    Well-formed tables with valid rows under any history of requests, and who
    may change them. *)

From S2P Require Import Prelude GoStrings Sql CPHttp AuthService ApiHttp.
From S2P Require Import Driver SubRepo CatalogRepo CatalogService CatalogHttp CatalogFacts.

(** ** Histories of requests *)

Section Histories.
Context `{CatalogJSON} `{DbCollation} `{DbILike} `{GoUnicode} `{AuthCrypto}.

(** A request as it arrives: when, with which header, and what the outside
    decides while it is served. *)
Record arrival := mkArrival {
  ar_now : Z;
  ar_header : string;
  ar_env : catalog_env;
  ar_request : catalog_request
}.

Definition serve_arrival (jm : JWTManager) (db : catdb) (a : arrival) : catdb :=
  (serve_catalog jm (ar_now a) (ar_header a) (ar_env a) (ar_request a) db).1.

Definition serve_arrivals (jm : JWTManager) : catdb -> list arrival -> catdb := foldl (serve_arrival jm).

Lemma with_visible_problem_fst env c id f h k db :
  (forall db, (k db).1 = db) -> (with_visible_problem env c id f h k db).1 = db.
Proof.
  intros Hk. unfold with_visible_problem. pose proof (readonly_GetProblem env id None db) as Hr.
  destruct (GetProblem env id None db) as [d [p | e]]; simpl in *; subst; [| done]. case_match; auto.
Qed.

(** The public routes only read. *)
Lemma readonly_public env c req db :
  required_permissions req = None -> (handle_catalog env c req db).1 = db.
Proof.
  destruct req; simpl; intros Hreq; try done;
    unfold ListProblems_handler, GetProblemBySlug_handler, GetProblem_handler, GetProblemTags_handler,
      GetProblemLanguages_handler, ListPublicTestCases_handler, ListTags_handler, with_problem_id,
      with_parsed; repeat case_match; try done;
    first [ apply readonly_answer | apply with_visible_problem_fst; intros; apply readonly_answer ];
    unfold ListPublicTestCases, ListTags, GetProblemTags, ListLanguagesForProblem; eauto with capstone.
Qed.

(** What an invariant of the tables asks of the services. *)
Record services_keep (P : catdb -> Prop) : Prop := {
  sk_CreateProblem env req u : keeps P (CreateProblem env req u);
  sk_UpdateProblem env id req : keeps P (UpdateProblem env id req);
  sk_DeleteProblem env id : keeps P (DeleteProblem env id);
  sk_SetProblemTags io p ids : keeps P (SetProblemTags io p ids);
  sk_CreateTestCase env p req : keeps P (CreateTestCase env p req);
  sk_UpdateTestCase env id req : keeps P (UpdateTestCase env id req);
  sk_DeleteTestCase io id : keeps P (DeleteTestCase io id);
  sk_CreateTag env name : keeps P (CreateTag env name);
  sk_CreateLanguage env key name enabled : keeps P (CreateLanguage env key name enabled);
  sk_UpdateProblemLanguages env p ids : keeps P (UpdateProblemLanguages env p ids)
}.

Lemma routes_keep P env c req db :
  services_keep P -> P db -> P (handle_catalog env c req db).1.
Proof.
  intros [] Hdb. destruct (required_permissions req) eqn:Hreq; [| by rewrite readonly_public].
  destruct req; simpl in *; try done;
    unfold CreateProblem_handler, UpdateProblem_handler, DeleteProblem_handler,
      UpdateProblemTags_handler, GetInternalProblemLanguages_handler, ListTestCases_handler,
      CreateTestCase_handler, UpdateTestCase_handler, DeleteTestCase_handler, CreateTag_handler,
      ListLanguages_handler, CreateLanguage_handler, respondProblemLanguages, with_test_case_id,
      with_problem_id, with_parsed, with_body; repeat case_match; try done;
    try (apply keeps_answer; [| done]);
    unfold ListLanguages, ListLanguages_rows, ListTestCases, ListLanguagesForProblem; eauto with capstone.
  (* the update of a problem's languages, which answers with them *)
  unfold UpdateProblemLanguages_handler, with_problem_id, with_parsed, with_body.
  destruct id as [id |], body as [ids |]; try done.
  pose proof (sk_UpdateProblemLanguages0 env id ids db Hdb) as Hk.
  destruct (UpdateProblemLanguages env id ids db) as [d [u | e]]; [| done].
  apply (keeps_answer P); [| done]. unfold ListLanguagesForProblem. eauto with capstone.
Qed.

Lemma services_keep_wf : services_keep catalog_wf.
Proof.
  split; intros; unfold CreateProblem, UpdateProblem, DeleteProblem, CreateTestCase, UpdateTestCase;
    eauto 10 with capstone.
Qed.

Lemma keeps_handle env c req db : catalog_wf db -> catalog_wf (handle_catalog env c req db).1.
Proof. apply routes_keep, services_keep_wf. Qed.

(** ** The values of the rows

    What no constraint of a table asks for, and only the services' checks and
    the columns' types ensure. *)

(** The column keeps the encoding of a specification. *)
Definition encodes_spec (kept : string) : Prop :=
  exists fs raw, json_Marshal_spec fs = Ok raw /\ jsonb raw = Some kept.

(** The column keeps JSON that the service accepted. *)
Definition accepted_json (kept : string) : Prop :=
  exists raw, not_json raw = false /\ jsonb raw = Some kept.

Record problem_valid (r : problem_row) : Prop := {
  pv_title : pr_Title r <> "";
  pv_statement : pr_StatementMarkdown r <> "";
  pv_summary : RuneCountInString (pr_Summary r) <= 500;
  pv_time : 0 < pr_TimeLimitMs r < 2^31;
  pv_memory : 0 < pr_MemoryLimitMb r < 2^31;
  pv_spec kept : pr_FunctionSpec r = Some kept -> encodes_spec kept
}.

Record case_valid (tc : TestCase) : Prop := {
  cv_input : accepted_json (tc_InputData tc);
  cv_expected : accepted_json (tc_ExpectedData tc);
  cv_index : 0 <= tc_OrderIndex tc < 2^31
}.

(** A key is in lower case and, like the name, has no space around it. *)
Record language_valid (l : Language) : Prop := {
  lv_key : lang_Key l <> "" /\ exists raw, lang_Key l = ToLower (TrimSpace raw);
  lv_name : lang_DisplayName l <> "" /\ exists raw, lang_DisplayName l = TrimSpace raw
}.

Definition tag_valid (t : Tag) : Prop := tag_Name t <> "".

Record catalog_valid (db : catdb) : Prop := {
  cv_problems : map_Forall (fun _ => problem_valid) (cd_problems db);
  cv_cases : map_Forall (fun _ => case_valid) (cd_test_cases db);
  cv_tags : map_Forall (fun _ => tag_valid) (cd_tags db);
  cv_languages : map_Forall (fun _ => language_valid) (cd_languages db)
}.

Lemma empty_catalog_valid users : catalog_valid (empty_catalog users).
Proof. split; apply map_Forall_empty. Qed.

(** Conditions that found nothing. *)
Lemma first_error_none checks :
  first_error checks = None <-> Forall (fun c => c.1 = false) checks.
Proof.
  induction checks as [| [[] text] checks IH]; simpl; [done | |].
  - split; [done | by intros [? _]%Forall_cons].
  - rewrite Forall_cons, IH. naive_solver.
Qed.

Lemma given_false {A} (bad : A -> bool) a : given bad a = false <-> forall x, a = Some x -> bad x = false.
Proof. destruct a; simpl; naive_solver. Qed.

Lemma json_input_opt_ok text s s' spec :
  json_input_opt text s = (s', Ok spec) ->
  forall kept, spec = Some kept -> exists raw, text = Some raw /\ jsonb raw = Some kept.
Proof.
  destruct text as [raw |]; simpl; [| by intros [= <- <-]].
  rewrite bind_ok. intros (s1 & kept & Hin & [= <- <-]) ? [= <-].
  revert Hin. unfold json_input. destruct (jsonb raw) eqn:E; [intros [= <- <-]; eauto | done].
Qed.

Lemma spec_kept fs s s' spec kept :
  json_input_opt (spec_param fs) s = (s', Ok spec) -> spec = Some kept -> encodes_spec kept.
Proof.
  intros Hin Hk. destruct (json_input_opt_ok _ _ _ _ Hin kept Hk) as (raw & Hp & Hkept).
  destruct fs as [fs |]; [| done]. simpl in Hp.
  destruct (json_Marshal_spec fs) eqn:E; [| done]. injection Hp as ->. by exists fs, raw.
Qed.

Lemma json_input_kept text s s' kept :
  not_json text = false -> json_input text s = (s', Ok kept) -> accepted_json kept.
Proof. intros Ht. unfold json_input. case_match eqn:E; [intros [= <- <-]; by exists text | done]. Qed.

Lemma json_change_kept text s s' change old :
  (0 <? len text) && not_json text = false -> json_change text s = (s', Ok change) ->
  accepted_json old -> accepted_json (default old change).
Proof.
  unfold json_change. destruct (0 <? len text); simpl; [| by intros _ [= <- <-]].
  intros Ht. rewrite bind_ok. intros (s1 & kept & Hin & [= <- <-]) _. eauto using json_input_kept.
Qed.

Lemma store_problem_valid db k r :
  catalog_valid db -> problem_valid r -> catalog_valid (set_problems db (<[k := r]> (cd_problems db))).
Proof. intros [] Hr. split; simpl; [by apply map_Forall_insert_2 | done..]. Qed.

Lemma store_case_valid db k tc :
  catalog_valid db -> case_valid tc -> catalog_valid (set_test_cases db (<[k := tc]> (cd_test_cases db))).
Proof. intros [] Hr. split; simpl; [done | by apply map_Forall_insert_2 | done..]. Qed.

Lemma store_tag_valid db k t :
  catalog_valid db -> tag_valid t -> catalog_valid (set_tags db (<[k := t]> (cd_tags db))).
Proof. intros [] Ht. split; simpl; [done | done | by apply map_Forall_insert_2 | done]. Qed.

Lemma store_language_valid db k l :
  catalog_valid db -> language_valid l -> catalog_valid (set_languages db (<[k := l]> (cd_languages db))).
Proof. intros [] Hl. split; simpl; [done.. | by apply map_Forall_insert_2]. Qed.

#[local] Hint Resolve readonly_demand readonly_check_problem : capstone.

(** A validated request's row. *)
Lemma valid_CreateProblem_row io now fresh req slug u :
  validateCreateRequest req = None -> keeps catalog_valid (CreateProblem_row io now fresh req slug u).
Proof.
  intros Hreq. apply first_error_none in Hreq. rewrite !Forall_cons in Hreq. simpl in Hreq.
  destruct Hreq as (Ht & Hs & _ & _ & _ & _ & Hsum & _).
  apply bool_decide_eq_false in Ht, Hs. apply Z.ltb_ge in Hsum.
  apply keeps_execute. intros db Hdb.
  learn Ht4. apply int_input_ok in Ht4 as [Ht4%int4_ok_spec _].
  learn Hm4. apply int_input_ok in Hm4 as [Hm4%int4_ok_spec _].
  learn Hv. learn Hd. learn spec Hspec. learn Hc. apply check_problem_ok in Hc as [Hct Hcm].
  unfold mbind at 1, M_bind at 1. simpl in *. set (row := mkProblemRow _ _ _ _ _ _ _ _ _ _ _ _ _ _ _) in *.
  enough (catalog_valid (insert_problem row db).1) by (by destruct (insert_problem row db) as [d [|]]).
  unfold insert_problem. condition Hid. condition Hslug. condition Hby.
  apply store_problem_valid; [done |]. split; simpl; try done; [lia.. |].
  intros kept Hk. by eapply spec_kept.
Qed.

(** A row that a validated request changes. *)
Lemma updated_valid now req spec r s :
  validateUpdateRequest req = None -> problem_valid r ->
  (forall z, up_TimeLimitMs req = Some z -> z < 2^31) ->
  (forall z, up_MemoryLimitMb req = Some z -> z < 2^31) ->
  json_input_opt (spec_param (up_FunctionSpec req)) s = (s, Ok spec) ->
  problem_valid (updated now req spec r).
Proof.
  intros Hreq [] Ht Hm Hspec. apply first_error_none in Hreq. rewrite !Forall_cons in Hreq. simpl in Hreq.
  rewrite !given_false in Hreq. destruct Hreq as (_ & Htitle & Hst & Htime & Hmem & _ & _ & _ & Hsum & _).
  split; simpl.
  - apply default_ok; [done |]. by intros ? ?%Htitle%bool_decide_eq_false.
  - apply default_ok; [done |]. by intros ? ?%Hst%bool_decide_eq_false.
  - apply default_ok; [done |]. by intros ? ?%Hsum%Z.ltb_ge.
  - apply (default_ok (fun z => 0 < z < 2^31)); [done |]. intros z Hz. specialize (Ht z Hz).
    apply Htime, Z.leb_gt in Hz. lia.
  - apply (default_ok (fun z => 0 < z < 2^31)); [done |]. intros z Hz. specialize (Hm z Hz).
    apply Hmem, Z.leb_gt in Hz. lia.
  - case_match; [| done]. intros kept Hk. by eapply spec_kept; [rewrite <- Hspec |].
Qed.

Lemma optional_int_ok z s s' u :
  optional int_input z s = (s', Ok u) -> forall x, z = Some x -> x < 2^31.
Proof.
  intros Hin. apply (optional_ok (fun x => x < 2^31)) in Hin as [? _]; [done |].
  intros x s1 s2 v [Hx%int4_ok_spec Hs]%int_input_ok. split; [lia | done].
Qed.

Lemma valid_UpdateProblem_row io now id req :
  validateUpdateRequest req = None -> keeps catalog_valid (UpdateProblem_row io now id req).
Proof.
  intros Hreq. unfold UpdateProblem_row. apply keeps_bind; [| intros [p |]; eauto with capstone].
  apply keeps_execute. intros db Hdb. learn Ht. learn Hm. learn Hv. learn Hd. learn spec Hs.
  unfold mbind, M_bind, get. simpl. destruct (cd_problems db !! id) as [r |] eqn:Hr; [| done].
  set (r' := updated now req spec r) in *.
  enough (catalog_valid (rewrite_problem r' db).1) by by destruct (rewrite_problem r' db) as [d [|]].
  unfold rewrite_problem. learn Hc. condition Hslug. apply store_problem_valid; [done |].
  eapply updated_valid; eauto using optional_int_ok. by eapply (cv_problems _ Hdb).
Qed.

Lemma valid_CreateTestCase_row io now fresh ext p req :
  not_json (ct_InputData req) = false -> not_json (ct_ExpectedData req) = false ->
  keeps catalog_valid (CreateTestCase_row io now fresh ext p req).
Proof.
  intros Hin Hex. apply keeps_execute. intros db Hdb. learn inp Hi. learn exp He. learn Hz.
  apply int_input_ok in Hz as [Hz%int4_ok_spec _]. condition Hpos.
  unfold mbind at 1, M_bind at 1. simpl in *. set (tc := mkTestCase _ _ _ _ _ _ _ _ _) in *.
  enough (catalog_valid (insert_test_case tc db).1) by (by destruct (insert_test_case tc db) as [d [|]]).
  unfold insert_test_case. condition Hid. condition Hx. condition Hp. apply store_case_valid; [done |].
  split; simpl; [exact (json_input_kept _ _ _ _ Hin Hi) | exact (json_input_kept _ _ _ _ Hex He) | lia].
Qed.

Lemma valid_UpdateTestCase_row io id req :
  (0 <? len (ut_InputData req)) && not_json (ut_InputData req) = false ->
  (0 <? len (ut_ExpectedData req)) && not_json (ut_ExpectedData req) = false ->
  keeps catalog_valid (UpdateTestCase_row io id req).
Proof.
  intros Hin Hex. unfold UpdateTestCase_row. case_match.
  { apply keeps_readonly. apply readonly_getTestCaseByID. }
  apply keeps_bind; [| intros [p |]; eauto with capstone].
  apply keeps_execute. intros db Hdb. learn inp Hi. learn exp He. learn Hz.
  unfold mbind at 1, M_bind at 1, get. destruct (cd_test_cases db !! id) as [tc |] eqn:Htc; [| done].
  case_match; [| done]. condition Hpos. simpl in *. apply store_case_valid; [done |].
  destruct (cv_cases _ Hdb id tc Htc).
  split; simpl; [by eapply json_change_kept; [| exact Hi |] | by eapply json_change_kept; [| exact He |] |]. split; [lia |].
  apply (default_ok (fun z => z < 2^31)); [lia | by eapply optional_int_ok].
Qed.

Lemma valid_DeleteTestCase io id : keeps catalog_valid (DeleteTestCase io id).
Proof.
  apply keeps_statement. intros db Hdb.
  destruct (update_key_cases id tc_IsActive deactivate (cd_test_cases db)) as
    [(tc & Htc & _ & ->) | [_ ->]]; simpl; [| by destruct db].
  apply store_case_valid; [done |]. by destruct (cv_cases _ Hdb id tc Htc).
Qed.

Lemma valid_UpsertLanguage io now fresh key name enabled :
  ToLower (TrimSpace key) <> "" -> TrimSpace name <> "" ->
  keeps catalog_valid (UpsertLanguage io now fresh (ToLower (TrimSpace key)) (TrimSpace name) enabled).
Proof.
  intros Hk Hn. apply keeps_execute. intros db Hdb. simpl.
  case_match; [condition Hid |]; apply store_language_valid; try done; split; simpl; eauto.
Qed.

Lemma valid_CreateTag_row io now fresh name :
  name <> "" -> keeps catalog_valid (CreateTag_row io now fresh name).
Proof.
  intros Hn. apply keeps_execute. intros db Hdb. condition Hid. condition Hname. by apply store_tag_valid.
Qed.

Lemma valid_DeleteProblem_row io id : keeps catalog_valid (DeleteProblem_row io id).
Proof.
  apply keeps_statement. intros db []. case_match; [| done]. split; simpl; try done.
  - by apply map_Forall_delete.
  - intros k tc [Htc _]%map_lookup_filter_Some. eauto.
Qed.

Lemma valid_insert_problem_tag p t : keeps catalog_valid (insert_problem_tag p t).
Proof. intros db Hdb. unfold insert_problem_tag. condition Hpk. condition Hp. condition Ht. by destruct Hdb. Qed.

Lemma valid_insert_problem_language p l : keeps catalog_valid (insert_problem_language p l).
Proof.
  intros db Hdb. unfold insert_problem_language. case_bool_decide; [done |].
  condition Hp. condition Hl. by destruct Hdb.
Qed.

Lemma valid_SetProblemTags io p ids : keeps catalog_valid (SetProblemTags io p ids).
Proof.
  apply keeps_transaction, keeps_bind; [eauto with capstone | intros _].
  apply keeps_bind; [| intros _; apply keeps_insert_each, valid_insert_problem_tag].
  apply keeps_statement. by intros db [].
Qed.

Lemma valid_SetLanguagesForProblem io p ids : keeps catalog_valid (SetLanguagesForProblem io p ids).
Proof.
  apply keeps_transaction, keeps_bind; [eauto with capstone | intros _].
  apply keeps_bind; [| intros _; apply keeps_insert_each, valid_insert_problem_language].
  apply keeps_statement. by intros db [].
Qed.

Lemma first_two (b b' : bool) text text' :
  first_error [(b, text); (b', text')] = None -> b = false /\ b' = false.
Proof. rewrite first_error_none, !Forall_cons. naive_solver. Qed.

Lemma services_keep_valid : services_keep catalog_valid.
Proof.
  split; intros.
  - apply keeps_checked. intros Hreq. apply keeps_create_attempts. intros. by apply valid_CreateProblem_row.
  - apply keeps_checked. apply valid_UpdateProblem_row.
  - apply valid_DeleteProblem_row.
  - apply valid_SetProblemTags.
  - apply keeps_checked. intros [Hi He]%first_two. by apply valid_CreateTestCase_row.
  - apply keeps_checked. intros [Hi He]%first_two. by apply valid_UpdateTestCase_row.
  - apply valid_DeleteTestCase.
  - apply keeps_CreateTag. intros. by apply valid_CreateTag_row.
  - apply keeps_CreateLanguage. intros. by apply valid_UpsertLanguage.
  - apply keeps_bind; [eauto with capstone | intros l; apply valid_SetLanguagesForProblem].
Qed.

Lemma serve_catalog_cases jm now header env req db :
  (exists c, serve_catalog jm now header env req db = handle_catalog env c req db /\
     (required_permissions req = None \/ exists ctx,
        AuthMiddleware jm now header = Ok ctx /\ c = caller_of (Some ctx) /\
        passes [AdminAccess; ProblemsManage] c = None)) \/
  (exists status text, serve_catalog jm now header env req db = refuse status text db /\
     (status = StatusUnauthorized \/ status = StatusForbidden)).
Proof.
  unfold serve_catalog.
  destruct (required_permissions req) as [keys |] eqn:Hreq.
  - assert (keys = [AdminAccess; ProblemsManage]) as -> by (by destruct req; simplify_eq/=).
    destruct (AuthMiddleware jm now header) as [ctx | text] eqn:Hauth; [| right; eauto].
    destruct (passes _ _) as [status |] eqn:Hp; [| left; eauto 10].
    right. eexists _, _. split; [done |]. right. simpl in Hp. unfold RequirePermission, require in Hp.
    simpl in Hp. repeat case_match; simplify_eq/=; done.
  - assert (forall c, exists c', handle_catalog env c req db = handle_catalog env c' req db /\
       (required_permissions req = None \/ exists ctx,
        AuthMiddleware jm now header = Ok ctx /\ c' = caller_of (Some ctx) /\
        passes [AdminAccess; ProblemsManage] c' = None)) as Hpub by eauto.
    destruct (OptionalAuthMiddleware jm now header) as [ctx | text];
      destruct req; try done; first [left; apply Hpub | right; eauto].
Qed.

Lemma serve_arrivals_keep P (jm : JWTManager) db requests :
  services_keep P -> P db -> P (serve_arrivals jm db requests).
Proof.
  intros HP. revert db. induction requests as [| a requests IH]; intros db Hdb; [done |].
  apply IH. unfold serve_arrival.
  destruct (serve_catalog_cases jm (ar_now a) (ar_header a) (ar_env a) (ar_request a) db)
    as [(c & -> & _) | (status & text & -> & _)]; [by apply routes_keep | done].
Qed.

(** C36. the catalogue's tables stay well formed and their rows valid: whatever
    requests are served, by whomever they are sent and whatever fails while
    they are, every problem has a title, a statement, a summary of at most
    500 characters, positive limits within INTEGER, a visibility and a
    difficulty of their enumerations, a slug of its own, an existing author
    and, if any, the encoding of a specification; test cases hold JSON that
    the service accepted, have an order within INTEGER that is not negative
    and, like the links to tags and languages, belong to problems that exist;
    names of tags and keys of languages are unique and not empty, keys in
    lower case and trimmed.  Titles, statements, summaries, the JSON of test
    cases, names and keys are the services' own checks: no constraint of the
    tables asks for them. *)
Theorem catalogue_stays_well_formed (jm : JWTManager) (users : gset uuid) (requests : list arrival) :
  let db := serve_arrivals jm (empty_catalog users) requests in
  catalog_wf db /\ catalog_valid db.
Proof.
  split; apply serve_arrivals_keep;
    [apply services_keep_wf | apply empty_catalog_wf | apply services_keep_valid | apply empty_catalog_valid].
Qed.

(** Nobody changes the catalogue without both permissions: a request that
    changed a table bore a valid token with them. *)
Theorem catalogue_changes_need_both_permissions (jm : JWTManager) now header env req db :
  (serve_catalog jm now header env req db).1 <> db ->
  exists ctx, AuthMiddleware jm now header = Ok ctx /\
    hasPermission (ac_Permissions ctx) AdminAccess = true /\
    hasPermission (ac_Permissions ctx) ProblemsManage = true.
Proof.
  intros Hch.
  destruct (serve_catalog_cases jm now header env req db)
    as [(c & Heq & [Hpub | (ctx & Hauth & -> & Hp)]) | (status & text & Heq & _)]; rewrite Heq in Hch.
  - by rewrite readonly_public in Hch.
  - exists ctx. split; [done |]. simpl in Hp. unfold RequirePermission, require in Hp. simpl in Hp.
    repeat case_match; simplify_eq/=; by split; apply negb_false_iff.
  - done.
Qed.
End Histories.
