(* ===== verification/CatalogSlugs.v ===== *)
(** * Catalogue: slugs

    The slugs that titles give, and the slug that a new problem gets. *)

From S2P Require Import Prelude GoStrings Sql Driver SubRepo CatalogRepo.
From S2P Require Import CatalogService CatalogFacts.

(** ** Hyphens *)

(** No hyphen follows another. *)
Fixpoint single_hyphens (s : string) : bool :=
  match s with
  | String c ((String d _) as s') => negb (is_hyphen c && is_hyphen d) && single_hyphens s'
  | _ => true
  end.

Lemma single_hyphens_tail c s : single_hyphens (String c s) = true -> single_hyphens s = true.
Proof. destruct s; [done |]. simpl. by intros [_ Hs]%andb_true_iff. Qed.

Lemma single_hyphens_spec s : single_hyphens s = true -> Contains s "--" = false.
Proof.
  intros Hs. apply not_true_iff_false. rewrite Contains_spec. intros (a & b & ->).
  induction a as [| c a IH]; [done |]. apply IH. by apply single_hyphens_tail in Hs.
Qed.

Lemma is_hyphen_spec c : is_hyphen c = true <-> c = hyphen.
Proof.
  unfold is_hyphen, is_byte, byte_of. rewrite Nat.eqb_eq. split; [| by intros ->].
  intros Hc. rewrite <- (Ascii.ascii_nat_embedding c). by rewrite Hc.
Qed.

Lemma single_hyphens_complete s : Contains s "--" = false -> single_hyphens s = true.
Proof.
  intros Hs. apply not_false_iff_true. intros Hno. apply not_true_iff_false in Hs. apply Hs.
  apply Contains_spec. clear Hs. induction s as [| c s IH]; [done |].
  destruct s as [| d s]; [done |]. cbn [single_hyphens] in Hno.
  destruct (is_hyphen c && is_hyphen d) eqn:E.
  - apply andb_true_iff in E as [->%is_hyphen_spec ->%is_hyphen_spec]. by exists "", s.
  - destruct (IH Hno) as (a & b & ->). by exists (String c a), b.
Qed.

Lemma collapse_head s : exists r, collapse_hyphens s =
  match s with EmptyString => "" | String c _ => String c r end.
Proof.
  induction s as [| c s IH]; [by exists "" |]. destruct s as [| d s]; [by exists "" |].
  cbn [collapse_hyphens] in *. destruct (is_hyphen c && is_hyphen d) eqn:E; [| by eexists].
  apply andb_true_iff in E as [Hc Hd]. destruct IH as [r ->]. exists r.
  apply is_hyphen_spec in Hc, Hd. by subst.
Qed.

Lemma collapse_single s : single_hyphens (collapse_hyphens s) = true.
Proof.
  induction s as [| c s IH]; [done |]. destruct s as [| d s]; [done |].
  cbn [collapse_hyphens] in *. destruct (is_hyphen c && is_hyphen d) eqn:E; [done |].
  destruct (collapse_head (String d s)) as [r Hr]. cbn [collapse_hyphens] in Hr.
  rewrite Hr in IH |- *. cbn [single_hyphens]. rewrite E. by apply IH.
Qed.

Lemma collapse_id s : single_hyphens s = true -> collapse_hyphens s = s.
Proof.
  induction s as [| c s IH]; [done |]. intros Hs. pose proof (single_hyphens_tail _ _ Hs) as Ht.
  destruct s as [| d s]; [done |]. cbn [collapse_hyphens single_hyphens] in *.
  apply andb_true_iff in Hs as [->%negb_true_iff _]. f_equal. by apply IH.
Qed.

Lemma all_bytes_collapse p s : all_bytes p s = true -> all_bytes p (collapse_hyphens s) = true.
Proof.
  induction s as [| c s IH]; [done |]. cbn [all_bytes]. intros [Hc Hs]%andb_true_iff.
  destruct s as [| d s]; [by cbn; rewrite Hc |]. cbn [collapse_hyphens] in *.
  destruct (is_hyphen c && is_hyphen d); [by apply IH |]. cbn [all_bytes]. rewrite Hc. by apply IH.
Qed.

Lemma single_trim_left p s : single_hyphens s = true -> single_hyphens (trim_left p s) = true.
Proof.
  induction s as [| c s IH]; [done |]. intros Hs. cbn [trim_left]. case_match; [| done].
  apply IH. by apply single_hyphens_tail in Hs.
Qed.

Lemma trim_right_head p s : trim_right p s = "" \/ exists c s' r, s = String c s' /\ trim_right p s = String c r.
Proof. destruct s as [| c s]; [by left |]. cbn [trim_right]. case_match; [by left | right; eauto]. Qed.

Lemma single_trim_right p s : single_hyphens s = true -> single_hyphens (trim_right p s) = true.
Proof.
  induction s as [| c s IH]; [done |]. intros Hs. cbn [trim_right]. case_match; [done |].
  pose proof (IH (single_hyphens_tail _ _ Hs)) as Ht.
  destruct (trim_right_head p s) as [-> | (d & s' & r & -> & Hr)]; [done |].
  rewrite Hr in Ht |- *. cbn [single_hyphens] in *. apply andb_true_iff in Hs as [-> _]. done.
Qed.

(** ** Slugs *)

(** Letters, digits and single hyphens, none of them at an end. *)
Record url_safe (s : string) : Prop := {
  us_bytes : all_bytes slug_byte s = true;
  us_single : Contains s "--" = false;
  us_start : trim_left is_hyphen s = s;
  us_end : trim_right is_hyphen s = s
}.

Lemma slug_byte_cases c :
  slug_byte c = true -> is_ascii c = true /\ lower_byte c = c /\
    c <> Ascii.ascii_of_nat 32 /\ c <> Ascii.ascii_of_nat 95.
Proof. destruct c as [[] [] [] [] [] [] [] []]; vm_compute; intros; try done; by split_and!. Qed.

Lemma map_slug_id f s :
  all_bytes slug_byte s = true -> (forall c, slug_byte c = true -> f c = c) -> map_bytes f s = s.
Proof.
  intros Hs Hf. apply map_bytes_id. revert Hs. apply all_bytes_impl. intros c Hc.
  by apply bool_decide_eq_true, Hf.
Qed.

Section Slugs.
Context `{GoUnicode}.

Lemma GenerateSlug_single title : single_hyphens (GenerateSlug title) = true.
Proof. apply single_trim_right, single_trim_left, collapse_single. Qed.

Lemma GenerateSlug_bytes title : all_bytes slug_byte (GenerateSlug title) = true.
Proof. apply all_bytes_trim_right, all_bytes_trim_left, all_bytes_collapse, filter_bytes_all. Qed.

Lemma GenerateSlug_ends title :
  trim_left is_hyphen (GenerateSlug title) = GenerateSlug title /\
  trim_right is_hyphen (GenerateSlug title) = GenerateSlug title.
Proof.
  unfold GenerateSlug. set (s := collapse_hyphens _). split; [| apply trim_right_idem].
  apply trim_left_right, trim_left_idem.
Qed.

Lemma GenerateSlug_id s : url_safe s -> GenerateSlug s = s.
Proof.
  intros [Hb Hc Hl Hr]. unfold GenerateSlug, ToLower, replace_byte.
  replace (isASCII s) with true
    by (symmetry; revert Hb; apply all_bytes_impl; intros c Hs; by apply slug_byte_cases).
  rewrite (map_slug_id lower_byte s); [| done | by apply slug_byte_cases].
  assert (forall f, (forall c, slug_byte c = true -> f c = c) -> map_bytes f s = s) as Hid
    by (intros f; by apply map_slug_id).
  rewrite !Hid by (intros c (_ & _ & ? & ?)%slug_byte_cases; by rewrite bool_decide_eq_false_2).
  rewrite filter_bytes_id, collapse_id by (done || by apply single_hyphens_complete).
  by rewrite Hl.
Qed.

(** slugs are fit for a URL: the slug of any title consists of lower-case
    letters, digits and hyphens, with no two hyphens together and none at an
    end, and the strings of that form are exactly the slugs, each of which is
    its own slug. *)
Theorem slugs_are_url_safe (s : string) :
  url_safe (GenerateSlug s) /\
  (url_safe s <-> GenerateSlug s = s) /\
  GenerateSlug (GenerateSlug s) = GenerateSlug s.
Proof.
  assert (forall t, url_safe (GenerateSlug t)) as Hsafe.
  { intros t. destruct (GenerateSlug_ends t). split; try done; [apply GenerateSlug_bytes |].
    apply single_hyphens_spec, GenerateSlug_single. }
  split; [done |]. split; [| by apply GenerateSlug_id].
  split; [apply GenerateSlug_id |]. intros <-. apply Hsafe.
Qed.

(** A title without a letter or digit of the ASCII range has the empty slug,
    which no URL reaches and which an update would refuse. *)
Lemma titles_may_have_the_empty_slug s :
  isASCII s = false -> all_bytes (fun c => negb (slug_byte c)) (unicode_ToLower s) = true ->
  all_bytes (fun c => negb (bool_decide (c = Ascii.ascii_of_nat 32) || bool_decide (c = Ascii.ascii_of_nat 95)))
    (unicode_ToLower s) = true ->
  GenerateSlug s = "".
Proof.
  intros Ha Hb Hr. unfold GenerateSlug, ToLower. rewrite Ha.
  assert (forall old, old = Ascii.ascii_of_nat 32 \/ old = Ascii.ascii_of_nat 95 ->
    replace_byte old hyphen (unicode_ToLower s) = unicode_ToLower s) as Hrep.
  { intros old Hold. apply map_bytes_id. revert Hr. apply all_bytes_impl. intros c Hc.
    apply bool_decide_eq_true. destruct (decide (c = old)) as [-> | Hne];
      [exfalso | by rewrite bool_decide_eq_false_2].
    by destruct Hold as [-> | ->]; vm_compute in Hc. }
  rewrite !Hrep by auto.
  assert (filter_bytes slug_byte (unicode_ToLower s) = "") as ->; [| done].
  clear -Hb. induction (unicode_ToLower s) as [| c t IH]; [done |]. simpl in *.
  apply andb_true_iff in Hb as [->%negb_true_iff Ht]. auto.
Qed.
End Slugs.

(** ** The slug of a new problem *)

Section Creation.
Context `{CatalogJSON} `{DbCollation} `{DbILike} `{GoUnicode}.

Definition slug_free (db : catdb) (slug : string) : bool := no_row (has_slug slug) (cd_problems db).

(** The slugs that are tried: of the title, then numbered from 1 to 9. *)
Definition candidates (baseSlug : string) : list string :=
  baseSlug :: (next_slug baseSlug <$> seq 1 9).

(** The row of the attempt number [k]. *)
Definition attempt_row (env : catalog_env) (k : nat) (req : CreateProblemRequest) (slug : string)
    (by_ : uuid) (spec : option string) : problem_row :=
  mkProblemRow (ca_fresh env k) slug (cp_Title req) (cp_Summary req) (cp_StatementMarkdown req)
    (cp_TimeLimitMs req) (cp_MemoryLimitMb req) (cp_TestsRef req) None (cp_Visibility req)
    (cp_Difficulty req) (Some by_) (ca_now env k) (ca_now env k) spec.

Definition add_problem (r : problem_row) (db : catdb) : catdb :=
  set_problems db (<[pr_ID r := r]> (cd_problems db)).

Lemma atomic_insert_problem r : atomic (insert_problem r).
Proof.
  assert (forall db, atomic (
    _ ← demand (bool_decide (cd_problems db !! pr_ID r = None)) (unique_violation "problems_pkey");
    _ ← demand (no_row (has_slug (pr_Slug r)) (cd_problems db)) (unique_violation "problems_slug_key");
    _ ← demand (known_author db (pr_CreatedByUserID r))
         (foreign_key_violation "problems" "problems_created_by_user_id_fkey");
    put (set_problems db (<[pr_ID r := r]> (cd_problems db))))) as Hat; [| intros db s' e; apply (Hat db db)].
  intros db. repeat (apply atomic_bind; [eauto with capstone | intros _]). by intros s s' e.
Qed.

Lemma atomic_CreateProblem_row io now fresh req slug by_ :
  atomic (CreateProblem_row io now fresh req slug by_).
Proof.
  apply atomic_execute. do 6 (apply atomic_bind; [eauto using readonly_check_problem with capstone | intros ?]).
  apply atomic_then, atomic_insert_problem.
Qed.

(** An INSERT that succeeds adds a new row under a new identifier, with a slug
    that was free. *)
Lemma CreateProblem_row_ok env k req slug by_ db db' p :
  CreateProblem_row (shift_faults k (ca_io env)) (ca_now env k) (ca_fresh env k) req slug by_ db
    = (db', Ok p) ->
  exists spec, let row := attempt_row env k req slug by_ spec in
   db' = add_problem row db /\ p = problem_of row /\
   cd_problems db !! ca_fresh env k = None /\ slug_free db slug = true.
Proof.
  unfold CreateProblem_row. rewrite execute_ok. intros [_ E]. revert E.
  rewrite bind_ok. intros (? & ? & [_ ->]%int_input_ok & E). revert E.
  rewrite bind_ok. intros (? & ? & [_ ->]%int_input_ok & E). revert E.
  rewrite bind_ok. intros (? & ? & [_ ->]%enum_input_ok & E). revert E.
  rewrite bind_ok. intros (? & ? & [_ ->]%enum_input_ok & E). revert E.
  rewrite bind_ok. intros (d1 & spec & Hspec & E). revert E.
  apply readonly_run in Hspec as ->; [| eauto with capstone].
  rewrite bind_ok. intros (d1 & ? & Hc & E). revert E.
  apply readonly_run in Hc as ->; [| apply readonly_check_problem].
  rewrite bind_ok. intros (d1 & ? & Hins & [= <- <-]). revert Hins. unfold insert_problem.
  rewrite bind_ok. intros (? & ? & [Hid ->]%demand_ok & E). revert E.
  rewrite bind_ok. intros (? & ? & [Hslug ->]%demand_ok & E). revert E.
  rewrite bind_ok. intros (? & ? & [_ ->]%demand_ok & [= <- _]).
  exists spec. split_and!; try done. by apply bool_decide_eq_true in Hid.
Qed.

(** The conditions under which only the slug decides. *)
Record insertable (env : catalog_env) (req : CreateProblemRequest) (by_ : uuid)
    (spec : option string) (db : catdb) : Prop := {
  in_valid : validateCreateRequest req = None;
  in_fits : int4_ok (cp_TimeLimitMs req) = true /\ int4_ok (cp_MemoryLimitMb req) = true;
  in_spec : json_input_opt (spec_param (cp_FunctionSpec req)) db = (db, Ok spec);
  in_author : by_ ∈ cd_users db;
  in_fresh k : (k < 10)%nat -> cd_problems db !! ca_fresh env k = None;
  in_io k : ca_io env k = None
}.

Lemma validateCreateRequest_ok req :
  validateCreateRequest req = None ->
  0 < cp_TimeLimitMs req /\ 0 < cp_MemoryLimitMb req /\
  cp_Visibility req ∈ visibilities /\ cp_Difficulty req ∈ difficulties.
Proof.
  unfold validateCreateRequest, no_label. simpl.
  destruct (bool_decide (cp_Title req = "")); [done |].
  destruct (bool_decide (cp_StatementMarkdown req = "")); [done |].
  destruct (cp_TimeLimitMs req <=? 0) eqn:Ht; [done |].
  destruct (cp_MemoryLimitMb req <=? 0) eqn:Hm; [done |].
  destruct (bool_decide (cp_Visibility req ∈ visibilities)) eqn:Hv; [simpl | done].
  destruct (bool_decide (cp_Difficulty req ∈ difficulties)) eqn:Hd; [simpl | done].
  apply bool_decide_eq_true in Hv, Hd. intros _. split_and!; [lia | lia | done..].
Qed.

(** A valid row meets a free slug or a taken one. *)
Lemma CreateProblem_row_run env req by_ spec db slug k :
  insertable env req by_ spec db -> (k < 10)%nat ->
  CreateProblem_row (shift_faults k (ca_io env)) (ca_now env k) (ca_fresh env k) req slug by_ db =
  if slug_free db slug
  then (add_problem (attempt_row env k req slug by_ spec) db, Ok (problem_of (attempt_row env k req slug by_ spec)))
  else (db, Err (Sentinel ErrProblemSlugConflict)).
Proof.
  intros [Hval [Hi1 Hi2] Hspec Hby Hfresh Hio] Hk.
  destruct (validateCreateRequest_ok req Hval) as (Ht & Hm & Hv & Hd).
  unfold CreateProblem_row, execute, statement, shift_faults. rewrite Nat.add_0_r, Hio.
  unfold int_input, enum_input, check_problem. rewrite Hi1, Hi2, !bool_decide_eq_true_2 by done.
  unfold map_err, mbind, M_bind, demand, mret, M_ret. rewrite Hspec. simpl.
  rewrite !(proj2 (Z.ltb_lt _ _)) by done. unfold insert_problem. simpl.
  rewrite (bool_decide_eq_true_2 (_ = None)) by auto. unfold slug_free. simpl.
  destruct (no_row _ _); [| done]. simpl. by rewrite bool_decide_eq_true_2.
Qed.

(** The slugs that are left to try, with the attempts they are tried in. *)
Fixpoint attempts_left (baseSlug slug : string) (k n : nat) : list (nat * string) :=
  match n with
  | O => []
  | S n => (k, slug) :: attempts_left baseSlug (next_slug baseSlug (S k)) (S k) n
  end.

Lemma attempts_are_the_candidates baseSlug :
  (attempts_left baseSlug baseSlug 0 10).*2 = candidates baseSlug.
Proof. done. Qed.

Lemma create_attempts_run env req by_ spec db base slug k n :
  insertable env req by_ spec db -> (k + n <= 10)%nat ->
  create_attempts env req by_ base slug k n db =
  match List.find (fun ks => slug_free db ks.2) (attempts_left base slug k n) with
  | Some (j, s) => (add_problem (attempt_row env j req s by_ spec) db,
                    Ok (problem_of (attempt_row env j req s by_ spec)))
  | None => (db, Err (Opaque "failed to generate unique slug after 10 attempts"))
  end.
Proof.
  intros Hin. revert slug k. induction n as [| n IH]; intros slug k Hk; [done |].
  cbn [create_attempts attempts_left List.find snd]. unfold mbind, M_bind, attempt.
  rewrite (CreateProblem_row_run _ _ _ _ _ _ _ Hin) by lia.
  destruct (slug_free db slug) eqn:Hfree; [done |]. simpl. apply IH. lia.
Qed.

(** Whatever fails, at most one row is added. *)
Lemma create_attempts_add env req by_ base slug k n db db' r :
  create_attempts env req by_ base slug k n db = (db', r) ->
  (db' = db /\ exists e, r = Err e) \/
  exists j s spec, (j, s) ∈ attempts_left base slug k n /\ slug_free db s = true /\
    cd_problems db !! ca_fresh env j = None /\
    db' = add_problem (attempt_row env j req s by_ spec) db /\
    r = Ok (problem_of (attempt_row env j req s by_ spec)).
Proof.
  revert slug k. induction n as [| n IH]; intros slug k; [intros [= <- <-]; left; eauto |].
  cbn [create_attempts attempts_left]. unfold mbind, M_bind, attempt.
  destruct (CreateProblem_row _ _ _ _ _ _ db) as [d [p | e]] eqn:E.
  - apply CreateProblem_row_ok in E as (spec & -> & -> & Hid & Hs). intros [= <- <-]. right.
    exists k, slug, spec. split_and!; try done. apply list_elem_of_here.
  - apply atomic_CreateProblem_row in E as ->. case_match; [intros [= <- <-]; left; eauto |].
    intros [? | (j & s & spec & Hj & ?)]%IH; [by left | right].
    exists j, s, spec. split; [by apply list_elem_of_further | done].
Qed.

(** C34. a new problem gets the first free slug: of the title's slug and that
    slug numbered from 1 to 9, [CreateProblem] takes the first that no problem
    has, adds one row with it and returns that problem; when all ten are taken
    it ends with an error and adds nothing.  However the statements fail, no
    existing problem is touched and a row that is added has a free slug of
    that list. *)
Theorem creation_takes_the_first_free_slug (env : catalog_env) (req : CreateProblemRequest)
    (by_ : uuid) (spec : option string) (db : catdb) :
  (insertable env req by_ spec db ->
   match List.find (slug_free db) (candidates (GenerateSlug (cp_Title req))) with
   | Some slug => exists k, (k < 10)%nat /\
       CreateProblem env req by_ db =
         (add_problem (attempt_row env k req slug by_ spec) db,
          Ok (problem_of (attempt_row env k req slug by_ spec)))
   | None =>
       CreateProblem env req by_ db =
         (db, Err (Opaque "failed to generate unique slug after 10 attempts"))
   end) /\
  ((CreateProblem env req by_ db).1 = db \/
   exists k slug spec', slug ∈ candidates (GenerateSlug (cp_Title req)) /\ slug_free db slug = true /\
     cd_problems db !! ca_fresh env k = None /\
     (CreateProblem env req by_ db).1 = add_problem (attempt_row env k req slug by_ spec') db).
Proof.
  unfold CreateProblem. set (base := GenerateSlug (cp_Title req)). split.
  - intros Hin. rewrite (in_valid _ _ _ _ _ Hin). unfold checked. cbv zeta.
    rewrite (create_attempts_run _ _ _ _ _ _ _ _ _ Hin) by lia.
    rewrite <- attempts_are_the_candidates.
    assert (Forall (fun ks => (ks.1 < 10)%nat) (attempts_left base base 0 10)) as Hlt
      by (repeat constructor; simpl; lia).
    revert Hlt. generalize (attempts_left base base 0 10) as l.
    induction l as [| [k s] l IH]; [done |]. rewrite Forall_cons. intros [Hk Hl]. simpl.
    destruct (slug_free db s); [by exists k | by apply IH].
  - destruct (validateCreateRequest req); [by left |]. unfold checked. cbv zeta.
    destruct (create_attempts _ _ _ _ _ _ _ db) as [db' r] eqn:E.
    apply create_attempts_add in E as [[-> _] | (j & s & spec' & Hj & Hs & Hid & -> & _)]; [by left | right].
    exists j, s, spec'. split_and!; try done. rewrite <- attempts_are_the_candidates.
    apply list_elem_of_fmap. by exists (j, s).
Qed.
End Creation.
