(* ===== verification/CatalogViews.v ===== *)
(** * Catalogue: what the queries answer

    Rows in their order, pages, and what a listing tells about each problem:
    its tags, its acceptance rate and whether the caller has solved it. *)

From S2P Require Import Prelude GoStrings Sql Driver SubRepo CatalogRepo.
From S2P Require Import CatalogService CatalogFacts.

(** ** Orders *)

#[export] Instance latest_first_order tie : TotalOrder pr_ID tie -> TotalOrder pr_ID (latest_first tie).
Proof. apply (order_then (fun a b => b <? a) Z.eqb pr_CreatedAt); intros; lia. Qed.

#[export] Instance by_index_order tie : TotalOrder tc_ID tie -> TotalOrder tc_ID (by_index tie).
Proof. apply (order_then Z.ltb Z.eqb tc_OrderIndex); intros; lia. Qed.

Section Views.
Context `{CatalogJSON} `{DbCollation} `{DbILike}.

Lemma by_problem_and_name_order : TotalOrder id db_collate -> TotalOrder id by_problem_and_name.
Proof.
  intros Hc. unfold by_problem_and_name.
  split; [intros x y | intros x y z | intros [x a] [y b]; simpl];
    rewrite ?orb_true_iff, ?andb_true_iff, ?N.ltb_lt, ?N.eqb_eq.
  - destruct (N.lt_trichotomy x.1 y.1) as [? | [? | ?]]; [by auto | | by auto].
    destruct (order_total x.2 y.2); auto.
  - intros [? | [? ?]] [? | [? ?]]; [left | left | left | right]; try lia.
    split; [congruence | by eapply order_trans].
  - intros [? | [? ?]] [? | [? ?]]; try lia. f_equal; [done |].
    by apply (order_antisym (key := id)).
Qed.

(** ** Tags *)

(** The names of a problem's rows, in the order of the rows. *)
Definition names_of (q : uuid) (l : list (uuid * string)) : list string :=
  (List.filter (fun row => bool_decide (row.1 = q)) l).*2.

Lemma tags_collected l m q :
  default [] (foldl append_tag m l !! q) = default [] (m !! q) ++ names_of q l.
Proof.
  revert m. induction l as [| [p n] l IH]; intros m; [by rewrite app_nil_r |].
  cbn [foldl]. rewrite IH. unfold names_of, append_tag. simpl. case_bool_decide.
  - subst. rewrite lookup_insert_eq. simpl. by rewrite <- app_assoc.
  - by rewrite lookup_insert_ne.
Qed.

Lemma elem_of_tag_names db ids q n :
  (q, n) ∈ tag_names db ids <->
  q ∈ ids /\ exists t tag, (q, t) ∈ cd_problem_tags db /\ cd_tags db !! t = Some tag /\ tag_Name tag = n.
Proof.
  unfold tag_names. rewrite list_elem_of_omap. split.
  - intros ([q' t] & Hin & Heq). simpl in Heq. case_bool_decide; [| done].
    apply elem_of_elements in Hin. destruct (cd_tags db !! t) as [tag |] eqn:Ht; [| done].
    injection Heq as <- <-. eauto 10.
  - intros (Hq & t & tag & Hin & Ht & <-). exists (q, t). rewrite elem_of_elements. split; [done |].
    simpl. rewrite bool_decide_eq_true_2 by done. by rewrite Ht.
Qed.

Lemma tagged_spec db names r :
  tagged db names r = true <-> exists t tag,
    (pr_ID r, t) ∈ cd_problem_tags db /\ cd_tags db !! t = Some tag /\ tag_Name tag ∈ names.
Proof.
  unfold tagged. rewrite existsb_exists. split.
  - intros ([q t] & Hin & Hq). apply list_elem_of_In, elem_of_elements in Hin. simpl in Hq.
    apply andb_true_iff in Hq as [->%bool_decide_eq_true Ht].
    destruct (cd_tags db !! t) as [tag |] eqn:E; [| done]. apply bool_decide_eq_true in Ht. eauto.
  - intros (t & tag & Hin & Ht & Hn). exists (pr_ID r, t). split.
    + by apply list_elem_of_In, elem_of_elements.
    + simpl. by rewrite Ht, !bool_decide_eq_true_2.
Qed.

Lemma elem_of_names_of q l n : n ∈ names_of q l <-> (q, n) ∈ l.
Proof.
  unfold names_of. rewrite list_elem_of_fmap. split.
  - intros ([p m] & -> & Hin). apply list_elem_of_In, filter_In in Hin as [Hin Hq].
    apply list_elem_of_In in Hin. apply bool_decide_eq_true in Hq. simpl in *. by subst.
  - intros Hin. exists (q, n). split; [done |]. apply list_elem_of_In, filter_In.
    split; [by apply list_elem_of_In | by apply bool_decide_eq_true].
Qed.

(** ** Acceptance rates *)

Definition submitted_to (q : uuid) (s : sub_row) : bool :=
  bool_decide (sr_ProblemID s = q) && bool_decide (sr_Kind s = KindSubmit).
Definition accepted_for (q : uuid) (s : sub_row) : bool :=
  submitted_to q s && bool_decide (sr_Status s = StatusAccepted).

(** What the code's map holds for a problem. *)
Definition rate_of (db : catdb) (q : uuid) : option float64 :=
  let total := Z.of_nat (count_where (submitted_to q) (cd_submissions db)) in
  let accepted := Z.of_nat (count_where (accepted_for q) (cd_submissions db)) in
  if 0 <? total then Some (acceptance_rate accepted total) else None.

Lemma group_counts_spec db ids q :
  q ∈ ids -> group_counts (select_where (counted ids) (cd_submissions db)) q =
  (Z.of_nat (count_where (submitted_to q) (cd_submissions db)),
   Z.of_nat (count_where (accepted_for q) (cd_submissions db))).
Proof.
  intros Hq. unfold group_counts, count_where, select_where. rewrite !filter_filter_and.
  assert (forall s, counted ids s && bool_decide (sr_ProblemID s = q) = submitted_to q s) as Hc.
  { intros s. unfold counted, submitted_to. destruct (decide (sr_ProblemID s = q)) as [-> |].
    - rewrite (bool_decide_eq_true_2 (q ∈ ids)), (bool_decide_eq_true_2 (q = q)) by done.
      by destruct (bool_decide (sr_Kind s = KindSubmit)).
    - rewrite (bool_decide_eq_false_2 (_ = q)) by done. by rewrite andb_false_r. }
  f_equal; f_equal; f_equal; apply filter_agree; intros s _; unfold accepted_for; by rewrite <- Hc.
Qed.

Lemma rates_collected subs ids q (m : gmap uuid float64) :
  q ∉ ids -> foldl (add_rate subs) m ids !! q = m !! q.
Proof.
  revert m. induction ids as [| p ids IH]; intros m Hq; [done |]. cbn [foldl].
  apply not_elem_of_cons in Hq as [Hne Hq]. rewrite IH by done. unfold add_rate.
  destruct (group_counts subs p) as [total accepted]. case_match; [by rewrite lookup_insert_ne | done].
Qed.

Lemma rate_collected subs ids q m :
  q ∈ ids -> NoDup ids -> m !! q = None -> foldl (add_rate subs) m ids !! q =
  let '(total, accepted) := group_counts subs q in
  if 0 <? total then Some (acceptance_rate accepted total) else None.
Proof.
  revert m. induction ids as [| p ids IH]; intros m Hq Hnd Hm; [by apply not_elem_of_nil in Hq |].
  cbn [foldl]. apply NoDup_cons in Hnd as [Hp Hnd]. destruct (decide (p = q)) as [-> | Hne].
  - rewrite rates_collected by done. unfold add_rate. destruct (group_counts subs q).
    case_match; [by rewrite lookup_insert_eq | done].
  - apply elem_of_cons in Hq as [? | Hq]; [congruence |]. apply IH; [done.. |]. unfold add_rate.
    destruct (group_counts subs p) as [total accepted].
    destruct (0 <? total); [by rewrite lookup_insert_ne | done].
Qed.

Lemma rates_spec db ids q :
  q ∈ ids ->
  foldl (add_rate (select_where (counted ids) (cd_submissions db))) ∅
    (remove_dups (sr_ProblemID <$> select_where (counted ids) (cd_submissions db))) !! q = rate_of db q.
Proof.
  intros Hq. set (subs := select_where (counted ids) (cd_submissions db)).
  destruct (decide (q ∈ sr_ProblemID <$> subs)) as [Hin | Hout].
  - rewrite rate_collected; [| by apply elem_of_remove_dups | apply NoDup_remove_dups | done].
    unfold subs. by rewrite group_counts_spec.
  - rewrite rates_collected by by rewrite elem_of_remove_dups.
    rewrite lookup_empty. unfold rate_of. case_match eqn:Hpos; [| done]. exfalso. apply Hout.
    apply Z.ltb_lt in Hpos.
    destruct (select_where (submitted_to q) (cd_submissions db)) as [| s l] eqn:E;
      [unfold count_where in Hpos; rewrite E in Hpos; simpl in Hpos; lia |].
    assert (s ∈ select_where (submitted_to q) (cd_submissions db)) as Hs by (rewrite E; apply list_elem_of_here).
    apply elem_of_select_where in Hs as [Hsub Hk].
    unfold submitted_to in Hsub. apply andb_true_iff in Hsub as [Hid Hkind].
    apply bool_decide_eq_true in Hid. apply list_elem_of_fmap. exists s. split; [done |].
    apply elem_of_select_where. split; [| done]. unfold counted.
    by rewrite Hid, Hkind, bool_decide_eq_true_2.
Qed.

(** ** Solved problems *)

(** The user has an accepted submission for the problem. *)
Definition solved (db : catdb) (u q : uuid) : Prop :=
  exists k s, cd_submissions db !! k = Some s /\ sr_UserID s = u /\ sr_ProblemID s = q /\
    sr_Status s = StatusAccepted /\ sr_Kind s = KindSubmit.

Lemma solved_ids_spec db u ids q :
  q ∈ remove_dups (sr_ProblemID <$> select_where (solved_by u ids) (cd_submissions db)) <->
  q ∈ ids /\ solved db u q.
Proof.
  rewrite elem_of_remove_dups, list_elem_of_fmap. unfold solved, solved_by. split.
  - intros (s & -> & Hs). apply elem_of_select_where in Hs as [Hs [k Hk]].
    rewrite !andb_true_iff, !bool_decide_eq_true in Hs. naive_solver.
  - intros [Hq (k & s & Hk & <- & <- & Hst & Hkd)]. exists s. split; [done |].
    apply elem_of_select_where. split; [| by exists k].
    by rewrite !andb_true_iff, !bool_decide_eq_true.
Qed.

(** ** What a listing shows *)

Definition solved_ids (db : catdb) (u : option uuid) (ids : list uuid) : list uuid :=
  match u with
  | None => []
  | Some u => remove_dups (sr_ProblemID <$> select_where (solved_by u ids) (cd_submissions db))
  end.

(** A problem of a listing with what its tables tell. *)
Definition told (db : catdb) (u : option uuid) (ids : list uuid) (p : Problem) : Problem :=
  mkProblem (pb_ID p) (pb_Slug p) (pb_Title p) (pb_Summary p) (pb_StatementMarkdown p)
    (pb_TimeLimitMs p) (pb_MemoryLimitMb p) (pb_TestsRef p) (pb_TestsHash p) (pb_Visibility p)
    (pb_Difficulty p) (pb_CreatedByUserID p) (pb_CreatedAt p) (pb_UpdatedAt p)
    (names_of (pb_ID p) (order_by by_problem_and_name (tag_names db ids)))
    (rate_of db (pb_ID p)) (bool_decide (pb_ID p ∈ solved_ids db u ids)) (pb_FunctionSpec p).

Definition page (env : catalog_env) (filters : ProblemFilters) (limit offset : Z) (db : catdb)
  : list Problem :=
  problem_of <$> limited (clamp_limit limit) (clamp_offset offset) (catalogue (ca_tie env) filters db).

Lemma GetTagsOfProblems_ok io ids db db' m :
  GetTagsOfProblems io ids db = (db', Ok m) ->
  forall q, q ∈ ids -> default [] (m !! q) = names_of q (order_by by_problem_and_name (tag_names db ids)).
Proof.
  destruct ids as [| i ids]; [intros _ q Hq; by apply not_elem_of_nil in Hq |].
  unfold GetTagsOfProblems. rewrite select_rows_ok. intros (_ & _ & _ & ->) q _.
  by rewrite tags_collected, lookup_empty.
Qed.

Lemma GetAcceptanceRates_ok io ids db db' m :
  GetAcceptanceRates io ids db = (db', Ok m) -> forall q, q ∈ ids -> m !! q = rate_of db q.
Proof.
  destruct ids as [| i ids]; [intros _ q Hq; by apply not_elem_of_nil in Hq |].
  unfold GetAcceptanceRates. rewrite select_rows_ok. intros (_ & _ & _ & ->) q Hq.
  by apply rates_spec.
Qed.

Lemma GetSolvedProblemIDs_ok io u ids db db' l :
  ids <> [] -> GetSolvedProblemIDs io u ids db = (db', Ok l) -> l = solved_ids db (Some u) ids.
Proof.
  destruct ids as [| i ids]; [done |]. intros _. unfold GetSolvedProblemIDs.
  rewrite select_rows_ok. by intros (_ & _ & _ & ->).
Qed.

Lemma enriched_told db u ids tagsMap rates p :
  pb_ID p ∈ ids -> pb_AcceptanceRate p = None ->
  (forall q, q ∈ ids -> default [] (tagsMap !! q) =
     names_of q (order_by by_problem_and_name (tag_names db ids))) ->
  (forall q, q ∈ ids -> rates !! q = rate_of db q) ->
  enriched tagsMap rates (list_to_set (solved_ids db u ids)) p = told db u ids p.
Proof.
  intros Hp Hr Ht Hrates. unfold enriched, told. rewrite Ht, Hrates, Hr by done. f_equal.
  - by destruct (rate_of db (pb_ID p)).
  - apply bool_decide_ext. by rewrite elem_of_list_to_set.
Qed.

Lemma ListProblem_rows_ok io tie filters limit offset db db' l :
  ListProblem_rows io tie filters limit offset db = (db', Ok l) ->
  l = problem_of <$> limited limit offset (catalogue tie filters db).
Proof.
  intros [a [_ Hl]]%readonly_bind_ok; [| apply readonly_statement, readonly_map_err; eauto with capstone].
  rewrite statement_ok in Hl. by destruct Hl as [_ [= _ <-]].
Qed.

Lemma CountProblems_ok io filters db db' n :
  CountProblems io filters db = (db', Ok n) ->
  n = Z.of_nat (count_where (matches db filters) (cd_problems db)).
Proof.
  unfold CountProblems. rewrite execute_ok. intros [_ Hn].
  apply readonly_bind_ok in Hn as [a [_ Hn]]; [| eauto with capstone]. by injection Hn as _ <-.
Qed.

Lemma page_rows env filters limit offset db p :
  p ∈ page env filters limit offset db -> exists r, p = problem_of r.
Proof. intros (r & -> & _)%list_elem_of_fmap. eauto. Qed.

(** A listing that succeeds: the page of the catalogue, the number of its
    rows, and what the tables tell of each problem. *)
Lemma ListProblems_ok env filters u limit offset db db' ps total :
  ListProblems env filters u limit offset db = (db', Ok (ps, total)) ->
  total = Z.of_nat (length (catalogue (ca_tie env) filters db)) /\
  ps = told db u (pb_ID <$> page env filters limit offset db) <$> page env filters limit offset db.
Proof.
  unfold ListProblems. intros (l & Hl & E)%readonly_bind_ok; [| apply readonly_ListProblem_rows].
  apply ListProblem_rows_ok in Hl. fold (page env filters limit offset db) in Hl. subst l.
  apply readonly_bind_ok in E as (n & Hn & E); [| apply readonly_CountProblems].
  apply CountProblems_ok in Hn. subst n. unfold catalogue. rewrite length_order_by.
  destruct (page env filters limit offset db) as [| p0 pg] eqn:Hpg; [by injection E as <- <- <- |].
  rewrite <- Hpg in *. set (ids := pb_ID <$> page env filters limit offset db) in *.
  assert (ids <> []) as Hne by (unfold ids; by rewrite Hpg).
  apply readonly_bind_ok in E as (tm & Ht%map_err_ok & E);
    [| apply readonly_map_err, readonly_GetTagsOfProblems].
  apply readonly_bind_ok in E as (rm & Hr%map_err_ok & E);
    [| apply readonly_map_err, readonly_GetAcceptanceRates].
  apply readonly_bind_ok in E as (sl & Hs & E);
    [| destruct u; [apply readonly_map_err, readonly_GetSolvedProblemIDs | done]].
  assert (sl = solved_ids db u ids) as ->.
  { destruct u; [by apply map_err_ok, GetSolvedProblemIDs_ok in Hs | by injection Hs as <-]. }
  injection E as <- <- <-. split; [done |]. apply list_fmap_ext. intros i p Hp%list_elem_of_lookup_2.
  apply enriched_told; [by apply list_elem_of_fmap_2 | by apply page_rows in Hp as [r ->] | |].
  - exact (GetTagsOfProblems_ok _ _ _ _ _ Ht).
  - exact (GetAcceptanceRates_ok _ _ _ _ _ Hr).
Qed.
End Views.
