(* ===== verification/CatalogListings.v ===== *)
(** * Catalogue: listings

    The pages that a listing cuts, and the truth of what it tells. *)

From stdpp Require Import sorting.
From S2P Require Import Prelude GoStrings Sql Driver SubRepo CatalogRepo.
From S2P Require Import CatalogService CatalogFacts CatalogViews.

Section Listings.
Context `{CatalogJSON} `{DbCollation} `{DbILike} `{GoUnicode}.

Lemma clamp_limit_bounds limit : 1 <= clamp_limit limit <= 100.
Proof. unfold clamp_limit. repeat case_match; lia. Qed.

Lemma clamp_limit_id limit : 1 <= limit <= 100 -> clamp_limit limit = limit.
Proof. intros Hl. unfold clamp_limit. repeat case_match; lia. Qed.

Lemma clamp_offset_bounds offset : clamp_offset offset = Z.max 0 offset.
Proof. unfold clamp_offset. case_match; lia. Qed.

Lemma limited_cut {A} limit offset (l : list A) :
  0 < limit -> 0 <= offset -> limited limit offset l = take (Z.to_nat limit) (drop (Z.to_nat offset) l).
Proof.
  intros Hl Ho. unfold limited. rewrite (proj2 (Z.ltb_lt 0 limit)) by lia.
  destruct (Z.ltb_spec 0 offset); [done |]. by replace offset with 0 by lia.
Qed.

Lemma page_cut env filters limit offset db :
  page env filters limit offset db =
  problem_of <$> take (Z.to_nat (clamp_limit limit))
    (drop (Z.to_nat (Z.max 0 offset)) (catalogue (ca_tie env) filters db)).
Proof.
  unfold page. pose proof (clamp_limit_bounds limit). rewrite clamp_offset_bounds.
  by rewrite limited_cut by lia.
Qed.

Lemma elem_of_catalogue tie filters db r :
  r ∈ catalogue tie filters db <-> matches db filters r = true /\ exists k, cd_problems db !! k = Some r.
Proof. unfold catalogue. rewrite elem_of_order_by. apply elem_of_select_where. Qed.

Lemma NoDup_catalogue tie filters db : catalog_wf db -> NoDup (pr_Slug <$> catalogue tie filters db).
Proof.
  intros Hdb. unfold catalogue. rewrite order_by_perm. by eapply NoDup_column, cw_problems.
Qed.

(** Pages of [L] that follow each other. *)
Lemma pages_join {A} (L n : nat) (l : list A) :
  (seq 0 n) ≫= (fun k => take L (drop (k * L) l)) = take (n * L) l.
Proof.
  induction n as [| n IH]; [done |]. rewrite seq_S, bind_app, IH. simpl.
  rewrite app_nil_r. rewrite Nat.add_comm. symmetry. rewrite <- (take_drop (n * L) l) at 1.
  rewrite take_app, take_take. f_equal.
  - f_equal. lia.
  - rewrite length_take. destruct (le_lt_dec (n * L) (length l)).
    + f_equal. lia.
    + by rewrite !drop_ge, !take_nil by lia.
Qed.

Lemma fmap_of_bind {A B C} (f : B -> C) (g : A -> list B) (l : list A) :
  f <$> (l ≫= g) = l ≫= (fun x => f <$> g x).
Proof. induction l as [| a l IH]; [done |]. by rewrite !bind_cons, fmap_app, IH. Qed.

(** The times of the problems that match, newest first.  The queries order by
    these alone: problems of the same time come in an order of each query's
    own. *)
Definition times_listed (filters : ProblemFilters) (db : catdb) : list Z :=
  order_by (fun a b => b <=? a) (pr_CreatedAt <$> select_where (matches db filters) (cd_problems db)).

#[local] Instance newest_order : TotalOrder (fun z : Z => z) (fun a b => b <=? a).
Proof. split; intros; rewrite ?Z.leb_le in *; lia. Qed.

Lemma catalogue_times tie filters db :
  TotalOrder pr_ID tie -> pr_CreatedAt <$> catalogue tie filters db = times_listed filters db.
Proof.
  intros Htie. apply (@ordered_unique Z Z (fun z => z) _ newest_order).
  - by intros x y _ _.
  - apply (sorted_fmap (fun x y => latest_first tie x y = true));
      [| by apply (order_by_sorted pr_ID (latest_first tie))].
    intros x y. unfold latest_first. rewrite Z.leb_le. lia.
  - apply (@order_by_sorted Z Z (fun z => z) _ newest_order).
  - unfold times_listed, catalogue. by rewrite !order_by_perm.
Qed.

Lemma bind_seq_ext {A} (f g : nat -> list A) n :
  (forall k, (k < n)%nat -> f k = g k) -> seq 0 n ≫= f = seq 0 n ≫= g.
Proof.
  intros Hfg. induction n as [| n IH]; [done |]. rewrite !seq_S, !bind_app. cbn.
  rewrite !app_nil_r, Hfg, IH by auto with lia. done.
Qed.

(** Lists of the same elements, with the same times in the same places, are
    the same when no time is repeated. *)
Lemma same_times {A B} (f : A -> B) (l l' : list A) :
  l ≡ₚ l' -> f <$> l = f <$> l' -> NoDup (f <$> l) -> l = l'.
Proof.
  intros Hp Hf Hnd. apply list_eq. intros i.
  assert (forall x, l !! i = Some x -> l' !! i = Some x) as Hsome.
  { intros x Hx. assert ((f <$> l') !! i = Some (f x)) as Hy by (by rewrite <- Hf, list_lookup_fmap, Hx).
    rewrite list_lookup_fmap in Hy. apply fmap_Some in Hy as (y & Hy & Heq). rewrite Hy. f_equal.
    assert (y ∈ l) as [j Hj]%list_elem_of_lookup by (rewrite Hp; by eapply list_elem_of_lookup_2).
    assert (i = j) as <-; [| congruence].
    eapply NoDup_lookup; [exact Hnd | |]; rewrite list_lookup_fmap; [by rewrite Hx | by rewrite Hj, Heq]. }
  destruct (l !! i) as [x |] eqn:Hx; [symmetry; by apply Hsome |].
  symmetry. apply lookup_ge_None. apply lookup_ge_None in Hx.
  apply (f_equal length) in Hf. rewrite !length_fmap in Hf. lia.
Qed.

Lemma catalogue_one tie tie' filters db :
  TotalOrder pr_ID tie -> TotalOrder pr_ID tie' -> NoDup (times_listed filters db) ->
  catalogue tie filters db = catalogue tie' filters db.
Proof.
  intros Htie Htie' Hnd. apply (same_times pr_CreatedAt).
  - unfold catalogue. by rewrite !order_by_perm.
  - by rewrite !catalogue_times.
  - by rewrite catalogue_times.
Qed.

(** C35. A listing is a page of the catalogue.  The problems that match the
    filters, in an order of the query's own that is newest first, make a list
    without repetitions; a listing counts them all and shows at most a
    hundred consecutive ones, from the offset on.  Whatever the orders of
    different queries are, their times are in the same places.  So when no
    two of the problems are of the same time, the pages of any size from 1 to
    100 that follow each other, each its own query, are joined the beginning
    of one list: none is shown twice or left out.  (Problems of the same time
    may be, as an example shows.) *)
Theorem pages_cut_the_catalogue (filters : ProblemFilters) (u : option uuid) (db : catdb) :
  catalog_wf db ->
  (forall env limit offset db' ps total,
     TotalOrder pr_ID (ca_tie env) ->
     ListProblems env filters u limit offset db = (db', Ok (ps, total)) ->
     let cut {A} (l : list A) := take (Z.to_nat (clamp_limit limit)) (drop (Z.to_nat (Z.max 0 offset)) l) in
     exists all, NoDup (pr_Slug <$> all) /\
       (forall r, r ∈ all <-> matches db filters r = true /\ exists k, cd_problems db !! k = Some r) /\
       total = Z.of_nat (length all) /\ (length ps <= 100)%nat /\
       pb_ID <$> ps = pr_ID <$> cut all /\
       pr_CreatedAt <$> all = times_listed filters db /\
       pb_CreatedAt <$> ps = cut (times_listed filters db)) /\
  (NoDup (times_listed filters db) ->
   exists all, NoDup (pr_Slug <$> all) /\
     (forall r, r ∈ all <-> matches db filters r = true /\ exists k, cd_problems db !! k = Some r) /\
     forall limit n (envs : nat -> catalog_env) (pages : nat -> list Problem),
       1 <= limit <= 100 ->
       (forall k, (k < n)%nat -> TotalOrder pr_ID (ca_tie (envs k)) /\ exists db' total,
          ListProblems (envs k) filters u limit (Z.of_nat k * limit) db = (db', Ok (pages k, total))) ->
       pb_ID <$> (seq 0 n ≫= pages) = pr_ID <$> take (n * Z.to_nat limit) all).
Proof.
  intros Hdb. split.
  - intros env limit offset db' ps total Htie (-> & ->)%ListProblems_ok cut.
    exists (catalogue (ca_tie env) filters db).
    split_and!; [by apply NoDup_catalogue | apply elem_of_catalogue | done | | | by apply catalogue_times |].
    + rewrite page_cut, !length_fmap, length_take. pose proof (clamp_limit_bounds limit). lia.
    + rewrite page_cut, <- !list_fmap_compose. by apply list_fmap_ext.
    + rewrite page_cut, <- (catalogue_times (ca_tie env)) by done. unfold cut.
      rewrite <- fmap_drop, <- fmap_take, <- !list_fmap_compose. by apply list_fmap_ext.
  - intros Hnd. exists (catalogue (by_id pr_ID) filters db).
    split_and!; [by apply NoDup_catalogue | apply elem_of_catalogue |].
    intros limit n envs pages Hl Hpages.
    rewrite <- (pages_join (Z.to_nat limit) n), !fmap_of_bind. apply bind_seq_ext. intros k Hk.
    destruct (Hpages k Hk) as (Htie & db' & total & (_ & ->)%ListProblems_ok).
    rewrite page_cut, clamp_limit_id, (catalogue_one (ca_tie (envs k)) (by_id pr_ID)) by (done || apply by_id_order).
    rewrite <- !list_fmap_compose. replace (Z.to_nat (Z.max 0 (Z.of_nat k * limit))) with (k * Z.to_nat limit)%nat by lia.
    by apply list_fmap_ext.
Qed.

(** a listing tells the truth: a problem of a successful listing is shown
    as solved exactly when the caller has an accepted submission of the kind
    "submit" for it; its acceptance rate is that of all such submissions,
    and is left out when there are none; its tags are those linked to it.
    A single problem that is shown as solved is solved. *)
Theorem listings_tell_the_truth (env : catalog_env) (filters : ProblemFilters) (u : option uuid)
    (limit offset : Z) (db : catdb) :
  (forall db' ps total p,
     ListProblems env filters u limit offset db = (db', Ok (ps, total)) -> p ∈ ps ->
     (pb_IsSolved p = true <-> exists user, u = Some user /\ solved db user (pb_ID p)) /\
     pb_AcceptanceRate p = rate_of db (pb_ID p) /\
     (forall n, n ∈ pb_Tags p <-> exists t tag,
        (pb_ID p, t) ∈ cd_problem_tags db /\ cd_tags db !! t = Some tag /\ tag_Name tag = n)) /\
  (forall id db' p,
     GetProblem env id u db = (db', Ok p) -> pb_IsSolved p = true ->
     exists user, u = Some user /\ solved db user (pb_ID p)).
Proof.
  split.
  - intros db' ps total p (_ & ->)%ListProblems_ok Hp.
    apply list_elem_of_fmap in Hp as (q & -> & Hq). simpl.
    assert (pb_ID q ∈ pb_ID <$> page env filters limit offset db) as Hid by by apply list_elem_of_fmap_2.
    split_and!; [| done |].
    + rewrite bool_decide_eq_true. destruct u as [u |]; simpl.
      * rewrite solved_ids_spec. naive_solver.
      * split; [by intros Hin%not_elem_of_nil | naive_solver].
    + intros n. rewrite elem_of_names_of, elem_of_order_by, elem_of_tag_names. naive_solver.
  - intros id db' p (q & Hq & E)%readonly_bind_ok Hs; [| apply readonly_GetProblemByID].
    assert (pb_IsSolved q = false) as Hno.
    { apply statement_ok in Hq as [_ Hq]. injection Hq as Hq. by case_match; simplify_eq/=. }
    unfold enrichSingleSolved in E. destruct u as [u |]; [| injection E as <- <-; congruence].
    exists u. split; [done |]. apply readonly_bind_ok in E as (r & Hr & E);
      [| apply readonly_attempt, readonly_GetSolvedProblemIDs].
    destruct r as [ids |]; [| injection E as <- <-; congruence].
    unfold attempt in Hr. destruct (GetSolvedProblemIDs _ _ _ db) as [d [l |]] eqn:El; [| done].
    injection Hr as _ <-. apply GetSolvedProblemIDs_ok in El as ->; [| done].
    revert E. case_match eqn:Hex; intros [= <- <-]; [| congruence].
    apply existsb_exists in Hex as (x & Hx & Heq). apply bool_decide_eq_true in Heq. subst x.
    apply list_elem_of_In in Hx. by apply solved_ids_spec in Hx as [_ Hx].
Qed.
End Listings.
