(* ===== verification/CatalogLinks.v ===== *)
(** * Catalogue: test cases, tags and languages

    The lists of test cases that administrators, the public and the
    submissions see, and the replacement of a problem's tags and languages. *)

From stdpp Require Import sorting.
From S2P Require Import Prelude GoStrings Sql Driver SubRepo CatalogRepo.
From S2P Require Import CatalogService CatalogFacts CatalogViews.

(** ** The submissions' view of the tables *)

Definition sub_case (tc : TestCase) : ProblemTestCase :=
  mkProblemTestCase (tc_ID tc) (tc_ProblemID tc) (tc_ExternalID tc) (tc_InputData tc)
    (tc_ExpectedData tc) (tc_OrderIndex tc) (tc_IsActive tc) (tc_IsHidden tc).

Definition sub_language (l : Language) : language_row := mkLanguageRow (lang_Key l) (lang_IsEnabled l).

(** The two components look at the same tables. *)
Record same_tables (db : catdb) (sdb : subdb) : Prop := {
  st_cases : sd_test_cases sdb = sub_case <$> cd_test_cases db;
  st_languages : sd_languages sdb = sub_language <$> cd_languages db;
  st_links : sd_problem_languages sdb = cd_problem_languages db
}.

Lemma rows_fmap {V W} (f : V -> W) (t : gmap uuid V) : rows (f <$> t) = f <$> rows t.
Proof. unfold rows. by rewrite map_to_list_fmap, <- !list_fmap_compose. Qed.

Lemma select_fmap {V W} (f : V -> W) (P : V -> bool) (Q : W -> bool) (t : gmap uuid V) :
  (forall v, Q (f v) = P v) -> select_where Q (f <$> t) = f <$> select_where P t.
Proof.
  intros HQ. unfold select_where. rewrite rows_fmap. induction (rows t) as [| v l IH]; [done |].
  rewrite fmap_cons. cbn [List.filter]. rewrite HQ, IH. by destruct (P v).
Qed.

#[export] Instance by_order_index_order tie : TotalOrder pt_ID tie -> TotalOrder pt_ID (by_order_index tie).
Proof. apply (order_then Z.ltb Z.eqb pt_OrderIndex); intros; lia. Qed.

Section TestCases.
Context (tie : TestCase -> TestCase -> bool) (tie' : ProblemTestCase -> ProblemTestCase -> bool).
Context `{!TotalOrder tc_ID tie, !TotalOrder pt_ID tie'}.
Hypothesis ties : forall x y, tie' (sub_case x) (sub_case y) = tie x y.

Lemma ListTestCases_ok io q db db' tcs :
  ListTestCases io tie q db = (db', Ok tcs) <->
  io 0%nat = None /\ io 1%nat = None /\ db' = db /\
  tcs = order_by (by_index tie) (select_where (active_of q) (cd_test_cases db)).
Proof. unfold ListTestCases. by rewrite select_rows_ok. Qed.

Lemma public_is_filtered q db : keyed tc_ID case_key (cd_test_cases db) ->
  order_by (by_index tie) (select_where (public_of q) (cd_test_cases db)) =
  List.filter (fun tc => negb (tc_IsHidden tc))
    (order_by (by_index tie) (select_where (active_of q) (cd_test_cases db))).
Proof using TotalOrder0.
  intros Hk. rewrite <- (order_by_filter tc_ID (by_index tie)) by by eapply keyed_injective.
  unfold select_where. by rewrite filter_filter_and.
Qed.

Lemma submissions_cases q db sdb :
  keyed tc_ID case_key (cd_test_cases db) -> same_tables db sdb ->
  order_by (by_order_index tie') (select_where (active_case q) (sd_test_cases sdb)) =
  sub_case <$> order_by (by_index tie) (select_where (active_of q) (cd_test_cases db)).
Proof using All.
  intros Hk Hst. rewrite (st_cases _ _ Hst), (select_fmap _ (active_of q)) by done.
  apply (order_by_fmap tc_ID pt_ID (by_index tie) (by_order_index tie')).
  { intros x y (a & -> & Ha)%list_elem_of_fmap (b & -> & Hb)%list_elem_of_fmap Heq. f_equal.
    by apply (keyed_injective _ _ _ (active_of q) Hk). }
  intros x y. unfold by_order_index, by_index. by rewrite ties.
Qed.

Lemma deleted_case io id db db' :
  keyed tc_ID case_key (cd_test_cases db) -> DeleteTestCase io id db = (db', Ok tt) ->
  forall q, order_by (by_index tie) (select_where (active_of q) (cd_test_cases db')) =
  List.filter (fun tc => negb (bool_decide (tc_ID tc = id)))
    (order_by (by_index tie) (select_where (active_of q) (cd_test_cases db))).
Proof using TotalOrder0.
  intros Hk. unfold DeleteTestCase. rewrite statement_ok. intros [_ Hd] q.
  rewrite <- (order_by_filter tc_ID (by_index tie)) by by eapply keyed_injective.
  symmetry. apply (order_by_canonical tc_ID (by_index tie)).
  { intros x y. rewrite !list_elem_of_In, !filter_In, <- !list_elem_of_In. intros [? _] [? _].
    by apply (keyed_injective _ _ _ (active_of q) Hk). }
  revert Hd. destruct (update_key_cases id tc_IsActive deactivate (cd_test_cases db)) as
    [(tc & Htc & Ha & ->) | [_ ->]]; [| simpl; by case_match]. simpl. intros [= <- _]. simpl. symmetry.
  unfold select_where at 2. rewrite filter_filter_and. apply select_perm. intros k x.
  rewrite lookup_insert_Some, andb_true_iff, negb_true_iff, bool_decide_eq_false. split.
  - intros [[[<- <-] | [Hne Hx]] Hact].
    + unfold active_of, deactivate in Hact. simpl in Hact. by rewrite andb_false_r in Hact.
    + split; [done |]. split; [done |]. intros Heq. apply Hne. rewrite <- Heq.
      apply (keyed_key _ _ _ Hk _ _ Hx).
  - intros (Hx & Hact & Hne). split; [| done]. right. split; [| done]. intros <-. apply Hne.
    apply (keyed_key _ _ _ Hk _ _ Hx).
Qed.

(** there is one list of a problem's test cases: what the submissions run
    is what the administrators' list shows, in its order; the public list is
    that list without the hidden ones; and a deleted test case leaves all
    three, which otherwise stay as they were. *)
Theorem test_case_lists_agree (io io1 io2 io3 : faults) (q id : uuid) (db db' : catdb) (sdb : subdb)
    (tcs pub : list TestCase) (run : list ProblemTestCase) :
  catalog_wf db -> same_tables db sdb ->
  ListTestCases io tie q db = (db, Ok tcs) ->
  (ListPublicTestCases io1 tie q db = (db, Ok pub) ->
     pub = List.filter (fun tc => negb (tc_IsHidden tc)) tcs) /\
  (GetTestCasesForProblem io2 tie' q sdb = (sdb, Ok run) -> run = sub_case <$> tcs) /\
  (DeleteTestCase io3 id db = (db', Ok tt) ->
     forall io' tcs', ListTestCases io' tie q db' = (db', Ok tcs') ->
     tcs' = List.filter (fun tc => negb (bool_decide (tc_ID tc = id))) tcs).
Proof using All.
  intros Hwf Hst (_ & _ & _ & ->)%ListTestCases_ok. split_and!.
  - unfold ListPublicTestCases. rewrite select_rows_ok. intros (_ & _ & _ & ->).
    apply public_is_filtered, Hwf.
  - unfold GetTestCasesForProblem. rewrite statement_ok. intros [_ [= <-]].
    apply submissions_cases; [apply Hwf | done].
  - intros Hd io' tcs' (_ & _ & _ & ->)%ListTestCases_ok. eapply deleted_case; [apply cw_cases |]; eauto.
Qed.
End TestCases.

(** ** Replacing a problem's tags and languages *)

(** The links of one problem become [ids], the others stay. *)
Definition links_become (q : uuid) (ids : list uuid) (before after : gset (uuid * uuid)) : Prop :=
  forall p l, (p, l) ∈ after <-> if decide (p = q) then l ∈ ids else (p, l) ∈ before.

Section Replacing.
Context `{CatalogJSON} `{DbCollation} `{DbILike}.

Lemma demand_put (b : bool) text (k : cat_sql ()) (s s' : catdb) u :
  (_ ← demand b text; k) s = (s', Ok u) <-> b = true /\ k s = (s', Ok u).
Proof. destruct b; mrun; naive_solver. Qed.

Lemma insert_problem_tag_ok q t db db' u :
  insert_problem_tag q t db = (db', Ok u) <->
  (q, t) ∉ cd_problem_tags db /\ is_Some (cd_problems db !! q) /\ is_Some (cd_tags db !! t) /\
  db' = set_problem_tags db ({[(q, t)]} ∪ cd_problem_tags db).
Proof.
  unfold insert_problem_tag. rewrite !demand_put, !bool_decide_eq_true. destruct u. unfold put. naive_solver.
Qed.

Lemma insert_problem_language_ok q l db db' u :
  insert_problem_language q l db = (db', Ok u) ->
  db' = set_problem_languages db ({[(q, l)]} ∪ cd_problem_languages db) /\
  ((q, l) ∈ cd_problem_languages db \/ is_Some (cd_languages db !! l)).
Proof.
  unfold insert_problem_language. case_bool_decide as Hin.
  - intros [= <- <-]. split; [| by left]. replace ({[(q, l)]} ∪ cd_problem_languages db) with (cd_problem_languages db)
      by set_solver. by destruct db.
  - rewrite !demand_put, !bool_decide_eq_true. unfold put. intros (_ & ? & [= <- _]). auto.
Qed.

(** What a loop of INSERTs leaves. *)
Lemma insert_each_tags io q ids db db' u :
  insert_each io (insert_problem_tag q) ids db = (db', Ok u) ->
  db' = set_problem_tags db (cd_problem_tags db') /\
  (forall p t, (p, t) ∈ cd_problem_tags db' <-> (p, t) ∈ cd_problem_tags db \/ (p = q /\ t ∈ ids)) /\
  NoDup ids /\ (forall t, t ∈ ids -> (q, t) ∉ cd_problem_tags db /\ is_Some (cd_tags db !! t)).
Proof.
  revert io db. induction ids as [| t ids IH]; intros io db; cbn [insert_each].
  - rewrite statement_ok. intros [_ [= <- _]]. split_and!; [by destruct db | | constructor |].
    + intros p t. rewrite elem_of_nil. naive_solver.
    + intros t Ht. by apply not_elem_of_nil in Ht.
  - rewrite bind_ok. intros (d & [] & Hi & Hrest). apply execute_ok in Hi as [_ Hi].
    apply insert_problem_tag_ok in Hi as (Hnew & _ & Ht & ->).
    apply IH in Hrest as (Hdb & Hlinks & Hnd & Hall). simpl in *.
    assert (t ∉ ids) as Hfresh.
    { intros Hin. destruct (Hall t Hin) as [Hno _]. apply Hno. by apply elem_of_union_l, elem_of_singleton. }
    split_and!; [done | | by constructor |].
    + intros p x. rewrite Hlinks, elem_of_union, elem_of_singleton, elem_of_cons. naive_solver.
    + intros x [-> | Hx]%elem_of_cons; [done |]. destruct (Hall x Hx) as [Hno Hx']. split; [| done].
      intros Hin. apply Hno. by apply elem_of_union_r.
Qed.

Lemma insert_each_languages io q ids db db' u :
  insert_each io (insert_problem_language q) ids db = (db', Ok u) ->
  db' = set_problem_languages db (cd_problem_languages db') /\
  (forall p l, (p, l) ∈ cd_problem_languages db' <->
     (p, l) ∈ cd_problem_languages db \/ (p = q /\ l ∈ ids)).
Proof.
  revert io db. induction ids as [| l ids IH]; intros io db; cbn [insert_each].
  - rewrite statement_ok. intros [_ [= <- _]]. split; [by destruct db |].
    intros p l. rewrite elem_of_nil. naive_solver.
  - rewrite bind_ok. intros (d & [] & Hi & Hrest). apply execute_ok in Hi as [_ Hi].
    apply insert_problem_language_ok in Hi as [-> _].
    apply IH in Hrest as [Hdb Hlinks]. simpl in *. split; [done |].
    intros p x. rewrite Hlinks, elem_of_union, elem_of_singleton, elem_of_cons. naive_solver.
Qed.

Lemma transaction_ok {A} (m : cat_op A) s s' a : transaction m s = (s', Ok a) <-> m s = (s', Ok a).
Proof. unfold transaction. destruct (m s) as [s1 [b | e]]; naive_solver. Qed.

Lemma atomic_transaction {A} (m : cat_op A) : atomic (transaction m).
Proof. intros s s' e. unfold transaction. destruct (m s) as [s1 [b | e1]]; [done | by intros [= <- <-]]. Qed.

Lemma dedup_ids_ok seen ids l :
  dedup_ids seen ids = Ok l -> uuid_Nil ∉ ids /\ (forall x, x ∈ seen \/ x ∈ l <-> x ∈ seen \/ x ∈ ids).
Proof.
  revert seen l. induction ids as [| i ids IH]; intros seen l; cbn [dedup_ids].
  - intros [= <-]. split; [apply not_elem_of_nil | done].
  - case_bool_decide as Hnil; [done |]. case_bool_decide as Hseen.
    + intros [Hn Hx]%IH. split; [by rewrite not_elem_of_cons |].
      intros x. rewrite Hx, elem_of_cons. naive_solver.
    + destruct (dedup_ids ({[i]} ∪ seen) ids) as [l' |] eqn:E; [| done]. intros [= <-].
      apply IH in E as [Hn Hx]. split; [by rewrite not_elem_of_cons |].
      intros x. rewrite !elem_of_cons. specialize (Hx x). rewrite elem_of_union, elem_of_singleton in Hx.
      naive_solver.
Qed.

(** Without faults the loops go through. *)
Lemma insert_each_tags_run io q ids db :
  (forall n, io n = None) -> is_Some (cd_problems db !! q) ->
  (forall t, t ∈ ids -> is_Some (cd_tags db !! t) /\ (q, t) ∉ cd_problem_tags db) -> NoDup ids ->
  exists db', insert_each io (insert_problem_tag q) ids db = (db', Ok tt).
Proof.
  revert io db. induction ids as [| t ids IH]; intros io db Hio Hq Hids Hnd; cbn [insert_each].
  - exists db. by rewrite statement_none.
  - apply NoDup_cons in Hnd as [Ht Hnd]. destruct (Hids t) as [Htag Hnew]; [apply list_elem_of_here |].
    destruct (IH (shift_faults 1 io) (set_problem_tags db ({[(q, t)]} ∪ cd_problem_tags db)))
      as [db' Hrun]; [intros n; apply Hio | done | | done |].
    + intros x Hx. destruct (Hids x) as [? ?]; [by apply list_elem_of_further |]. split; [done |]. simpl.
      rewrite elem_of_union, elem_of_singleton. intros [[= ->] | ?]; done.
    + exists db'. apply bind_ok. eexists _, tt. split; [| exact Hrun].
      apply execute_ok. split; [apply Hio |]. by apply insert_problem_tag_ok.
Qed.

Lemma insert_each_languages_run io q ids db :
  (forall n, io n = None) -> is_Some (cd_problems db !! q) ->
  (forall l, l ∈ ids -> is_Some (cd_languages db !! l)) ->
  exists db', insert_each io (insert_problem_language q) ids db = (db', Ok tt).
Proof.
  revert io db. induction ids as [| l ids IH]; intros io db Hio Hq Hids; cbn [insert_each].
  - exists db. by rewrite statement_none.
  - assert (exists d, insert_problem_language q l db = (d, Ok tt) /\
      cd_problems d = cd_problems db /\ cd_languages d = cd_languages db) as (d & Hd & Hp & Hl).
    { unfold insert_problem_language. case_bool_decide; [by exists db |].
      eexists. rewrite !demand_put, !bool_decide_eq_true.
      split_and!; [done | apply Hids, list_elem_of_here | reflexivity | done | done]. }
    destruct (IH (shift_faults 1 io) d) as [db' Hrun]; [intros n; apply Hio | by rewrite Hp | |].
    + intros x Hx. rewrite Hl. by apply Hids, list_elem_of_further.
    + exists db'. apply bind_ok. exists d, tt. split; [| done]. apply execute_ok. split; [apply Hio | done].
Qed.

Lemma dedup_ids_run seen ids : uuid_Nil ∉ ids -> exists l, dedup_ids seen ids = Ok l.
Proof.
  revert seen. induction ids as [| i ids IH]; intros seen Hn; cbn [dedup_ids]; [by eexists |].
  apply not_elem_of_cons in Hn as [Hi Hn]. rewrite bool_decide_eq_false_2 by done.
  case_bool_decide; [by apply IH |]. destruct (IH ({[i]} ∪ seen) Hn) as [l ->]. by eexists.
Qed.

Lemma SetProblemTags_run io q ids db :
  (forall n, io n = None) -> is_Some (cd_problems db !! q) ->
  (forall t, t ∈ ids -> is_Some (cd_tags db !! t)) -> NoDup ids ->
  exists db', SetProblemTags io q ids db = (db', Ok tt).
Proof.
  intros Hio Hq Hids Hnd.
  destruct (insert_each_tags_run (shift_faults 2 io) q ids
    (set_problem_tags db (filter (fun pt => pt.1 <> q) (cd_problem_tags db)))) as [db' Hrun]; try done.
  - intros n. apply Hio.
  - intros t Ht. split; [by apply Hids |]. simpl. rewrite elem_of_filter. by intros [? _].
  - exists db'. unfold SetProblemTags. rewrite transaction_ok. apply bind_ok. exists db, tt.
    split; [by rewrite statement_none |]. apply bind_ok. eexists _, tt.
    split; [| exact Hrun]. rewrite statement_none; [done | apply Hio].
Qed.

Lemma UpdateProblemLanguages_run env q ids db :
  (forall n, ca_io env n = None) -> is_Some (cd_problems db !! q) ->
  (forall l, l ∈ ids -> is_Some (cd_languages db !! l)) -> uuid_Nil ∉ ids ->
  exists db', UpdateProblemLanguages env q ids db = (db', Ok tt).
Proof.
  intros Hio Hq Hids Hnil. destruct (dedup_ids_run ∅ ids Hnil) as [l Hl].
  destruct (dedup_ids_ok _ _ _ Hl) as [_ Hsame].
  destruct (insert_each_languages_run (shift_faults 2 (ca_io env)) q l
    (set_problem_languages db (filter (fun pl => pl.1 <> q) (cd_problem_languages db)))) as [db' Hrun];
    try done.
  - intros n. apply Hio.
  - intros x Hx. apply Hids. specialize (Hsame x). rewrite !elem_of_empty in Hsame. naive_solver.
  - exists db'. unfold UpdateProblemLanguages, SetLanguagesForProblem. apply bind_ok.
    exists db, l. split; [unfold lift; by rewrite Hl |]. rewrite transaction_ok. apply bind_ok. exists db, tt.
    split; [by rewrite statement_none |]. apply bind_ok. eexists _, tt.
    split; [| exact Hrun]. rewrite statement_none; [done | apply Hio].
Qed.

(** a problem's tags and languages are replaced as a whole: an update
    that succeeds leaves the problem linked to what the request names and
    nothing else of the tables changed, one that fails changes nothing, and a
    list of tags that repeats one always fails.  When nothing fails and what
    the request names exists, both succeed.  Reading the languages back
    gives the enabled ones of the request, and a submission in a language is
    allowed exactly when the request named it. *)
Theorem links_are_replaced_as_a_whole (env : catalog_env) (io : faults) (q : uuid) (ids : list uuid)
    (db db' : catdb) (sdb' : subdb) :
  (forall r, SetProblemTags io q ids db = (db', r) ->
     match r with
     | Ok _ => links_become q ids (cd_problem_tags db) (cd_problem_tags db') /\
               db' = set_problem_tags db (cd_problem_tags db') /\ NoDup ids
     | Err _ => db' = db
     end) /\
  (forall r, UpdateProblemLanguages env q ids db = (db', r) ->
     match r with
     | Ok _ => links_become q ids (cd_problem_languages db) (cd_problem_languages db') /\
               db' = set_problem_languages db (cd_problem_languages db') /\ uuid_Nil ∉ ids /\
               (forall io' d ls l, ListLanguagesForProblem io' q db' = (d, Ok ls) ->
                  l ∈ ls <-> lang_IsEnabled l = true /\ lang_ID l ∈ ids /\
                    exists k, cd_languages db !! k = Some l) /\
               (same_tables db' sdb' -> forall io' d allowed l,
                  IsLanguageAllowed io' q l sdb' = (d, Ok allowed) -> allowed = bool_decide (l ∈ ids))
     | Err _ => db' = db
     end) /\
  (is_Some (cd_problems db !! q) ->
   ((forall n, io n = None) -> (forall t, t ∈ ids -> is_Some (cd_tags db !! t)) -> NoDup ids ->
      exists d, SetProblemTags io q ids db = (d, Ok tt)) /\
   ((forall n, ca_io env n = None) -> (forall l, l ∈ ids -> is_Some (cd_languages db !! l)) ->
      uuid_Nil ∉ ids -> exists d, UpdateProblemLanguages env q ids db = (d, Ok tt))).
Proof.
  split; [| split; [| by eauto using SetProblemTags_run, UpdateProblemLanguages_run]]; intros [u | e] E.
  - unfold SetProblemTags in E. rewrite transaction_ok in E. apply bind_ok in E as (d & [] & Hb & E).
    apply statement_ok in Hb as [_ [= <-]]. apply bind_ok in E as (d & [] & Hd & E).
    apply statement_ok in Hd as [_ [= <-]].
    apply insert_each_tags in E as (Hdb & Hlinks & Hnd & _). simpl in *. split_and!; [| done | done].
    intros p t. rewrite Hlinks, elem_of_filter. case_decide; naive_solver.
  - by apply atomic_transaction in E.
  - apply bind_ok in E as (d & l & Hl & E). injection Hl as <- Hl.
    apply dedup_ids_ok in Hl as [Hnil Hl].
    unfold SetLanguagesForProblem in E. rewrite transaction_ok in E.
    apply bind_ok in E as (d1 & [] & Hb & E). apply statement_ok in Hb as [_ [= <-]].
    apply bind_ok in E as (d2 & [] & Hd & E). apply statement_ok in Hd as [_ [= <-]].
    apply insert_each_languages in E as [Hdb Hlinks]. simpl in *.
    assert (links_become q ids (cd_problem_languages db) (cd_problem_languages db')) as Hbecome.
    { intros p x. rewrite Hlinks, elem_of_filter. specialize (Hl x).
      rewrite !elem_of_empty in Hl. case_decide; naive_solver. }
    assert (forall x, (q, x) ∈ cd_problem_languages db' <-> x ∈ ids) as Hq
      by (intros x; rewrite (Hbecome q x); by rewrite decide_True).
    split_and!; [done | by rewrite Hdb | done | |].
    + intros io' d' ls x. unfold ListLanguagesForProblem. rewrite select_rows_ok. intros (_ & _ & _ & ->).
      rewrite elem_of_order_by, elem_of_select_where. unfold offered_for.
      rewrite andb_true_iff, bool_decide_eq_true, Hq, Hdb. simpl. naive_solver.
    + intros Hst io' d' allowed x Ha. unfold IsLanguageAllowed in Ha. apply statement_ok in Ha as [_ [= _ <-]].
      apply bool_decide_ext. by rewrite (st_links _ _ Hst).
  - unfold UpdateProblemLanguages in E. revert E.
    apply (atomic_bind (lift _)); [apply readonly_lift | intros; apply atomic_transaction].
Qed.
End Replacing.
