(* ===== verification/CatalogPrivacy.v ===== *)
(** * Catalogue: unpublished problems

    What the public routes answer to a caller who may not see unpublished
    problems does not depend on them. *)

From S2P Require Import Prelude GoStrings Sql CPHttp AuthService ApiHttp.
From S2P Require Import Driver SubRepo CatalogRepo CatalogService CatalogHttp.
From S2P Require Import CatalogFacts CatalogTheorems CatalogViews.

(** ** The permissions of the caller *)

Lemma see_permission_spec perms a m :
  foldl see_permission (a, m) perms =
  (a || bool_decide (AdminAccess ∈ perms), m || bool_decide (ProblemsManage ∈ perms)).
Proof.
  revert a m. induction perms as [| p perms IH]; intros a m; [by rewrite !orb_false_r |].
  cbn [foldl]. unfold see_permission at 2. cbn [fst snd].
  destruct (decide (p = AdminAccess)) as [-> | Ha].
  - rewrite (bool_decide_eq_true_2 (AdminAccess = _)) by done. rewrite IH. f_equal.
    + rewrite (bool_decide_eq_true_2 (_ ∈ _ :: _)) by apply list_elem_of_here. by rewrite orb_true_r.
    + f_equal. apply bool_decide_ext. rewrite elem_of_cons. naive_solver.
  - rewrite (bool_decide_eq_false_2 (p = AdminAccess)) by done.
    destruct (decide (p = ProblemsManage)) as [-> | Hm].
    + rewrite (bool_decide_eq_true_2 (ProblemsManage = _)) by done. rewrite IH. f_equal.
      * f_equal. apply bool_decide_ext. rewrite elem_of_cons. naive_solver.
      * rewrite (bool_decide_eq_true_2 (_ ∈ _ :: _)) by apply list_elem_of_here. by rewrite orb_true_r.
    + rewrite (bool_decide_eq_false_2 (p = ProblemsManage)) by done. rewrite IH.
      f_equal; f_equal; apply bool_decide_ext; rewrite elem_of_cons; naive_solver.
Qed.

Lemma CanViewUnpublishedProblems_spec c :
  CanViewUnpublishedProblems c = true <->
  exists perms, c_Permissions c = Some perms /\ AdminAccess ∈ perms /\ ProblemsManage ∈ perms.
Proof.
  unfold CanViewUnpublishedProblems. destruct (c_Permissions c) as [perms |]; [| naive_solver].
  rewrite see_permission_spec. simpl. rewrite andb_true_iff, !bool_decide_eq_true. naive_solver.
Qed.

Section Privacy.
Context `{CatalogJSON} `{DbCollation} `{DbILike} `{GoUnicode}.

(** ** The tables without a problem *)

Section Dropped.
Context (p : uuid) (db : catdb).
Notation db' := (drop_problem p db).

Lemma dropped_submissions P :
  (forall s, P s = true -> sr_ProblemID s <> p) ->
  select_where P (cd_submissions db) ≡ₚ select_where P (cd_submissions db').
Proof.
  intros HP. apply select_perm. intros k s. simpl. rewrite map_lookup_filter_Some. naive_solver.
Qed.

Lemma dropped_rate q : q <> p -> rate_of db q = rate_of db' q.
Proof.
  intros Hq. unfold rate_of, count_where.
  assert (forall P, (forall s, P s = true -> submitted_to q s = true) ->
    length (select_where P (cd_submissions db)) = length (select_where P (cd_submissions db'))) as Hlen.
  { intros P HP. rewrite dropped_submissions; [done |]. intros s Hs%HP.
    unfold submitted_to in Hs. apply andb_true_iff in Hs as [<-%bool_decide_eq_true _]. done. }
  rewrite (Hlen (submitted_to q)) by done. rewrite (Hlen (accepted_for q)); [done |].
  by intros s [Hs _]%andb_true_iff.
Qed.

Lemma dropped_solved u q : q <> p -> solved db u q <-> solved db' u q.
Proof.
  intros Hq. unfold solved. simpl. setoid_rewrite map_lookup_filter_Some. naive_solver.
Qed.

Lemma dropped_tagged names r : pr_ID r <> p -> tagged db names r = tagged db' names r.
Proof.
  intros Hr. apply eq_true_iff_eq. rewrite !tagged_spec. simpl.
  setoid_rewrite elem_of_filter. naive_solver.
Qed.

Lemma dropped_tag_names ids : p ∉ ids -> tag_names db ids ≡ₚ tag_names db' ids.
Proof.
  intros Hp. unfold tag_names. simpl. set (f := fun pt : uuid * uuid => _).
  set (pts := cd_problem_tags db).
  assert (elements pts ≡ₚ elements (filter (fun pt => pt.1 <> p) pts) ++
                          elements (filter (fun pt => ~ pt.1 <> p) pts)) as Hsplit.
  { rewrite <- elements_disj_union by apply disjoint_filter_complement.
    by rewrite filter_union_complement. }
  rewrite Hsplit, omap_app.
  assert (omap f (elements (filter (fun pt => ~ pt.1 <> p) pts)) = []) as ->; [| by rewrite app_nil_r].
  apply elem_of_nil_inv. intros x (pt & Hin & Hx)%list_elem_of_omap.
  apply elem_of_elements, elem_of_filter in Hin as [Hpt%dec_stable _]. unfold f in Hx.
  by rewrite bool_decide_eq_false_2 in Hx by by rewrite Hpt.
Qed.

(** The catalogue of published problems. *)
Lemma dropped_catalogue tie difficulty tags search r :
  keyed pr_ID pr_Slug (cd_problems db) -> TotalOrder pr_ID tie ->
  cd_problems db !! p = Some r -> pr_Visibility r <> VisibilityPublished ->
  let filters := mkProblemFilters (Some VisibilityPublished) difficulty tags search in
  catalogue tie filters db = catalogue tie filters db'.
Proof.
  intros Hkeyed Htie Hr Hv filters.
  apply (order_by_canonical pr_ID _), select_perm; [by eapply keyed_injective |].
  assert (forall q, pr_ID q <> p -> matches db filters q = matches db' filters q) as Hm.
  { intros q Hq. unfold matches. by rewrite dropped_tagged. }
  assert (forall k q, cd_problems db !! k = Some q -> matches db filters q = true -> pr_ID q <> p) as Hne.
  { intros k q Hq Hmq Heq. pose proof (keyed_key _ _ _ Hkeyed _ _ Hq) as Hk. rewrite <- Hk, Heq in Hq.
    assert (q = r) as -> by congruence. apply Hv. unfold matches in Hmq. simpl in Hmq.
    rewrite !andb_true_iff, bool_decide_eq_true in Hmq. naive_solver. }
  intros k q. simpl. split; intros [Hq Hmq].
  - pose proof (Hne _ _ Hq Hmq) as Hqp. rewrite Hm in Hmq by done. split; [| done].
    apply lookup_delete_Some. split; [| done]. intros <-. apply Hqp. apply (keyed_key _ _ _ Hkeyed _ _ Hq).
  - apply lookup_delete_Some in Hq as [Hk Hq]. split; [done |]. rewrite Hm; [done |].
    by rewrite (keyed_key _ _ _ Hkeyed _ _ Hq).
Qed.

(** ** The queries over both *)

Lemma dropped_tags io ids : TotalOrder id db_collate -> p ∉ ids ->
  result_rel (fun m m' : gmap uuid (list string) =>
      forall q, q ∈ ids -> default [] (m !! q) = default [] (m' !! q))
    (GetTagsOfProblems io ids db).2 (GetTagsOfProblems io ids db').2.
Proof.
  intros Hc Hp. destruct ids as [| i ids]; [by constructor |]. apply select_rows_related. intros q _.
  pose proof (by_problem_and_name_order Hc).
  by rewrite (order_by_canonical id _ _ _ (fun _ _ _ _ => id) (dropped_tag_names _ Hp)).
Qed.

Lemma dropped_rates io ids : p ∉ ids ->
  result_rel (fun m m' : gmap uuid float64 => forall q, q ∈ ids -> m !! q = m' !! q)
    (GetAcceptanceRates io ids db).2 (GetAcceptanceRates io ids db').2.
Proof.
  intros Hp. destruct ids as [| i ids]; [by constructor |]. apply select_rows_related. intros q Hq.
  rewrite !rates_spec by done. apply dropped_rate. by intros ->.
Qed.

Lemma dropped_solved_ids io u ids : p ∉ ids ->
  result_rel (fun l l' => forall q, q ∈ ids -> q ∈ l <-> q ∈ l')
    (GetSolvedProblemIDs io u ids db).2 (GetSolvedProblemIDs io u ids db').2.
Proof.
  intros Hp. destruct ids as [| i ids]; [by constructor |]. apply select_rows_related. intros q Hq.
  rewrite !solved_ids_spec, dropped_solved; [done |]. by intros ->.
Qed.
End Dropped.

Lemma result_rel_map_err {S E E' A A'} (R : A -> A' -> Prop) (f : E -> E') (m : M S E A) (m' : M S E A') s s' :
  result_rel R (m s).2 (m' s').2 -> result_rel R (map_err f m s).2 (map_err f m' s').2.
Proof.
  unfold map_err. destruct (m s) as [? []], (m' s') as [? []]; simpl; inversion 1; subst; by constructor.
Qed.

Lemma enriched_related tm tm' rm rm' (sm sm' : gset uuid) pr :
  default [] (tm !! pb_ID pr) = default [] (tm' !! pb_ID pr) -> rm !! pb_ID pr = rm' !! pb_ID pr ->
  (pb_ID pr ∈ sm <-> pb_ID pr ∈ sm') -> enriched tm rm sm pr = enriched tm' rm' sm' pr.
Proof. intros Ht Hr Hs. unfold enriched. rewrite Ht, Hr. f_equal. by apply bool_decide_ext. Qed.

(** ** The services over both *)

Section Answers.
Context (p : uuid) (r : problem_row) (db : catdb).
Hypothesis Hwf : catalog_wf db.
Hypothesis Hr : cd_problems db !! p = Some r.
Hypothesis Hhidden : pr_Visibility r <> VisibilityPublished.
Notation db' := (drop_problem p db).

Lemma filters_input_alike filters (s s' : catdb) : (filters_input filters s).2 = (filters_input filters s').2.
Proof.
  destruct filters as [v d ts se]. unfold filters_input, optional, enum_input, demand, mbind, M_bind. simpl.
  destruct v as [v |]; [destruct (bool_decide (v ∈ _)) |]; simpl; try done;
    (destruct d as [d |]; [destruct (bool_decide (d ∈ _)) |]; done).
Qed.

Lemma execute_alike {A} (fails : string -> cat_error) io (m m' : cat_sql A) (s s' : catdb) :
  (m s).2 = (m' s').2 -> (execute fails io m s).2 = (execute fails io m' s').2.
Proof.
  intros Hm. unfold execute, statement, map_err. destruct (io 0%nat); [done |].
  destruct (m s) as [? []], (m' s') as [? []]; simpl in *; congruence.
Qed.

(** After the filters are accepted, alike answers make alike listings. *)
Lemma filtered_alike {A} (fails : string -> cat_error) io filters (k k' : cat_op A) (R : A -> A -> Prop)
    (s s' : catdb) :
  result_rel R (k s).2 (k' s').2 ->
  result_rel R ((_ ← execute fails io (filters_input filters); k) s).2
    ((_ ← execute fails io (filters_input filters); k') s').2.
Proof.
  intros Hk. unfold mbind, M_bind.
  pose proof (execute_alike fails io _ _ _ _ (filters_input_alike filters s s')) as He.
  destruct (execute _ _ _ s) as [d1 x1] eqn:E1, (execute _ _ _ s') as [d2 x2] eqn:E2. simpl in He. subst.
  apply readonly_run in E1 as ->; [| apply readonly_statement, readonly_map_err; eauto with capstone].
  apply readonly_run in E2 as ->; [| apply readonly_statement, readonly_map_err; eauto with capstone].
  destruct x2; [done | by constructor].
Qed.

Lemma dropped_not_listed tie filters limit offset :
  p ∉ pb_ID <$> (problem_of <$> limited limit offset (catalogue tie filters db')).
Proof using Hwf.
  intros (q & Hq & Hin)%list_elem_of_fmap. apply list_elem_of_fmap in Hin as (x & -> & Hin).
  assert (x ∈ catalogue tie filters db') as Hx.
  { revert Hin. unfold limited. destruct (0 <? offset), (0 <? limit); intros Hin;
      repeat first [apply subseteq_take in Hin | apply subseteq_drop in Hin]; done. }
  unfold catalogue in Hx. apply elem_of_order_by, elem_of_select_where in Hx as [_ [k Hk]].
  simpl in Hk, Hq. apply lookup_delete_Some in Hk as [Hkp Hk].
  pose proof (keyed_key _ _ _ (cw_problems _ Hwf) _ _ Hk). congruence.
Qed.

Lemma dropped_rows io tie filters limit offset :
  catalogue tie filters db = catalogue tie filters db' ->
  result_rel (fun l l' => l = l' /\ p ∉ pb_ID <$> l)
    (ListProblem_rows io tie filters limit offset db).2
    (ListProblem_rows io tie filters limit offset db').2.
Proof using Hwf.
  intros Hcat. apply filtered_alike. unfold statement.
  destruct (shift_faults 1 io 0%nat); constructor. rewrite Hcat. split; [done |].
  apply dropped_not_listed.
Qed.

Lemma dropped_count io tie filters :
  catalogue tie filters db = catalogue tie filters db' ->
  (CountProblems io filters db).2 = (CountProblems io filters db').2.
Proof using Hhidden.
  intros Hcat. apply execute_alike. unfold mbind, M_bind.
  pose proof (filters_input_alike filters db db').
  pose proof (readonly_filters_input filters db). pose proof (readonly_filters_input filters db').
  destruct (filters_input filters db) as [d1 []], (filters_input filters db') as [d2 []];
    simpl in *; simplify_eq; [| done].
  assert (forall d, count_where (matches d filters) (cd_problems d) = length (catalogue tie filters d)) as Hcount
    by (intros d; unfold catalogue; by rewrite length_order_by).
  f_equal. f_equal. change (delete p (cd_problems db)) with (cd_problems db').
  by rewrite !Hcount, Hcat.
Qed.

Lemma dropped_listing env difficulty tags search u limit offset :
  TotalOrder id db_collate -> TotalOrder pr_ID (ca_tie env) ->
  let filters := mkProblemFilters (Some VisibilityPublished) difficulty tags search in
  (ListProblems env filters u limit offset db).2 = (ListProblems env filters u limit offset db').2.
Proof using Hwf Hr Hhidden.
  intros Hc Htie filters.
  pose proof (dropped_catalogue p db (ca_tie env) difficulty tags search r (cw_problems _ Hwf) Htie Hr Hhidden) as Hcat.
  fold filters in Hcat. unfold ListProblems.
  eapply bind_related; [apply readonly_ListProblem_rows.. | by apply dropped_rows |]. intros l l' [<- Hp].
  apply (bind_related eq); [apply readonly_CountProblems.. | by eapply result_rel_eq, dropped_count |].
  intros n ? <-. destruct l as [| p0 l0]; [done |]. set (l := p0 :: l0) in *.
  eapply bind_related; [apply readonly_map_err, readonly_GetTagsOfProblems.. | by apply result_rel_map_err, dropped_tags |].
  intros tm tm' Htm.
  eapply bind_related; [apply readonly_map_err, readonly_GetAcceptanceRates.. | by apply result_rel_map_err, dropped_rates |].
  intros rm rm' Hrm. apply (bind_related (fun s s' => forall q, q ∈ pb_ID <$> l -> q ∈ s <-> q ∈ s')).
  1, 2: destruct u; [apply readonly_map_err, readonly_GetSolvedProblemIDs | done].
  { destruct u; [by apply result_rel_map_err, dropped_solved_ids | by constructor]. }
  intros sl sl' Hsl. cbn [mret M_ret snd]. do 2 f_equal. apply list_fmap_ext.
  intros i x Hx%list_elem_of_lookup_2. assert (pb_ID x ∈ pb_ID <$> l) by by apply list_elem_of_fmap_2.
  apply enriched_related; [by apply Htm | by apply Hrm |]. rewrite !elem_of_list_to_set. by apply Hsl.
Qed.

(** ** Single problems *)

Lemma enrich_ok io pr u (d : catdb) : exists b, enrichSingleSolved io pr u d =
  (d, Ok (if b : bool then with_solved true pr else pr)).
Proof.
  unfold enrichSingleSolved. destruct u as [u |]; [| by exists false]. unfold mbind, M_bind, attempt.
  pose proof (readonly_GetSolvedProblemIDs io u [pb_ID pr] d) as Hro.
  destruct (GetSolvedProblemIDs io u [pb_ID pr] d) as [d' [ids |]]; simpl in *; subst;
    [by eexists | by exists false].
Qed.

Lemma dropped_enrich io pr u : pb_ID pr <> p ->
  (enrichSingleSolved io pr u db).2 = (enrichSingleSolved io pr u db').2.
Proof.
  intros Hp. unfold enrichSingleSolved. destruct u as [u |]; [| done].
  pose proof (dropped_solved_ids p db io u [pb_ID pr]) as Hs. unfold mbind, M_bind, attempt.
  pose proof (readonly_GetSolvedProblemIDs io u [pb_ID pr] db) as Hro.
  pose proof (readonly_GetSolvedProblemIDs io u [pb_ID pr] db') as Hro'.
  destruct (GetSolvedProblemIDs _ _ _ db) as [d1 x1], (GetSolvedProblemIDs _ _ _ db') as [d2 x2].
  simpl in *. subst. destruct Hs as [l l' Hl | e]; [by rewrite list_elem_of_singleton | | done].
  assert (existsb (fun id => bool_decide (id = pb_ID pr)) l =
          existsb (fun id => bool_decide (id = pb_ID pr)) l') as Hex; [| by simpl; rewrite Hex].
  apply eq_true_iff_eq. rewrite !existsb_exists. setoid_rewrite <- list_elem_of_In.
  setoid_rewrite bool_decide_eq_true. specialize (Hl (pb_ID pr)).
  rewrite list_elem_of_singleton in Hl. naive_solver.
Qed.

(** What reading a problem comes to, with the row that is found. *)
Definition found_problem (env : catalog_env) (u : option uuid) (row : option problem_row) (d : catdb)
  : result cat_error Problem :=
  match ca_io env 0%nat, row with
  | Some e, _ => Err (failed_to "get problem" e)
  | None, None => Err (Sentinel ErrProblemNotFound)
  | None, Some w => (enrichSingleSolved (shift_faults 1 (ca_io env)) (problem_of w) u d).2
  end.

Lemma GetProblem_found env id u d : (GetProblem env id u d).2 = found_problem env u (cd_problems d !! id) d.
Proof.
  unfold GetProblem, GetProblemByID, statement, found_problem, mbind, M_bind.
  destruct (ca_io env 0%nat); [done |]. by destruct (cd_problems d !! id).
Qed.

Lemma GetProblemBySlug_found env slug u d :
  (GetProblemBySlug env slug u d).2 =
  found_problem env u (head (select_where (has_slug slug) (cd_problems d))) d.
Proof.
  unfold GetProblemBySlug, GetProblemBySlug_row, statement, found_problem, mbind, M_bind.
  destruct (ca_io env 0%nat); [done |]. by destruct (select_where _ _).
Qed.

(** The problem itself looks missing, the others as they are. *)
Lemma found_alike env u w : pr_ID w <> p -> found_problem env u (Some w) db = found_problem env u (Some w) db'.
Proof. intros Hw. unfold found_problem. destruct (ca_io env 0%nat); [done | by apply dropped_enrich]. Qed.

Lemma found_hidden env u :
  found_problem env u (Some r) db = found_problem env u None db' \/
  (exists pr, found_problem env u (Some r) db = Ok pr /\ IsPublished pr = false /\
     found_problem env u None db' = Err (Sentinel ErrProblemNotFound)).
Proof using Hhidden.
  unfold found_problem. destruct (ca_io env 0%nat); [by left | right].
  destruct (enrich_ok (shift_faults 1 (ca_io env)) (problem_of r) u db) as [b ->].
  eexists. split; [done |]. split; [| done]. by destruct b; apply bool_decide_eq_false.
Qed.

Lemma found_by_slug slug :
  head (select_where (has_slug slug) (cd_problems db)) = Some r /\
  head (select_where (has_slug slug) (cd_problems db')) = None \/
  (exists w, pr_ID w <> p /\ head (select_where (has_slug slug) (cd_problems db)) = Some w /\
     head (select_where (has_slug slug) (cd_problems db')) = Some w) \/
  head (select_where (has_slug slug) (cd_problems db)) = None /\
  head (select_where (has_slug slug) (cd_problems db')) = None.
Proof using Hwf Hr.
  pose proof (cw_problems _ Hwf) as Hk. pose proof (keyed_delete _ _ _ p Hk) as Hk'.
  assert (forall t k w, keyed pr_ID pr_Slug t -> t !! k = Some w -> pr_Slug w = slug ->
    select_where (has_slug slug) t = [w]) as Hone.
  { intros t k w Ht Hw Hs. eapply select_unique; [exact Ht | | exact Hw | by apply bool_decide_eq_true].
    intros w' ->%bool_decide_eq_true. done. }
  destruct (decide (pr_Slug r = slug)) as [Hs | Hs].
  - left. rewrite (Hone _ _ _ Hk Hr Hs). split; [done |].
    destruct (select_where _ (cd_problems db')) as [| w l] eqn:E; [done | exfalso].
    assert (w ∈ select_where (has_slug slug) (cd_problems db')) as Hw by (rewrite E; apply list_elem_of_here).
    apply elem_of_select_where in Hw as [Hws%bool_decide_eq_true [k Hw]].
    simpl in Hw. apply lookup_delete_Some in Hw as [Hne Hw]. apply Hne.
    apply (keyed_unique _ _ _ Hk p r k w Hr Hw). congruence.
  - right. destruct (select_where (has_slug slug) (cd_problems db)) as [| w l] eqn:E.
    + right. split; [done |].
      destruct (select_where _ (cd_problems db')) as [| w l] eqn:E'; [done | exfalso].
      assert (w ∈ select_where (has_slug slug) (cd_problems db')) as Hw by (rewrite E'; apply list_elem_of_here).
      apply elem_of_select_where in Hw as [Hws [k Hw]]. simpl in Hw.
      apply lookup_delete_Some in Hw as [_ Hw].
      apply (not_elem_of_nil w). rewrite <- E. apply elem_of_select_where. eauto.
    + left. assert (w ∈ select_where (has_slug slug) (cd_problems db)) as Hw by (rewrite E; apply list_elem_of_here).
      apply elem_of_select_where in Hw as [Hws%bool_decide_eq_true [k Hw]].
      pose proof (keyed_key _ _ _ Hk _ _ Hw) as Hid.
      assert (k <> p) as Hne by (intros ->; congruence).
      exists w. rewrite Hid. split_and!; [done | done |].
      assert (select_where (has_slug slug) (cd_problems db') = [w]) as ->; [| done].
      apply (Hone _ k w Hk'); [by rewrite lookup_delete_ne | done].
Qed.

Variable c : caller.
Hypothesis Hc : CanViewUnpublishedProblems c = false.

Lemma answer_alike {A} (call : cat_op A) ok err :
  (call db).2 = (call db').2 -> (answer (D := catalog_data) call ok err db).2 = (answer call ok err db').2.
Proof. unfold answer. by destruct (call db), (call db'); simpl; intros ->. Qed.

Lemma answer_shown (call : cat_op Problem) (row row' : option problem_row) env u :
  (call db).2 = found_problem env u row db -> (call db').2 = found_problem env u row' db' ->
  (row = Some r /\ row' = None) \/ (exists w, pr_ID w <> p /\ row = Some w /\ row' = Some w) \/
  (row = None /\ row' = None) ->
  (answer call (show_problem c) problem_missing db).2 = (answer call (show_problem c) problem_missing db').2.
Proof using Hhidden Hc.
  intros Hcall Hcall'. unfold answer.
  destruct (call db) as [d x], (call db') as [d' x']. simpl in *. subst x x'.
  intros [[-> ->] | [(w & Hw & -> & ->) | [-> ->]]].
  - destruct (found_hidden env u) as [-> | (pr & -> & Hp & ->)]; [done |].
    unfold show_problem, hidden_from. by rewrite Hp, Hc.
  - by rewrite found_alike.
  - unfold found_problem. by destruct (ca_io env 0%nat).
Qed.

Lemma found_by_id id :
  (cd_problems db !! id = Some r /\ cd_problems db' !! id = None) \/
  (exists w, pr_ID w <> p /\ cd_problems db !! id = Some w /\ cd_problems db' !! id = Some w) \/
  (cd_problems db !! id = None /\ cd_problems db' !! id = None).
Proof using Hwf Hr.
  simpl. destruct (decide (id = p)) as [-> | Hne]; [left; by rewrite lookup_delete_eq | right].
  rewrite lookup_delete_ne by done. destruct (cd_problems db !! id) as [w |] eqn:E; [left | by right].
  exists w. split; [| done]. by rewrite (keyed_key _ _ _ (cw_problems _ Hwf) _ _ E).
Qed.

(** A public answer about a problem's tags or languages. *)
Lemma visible_alike env id f h (k : catalog_handler) :
  f (Sentinel ErrProblemNotFound) = h -> (id <> p -> (k db).2 = (k db').2) ->
  (with_visible_problem env c id f h k db).2 = (with_visible_problem env c id f h k db').2.
Proof using Hwf Hr Hhidden Hc.
  intros Hh Hk. unfold with_visible_problem.
  pose proof (GetProblem_found env id None db) as Hg. pose proof (GetProblem_found env id None db') as Hg'.
  pose proof (readonly_GetProblem env id None db) as Hro. pose proof (readonly_GetProblem env id None db') as Hro'.
  destruct (GetProblem env id None db) as [d x], (GetProblem env id None db') as [d' x'].
  simpl in Hg, Hg', Hro, Hro'. subst d d' x x'.
  destruct (decide (id = p)) as [-> | Hne].
  - rewrite Hr, lookup_delete_eq. destruct (found_hidden env None) as [-> | (pr & -> & Hp & ->)].
    + unfold found_problem. by destruct (ca_io env 0%nat).
    + unfold hidden_from. rewrite Hp, Hc. by rewrite Hh.
  - rewrite lookup_delete_ne by done. destruct (cd_problems db !! id) as [w |] eqn:E.
    + assert (pr_ID w <> p) as Hw by by rewrite (keyed_key _ _ _ (cw_problems _ Hwf) _ _ E).
      rewrite found_alike by done. destruct (found_problem _ _ _ _); [| done].
      destruct (hidden_from c a); [done | by apply Hk].
    + unfold found_problem. by destruct (ca_io env 0%nat).
Qed.

Lemma dropped_link (q t : uuid) (pairs : gset (uuid * uuid)) :
  q <> p -> bool_decide ((q, t) ∈ pairs) = bool_decide ((q, t) ∈ filter (fun pt => pt.1 <> p) pairs).
Proof. intros Hq. apply bool_decide_ext. rewrite elem_of_filter. naive_solver. Qed.

Lemma dropped_problem_tags io q : q <> p -> (GetProblemTags io q db).2 = (GetProblemTags io q db').2.
Proof.
  intros Hq. apply result_rel_eq, select_rows_related. f_equal. apply filter_agree.
  intros t _. by apply dropped_link.
Qed.

Lemma dropped_problem_languages io q :
  q <> p -> (ListLanguagesForProblem io q db).2 = (ListLanguagesForProblem io q db').2.
Proof.
  intros Hq. apply result_rel_eq, select_rows_related. f_equal. apply filter_agree.
  intros l _. unfold offered_for. f_equal. by apply dropped_link.
Qed.

(** Every public route but that of the test cases. *)
Lemma public_alike env req :
  TotalOrder id db_collate -> TotalOrder pr_ID (ca_tie env) -> required_permissions req = None ->
  (forall id, req <> ReqListPublicTestCases id) ->
  (handle_catalog env c req db).2 = (handle_catalog env c req db').2.
Proof using Hwf Hr Hhidden Hc.
  intros Hcol Htie Hreq Hnot. destruct req as [q | slug | id | id | id | id | | | | | | | | | | | | | |];
    try done; cbn [handle_catalog].
  - unfold ListProblems_handler, visibility_filter. rewrite Hc. cbn [negb].
    assert (forall d ts se l o, (answer (ListProblems env (mkProblemFilters (Some VisibilityPublished) d ts se)
        (c_UserID c) l o) (fun '(problems, total) => ok_body (ProblemsBody problems total l o))
        (internal "failed to list problems") db).2 =
      (answer (ListProblems env (mkProblemFilters (Some VisibilityPublished) d ts se)
        (c_UserID c) l o) (fun '(problems, total) => ok_body (ProblemsBody problems total l o))
        (internal "failed to list problems") db').2) as Hl by (intros; by apply answer_alike, dropped_listing).
    destruct (is_empty (lq_visibility q)); [apply Hl |].
    destruct (bool_decide (lq_visibility q = VisibilityPublished)); [apply Hl | done].
  - unfold GetProblemBySlug_handler. destruct (is_empty slug); [done |].
    eapply answer_shown; [apply GetProblemBySlug_found.. |].
    destruct (found_by_slug slug) as [? | [? | ?]]; auto.
  - destruct id as [id |]; [| done]. unfold GetProblem_handler, with_problem_id, with_parsed.
    eapply answer_shown; [apply GetProblem_found.. | apply found_by_id].
  - destruct id as [id |]; [| done]. apply visible_alike; [done |].
    intros Hne. by apply answer_alike, dropped_problem_tags.
  - destruct id as [id |]; [| done]. apply visible_alike; [done |].
    intros Hne. by apply answer_alike, dropped_problem_languages.
  - by destruct (Hnot id).
  - by apply answer_alike, result_rel_eq, select_rows_related.
Qed.
End Answers.

(** Whether the bearer of the header may see unpublished problems. *)
Definition sees_unpublished `{AuthCrypto} (jm : JWTManager) (now : Z) (header : string) : bool :=
  match OptionalAuthMiddleware jm now header with
  | Ok ctx => CanViewUnpublishedProblems (caller_of ctx)
  | Err _ => false
  end.

(** C33. an unpublished problem stays hidden: to a caller whose token does not
    carry both permissions, every public route (the listing with its counts,
    the problem by identifier and by slug, its tags, its languages and the
    list of tags) answers exactly what it would answer if the problem and
    everything that belongs to it were not there, whatever the query and
    whatever statements fail.  The one public route left out is that of the
    test cases, which does not look at the problem. *)
Theorem unpublished_problems_stay_hidden `{AuthCrypto} (jm : JWTManager) (now : Z) (header : string)
    (env : catalog_env) (req : catalog_request) (p : uuid) (r : problem_row) (db : catdb) :
  catalog_wf db -> TotalOrder id db_collate -> TotalOrder pr_ID (ca_tie env) ->
  cd_problems db !! p = Some r -> pr_Visibility r <> VisibilityPublished ->
  sees_unpublished jm now header = false ->
  required_permissions req = None -> (forall id, req <> ReqListPublicTestCases id) ->
  (serve_catalog jm now header env req db).2 =
  (serve_catalog jm now header env req (drop_problem p db)).2.
Proof.
  intros Hwf Hcol Htie Hr Hv Hsees Hreq Hnot. unfold serve_catalog. rewrite Hreq.
  assert (forall c, CanViewUnpublishedProblems c = false ->
    (handle_catalog env c req db).2 = (handle_catalog env c req (drop_problem p db)).2) as Halike
    by (intros c Hc; by apply (public_alike p r db)).
  unfold sees_unpublished in Hsees.
  destruct (OptionalAuthMiddleware jm now header) as [ctx | text]; destruct req; try done;
    by apply Halike.
Qed.
End Privacy.
