(* ===== verification/CatalogExamples.v ===== *)
(** * Catalogue: concrete runs

    A small catalogue built through the handlers, on which the theorems of the
    catalogue are applied, and runs that show where it falls short. *)

From S2P Require Import Prelude GoStrings Sql CPHttp AuthService ApiHttp.
From S2P Require Import Driver SubRepo CatalogRepo CatalogService CatalogHttp.
From S2P Require Import CatalogFacts CatalogTheorems CatalogSlugs CatalogViews.
From S2P Require Import CatalogListings CatalogLinks CatalogPrivacy.

Module CatalogExample.

#[local] Instance byte_order : DbCollation := String.leb.
#[local] Instance no_search : DbILike := fun _ _ => false.
#[local] Instance plain_tables : GoUnicode := ascii_tables.
#[local] Instance plain_json : CatalogJSON := {|
  json_Marshal_spec _ := Ok "{}";
  json_Unmarshal_spec _ := None;
  json_Valid _ := true;
  jsonb text := Some text
|}.
#[local] Instance no_tokens : AuthCrypto := {|
  sha256 s := s;
  jwt_Sign _ _ := Err "unsupported";
  jwt_Parse _ _ _ := ParsedInvalid
|}.

Lemma byte_order_total : TotalOrder id (db_collate : string -> string -> bool).
Proof.
  split; unfold db_collate, byte_order.
  - apply String.leb_total.
  - intros x y z Hxy Hyz. apply Is_true_true. apply Is_true_true in Hxy, Hyz. by trans y.
  - intros x y. apply String.leb_antisym.
Qed.

(** ** A catalogue of a published problem and a draft *)

Definition cenv (fresh : uuid) : catalog_env :=
  mkCatalogEnv no_faults (fun _ => Z.of_N fresh) (fun _ => fresh) (show_int (Z.of_N fresh))
    (by_id pr_ID) (by_id tc_ID).
Definition author : caller := mkCaller (Some 1%N) (Some [AdminAccess; ProblemsManage]).
Definition did (fresh : uuid) (req : catalog_request) (db : catdb) : catdb :=
  (handle_catalog (cenv fresh) author req db).1.

Definition new_problem (title visibility : string) : CreateProblemRequest :=
  mkCreateProblemRequest title "" "Add." 1000 256 "" visibility DifficultyEasy None.
Definition new_case (hidden : bool) : option CreateTestCaseRequest :=
  Some (mkCreateTestCaseRequest "[1]" "2" 0 hidden).

Definition submitted (status : SubmissionStatus) (id : uuid) : sub_row :=
  mkSubRow id 1%N 10%N 40%N None status KindSubmit None 0.

Definition small : catdb :=
  did 0%N (ReqUpdateProblemLanguages (Some 10%N) (Some [40%N; 40%N]))
  (did 40%N (ReqCreateLanguage (Some (mkLanguageBody "Go " "Go" None)))
  (did 0%N (ReqUpdateProblemTags (Some 10%N) (Some [30%N]))
  (did 30%N (ReqCreateTag (Some "math"))
  (did 22%N (ReqCreateTestCase (Some 11%N) (new_case false))
  (did 21%N (ReqCreateTestCase (Some 10%N) (new_case true))
  (did 20%N (ReqCreateTestCase (Some 10%N) (new_case false))
  (did 11%N (ReqCreateProblem (Some (new_problem "Two  Sums!" VisibilityDraft)))
  (did 10%N (ReqCreateProblem (Some (new_problem "Two Sums" VisibilityPublished)))
  (empty_catalog {[ 1%N ]}))))))))).

Lemma small_wf : catalog_wf small.
Proof. repeat apply keeps_handle. apply empty_catalog_wf. Qed.

(** Both titles give the slug "two-sums". *)
Example small_slugs : pr_Slug <$> rows (cd_problems small) = ["two-sums-1"; "two-sums"] \/
  pr_Slug <$> rows (cd_problems small) = ["two-sums"; "two-sums-1"].
Proof. vm_compute. auto. Qed.

(** ** Slugs *)

Definition third : CreateProblemRequest := new_problem "two sums" VisibilityDraft.

Lemma creation_takes_the_first_free_slug_witness :
  exists k, CreateProblem (cenv 12%N) third 1%N small =
    (add_problem (attempt_row (cenv 12%N) k third "two-sums-2" 1%N None) small,
     Ok (problem_of (attempt_row (cenv 12%N) k third "two-sums-2" 1%N None))).
Proof.
  assert (insertable (cenv 12%N) third 1%N None small) as Hin.
  { split.
    - vm_compute. reflexivity.
    - split; vm_compute; reflexivity.
    - vm_compute. reflexivity.
    - apply (bool_decide_eq_true_1 (1%N ∈ cd_users small)). vm_compute. reflexivity.
    - intros k _. vm_compute. reflexivity.
    - intros k. reflexivity. }
  pose proof (proj1 (creation_takes_the_first_free_slug (cenv 12%N) third 1%N None small) Hin) as Hc.
  assert (List.find (slug_free small) (candidates (GenerateSlug (cp_Title third))) = Some "two-sums-2") as Hs
    by (vm_compute; reflexivity).
  rewrite Hs in Hc. destruct Hc as (k & _ & Hk). by exists k.
Defined.

(** A title with no letter of the ASCII range is stored under the empty slug. *)
Example cyrillic_titles_have_no_slug :
  (CreateProblem (cenv 13%N) (new_problem "Сумма" VisibilityDraft) 1%N small).2 =
  Ok (problem_of (attempt_row (cenv 13%N) 0 (new_problem "Сумма" VisibilityDraft) "" 1%N None)).
Proof. vm_compute. reflexivity. Qed.

(** ** Listings *)

Definition everything : ProblemFilters := mkProblemFilters None None [] "".

Definition solved_small : catdb :=
  mkCatDb (cd_users small) (cd_problems small) (cd_test_cases small) (cd_tags small)
    (cd_problem_tags small) (cd_languages small) (cd_problem_languages small)
    {[ 50%N := submitted StatusAccepted 50%N; 51%N := submitted StatusWrongAnswer 51%N ]}.

Definition shown_page (env : catalog_env) (limit offset : Z) (db : catdb) : list Problem :=
  match (ListProblems env everything None limit offset db).2 with Ok (ps, _) => ps | Err _ => [] end.

(** Another query's order of problems of the same time. *)
Definition other_env : catalog_env :=
  mkCatalogEnv no_faults (fun _ => 0) (fun _ => 0%N) "" (fun x y => by_id pr_ID y x) (by_id tc_ID).

Lemma other_order : TotalOrder pr_ID (ca_tie other_env).
Proof.
  destruct (by_id_order pr_ID) as [Ht Htr Ha]. split; simpl.
  - intros x y. apply Ht.
  - intros x y z Hxy Hyz. by eapply Htr.
  - intros x y Hxy Hyx. by apply Ha.
Qed.

Definition pages (k : nat) : list Problem :=
  shown_page (if Nat.even k then cenv 0%N else other_env) 1 (Z.of_nat k * 1) small.

Lemma pages_cut_the_catalogue_witness :
  exists all, NoDup (pr_Slug <$> all) /\ pb_ID <$> (seq 0 2 ≫= pages) = pr_ID <$> take 2 all.
Proof.
  destruct (proj2 (pages_cut_the_catalogue everything None small small_wf)) as (all & Hnd & _ & Hpages).
  - apply (bool_decide_eq_true_1 (NoDup (times_listed everything small))). vm_compute. reflexivity.
  - exists all. split; [exact Hnd |].
    apply (Hpages 1 2%nat (fun k => if Nat.even k then cenv 0%N else other_env) pages); [lia |].
    intros k Hk. destruct k as [| [| k]]; [| | lia].
    + split; [apply by_id_order |]. do 2 eexists. vm_compute. reflexivity.
    + split; [apply other_order |]. do 2 eexists. vm_compute. reflexivity.
Defined.

(** Two problems of the same time, and two queries that order them in their
    own way: the second page shows the problem of the first page again, and
    the other one is never shown. *)
Definition same_day (r : problem_row) : problem_row :=
  mkProblemRow (pr_ID r) (pr_Slug r) (pr_Title r) (pr_Summary r) (pr_StatementMarkdown r)
    (pr_TimeLimitMs r) (pr_MemoryLimitMb r) (pr_TestsRef r) (pr_TestsHash r) (pr_Visibility r)
    (pr_Difficulty r) (pr_CreatedByUserID r) 0 (pr_UpdatedAt r) (pr_FunctionSpec r).
Definition twins : catdb := set_problems small (same_day <$> cd_problems small).

Example equal_times_are_shown_twice :
  TotalOrder pr_ID (ca_tie (cenv 0%N)) /\ TotalOrder pr_ID (ca_tie other_env) /\
  pb_ID <$> shown_page (cenv 0%N) 1 0 twins = [10%N] /\ pb_ID <$> shown_page other_env 1 1 twins = [10%N] /\
  length (catalogue (ca_tie other_env) everything twins) = 2%nat.
Proof. split; [apply by_id_order | split; [apply other_order |]]. split_and!; vm_compute; reflexivity. Qed.

Definition shown (u : option uuid) : list Problem :=
  match (ListProblems (cenv 0%N) everything u 50 0 solved_small).2 with
  | Ok (ps, _) => ps
  | Err _ => []
  end.

Lemma listings_tell_the_truth_witness :
  (forall p, p ∈ shown (Some 1%N) ->
     (pb_IsSolved p = true <-> exists u, Some 1%N = Some u /\ solved solved_small u (pb_ID p)) /\
     pb_AcceptanceRate p = rate_of solved_small (pb_ID p)) /\
  (fun p => (pb_Slug p, pb_IsSolved p, pb_Tags p)) <$> shown (Some 1%N) =
    [("two-sums-1", false, []); ("two-sums", true, ["math"])] /\
  rate_of solved_small 10%N = Some (acceptance_rate 1 2).
Proof.
  split; [| split; vm_compute; reflexivity]. intros p. unfold shown.
  destruct (ListProblems (cenv 0%N) everything (Some 1%N) 50 0 solved_small) as [db' [[ps total] | e]] eqn:E;
    cbn [snd]; intros Hp; [| exfalso; exact (not_elem_of_nil p Hp)].
  destruct (proj1 (listings_tell_the_truth (cenv 0%N) everything (Some 1%N) 50 0 solved_small)
    db' ps total p E Hp) as (Hsolved & Hrate & _). split; [exact Hsolved | exact Hrate].
Defined.

(** A listing answers with the limit that was asked for, not with the one that
    was used. *)
Example listings_echo_the_limit :
  exists ps, (handle_catalog (cenv 0%N) author (ReqListProblems (mkListQuery "1000" "-3" "" "" "" [])) small).2
    = RespondJSON StatusOK (ProblemsBody ps 2 1000 (-3)).
Proof. vm_compute. by eexists. Qed.

(** ** Unpublished problems *)

Definition jm : JWTManager := mkJWTManager "secret" 0 0.

Lemma unpublished_problems_stay_hidden_witness :
  (serve_catalog jm 0 "" (cenv 0%N) (ReqGetProblemBySlug "two-sums-1") small).2 =
  (serve_catalog jm 0 "" (cenv 0%N) (ReqGetProblemBySlug "two-sums-1") (drop_problem 11%N small)).2 /\
  resp_status (serve_catalog jm 0 "" (cenv 0%N) (ReqGetProblemBySlug "two-sums-1") small).2 = StatusNotFound.
Proof.
  destruct (cd_problems small !! 11%N) as [r |] eqn:Hr; [| vm_compute in Hr; discriminate].
  split; [| vm_compute; reflexivity].
  apply (unpublished_problems_stay_hidden jm 0 "" (cenv 0%N) (ReqGetProblemBySlug "two-sums-1") 11%N r small);
    [apply small_wf | apply byte_order_total | apply by_id_order | done | | done..].
  vm_compute in Hr. injection Hr as <-. vm_compute. discriminate.
Defined.

(** The public test cases of a draft are served to anyone. *)
Example test_cases_of_drafts_are_public :
  exists tc, (serve_catalog jm 0 "" (cenv 0%N) (ReqListPublicTestCases (Some 11%N)) small).2 =
    RespondJSON StatusOK (TestCasesBody [tc]) /\ tc_ProblemID tc = 11%N.
Proof. vm_compute. by eexists. Qed.

(** ** Test cases, tags and languages *)

Definition sub_tables : subdb :=
  mkSubDb ∅ ∅ (sub_language <$> cd_languages small) (cd_problem_languages small)
    (sub_case <$> cd_test_cases small) [].

Lemma sub_tables_same : same_tables small sub_tables.
Proof. by split. Qed.

Definition active_list (q : uuid) (db : catdb) : list TestCase :=
  order_by (by_index (by_id tc_ID)) (select_where (active_of q) (cd_test_cases db)).

Lemma ListTestCases_listed q db : ListTestCases no_faults (by_id tc_ID) q db = (db, Ok (active_list q db)).
Proof. by apply ListTestCases_ok. Qed.

Lemma DeleteTestCase_run id db :
  (DeleteTestCase no_faults id db).2 = Ok tt ->
  DeleteTestCase no_faults id db = ((DeleteTestCase no_faults id db).1, Ok tt).
Proof. destruct (DeleteTestCase no_faults id db). by intros <-. Qed.

Lemma test_case_lists_agree_witness :
  let db' := (DeleteTestCase no_faults 20%N small).1 in
  ListTestCases no_faults (by_id tc_ID) 10%N db' =
    (db', Ok (List.filter (fun tc => negb (bool_decide (tc_ID tc = 20%N))) (active_list 10%N small))) /\
  tc_ID <$> active_list 10%N small = [20%N; 21%N] /\ tc_ID <$> active_list 10%N db' = [21%N].
Proof.
  intros db'.
  assert (DeleteTestCase no_faults 20%N small = (db', Ok tt)) as Hd
    by (apply DeleteTestCase_run; vm_compute; reflexivity).
  pose proof (by_id_order tc_ID) as Ho. pose proof (by_id_order pt_ID) as Ho'.
  destruct (test_case_lists_agree (by_id tc_ID) (by_id pt_ID) (fun _ _ => eq_refl) no_faults no_faults
    no_faults no_faults 10%N 20%N small db' sub_tables (active_list 10%N small) [] [] small_wf
    sub_tables_same (ListTestCases_listed 10%N small)) as (_ & _ & Hdel).
  split; [| split; vm_compute; reflexivity].
  rewrite <- (Hdel Hd no_faults _ (ListTestCases_listed 10%N db')). apply ListTestCases_listed.
Defined.

Lemma links_are_replaced_as_a_whole_witness :
  let db' := (SetProblemTags no_faults 11%N [30%N] small).1 in
  links_become 11%N [30%N] (cd_problem_tags small) (cd_problem_tags db') /\
  SetProblemTags no_faults 11%N [30%N; 30%N] small =
    (small, Err (Opaque (unique_violation "problem_tags_pkey"))).
Proof.
  intros db'. split; [| vm_compute; reflexivity].
  destruct (proj2 (proj2 (links_are_replaced_as_a_whole (cenv 0%N) no_faults 11%N [30%N] small db' sub_tables)))
    as [Hrun _]; [eexists; vm_compute; reflexivity |].
  destruct (Hrun (fun _ => eq_refl)) as [d Hd]; [| by apply NoDup_singleton |].
  { intros t ->%list_elem_of_singleton. eexists; vm_compute; reflexivity. }
  assert (d = db') as Heq by (unfold db'; rewrite Hd; reflexivity). subst d.
  exact (proj1 (proj1 (links_are_replaced_as_a_whole (cenv 0%N) no_faults 11%N [30%N] small db' sub_tables) _ Hd)).
Defined.

(** An update of a test case that is not there is an internal error. *)
Example missing_test_cases_are_internal_errors :
  resp_status (handle_catalog (cenv 0%N) author
    (ReqUpdateTestCase (Some 10%N) (Some 99%N) (Some (mkUpdateTestCaseRequest "" "" (Some 1) None))) small).2
  = StatusInternalServerError.
Proof. vm_compute. reflexivity. Qed.
End CatalogExample.
