(* ===== verification/ProfileRepo.v ===== *)
(** * Profiles: data and repositories

    The solved problems of [internal/api/auth/repository/user.go], the
    statistics of [stats.go] and the administrators' lists of [admin.go],
    over the tables of accounts, of the catalogue and of security events. *)

From S2P Require Import Prelude Sql GoStrings AuthRepo SubRepo CatalogRepo.

(** ** Data *)

(** A slice to which the rows have been appended: [nil] without rows. *)
Definition go_slice (A : Type) : Type := option (list A).
Definition appended {A} (rows : list A) : go_slice A :=
  match rows with [] => None | _ => Some rows end.
(** [if l == nil { l = []T{} }] *)
Definition or_empty {A} (l : go_slice A) : list A := default [] l.

Record PublicSolution := mkPublicSolution {
  so_ID : uuid;
  so_LanguageID : uuid;
  so_LanguageKey : string;
  so_LanguageDisplayName : string;
  so_SourceText : option string;
  so_Status : SubmissionStatus;
  so_CreatedAt : Z
}.

Record PublicSolvedProblem := mkPublicSolvedProblem {
  sp_ID : uuid;
  sp_Slug : string;
  sp_Title : string;
  sp_Summary : string;
  sp_Difficulty : string;
  sp_Solution : PublicSolution;
  sp_SolvedAt : Z
}.

Record PublicUserProfile := mkPublicUserProfile {
  pp_ID : uuid;
  pp_Handle : string;
  pp_DisplayName : option string;
  pp_AvatarURL : option string;
  pp_Status : UserStatus;
  pp_CreatedAt : Z;
  pp_SolvedProblems : list PublicSolvedProblem
}.

Record TagStat := mkTagStat {
  ts_TagID : uuid;
  ts_TagName : string;
  ts_Count : Z;
  ts_Problems : go_slice Z
}.

Record RecentSubmission := mkRecentSubmission {
  rs_ProblemID : uuid;
  rs_ProblemSlug : string;
  rs_ProblemTitle : string;
  rs_LanguageKey : string;
  rs_Status : SubmissionStatus;
  rs_CreatedAt : Z
}.

Record LanguageStat := mkLanguageStat {
  ls_LanguageKey : string;
  ls_LanguageName : string;
  ls_Count : Z
}.

Record SubmissionStats := mkSubmissionStats {
  ss_TotalSubmissions : Z;
  ss_TotalTestRuns : Z;
  ss_AcceptanceRate : float64;
  ss_MostUsedLanguages : go_slice LanguageStat
}.

Record UserStats := mkUserStats {
  us_TotalSolved : Z;
  us_SolvedByDifficulty : gmap string Z;
  us_SolvedByTag : go_slice TagStat;
  us_RecentSubmissions : go_slice RecentSubmission;
  us_SubmissionStats : SubmissionStats
}.

Record AdminUserSummary := mkAdminUserSummary {
  sm_ID : uuid;
  sm_Handle : string;
  sm_Email : option string;
  sm_DisplayName : option string;
  sm_Status : UserStatus;
  sm_CreatedAt : Z;
  sm_ViolationCount : Z;
  sm_SubmissionCount : Z
}.

Record SecurityEvent := mkSecurityEvent {
  se_ID : uuid;
  se_SubmissionID : uuid;
  se_Category : string;
  se_Severity : string;
  se_Detail : list (string * string);
  se_SourceText : option string;
  se_CreatedAt : Z
}.

(** ** The database *)

Record userdb := mkUserDb {
  ud_auth : authdb;
  ud_cat : catdb;
  ud_events : gmap uuid event_row
}.

Abbreviation user_op A := (M userdb auth_error A).

Definition on_accounts {A} (m : M authdb auth_error A) : user_op A := fun db =>
  let '(accounts, r) := m (ud_auth db) in (mkUserDb accounts (ud_cat db) (ud_events db), r).

(** The server's choice between rows that ORDER BY leaves equal. *)
Record ties := mkTies {
  tie_submission : sub_row -> sub_row -> bool;
  tie_solved : PublicSolvedProblem -> PublicSolvedProblem -> bool;
  tie_tag : TagStat -> TagStat -> bool;
  tie_language : LanguageStat -> LanguageStat -> bool;
  tie_user : AdminUserSummary -> AdminUserSummary -> bool;
  tie_event : SecurityEvent -> SecurityEvent -> bool
}.

(** ORDER BY a number DESC *)
Definition most_first {A} (key : A -> Z) (tie : A -> A -> bool) (x y : A) : bool :=
  (key y <? key x) || ((key x =? key y) && tie x y).

(** ** A user's submissions *)

Definition submitted_by (userID : uuid) (s : sub_row) : bool :=
  bool_decide (sr_UserID s = userID) && bool_decide (sr_Kind s = KindSubmit).
Definition tested_by (userID : uuid) (s : sub_row) : bool :=
  bool_decide (sr_UserID s = userID) && bool_decide (sr_Kind s = KindRun).
Definition accepted_of (userID : uuid) (s : sub_row) : bool :=
  submitted_by userID s && bool_decide (sr_Status s = StatusAccepted).

(** [JOIN problems p ... WHERE p.visibility = 'published'] *)
Definition published (p : problem_row) : bool := bool_decide (pr_Visibility p = VisibilityPublished).
Definition with_published (db : catdb) (s : sub_row) : option (sub_row * problem_row) :=
  match cd_problems db !! sr_ProblemID s with
  | Some p => if published p then Some (s, p) else None
  | None => None
  end.
(** [JOIN languages l] *)
Definition with_language (db : catdb) (r : sub_row * problem_row) : option (sub_row * problem_row * Language) :=
  (fun l => (r, l)) <$> cd_languages db !! sr_LanguageID r.1.

Definition joined_problems (db : catdb) (P : sub_row -> bool) : list (sub_row * problem_row) :=
  omap (with_published db) (select_where P (cd_submissions db)).

(** COUNT(DISTINCT s.problem_id) *)
Definition distinct_problems (subs : list sub_row) : Z :=
  Z.of_nat (length (remove_dups (sr_ProblemID <$> subs))).

(** ORDER BY s.problem_id, s.created_at DESC *)
Definition by_problem_latest {A} (row : A -> sub_row) (tie : sub_row -> sub_row -> bool) (x y : A) : bool :=
  (sr_ProblemID (row x) <? sr_ProblemID (row y))%N ||
  ((sr_ProblemID (row x) =? sr_ProblemID (row y))%N &&
   most_first sr_CreatedAt tie (row x) (row y)).

(** SELECT DISTINCT ON (s.problem_id) of the published problems. *)
Definition latest_of_problems (t : ties) (P : sub_row -> bool) (db : catdb)
  : list (sub_row * problem_row * Language) :=
  distinct_on (fun r => sr_ProblemID r.1.1)
    (order_by (by_problem_latest (fun r => r.1.1) (tie_submission t))
       (omap (with_language db) (joined_problems db P))).

(** ** The solved problems of the public profile *)

Definition solved_problem (r : sub_row * problem_row * Language) : PublicSolvedProblem :=
  let '(s, p, l) := r in
  mkPublicSolvedProblem (pr_ID p) (pr_Slug p) (pr_Title p) (pr_Summary p) (pr_Difficulty p)
    (mkPublicSolution (sr_ID s) (sr_LanguageID s) (lang_Key l) (lang_DisplayName l) (sr_SourceText s)
       (sr_Status s) (sr_CreatedAt s))
    (sr_CreatedAt s).

Definition solved_list (t : ties) (userID : uuid) (db : catdb) : list PublicSolvedProblem :=
  order_by (most_first sp_SolvedAt (tie_solved t))
    (solved_problem <$> latest_of_problems t (accepted_of userID) db).

Definition ListSolvedProblems (io : faults) (t : ties) (userID : uuid)
  : user_op (go_slice PublicSolvedProblem) :=
  select_rows (failed_to "list solved problems")
    (fun e => Wrapf "error iterating solved problems: " (Opaque e) "") io
    (fun db => appended (solved_list t userID (ud_cat db))).

(** ** Statistics *)

Definition total_solved (userID : uuid) (db : catdb) : Z :=
  distinct_problems (select_where (accepted_of userID) (cd_submissions db)).

Definition getTotalSolved (io : faults) (userID : uuid) : user_op Z :=
  statement (failed_to "get total solved") io (select (fun db => total_solved userID (ud_cat db))).

(** GROUP BY p.difficulty *)
Definition difficulty_count (rows : list (sub_row * problem_row)) (d : string) : Z :=
  distinct_problems (List.filter (fun r => bool_decide (pr_Difficulty r.2 = d)) rows).*1.

Definition count_difficulty (rows : list (sub_row * problem_row)) (result : gmap string Z) (d : string)
  : gmap string Z := <[d := difficulty_count rows d]> result.

Definition no_difficulties : gmap string Z := <["hard" := 0]> (<["medium" := 0]> (<["easy" := 0]> ∅)).

Definition solved_by_difficulty (userID : uuid) (db : catdb) : gmap string Z :=
  let rows := joined_problems db (accepted_of userID) in
  foldl (count_difficulty rows) no_difficulties (remove_dups ((fun r => pr_Difficulty r.2) <$> rows)).

Definition GetSolvedByDifficulty (io : faults) (userID : uuid) : user_op (gmap string Z) :=
  select_rows (failed_to "get solved by difficulty")
    (fun e => Wrapf "error iterating difficulties: " (Opaque e) "") io
    (fun db => solved_by_difficulty userID (ud_cat db)).

(** [JOIN problem_tags pt ... JOIN tags t], GROUP BY t.id, t.name *)
Definition tags_of (db : catdb) (r : sub_row * problem_row) : list (sub_row * Tag) :=
  omap (fun pt => if bool_decide (pt.1 = pr_ID r.2)
                  then (fun t => (r.1, t)) <$> cd_tags db !! pt.2 else None)
    (elements (cd_problem_tags db)).

Definition tag_stat (rows : list (sub_row * Tag)) (g : uuid * string) : TagStat :=
  mkTagStat g.1 g.2
    (distinct_problems (List.filter (fun r => bool_decide ((tag_ID r.2, tag_Name r.2) = g)) rows).*1) None.

Definition solved_by_tag (t : ties) (userID : uuid) (db : catdb) : list TagStat :=
  let rows := concat (tags_of db <$> joined_problems db (accepted_of userID)) in
  order_by (most_first ts_Count (tie_tag t))
    (tag_stat rows <$> remove_dups ((fun r => (tag_ID r.2, tag_Name r.2)) <$> rows)).

Definition GetSolvedByTag (io : faults) (t : ties) (userID : uuid) : user_op (go_slice TagStat) :=
  select_rows (failed_to "get solved by tag") (fun e => Wrapf "error iterating tags: " (Opaque e) "") io
    (fun db => appended (solved_by_tag t userID (ud_cat db))).

Definition recent_submission (r : sub_row * problem_row * Language) : RecentSubmission :=
  let '(s, p, l) := r in
  mkRecentSubmission (pr_ID p) (pr_Slug p) (pr_Title p) (lang_Key l) (sr_Status s) (sr_CreatedAt s).

Definition recent_of (t : ties) (userID : uuid) (limit : nat) (db : catdb) : list RecentSubmission :=
  recent_submission <$> take limit (latest_of_problems t (submitted_by userID) db).

Definition GetRecentSubmissions (io : faults) (t : ties) (userID : uuid) (limit : nat)
  : user_op (go_slice RecentSubmission) :=
  select_rows (failed_to "get recent submissions")
    (fun e => Wrapf "error iterating submissions: " (Opaque e) "") io
    (fun db => appended (recent_of t userID limit (ud_cat db))).

(** GROUP BY l.key, l.display_name ORDER BY cnt DESC LIMIT 5 *)
Definition languages_used (userID : uuid) (db : catdb) : list (string * string) :=
  omap (fun s => (fun l => (lang_Key l, lang_DisplayName l)) <$> cd_languages db !! sr_LanguageID s)
    (select_where (fun s => bool_decide (sr_UserID s = userID)) (cd_submissions db)).

Definition language_stat (rows : list (string * string)) (g : string * string) : LanguageStat :=
  mkLanguageStat g.1 g.2 (Z.of_nat (length (List.filter (fun r => bool_decide (r = g)) rows))).

Definition most_used_languages (t : ties) (userID : uuid) (db : catdb) : list LanguageStat :=
  let rows := languages_used userID db in
  take 5 (order_by (most_first ls_Count (tie_language t)) (language_stat rows <$> remove_dups rows)).

(** [SELECT COUNT(.) FROM submissions WHERE ...] *)
Definition count_submissions (what : string) (io : faults) (P : sub_row -> bool) : user_op Z :=
  statement (failed_to what) io (select (fun db => Z.of_nat (count_where P (cd_submissions (ud_cat db))))).

Definition rate_of_submissions (accepted total : Z) : float64 :=
  if 0 <? total then acceptance_rate accepted total else float64_of_int 0.

Definition GetSubmissionStats (io : faults) (t : ties) (userID : uuid) : user_op SubmissionStats :=
  totalSubmissions ← count_submissions "get total submissions" io (submitted_by userID);
  totalTestRuns ← count_submissions "get total test runs" (shift_faults 1 io) (tested_by userID);
  acceptedCount ← count_submissions "get accepted count" (shift_faults 2 io) (accepted_of userID);
  languages ← select_rows (failed_to "get most used languages")
    (fun e => Wrapf "error iterating languages: " (Opaque e) "") (shift_faults 3 io)
    (fun db => appended (most_used_languages t userID (ud_cat db)));
  mret (mkSubmissionStats totalSubmissions totalTestRuns
          (rate_of_submissions acceptedCount totalSubmissions) languages).

Definition GetUserStats (io : faults) (t : ties) (userID : uuid) : user_op UserStats :=
  total ← getTotalSolved io userID;
  byDifficulty ← GetSolvedByDifficulty (shift_faults 1 io) userID;
  byTag ← GetSolvedByTag (shift_faults 3 io) t userID;
  recent ← GetRecentSubmissions (shift_faults 5 io) t userID 10;
  subStats ← GetSubmissionStats (shift_faults 7 io) t userID;
  mret (mkUserStats total byDifficulty byTag recent subStats).

(** ** The administrators' lists *)

Section Admin.
Context `{DbLower} `{DbCollation} `{DbILike}.

(** LEFT JOIN: a row of NULLs where nothing joins. *)
Definition left_join {A} (l : list A) : list (option A) :=
  match l with [] => [None] | _ => Some <$> l end.

(** [se.submission_id IN (SELECT id FROM submissions WHERE user_id = $1)] *)
Definition event_of_user (db : userdb) (userID : uuid) (ev : event_row) : bool :=
  match cd_submissions (ud_cat db) !! SubRepo.ev_SubmissionID ev with
  | Some s => bool_decide (sr_UserID s = userID)
  | None => false
  end.

Definition events_of_user (db : userdb) (userID : uuid) : list (uuid * event_row) :=
  List.filter (fun kv => event_of_user db userID kv.2) (map_to_list (ud_events db)).

(** The group of a user: submissions times events. *)
Definition user_group (db : userdb) (u : User) : list (option sub_row * option (uuid * event_row)) :=
  s ← left_join (select_where (submitted_by (u_ID u)) (cd_submissions (ud_cat db)));
  e ← left_join (events_of_user db (u_ID u));
  [(s, e)].

(** COUNT(DISTINCT id), where NULL does not count. *)
Definition count_distinct {A} (id : A -> option uuid) (rows : list A) : Z :=
  Z.of_nat (length (remove_dups (omap id rows))).

Definition admin_summary (db : userdb) (u : User) : AdminUserSummary :=
  let rows := user_group db u in
  mkAdminUserSummary (u_ID u) (u_Handle u) (u_Email u) (u_DisplayName u) (u_Status u) (u_CreatedAt u)
    (count_distinct (fun r => fst <$> r.2) rows)
    (count_distinct (fun r => sr_ID <$> r.1) rows).

(** [$1 = '' OR u.handle ILIKE '%' || $1 || '%' OR u.email::text ILIKE ...] *)
Definition searched (query : string) (u : User) : bool :=
  bool_decide (query = "") ||
  (let pattern := "%" ++s query ++s "%" in
   ilike (u_Handle u) pattern || match u_Email u with Some e => ilike e pattern | None => false end).

Inductive order_col := ByViolations | ByHandle | BySubmissions | ByCreatedAt.

Definition order_col_of (sortBy : string) : order_col :=
  if bool_decide (sortBy = "handle") then ByHandle
  else if bool_decide (sortBy = "submissions") then BySubmissions
  else if bool_decide (sortBy = "created_at") then ByCreatedAt
  else ByViolations.

(** ORDER BY the column DESC *)
Definition admin_order (t : ties) (col : order_col) : AdminUserSummary -> AdminUserSummary -> bool :=
  match col with
  | ByViolations => most_first sm_ViolationCount (tie_user t)
  | ByHandle => fun x y => db_collate (db_lower (sm_Handle y)) (db_lower (sm_Handle x))
  | BySubmissions => most_first sm_SubmissionCount (tie_user t)
  | ByCreatedAt => most_first sm_CreatedAt (tie_user t)
  end.

Definition admin_users (t : ties) (query sortBy : string) (db : userdb) : list AdminUserSummary :=
  order_by (admin_order t (order_col_of sortBy))
    (admin_summary db <$> select_where (searched query) (au_users (ud_auth db))).

(** LIMIT and OFFSET *)
Definition paged {A} (limit offset : Z) (l : list A) : list A :=
  take (Z.to_nat limit) (drop (Z.to_nat offset) l).

Definition page_input {S} (limit offset : Z) : M S string () :=
  _ ← demand (0 <=? offset) "pq: OFFSET must not be negative";
  demand (0 <=? limit) "pq: LIMIT must not be negative".

(** [fmt.Errorf("what: %w", err)] *)
Definition while_ (what text : string) : auth_error := Wrapf (what ++s ": ") (Opaque text) "".

(** A list and its count: two queries, the second of which may be a page
    that the server rejects, and the reading of its rows. *)
Definition counted_page {A} (count list_ : string) (io : faults) (input : user_op ())
    (limit offset : Z) (size : userdb -> nat) (all : userdb -> list A) : user_op (go_slice A * Z) :=
  _ ← input;
  total ← statement (while_ count) io (select (fun db => Z.of_nat (size db)));
  _ ← execute (while_ list_) (shift_faults 1 io) (page_input limit offset);
  rows ← statement Opaque (shift_faults 2 io) (select (fun db => appended (paged limit offset (all db))));
  mret (rows, total).

Definition ListAdminUsers (io : faults) (t : ties) (query sortBy : string) (limit offset : Z)
  : user_op (go_slice AdminUserSummary * Z) :=
  counted_page "count admin users" "list admin users" io
    (map_err (while_ "count admin users") (text_input query)) limit offset
    (fun db => count_where (searched query) (au_users (ud_auth db))) (admin_users t query sortBy).

(** LEFT JOIN submissions sub *)
Definition security_event (db : userdb) (kv : uuid * event_row) : SecurityEvent :=
  mkSecurityEvent kv.1 (SubRepo.ev_SubmissionID kv.2) (ev_Category kv.2) (ev_Severity kv.2)
    (ev_Detail kv.2)
    (s ← cd_submissions (ud_cat db) !! SubRepo.ev_SubmissionID kv.2; sr_SourceText s)
    (SubRepo.ev_CreatedAt kv.2).

Definition security_events (t : ties) (userID : uuid) (db : userdb) : list SecurityEvent :=
  order_by (most_first se_CreatedAt (tie_event t)) (security_event db <$> events_of_user db userID).

Definition GetUserSecurityEvents (io : faults) (t : ties) (userID : uuid) (limit offset : Z)
  : user_op (go_slice SecurityEvent * Z) :=
  counted_page "count security events" "list security events" io (mret tt) limit offset
    (fun db => length (events_of_user db userID)) (security_events t userID).
End Admin.
