(* ===== verification/ProfileHttp.v ===== *)
(** * Profiles: service and HTTP

    [GetPublicProfile] and [GetUserStats] of
    [internal/api/auth/service/auth.go], [service/admin.go], the handlers
    [public_profile.go], [stats.go] and [admin_users.go] of
    [internal/api/auth/http], and their routes of [cmd/api/routes.go]. *)

From S2P Require Import Prelude Sql GoStrings CPHttp AuthRepo AuthService ApiHttp SubRepo CatalogRepo.
From S2P Require Import ProfileRepo.

(** ** Service *)

(** [uuid.Parse] *)
Class UuidText := uuid_Parse : string -> option uuid.

Section Service.
Context `{DbLower} `{UuidText}.

(** The user that a reference names: an identifier, or else a handle. *)
Definition user_of_ref (io : faults) (ref : string) : M authdb auth_error User :=
  match uuid_Parse ref with
  | Some id => GetUserByID io id
  | None => GetUserByHandle io ref
  end.

Definition GetPublicProfile (io : faults) (t : ties) (userRef : string) : user_op PublicUserProfile :=
  let ref := TrimSpace userRef in
  if bool_decide (ref = "") then fail (Sentinel ErrInvalidUserRef)
  else
    user ← map_err (instead ErrUserNotFound ErrUserNotFound "get user") (on_accounts (user_of_ref io ref));
    if bool_decide (u_Status user = UserStatusBanned) then fail (Sentinel ErrUserNotFound)
    else
      solved ← map_err (wrap "list solved problems") (ListSolvedProblems (shift_faults 1 io) t (u_ID user));
      mret (mkPublicUserProfile (u_ID user) (u_Handle user) (u_DisplayName user) (u_AvatarURL user)
              (u_Status user) (u_CreatedAt user) (or_empty solved)).
End Service.

(** ** Pages *)

(** What [strconv.Atoi] returns beside its error: nothing for a syntax error,
    the nearest integer for a number out of range, which is noticed at the
    digit that exceeds 64 bits. *)
Inductive uint_result := UintOk (n : Z) | UintSyntax | UintRange.

Fixpoint ParseUint (acc : Z) (s : string) : uint_result :=
  match s with
  | EmptyString => UintOk acc
  | String c s' =>
      match digit_of c with
      | None => UintSyntax
      | Some d => if 2^64 <=? 10 * acc + d then UintRange else ParseUint (10 * acc + d) s'
      end
  end.

Definition signed (neg : bool) (n : Z) : Z :=
  if neg then Z.max (- 2^63) (- n) else Z.min (2^63 - 1) n.

Definition Atoi_value (s : string) : Z :=
  let '(neg, body) :=
    match s with
    | String c s' => if is_byte 45 c then (true, s') else if is_byte 43 c then (false, s') else (false, s)
    | EmptyString => (false, s)
    end in
  if bool_decide (body = "") then 0
  else match ParseUint 0 body with
       | UintOk n => signed neg n
       | UintRange => signed neg (2^64 - 1)
       | UintSyntax => 0
       end.

Definition adminPageSize : Z := 20.

Record page_params := mkPage { pg_page : Z; pg_limit : Z; pg_offset : Z }.

(** From the query parameters [page] and [limit]. *)
Definition parsePage (pageText limitText : string) : page_params :=
  let page := Atoi_value pageText in
  let page := if page <? 1 then 1 else page in
  let limit := Atoi_value limitText in
  let limit := if (limit <? 1) || (100 <? limit) then adminPageSize else limit in
  mkPage page limit (wrap64 (wrap64 (page - 1) * limit)).

(** ** Handlers *)

Record adminPage (A : Type) := mkAdminPage {
  ap_Items : list A;
  ap_Total : Z;
  ap_Page : Z;
  ap_Limit : Z
}.
Arguments mkAdminPage {A} _ _ _ _.
Arguments ap_Items {A} _.
Arguments ap_Total {A} _.
Arguments ap_Page {A} _.
Arguments ap_Limit {A} _.

Inductive user_data :=
  | ProfileBody (profile : PublicUserProfile)
  | StatsBody (stats : UserStats)
  | AdminUsersBody (page : adminPage AdminUserSummary)
  | SecurityEventsBody (page : adminPage SecurityEvent).

Abbreviation user_handler := (api_handler userdb user_data).

Section Handlers.
Context `{DbLower} `{UuidText} `{DbCollation} `{DbILike}.

Definition GetPublicUserProfile_handler (io : faults) (t : ties) (userRef : string) : user_handler :=
  if bool_decide (userRef = "") then refuse StatusBadRequest "user reference is required"
  else answer (GetPublicProfile io t userRef) (fun p => RespondJSON StatusOK (ProfileBody p))
    (not_found_or ErrUserNotFound "user not found" (fun e =>
       if errors_Is e ErrInvalidUserRef then
         RespondSimpleError StatusBadRequest "invalid user reference"
       else internal "failed to load profile" e)).

Definition GetUserStats_handler (io : faults) (t : ties) (c : caller) : user_handler :=
  match c_UserID c with
  | None => refuse StatusUnauthorized "user not authenticated"
  | Some userID =>
      answer (GetUserStats io t userID) (fun s => RespondJSON StatusOK (StatsBody s))
        (not_found_or ErrUserNotFound "user not found" (internal "failed to load user stats"))
  end.

Definition admin_page {A} (p : page_params) (r : go_slice A * Z) : adminPage A :=
  mkAdminPage (or_empty r.1) r.2 (pg_page p) (pg_limit p).

Definition ListAdminUsers_handler (io : faults) (t : ties) (q sort pageText limitText : string)
  : user_handler :=
  let p := parsePage pageText limitText in
  answer (ListAdminUsers io t q sort (pg_limit p) (pg_offset p))
    (fun r => RespondJSON StatusOK (AdminUsersBody (admin_page p r)))
    (internal "failed to list users").

Definition GetAdminUserSecurityEvents_handler (io : faults) (t : ties) (userIDStr pageText limitText : string)
  : user_handler :=
  match uuid_Parse userIDStr with
  | None => refuse StatusBadRequest "invalid user ID"
  | Some userID =>
      let p := parsePage pageText limitText in
      answer (GetUserSecurityEvents io t userID (pg_limit p) (pg_offset p))
        (fun r => RespondJSON StatusOK (SecurityEventsBody (admin_page p r)))
        (internal "failed to get security events")
  end.

(** ** Routes *)

Inductive user_request :=
  | ReqUserStats
  | ReqPublicProfile (userRef : string)
  | ReqAdminUsers (q sort page limit : string)
  | ReqSecurityEvents (userID page limit : string).

(** [RequirePermission] in front of a handler. *)
Definition behind (check : caller -> option Z) (c : caller) (h : user_handler) : user_handler :=
  match check c with
  | Some status => refuse status 
      (if status =? StatusUnauthorized then "unauthorized" else "forbidden: insufficient permissions")
  | None => h
  end.

Context `{AuthCrypto} (jm : JWTManager).

(** A request with its [Authorization] header. *)
Definition serve_user (now : Z) (io : faults) (t : ties) (authHeader : string) (req : user_request)
  : user_handler :=
  let signed_in (h : caller -> user_handler) : user_handler :=
    match AuthMiddleware jm now authHeader with
    | Err text => refuse StatusUnauthorized text
    | Ok ctx => h (caller_of (Some ctx))
    end in
  match req with
  | ReqPublicProfile userRef => GetPublicUserProfile_handler io t userRef
  | ReqUserStats => signed_in (GetUserStats_handler io t)
  | ReqAdminUsers q sort page limit => signed_in (fun c =>
      behind (RequirePermission AdminAccess) c (ListAdminUsers_handler io t q sort page limit))
  | ReqSecurityEvents userID page limit => signed_in (fun c =>
      behind (RequirePermission AdminAccess) c
        (GetAdminUserSecurityEvents_handler io t userID page limit))
  end.
End Handlers.
