(* ===== verification/ProfileFacts.v ===== *)
(** * Profiles: what the queries find

    The solved problems of a user, as the joins, the DISTINCT ON and the
    groups of the queries find them: each published problem with an accepted
    submission, once, with the latest one. *)

From S2P Require Import Prelude Sql GoStrings CPHttp AuthRepo AuthService AuthFacts ApiHttp SubRepo.
From S2P Require Import CatalogRepo CatalogService CatalogFacts CatalogViews ProfileRepo ProfileHttp.

(** ** Orders *)

Lemma order_pullback {V W K} (key : V -> K) (leb : V -> V -> bool) (f : W -> V) :
  TotalOrder key leb -> TotalOrder (fun w => key (f w)) (fun x y => leb (f x) (f y)).
Proof.
  intros Ho. split.
  - intros x y. apply order_total.
  - intros x y z. apply order_trans.
  - intros x y. apply order_antisym.
Qed.

Lemma most_first_order {V K} (key : V -> K) (col : V -> Z) (tie : V -> V -> bool) :
  TotalOrder key tie -> TotalOrder key (most_first col tie).
Proof.
  intros Ht. apply (order_then (fun a b => b <? a) Z.eqb col key tie); [apply Z.eqb_eq | .. | done];
    intros *; rewrite ?Z.ltb_lt; lia.
Qed.

Lemma by_problem_latest_order {A} (row : A -> sub_row) tie :
  TotalOrder sr_ID tie -> TotalOrder (fun x => sr_ID (row x)) (by_problem_latest row tie).
Proof.
  intros Ht. apply (order_then N.ltb N.eqb (fun x => sr_ProblemID (row x))
    (fun x => sr_ID (row x)) (fun x y => most_first sr_CreatedAt tie (row x) (row y))).
  - apply N.eqb_eq.
  - intros *. rewrite !N.ltb_lt. lia.
  - intros *. apply N.ltb_irrefl.
  - intros *. rewrite !N.ltb_lt. lia.
  - by apply (order_pullback sr_ID _ row), most_first_order.
Qed.

Lemma by_problem_latest_spec {A} (row : A -> sub_row) tie x y :
  by_problem_latest row tie x y = true ->
  (sr_ProblemID (row x) <= sr_ProblemID (row y))%N /\
  (sr_ProblemID (row x) = sr_ProblemID (row y) -> sr_CreatedAt (row y) <= sr_CreatedAt (row x)).
Proof.
  unfold by_problem_latest, most_first. rewrite orb_true_iff, andb_true_iff, N.ltb_lt, N.eqb_eq.
  rewrite orb_true_iff, andb_true_iff, Z.ltb_lt, Z.eqb_eq. lia.
Qed.

(** COUNT(DISTINCT) is the length of any list without repetitions of the
    same elements. *)
Lemma length_distinct {A} `{EqDecision A} (l l' : list A) :
  NoDup l' -> (forall x, x ∈ l' <-> x ∈ l) -> length (remove_dups l) = length l'.
Proof.
  intros Hnd Hl. apply Permutation_length, NoDup_Permutation; [apply NoDup_remove_dups | done |].
  intros x. rewrite elem_of_remove_dups. symmetry. apply Hl.
Qed.

Lemma NoDup_column_filter {A B} (f : A -> B) (P : A -> bool) l :
  NoDup (f <$> l) -> NoDup (f <$> List.filter P l).
Proof.
  induction l as [| a l IH]; simpl; [done |]. rewrite NoDup_cons. intros [Ha Hl].
  destruct (P a); simpl; [| auto]. apply NoDup_cons. split; [| auto].
  intros (b & Heq & Hb)%list_elem_of_fmap. apply Ha, list_elem_of_fmap. exists b. split; [done |].
  apply list_elem_of_In, filter_In in Hb as [Hb _]. by apply list_elem_of_In.
Qed.

Lemma filter_none {A} (P : A -> bool) l : (forall a, a ∈ l -> P a = false) -> List.filter P l = [].
Proof.
  induction l as [| a l IH]; intros Hl; [done |]. simpl. rewrite Hl by apply list_elem_of_here.
  apply IH. intros b Hb. by apply Hl, list_elem_of_further.
Qed.

(** ** Well-formed tables *)

(** Submissions lie under their identifiers and have a language. *)
Record submissions_wf (db : catdb) : Prop := {
  sf_ids k s : cd_submissions db !! k = Some s -> sr_ID s = k;
  sf_languages k s : cd_submissions db !! k = Some s -> is_Some (cd_languages db !! sr_LanguageID s)
}.

(** The user has solved a published problem. *)
Definition solved_published (db : catdb) (u q : uuid) : Prop :=
  solved db u q /\ exists p, cd_problems db !! q = Some p /\ published p = true.

Section Latest.
Context (t : ties) (db : catdb).

Lemma elem_of_joined_problems P s p :
  (s, p) ∈ joined_problems db P <->
  P s = true /\ (exists k, cd_submissions db !! k = Some s) /\
  cd_problems db !! sr_ProblemID s = Some p /\ published p = true.
Proof.
  unfold joined_problems. rewrite list_elem_of_omap. unfold with_published. split.
  - intros (s' & [HP Hk]%elem_of_select_where & Hs). repeat case_match; naive_solver.
  - intros (HP & Hk & Hp & Hpub). exists s. rewrite elem_of_select_where. split; [done |].
    by rewrite Hp, Hpub.
Qed.

Lemma joined_id P s p : catalog_wf db -> (s, p) ∈ joined_problems db P -> pr_ID p = sr_ProblemID s.
Proof. intros Hcat (_ & _ & Hp & _)%elem_of_joined_problems. apply (keyed_key _ _ _ (cw_problems _ Hcat) _ _ Hp). Qed.

(** What the SELECT DISTINCT ON keeps: of each published problem with such a
    submission, the latest one. *)
Lemma latest_spec P :
  TotalOrder sr_ID (tie_submission t) -> submissions_wf db ->
  let l := latest_of_problems t P db in
  NoDup ((fun r => sr_ProblemID r.1.1) <$> l) /\
  (forall s p lang, (s, p, lang) ∈ l ->
     (s, p) ∈ joined_problems db P /\ cd_languages db !! sr_LanguageID s = Some lang /\
     forall k s', cd_submissions db !! k = Some s' -> P s' = true -> sr_ProblemID s' = sr_ProblemID s ->
       sr_CreatedAt s' <= sr_CreatedAt s) /\
  (forall s p, (s, p) ∈ joined_problems db P -> exists r, r ∈ l /\ sr_ProblemID r.1.1 = sr_ProblemID s).
Proof.
  intros Ht Hsubs l. pose (leb := by_problem_latest (fun r : sub_row * problem_row * Language => r.1.1) (tie_submission t)).
  set (rows := omap (with_language db) (joined_problems db P)).
  assert (forall s p lang, (s, p, lang) ∈ rows <->
    (s, p) ∈ joined_problems db P /\ cd_languages db !! sr_LanguageID s = Some lang) as Hrows.
  { intros s p lang. unfold rows. rewrite list_elem_of_omap. unfold with_language. split.
    - intros ([s' p'] & Hin & Hl). apply fmap_Some in Hl as (lang' & Hl & [= <- <- <-]). done.
    - intros [Hin Hl]. exists (s, p). split; [done |]. simpl. by rewrite Hl. }
  pose proof (by_problem_latest_order (fun r : sub_row * problem_row * Language => r.1.1)
    (tie_submission t) Ht) as Ho.
  destruct (distinct_on_spec (fun r : sub_row * problem_row * Language => sr_ProblemID r.1.1)
    (fun x y => leb x y = true) (order_by leb rows)) as (Hnd & Hin & Hall).
  - by apply (order_by_sorted (fun r : sub_row * problem_row * Language => sr_ID r.1.1)).
  - intros x y. apply by_problem_latest_spec.
  - change (distinct_on _ (order_by leb rows)) with l in Hnd, Hin, Hall. split_and!; [done | |].
    + intros s p lang Hl. destruct (Hin _ Hl) as [Hr Hfirst]. rewrite elem_of_order_by in Hr.
      apply Hrows in Hr as [Hj Hlang]. split_and!; [done | done |].
      intros k s' Hk HP Hq. apply elem_of_joined_problems in Hj as (_ & _ & Hp & Hpub).
      destruct (sf_languages _ Hsubs _ _ Hk) as [lang' Hlang'].
      assert ((s', p, lang') ∈ rows) as Hs'.
      { apply Hrows. split; [| done]. apply elem_of_joined_problems. rewrite Hq. eauto. }
      destruct (Hfirst (s', p, lang')) as [[= -> ->] | Hle]; [by rewrite elem_of_order_by | done | lia |].
      apply by_problem_latest_spec in Hle as [_ Hle]. simpl in Hle. auto.
    + intros s p Hj. pose proof Hj as (_ & [k Hk] & _)%elem_of_joined_problems.
      destruct (sf_languages _ Hsubs _ _ Hk) as [lang Hlang].
      apply (Hall (s, p, lang)). rewrite elem_of_order_by. by apply Hrows.
Qed.

(** The solved problems: each published one that the user has solved, once,
    with the latest accepted solution. *)
Lemma solved_list_ids u :
  TotalOrder sr_ID (tie_submission t) -> catalog_wf db -> submissions_wf db ->
  NoDup (sp_ID <$> solved_list t u db) /\
  (forall q, q ∈ sp_ID <$> solved_list t u db <-> solved_published db u q).
Proof.
  intros Ht Hcat Hsubs. destruct (latest_spec (accepted_of u) Ht Hsubs) as (Hnd & Hin & Hall).
  assert (sp_ID <$> solved_list t u db ≡ₚ
    (fun r => sr_ProblemID r.1.1) <$> latest_of_problems t (accepted_of u) db) as Hperm.
  { unfold solved_list. rewrite order_by_perm, <- list_fmap_compose.
    rewrite (Forall_fmap_ext_1 _ (fun r => sr_ProblemID r.1.1)); [done |].
    apply Forall_forall. intros [[s p] lang] Hr. simpl.
    destruct (Hin _ _ _ Hr) as [Hj _]. by apply (joined_id (accepted_of u)). }
  split; [by rewrite Hperm |]. intros q. rewrite Hperm, list_elem_of_fmap. unfold solved_published, solved. split.
  - intros ([[s p] lang] & -> & Hr). destruct (Hin _ _ _ Hr) as (Hj & _). simpl.
    apply elem_of_joined_problems in Hj as (Hacc & [k Hk] & Hp & Hpub). unfold accepted_of, submitted_by in Hacc.
    rewrite !andb_true_iff, !bool_decide_eq_true in Hacc. split; [| by eauto].
    exists k, s. naive_solver.
  - intros [(k & s & Hk & Hu & <- & Hst & Hkd) (p & Hp & Hpub)].
    destruct (Hall s p) as (r & Hr & Hid); [| by exists r].
    apply elem_of_joined_problems. split_and!; [| by exists k | done | done]. unfold accepted_of, submitted_by.
    by rewrite !andb_true_iff, !bool_decide_eq_true.
Qed.

(** An entry shows its problem and the user's latest accepted solution. *)
Definition shows (u : uuid) (sp : PublicSolvedProblem) : Prop :=
  exists k s p lang,
    cd_submissions db !! k = Some s /\ accepted_of u s = true /\
    cd_problems db !! sr_ProblemID s = Some p /\ cd_languages db !! sr_LanguageID s = Some lang /\
    sp = solved_problem (s, p, lang) /\ sp_ID sp = sr_ProblemID s /\
    forall k' s', cd_submissions db !! k' = Some s' -> accepted_of u s' = true ->
      sr_ProblemID s' = sp_ID sp -> sr_CreatedAt s' <= sp_SolvedAt sp.

Lemma solved_list_shows u sp :
  TotalOrder sr_ID (tie_submission t) -> catalog_wf db -> submissions_wf db ->
  sp ∈ solved_list t u db -> shows u sp.
Proof.
  intros Ht Hcat Hsubs. unfold solved_list. rewrite elem_of_order_by.
  intros ([[s p] lang] & -> & Hr)%list_elem_of_fmap.
  destruct (latest_spec (accepted_of u) Ht Hsubs) as (_ & Hin & _).
  destruct (Hin _ _ _ Hr) as (Hj & Hlang & Hlatest). pose proof (joined_id _ _ _ Hcat Hj) as Hid.
  apply elem_of_joined_problems in Hj as (Hacc & [k Hk] & Hp & _).
  exists k, s, p, lang. simpl. rewrite Hid. eauto 10.
Qed.

(** ** Counting *)

Lemma distinct_count u subs (P : PublicSolvedProblem -> bool) :
  TotalOrder sr_ID (tie_submission t) -> catalog_wf db -> submissions_wf db ->
  (forall q, q ∈ sr_ProblemID <$> subs <->
     exists sp, sp ∈ solved_list t u db /\ P sp = true /\ sp_ID sp = q) ->
  distinct_problems subs = Z.of_nat (length (List.filter P (solved_list t u db))).
Proof.
  intros Ht Hcat Hsubs Hq. unfold distinct_problems. f_equal.
  rewrite <- (length_fmap sp_ID (List.filter P (solved_list t u db))).
  apply length_distinct.
  - by apply NoDup_column_filter, solved_list_ids.
  - intros q. rewrite Hq, list_elem_of_fmap. split.
    + intros (sp & -> & Hin). exists sp. rewrite list_elem_of_In, filter_In, <- list_elem_of_In in Hin. naive_solver.
    + intros (sp & Hin & HP & <-). exists sp. by rewrite list_elem_of_In, filter_In, <- list_elem_of_In.
Qed.

(** The rows of a solved problem's group are those of its list entry. *)
Lemma joined_entry u s p :
  TotalOrder sr_ID (tie_submission t) -> catalog_wf db -> submissions_wf db ->
  (s, p) ∈ joined_problems db (accepted_of u) <->
  (exists k, cd_submissions db !! k = Some s) /\ accepted_of u s = true /\
  exists sp, sp ∈ solved_list t u db /\ sp_ID sp = sr_ProblemID s /\
    cd_problems db !! sr_ProblemID s = Some p /\ sp_Difficulty sp = pr_Difficulty p.
Proof.
  intros Ht Hcat Hsubs. destruct (latest_spec (accepted_of u) Ht Hsubs) as (_ & Hin & Hall). split.
  - intros Hj. destruct (Hall _ _ Hj) as ([[s' p'] lang] & Hr & Hq). simpl in Hq.
    destruct (Hin _ _ _ Hr) as (Hj' & _). pose proof (joined_id _ _ _ Hcat Hj') as Hid'.
    apply elem_of_joined_problems in Hj as (Hacc & Hk & Hp & Hpub).
    apply elem_of_joined_problems in Hj' as (_ & _ & Hp' & _). rewrite Hq, Hp in Hp'. injection Hp' as <-.
    split_and!; [done | done |]. exists (solved_problem (s', p, lang)).
    split_and!; [| by simpl; rewrite Hid' | done | done]. unfold solved_list. rewrite elem_of_order_by.
    apply list_elem_of_fmap. by exists (s', p, lang).
  - intros (Hk & Hacc & sp & Hsp & Hid & Hp & _). apply elem_of_joined_problems. split_and!; [done | done | done |].
    destruct (solved_list_ids u Ht Hcat Hsubs) as [_ Hids].
    assert (sp_ID sp ∈ sp_ID <$> solved_list t u db) as Hmem by (apply list_elem_of_fmap; eauto).
    apply Hids in Hmem as [_ (p' & Hp' & Hpub)]. rewrite Hid in Hp'. congruence.
Qed.

(** ** By difficulty *)

Definition of_difficulty (d : string) (sp : PublicSolvedProblem) : bool :=
  bool_decide (sp_Difficulty sp = d).

Lemma lookup_counted rows ds d (m : gmap string Z) :
  foldl (count_difficulty rows) m ds !! d =
  if bool_decide (d ∈ ds) then Some (difficulty_count rows d) else m !! d.
Proof.
  revert m. induction ds as [| e ds IH]; intros m; simpl; [done |]. rewrite IH. unfold count_difficulty.
  destruct (decide (d ∈ ds)).
  - rewrite !bool_decide_eq_true_2 by (done || by apply list_elem_of_further). done.
  - rewrite (bool_decide_eq_false_2 (d ∈ ds)) by done. destruct (decide (d = e)) as [-> | Hne].
    + rewrite lookup_insert_eq, bool_decide_eq_true_2 by apply list_elem_of_here. done.
    + rewrite lookup_insert_ne, bool_decide_eq_false_2 by (congruence || rewrite elem_of_cons; naive_solver). done.
Qed.

Lemma difficulty_count_solved u d :
  TotalOrder sr_ID (tie_submission t) -> catalog_wf db -> submissions_wf db ->
  difficulty_count (joined_problems db (accepted_of u)) d
  = Z.of_nat (length (List.filter (of_difficulty d) (solved_list t u db))).
Proof.
  intros Ht Hcat Hsubs. apply (distinct_count u); [done .. |]. intros q.
  rewrite list_elem_of_fmap. unfold of_difficulty. split.
  - intros (s & -> & Hs). apply list_elem_of_fmap in Hs as ([s' p] & -> & Hf). simpl.
    rewrite list_elem_of_In, filter_In, <- list_elem_of_In in Hf. destruct Hf as [Hj Hd].
    apply (joined_entry u _ _ Ht Hcat Hsubs) in Hj as (_ & _ & sp & Hsp & Hid & _ & Hdiff).
    exists sp. by rewrite Hdiff.
  - intros (sp & Hsp & Hd & <-). destruct (solved_list_shows _ _ Ht Hcat Hsubs Hsp)
      as (k & s & p & lang & Hk & Hacc & Hp & _ & Heq & Hid & _).
    exists s. split; [done |]. apply list_elem_of_fmap. exists (s, p). split; [done |].
    rewrite list_elem_of_In, filter_In, <- list_elem_of_In. split.
    + apply (joined_entry u _ _ Ht Hcat Hsubs). split_and!; [by exists k | done |]. exists sp.
      split_and!; try done. by rewrite Heq.
    + simpl. by rewrite Heq in Hd.
Qed.

Lemma solved_by_difficulty_spec u d :
  TotalOrder sr_ID (tie_submission t) -> catalog_wf db -> submissions_wf db -> d ∈ difficulties ->
  solved_by_difficulty u db !! d
  = Some (Z.of_nat (length (List.filter (of_difficulty d) (solved_list t u db)))).
Proof.
  intros Ht Hcat Hsubs Hd. rewrite <- difficulty_count_solved by done. unfold solved_by_difficulty.
  rewrite lookup_counted. case_bool_decide as Hin; [done |].
  assert (difficulty_count (joined_problems db (accepted_of u)) d = 0) as Hzero.
  { unfold difficulty_count. rewrite filter_none; [done |]. intros r Hr.
    apply bool_decide_eq_false. intros <-. apply Hin, elem_of_remove_dups, list_elem_of_fmap. by exists r. }
  rewrite Hzero. unfold difficulties in Hd. rewrite !elem_of_cons in Hd.
  destruct Hd as [-> | [-> | [-> | []%not_elem_of_nil]]]; reflexivity.
Qed.

(** Every solved problem has one of the difficulties. *)
Lemma difficulties_partition u :
  TotalOrder sr_ID (tie_submission t) -> catalog_wf db -> submissions_wf db ->
  let count d := length (List.filter (of_difficulty d) (solved_list t u db)) in
  length (solved_list t u db) = (count DifficultyEasy + count DifficultyMedium + count DifficultyHard)%nat.
Proof.
  intros Ht Hcat Hsubs count. unfold count.
  assert (forall sp, sp ∈ solved_list t u db -> sp_Difficulty sp ∈ difficulties) as Hall.
  { intros sp Hsp. destruct (solved_list_shows _ _ Ht Hcat Hsubs Hsp)
      as (k & s & p & lang & _ & _ & Hp & _ & -> & _). apply (ok_difficulty _ _ (cw_rows _ Hcat _ _ Hp)). }
  induction (solved_list t u db) as [| sp l IH]; [done |].
  assert (sp_Difficulty sp ∈ difficulties) as Hsp by apply Hall, list_elem_of_here. simpl.
  rewrite IH by (intros sp' Hsp'; by apply Hall, list_elem_of_further). unfold of_difficulty.
  unfold difficulties in Hsp. rewrite !elem_of_cons in Hsp.
  destruct Hsp as [-> | [-> | [-> | []%not_elem_of_nil]]]; simpl; lia.
Qed.

(** ** By tag *)

Definition with_tag (tag : uuid) (sp : PublicSolvedProblem) : bool :=
  bool_decide ((sp_ID sp, tag) ∈ cd_problem_tags db).

Definition tag_rows (u : uuid) : list (sub_row * Tag) := concat (tags_of db <$> joined_problems db (accepted_of u)).

Lemma elem_of_tag_rows u s tag :
  catalog_wf db ->
  (s, tag) ∈ tag_rows u <-> (exists p, (s, p) ∈ joined_problems db (accepted_of u)) /\
    (sr_ProblemID s, tag_ID tag) ∈ cd_problem_tags db /\ cd_tags db !! tag_ID tag = Some tag.
Proof.
  intros Hcat. unfold tag_rows. rewrite list_elem_of_In, in_concat. split.
  - intros (rows & Hrows & Hin). apply list_elem_of_In in Hrows. apply list_elem_of_In in Hin.
    apply list_elem_of_fmap in Hrows as ([s' p] & -> & Hj). unfold tags_of in Hin.
    apply list_elem_of_omap in Hin as ([q tid] & Hpt & Hr). simpl in Hr.
    case_bool_decide as Hq; [| done]. apply fmap_Some in Hr as (tag' & Htag & [= <- <-]).
    pose proof (keyed_key _ _ _ (cw_tags _ Hcat) _ _ Htag) as <-.
    rewrite elem_of_elements, Hq, (joined_id _ _ _ Hcat Hj) in Hpt. eauto.
  - intros ((p & Hj) & Hpt & Htag). exists (tags_of db (s, p)). rewrite <- !list_elem_of_In. split.
    + apply list_elem_of_fmap. by exists (s, p).
    + unfold tags_of. apply list_elem_of_omap. exists (sr_ProblemID s, tag_ID tag).
      split; [by apply elem_of_elements |]. simpl.
      rewrite bool_decide_eq_true_2 by (symmetry; by apply (joined_id (accepted_of u))). by rewrite Htag.
Qed.

Lemma tag_count u tag :
  TotalOrder sr_ID (tie_submission t) -> catalog_wf db -> submissions_wf db ->
  cd_tags db !! tag_ID tag = Some tag ->
  ts_Count (tag_stat (tag_rows u) (tag_ID tag, tag_Name tag))
  = Z.of_nat (length (List.filter (with_tag (tag_ID tag)) (solved_list t u db))).
Proof.
  intros Ht Hcat Hsubs Htag. apply (distinct_count u); [done .. |]. intros q.
  rewrite list_elem_of_fmap. unfold with_tag. split.
  - intros (s & -> & Hs). apply list_elem_of_fmap in Hs as ([s' tag'] & -> & Hf). simpl.
    rewrite list_elem_of_In, filter_In, <- list_elem_of_In, bool_decide_eq_true in Hf.
    destruct Hf as [Hr [= Hid _]]. apply elem_of_tag_rows in Hr as ((p & Hj) & Hpt & _); [| done].
    apply (joined_entry u _ _ Ht Hcat Hsubs) in Hj as (_ & _ & sp & Hsp & Hq & _).
    exists sp. rewrite Hq, bool_decide_eq_true. rewrite Hid in Hpt. done.
  - intros (sp & Hsp & Hpt%bool_decide_eq_true & <-). destruct (solved_list_shows _ _ Ht Hcat Hsubs Hsp)
      as (k & s & p & lang & Hk & Hacc & Hp & _ & Heq & Hid & _). rewrite Hid in Hpt |- *.
    exists s. split; [done |]. apply list_elem_of_fmap. exists (s, tag). split; [done |].
    rewrite list_elem_of_In, filter_In, <- list_elem_of_In. simpl.
    split; [| by apply bool_decide_eq_true]. apply elem_of_tag_rows; [done |]. split_and!; try done.
    exists p. apply (joined_entry u _ _ Ht Hcat Hsubs). split_and!; [by exists k | done |]. exists sp.
    split_and!; try done. by rewrite Heq.
Qed.

(** An entry for each tag of a solved problem, with how many have it. *)
Lemma solved_by_tag_spec u :
  TotalOrder sr_ID (tie_submission t) -> catalog_wf db -> submissions_wf db ->
  NoDup (ts_TagID <$> solved_by_tag t u db) /\
  (forall st, st ∈ solved_by_tag t u db -> exists tag, cd_tags db !! ts_TagID st = Some tag /\
     ts_TagName st = tag_Name tag /\
     ts_Count st = Z.of_nat (length (List.filter (with_tag (ts_TagID st)) (solved_list t u db)))) /\
  (forall sp tag, sp ∈ solved_list t u db -> (sp_ID sp, tag) ∈ cd_problem_tags db ->
     tag ∈ ts_TagID <$> solved_by_tag t u db).
Proof.
  intros Ht Hcat Hsubs. unfold solved_by_tag. fold (tag_rows u).
  set (groups := remove_dups ((fun r : sub_row * Tag => (tag_ID r.2, tag_Name r.2)) <$> tag_rows u)).
  assert (forall g, g ∈ groups -> exists tag, cd_tags db !! g.1 = Some tag /\
    g = (tag_ID tag, tag_Name tag) /\ cd_tags db !! tag_ID tag = Some tag) as Hgroups.
  { intros g. unfold groups. rewrite elem_of_remove_dups, list_elem_of_fmap.
    intros ([s tag] & -> & (_ & _ & Htag)%elem_of_tag_rows); [by exists tag | done]. }
  assert (ts_TagID <$> order_by (most_first ts_Count (tie_tag t)) (tag_stat (tag_rows u) <$> groups)
    ≡ₚ groups.*1) as Hperm.
  { by rewrite order_by_perm, <- list_fmap_compose. }
  split_and!.
  - rewrite Hperm. apply NoDup_fmap_2_strong; [| apply NoDup_remove_dups].
    intros g g' Hg Hg' Heq. destruct (Hgroups g Hg) as (tag & H1 & -> & _).
    destruct (Hgroups g' Hg') as (tag' & H1' & -> & _). simpl in *. congruence.
  - intros st. rewrite elem_of_order_by, list_elem_of_fmap. intros (g & -> & Hg).
    destruct (Hgroups g Hg) as (tag & Htag & -> & Htag'). exists tag. split_and!; [done | done |].
    by apply tag_count.
  - intros sp tid Hsp Hpt. rewrite Hperm. destruct (solved_list_shows _ _ Ht Hcat Hsubs Hsp)
      as (k & s & p & lang & Hk & Hacc & Hp & _ & Heq & Hid & _).
    destruct (cw_problem_tags _ Hcat _ _ Hpt) as [_ [tag Htag]].
    pose proof (keyed_key _ _ _ (cw_tags _ Hcat) _ _ Htag) as <-.
    apply list_elem_of_fmap. exists (tag_ID tag, tag_Name tag). split; [done |].
    apply elem_of_remove_dups, list_elem_of_fmap. exists (s, tag). split; [done |].
    apply elem_of_tag_rows; [done |]. rewrite Hid in Hpt. split_and!; try done.
    exists p. apply (joined_entry u _ _ Ht Hcat Hsubs). split_and!; [by exists k | done |]. exists sp.
    split_and!; try done. by rewrite Heq.
Qed.
End Latest.
