(* ===== verification/ProfileTheorems.v ===== *)
(** * Profiles: theorems

    The public profile, the statistics and the catalogue's listing tell the
    same story of what a user has solved; the administrators' pages tile
    their lists, and their counts are those of the tables, not of the joins.
    At the end a small judge with one user, on which the theorems are applied,
    and runs that show where profiles and statistics fall short. *)

From stdpp Require Import sorting.
From S2P Require Import Prelude Sql GoStrings CPHttp AuthRepo AuthService AuthFacts AuthTheorems AuthAccounts.
From S2P Require Import ApiHttp SubRepo.
From S2P Require Import CatalogRepo CatalogService CatalogFacts CatalogViews CatalogListings.
From S2P Require Import ProfileRepo ProfileHttp ProfileFacts.

(** ** Statistics *)

Definition user_wf (db : userdb) : Prop := catalog_wf (ud_cat db) /\ submissions_wf (ud_cat db).

Lemma or_empty_appended {A} (l : list A) : or_empty (appended l) = l.
Proof. by destruct l. Qed.

(** The answer of the statistics, as no statement fails. *)
Definition statistics (t : ties) (u : uuid) (db : catdb) : UserStats :=
  mkUserStats (total_solved u db) (solved_by_difficulty u db) (appended (solved_by_tag t u db))
    (appended (recent_of t u 10 db))
    (let total := Z.of_nat (count_where (submitted_by u) (cd_submissions db)) in
     mkSubmissionStats total (Z.of_nat (count_where (tested_by u) (cd_submissions db)))
       (rate_of_submissions (Z.of_nat (count_where (accepted_of u) (cd_submissions db))) total)
       (appended (most_used_languages t u db))).

Lemma GetUserStats_run t u db : GetUserStats no_faults t u db = (db, Ok (statistics t u (ud_cat db))).
Proof. reflexivity. Qed.

Lemma GetUserStats_ok t u db db' stats :
  GetUserStats no_faults t u db = (db', Ok stats) -> stats = statistics t u (ud_cat db).
Proof. rewrite GetUserStats_run. by intros [= _ <-]. Qed.

(** The solved problems that are not published. *)
Definition hidden_subs (u : uuid) (db : catdb) : list sub_row :=
  List.filter (fun s => match with_published db s with Some _ => false | None => true end)
    (select_where (accepted_of u) (cd_submissions db)).

Lemma elem_of_accepted u db s :
  s ∈ select_where (accepted_of u) (cd_submissions db) <->
  exists k, cd_submissions db !! k = Some s /\ sr_UserID s = u /\ sr_Status s = StatusAccepted /\
    sr_Kind s = KindSubmit.
Proof.
  rewrite elem_of_select_where. unfold accepted_of, submitted_by.
  rewrite !andb_true_iff, !bool_decide_eq_true. naive_solver.
Qed.

Lemma hidden_spec u db q :
  q ∈ sr_ProblemID <$> hidden_subs u db <-> solved db u q /\ ~ solved_published db u q.
Proof.
  unfold hidden_subs, solved_published, with_published. rewrite list_elem_of_fmap. split.
  - intros (s & -> & Hs). rewrite list_elem_of_In, filter_In, <- list_elem_of_In in Hs.
    destruct Hs as [(k & Hk & Hu & Hst & Hkd)%elem_of_accepted Hno].
    assert (solved db u (sr_ProblemID s)) as Hsol by (exists k, s; naive_solver).
    split; [done |]. intros [_ (p & Hp & Hpub)]. by rewrite Hp, Hpub in Hno.
  - intros [(k & s & Hk & Hu & <- & Hst & Hkd) Hno]. exists s. split; [done |].
    rewrite list_elem_of_In, filter_In, <- list_elem_of_In. split; [apply elem_of_accepted; eauto |].
    repeat case_match; try done. exfalso. apply Hno. split; [by exists k, s | eauto].
Qed.

(** All that a user has solved: the published problems and the others. *)
Lemma total_solved_split t u db :
  TotalOrder sr_ID (tie_submission t) -> catalog_wf db -> submissions_wf db ->
  total_solved u db = Z.of_nat (length (solved_list t u db)) + distinct_problems (hidden_subs u db).
Proof.
  intros Ht Hcat Hsubs. destruct (solved_list_ids t db u Ht Hcat Hsubs) as [Hnd Hids].
  unfold total_solved, distinct_problems. rewrite <- Nat2Z.inj_add. f_equal.
  rewrite <- (length_fmap sp_ID), <- length_app. apply length_distinct.
  - apply NoDup_app. split_and!; [done | | apply NoDup_remove_dups].
    intros q Hq. rewrite elem_of_remove_dups, hidden_spec. rewrite Hids in Hq. naive_solver.
  - intros q. rewrite elem_of_app, elem_of_remove_dups, hidden_spec, Hids, list_elem_of_fmap. split.
    + intros Hq. assert (solved db u q) as (k & s & Hk & Hu & <- & Hst & Hkd)
        by (unfold solved_published in Hq; naive_solver).
      exists s. split; [done |]. apply elem_of_accepted. eauto.
    + intros (s & -> & (k & Hk & Hu & Hst & Hkd)%elem_of_accepted).
      assert (solved db u (sr_ProblemID s)) as Hsol by (exists k, s; naive_solver).
      destruct (cd_problems db !! sr_ProblemID s) as [p |] eqn:Hp.
      * destruct (published p) eqn:Hpub; [left; split; eauto | right; split; [done |]].
        intros [_ (p' & Hp' & Hpub')]. congruence.
      * right. split; [done |]. intros [_ (p' & Hp' & _)]. congruence.
Qed.

(** C30. The statistics, the public profile and the catalogue agree.  When no
    statement fails, the profile of a user lists each published problem that
    the user has an accepted submission for, exactly once, and a catalogue
    page marks exactly these of its published problems as solved; the counts
    by difficulty are those of the profile's list and sum up to its length,
    the count of each tag is that of the listed problems that carry it, and
    every tag of a listed problem is counted; the total counts the listed
    problems and, besides, those that are not published. *)
Theorem statistics_agree_with_the_profile t u db :
  TotalOrder sr_ID (tie_submission t) -> user_wf db ->
  let solved_problems := solved_list t u (ud_cat db) in
  let counted P := Z.of_nat (length (List.filter P solved_problems)) in
  ListSolvedProblems no_faults t u db = (db, Ok (appended solved_problems)) /\
  NoDup (sp_ID <$> solved_problems) /\
  (forall q, q ∈ sp_ID <$> solved_problems <-> solved_published (ud_cat db) u q) /\
  (forall ids q, q ∈ ids -> (exists p, cd_problems (ud_cat db) !! q = Some p /\ published p = true) ->
     exists marked, GetSolvedProblemIDs no_faults u ids (ud_cat db) = (ud_cat db, Ok marked) /\
       (q ∈ marked <-> q ∈ sp_ID <$> solved_problems)) /\
  exists stats, GetUserStats no_faults t u db = (db, Ok stats) /\
    (forall d, d ∈ difficulties ->
       us_SolvedByDifficulty stats !! d = Some (counted (of_difficulty d))) /\
    Z.of_nat (length solved_problems) = counted (of_difficulty DifficultyEasy) +
      counted (of_difficulty DifficultyMedium) + counted (of_difficulty DifficultyHard) /\
    (forall st, st ∈ or_empty (us_SolvedByTag stats) ->
       ts_Count st = counted (with_tag (ud_cat db) (ts_TagID st))) /\
    (forall sp tag, sp ∈ solved_problems -> (sp_ID sp, tag) ∈ cd_problem_tags (ud_cat db) ->
       tag ∈ ts_TagID <$> or_empty (us_SolvedByTag stats)) /\
    us_TotalSolved stats
    = Z.of_nat (length solved_problems) + distinct_problems (hidden_subs u (ud_cat db)).
Proof.
  intros Ht [Hcat Hsubs] solved_problems counted.
  destruct (solved_list_ids t (ud_cat db) u Ht Hcat Hsubs) as [Hnd Hids].
  destruct (solved_by_tag_spec t (ud_cat db) u Ht Hcat Hsubs) as (_ & Htags & Hall).
  split_and!; [reflexivity | done | done | |].
  - intros ids q Hq Hp. exists (solved_ids (ud_cat db) (Some u) ids). split.
    + destruct ids; [by apply not_elem_of_nil in Hq | reflexivity].
    + unfold solved_ids. rewrite solved_ids_spec. unfold solved_problems. rewrite Hids.
      unfold solved_published. naive_solver.
  - exists (statistics t u (ud_cat db)). split; [apply GetUserStats_run |]. simpl. rewrite or_empty_appended.
    split_and!.
    + intros d Hd. by apply solved_by_difficulty_spec.
    + pose proof (difficulties_partition t (ud_cat db) u Ht Hcat Hsubs) as Hsum. cbv beta zeta in Hsum.
      unfold counted, solved_problems. lia.
    + intros st Hst. by destruct (Htags st Hst) as (tag & _ & _ & Hc).
    + exact Hall.
    + by apply total_solved_split.
Qed.

(** ** Public profiles *)

Section Profiles.
Context `{DbLower} `{Bcrypt} `{AuthCrypto} `{GoURL} `{UuidText}.
Context (jm : JWTManager) (frontendURL : string).

(** A reference, trimmed, names a user by its identifier or, when it is not
    one, by its handle. *)
Definition names (ref : string) (u : User) : Prop :=
  match uuid_Parse (TrimSpace ref) with
  | Some id => u_ID u = id
  | None => same_handle (TrimSpace ref) u = true
  end.

Definition profile_of (t : ties) (u : User) (db : catdb) : PublicUserProfile :=
  mkPublicUserProfile (u_ID u) (u_Handle u) (u_DisplayName u) (u_AvatarURL u) (u_Status u)
    (u_CreatedAt u) (solved_list t (u_ID u) db).

Lemma on_accounts_read {A} (m : M authdb auth_error A) db :
  readonly m -> on_accounts m db = (db, (m (ud_auth db)).2).
Proof. intros Hm. unfold on_accounts. specialize (Hm (ud_auth db)). destruct (m (ud_auth db)). destruct db. by simpl in *; subst. Qed.

Lemma readonly_user_of_ref io ref : readonly (user_of_ref io ref).
Proof. unfold user_of_ref. case_match; eauto with capstone. Qed.

Lemma user_of_ref_ok io ref db u :
  (forall k w, au_users db !! k = Some w -> u_ID w = k) ->
  (user_of_ref io (TrimSpace ref) db).2 = Ok u -> io 0%nat = None /\ au_users db !! u_ID u = Some u /\ names ref u.
Proof.
  intros Hids. unfold user_of_ref, names. destruct (uuid_Parse (TrimSpace ref)) as [id |].
  - destruct (GetUserByID io id db) as [db' r] eqn:E. simpl. intros ->.
    apply GetUserByID_ok in E as (? & Hu & _). pose proof (Hids _ _ Hu) as Hid. by rewrite Hid.
  - destruct (GetUserByHandle io (TrimSpace ref) db) as [db' r] eqn:E. simpl. intros ->.
    unfold GetUserByHandle in E. rewrite statement_ok in E. destruct E as [? [= _ E]].
    apply select_one_ok in E as [Hs [k Hk]]. split_and!; [done | | done]. by rewrite (Hids _ _ Hk).
Qed.

Lemma user_of_ref_found io ref db u :
  accounts_unique db -> io 0%nat = None -> au_users db !! u_ID u = Some u -> names ref u ->
  user_of_ref io (TrimSpace ref) db = (db, Ok u).
Proof.
  intros Hdb Hio Hu. unfold names, user_of_ref. destruct (uuid_Parse (TrimSpace ref)) as [id |].
  - intros <-. unfold GetUserByID, statement. by rewrite Hio, Hu.
  - by apply GetUserByHandle_found with (u_ID u).
Qed.

Lemma GetPublicProfile_ok io t ref db db' p :
  (forall k w, au_users (ud_auth db) !! k = Some w -> u_ID w = k) ->
  GetPublicProfile io t ref db = (db', Ok p) ->
  db' = db /\ exists u, au_users (ud_auth db) !! u_ID u = Some u /\ names ref u /\
    u_Status u = UserStatusActive /\ p = profile_of t u (ud_cat db).
Proof.
  intros Hids. unfold GetPublicProfile. case_match; [done |]. rewrite bind_ok.
  intros (d1 & u & Hu & Hk). rewrite map_err_ok in Hu.
  rewrite on_accounts_read in Hu by apply readonly_user_of_ref. injection Hu as <- Hu.
  apply user_of_ref_ok in Hu as (_ & Hu & Hn); [| done].
  destruct (u_Status u) eqn:Hst; simpl in Hk; [| done].
  rewrite bind_ok in Hk. destruct Hk as (d2 & solved & Hs & [= <- <-]).
  rewrite map_err_ok in Hs. apply select_rows_ok in Hs as (_ & _ & -> & ->).
  split; [done |]. exists u. split_and!; try done. unfold profile_of. by rewrite or_empty_appended, Hst.
Qed.

(** A public profile is an active user's, and shows what that user has
    solved.  In every state of the accounts the service can reach, with any
    well-formed catalogue: whatever fails, a profile that is answered is that
    of a user whom the reference names (by identifier, or by handle in any
    case) and who is not banned, each of its entries is a published problem
    with the user's latest accepted solution, the newest solution first, and
    nothing changes.  When no statement fails, a reference that names an
    active user gets that profile, so the identifier and the handle get the
    same one, and the references to a banned user and to nobody get the same
    "not found". *)
Theorem profiles_show_active_users cs cat events t ref :
  let db := mkUserDb (as_db (serve_all jm frontendURL cs empty_auth)) cat events in
  TotalOrder sr_ID (tie_submission t) -> TotalOrder sp_ID (tie_solved t) -> user_wf db ->
  (forall io db' p, GetPublicProfile io t ref db = (db', Ok p) ->
     db' = db /\ exists u, au_users (ud_auth db) !! u_ID u = Some u /\ names ref u /\
       u_Status u = UserStatusActive /\ p = profile_of t u cat /\
       Forall (fun sp => shows cat (u_ID u) sp /\ solved_published cat (u_ID u) (sp_ID sp))
         (pp_SolvedProblems p) /\
       StronglySorted (fun x y => sp_SolvedAt y <= sp_SolvedAt x) (pp_SolvedProblems p)) /\
  (TrimSpace ref <> "" ->
   (forall u, au_users (ud_auth db) !! u_ID u = Some u -> names ref u ->
      GetPublicProfile no_faults t ref db
      = (db, if decide (u_Status u = UserStatusBanned) then Err (Sentinel ErrUserNotFound)
             else Ok (profile_of t u cat))) /\
   ((forall u, au_users (ud_auth db) !! u_ID u = Some u -> ~ names ref u) ->
    GetPublicProfile no_faults t ref db = (db, Err (Sentinel ErrUserNotFound)))).
Proof.
  intros db Ht Ht' [Hcat Hsubs]. pose proof (reachable_unique jm frontendURL cs) as Huniq.
  change (accounts_unique (ud_auth db)) in Huniq.
  pose proof (keyed_key _ _ _ (un_handles _ Huniq)) as Hids. split; [| intros Hne; split].
  - intros io db' p (-> & u & Hu & Hn & Hst & ->)%GetPublicProfile_ok; [| done]. split; [done |].
    exists u. split_and!; try done.
    + apply Forall_forall. intros sp Hsp. split; [by apply solved_list_shows with t |].
      apply (solved_list_ids t cat (u_ID u) Ht Hcat Hsubs), list_elem_of_fmap. by exists sp.
    + eapply sorted_weaken, (order_by_sorted sp_ID); [| by apply most_first_order].
      intros x y. unfold most_first. rewrite orb_true_iff, andb_true_iff, Z.ltb_lt, Z.eqb_eq. lia.
  - intros u Hu Hn. unfold GetPublicProfile. rewrite bool_decide_eq_false_2 by done.
    unfold mbind, M_bind, map_err. rewrite on_accounts_read by apply readonly_user_of_ref.
    rewrite (user_of_ref_found no_faults _ _ u) by done. simpl.
    destruct (u_Status u) eqn:Hst; simpl; [| done]. unfold profile_of.
    by rewrite or_empty_appended, Hst.
  - intros Hno. unfold GetPublicProfile. rewrite bool_decide_eq_false_2 by done.
    unfold mbind, M_bind, map_err. rewrite on_accounts_read by apply readonly_user_of_ref.
    destruct (user_of_ref no_faults (TrimSpace ref) (ud_auth db)).2 as [u | e] eqn:E.
    + apply user_of_ref_ok in E as (_ & Hu & Hn); [| done]. by destruct (Hno u Hu).
    + assert (e = Sentinel ErrUserNotFound) as ->; [| done]. revert E. unfold user_of_ref.
      destruct (uuid_Parse (TrimSpace ref)); unfold GetUserByID, GetUserByHandle, statement, select_one; simpl;
        case_match; by intros [= <-].
Qed.
End Profiles.

(** ** The administrators' pages *)

Section AdminPages.
Context `{DbLower} `{DbCollation} `{DbILike}.

Lemma elem_of_left_join {A} (l : list A) a : Some a ∈ left_join l <-> a ∈ l.
Proof.
  unfold left_join. destruct l as [| b l].
  - rewrite list_elem_of_singleton. split; [done | by intros ?%not_elem_of_nil].
  - rewrite list_elem_of_fmap. naive_solver.
Qed.

Lemma left_join_inhabited {A} (l : list A) : exists o, o ∈ left_join l.
Proof. destruct l as [| a l]; [exists None | exists (Some a)]; apply list_elem_of_here. Qed.

(** A join with a second table repeats rows, which COUNT(DISTINCT) does not
    count again. *)
Lemma count_distinct_join {A B} (f : A -> uuid) (g : B -> uuid) (la : list A) (lb : list B) :
  NoDup (f <$> la) -> NoDup (g <$> lb) ->
  let rows := a ← left_join la; b ← left_join lb; [(a, b)] in
  count_distinct (fun r => f <$> r.1) rows = Z.of_nat (length la) /\
  count_distinct (fun r => g <$> r.2) rows = Z.of_nat (length lb).
Proof.
  intros Ha Hb rows. assert (forall a b, (a, b) ∈ rows <-> a ∈ left_join la /\ b ∈ left_join lb) as Hrows.
  { intros a b. unfold rows. rewrite list_elem_of_bind. split.
    - intros (a' & Hin & Ha'). apply list_elem_of_bind in Hin as (b' & Hin & Hb').
      apply list_elem_of_singleton in Hin. naive_solver.
    - intros [Hin Hin']. exists a. split; [| done]. apply list_elem_of_bind. exists b.
      by rewrite list_elem_of_singleton. }
  destruct (left_join_inhabited la) as [oa Hoa], (left_join_inhabited lb) as [ob Hob].
  unfold count_distinct. split; f_equal.
  - rewrite <- (length_fmap f). apply length_distinct; [done |]. intros x.
    rewrite list_elem_of_fmap, list_elem_of_omap. split.
    + intros (a & -> & Hin). exists (Some a, ob). by rewrite Hrows, elem_of_left_join.
    + intros ([[a |] b] & [Hin _]%Hrows & Hx); simpl in Hx; [| done].
      exists a. rewrite elem_of_left_join in Hin. naive_solver.
  - rewrite <- (length_fmap g). apply length_distinct; [done |]. intros x.
    rewrite list_elem_of_fmap, list_elem_of_omap. split.
    + intros (b & -> & Hin). exists (oa, Some b). by rewrite Hrows, elem_of_left_join.
    + intros ([a [b |]] & [_ Hin]%Hrows & Hx); simpl in Hx; [| done].
      exists b. rewrite elem_of_left_join in Hin. naive_solver.
Qed.

(** A user's entry, with the counts of the tables. *)
Definition summary (db : userdb) (u : User) : AdminUserSummary :=
  mkAdminUserSummary (u_ID u) (u_Handle u) (u_Email u) (u_DisplayName u) (u_Status u) (u_CreatedAt u)
    (Z.of_nat (length (events_of_user db (u_ID u))))
    (Z.of_nat (count_where (submitted_by (u_ID u)) (cd_submissions (ud_cat db)))).

Lemma admin_summary_counts db u : submissions_wf (ud_cat db) -> admin_summary db u = summary db u.
Proof.
  intros Hsubs.
  destruct (count_distinct_join sr_ID fst
    (select_where (submitted_by (u_ID u)) (cd_submissions (ud_cat db))) (events_of_user db (u_ID u)))
    as [Hs He].
  - apply (NoDup_column sr_ID sr_ID). split; [apply (sf_ids _ Hsubs) |].
    intros k s k' s' Hk Hk' Heq. rewrite <- (sf_ids _ Hsubs _ _ Hk), <- (sf_ids _ Hsubs _ _ Hk'). done.
  - apply NoDup_column_filter, NoDup_fst_map_to_list.
  - unfold admin_summary, summary, user_group. by rewrite Hs, He.
Qed.

Lemma counted_page_run {A} count list_ io (input : user_op ()) limit offset size (all : userdb -> list A) db :
  input db = (db, Ok tt) -> io = no_faults -> 0 <= limit ->
  counted_page count list_ io input limit offset size all db =
  (db, if 0 <=? offset then Ok (appended (paged limit offset (all db)), Z.of_nat (size db))
       else Err (while_ list_ "pq: OFFSET must not be negative")).
Proof.
  intros Hin -> Hl. unfold counted_page, mbind, M_bind. rewrite Hin. simpl.
  unfold execute, statement, page_input, map_err, mbind, M_bind, demand. simpl.
  destruct (0 <=? offset); simpl; [| done]. by rewrite (proj2 (Z.leb_le 0 limit)).
Qed.

Lemma ParseUint_nonneg acc s n : 0 <= acc -> ParseUint acc s = UintOk n -> 0 <= n.
Proof.
  revert acc. induction s as [| c s IH]; intros acc Hacc; simpl; [by intros [= <-] |].
  unfold digit_of. destruct (byte_between 48 57 c) eqn:Hc; [| done].
  assert (48 <= byte_of c)%nat by (unfold byte_between in Hc; apply andb_prop in Hc as [Hc%Nat.leb_le _]; exact Hc).
  case_match; [done |]. apply IH. lia.
Qed.

Lemma Atoi_value_range s : - 2^63 <= Atoi_value s < 2^63.
Proof.
  unfold Atoi_value. destruct s as [| c s]; [done |].
  destruct (if is_byte 45 c then _ else _) as [neg body]. case_bool_decide; [done |].
  destruct (ParseUint 0 body) as [n | |] eqn:Hn; [| done | by destruct neg].
  apply ParseUint_nonneg in Hn; [| done]. unfold signed. destruct neg; lia.
Qed.

Lemma parsePage_bounds pageText limitText :
  let p := parsePage pageText limitText in
  1 <= pg_page p < 2^63 /\ 1 <= pg_limit p <= 100 /\ pg_limit p = pg_limit (parsePage "" limitText) /\
  ((pg_page p - 1) * pg_limit p < 2^63 -> pg_offset p = (pg_page p - 1) * pg_limit p).
Proof.
  intros p. subst p. unfold parsePage. simpl. set (n := Atoi_value pageText). set (l := Atoi_value limitText).
  pose proof (Atoi_value_range pageText) as Hn. fold n in Hn.
  set (page := if n <? 1 then 1 else n). set (limit := if (l <? 1) || (100 <? l) then adminPageSize else l).
  assert (1 <= page < 2^63) as Hp by (subst page; destruct (Z.ltb_spec n 1); lia).
  assert (1 <= limit <= 100) as Hlim.
  { subst limit. unfold adminPageSize. destruct (Z.ltb_spec l 1), (Z.ltb_spec 100 l); simpl; lia. }
  split_and!; try lia. intros Hoff. rewrite (wrap64_id (page - 1)) by (unfold int64_range; lia).
  apply wrap64_id. unfold int64_range. nia.
Qed.

(** The administrators' pages of users tile the list.  The limit is
    between 1 and 100, whatever is asked for.  The list has one entry for
    each user that the search finds, with the number of the security events
    of that user's submissions and of the submissions themselves, although
    the query joins the two tables; as no statement fails, page [k + 1] is
    answered with the list's rows from [k * limit] on, at most [limit] of
    them, and the length of the list, as long as [k * limit] fits into 64
    bits, so the first [n] pages put together are the first [n * limit]
    entries; and a page for which the product wraps around to a negative
    offset is answered with a server error. *)
Theorem admin_pages_tile_the_list t q sort limitText db :
  user_wf db -> text_ok q = true ->
  let limit := pg_limit (parsePage "" limitText) in
  let all := admin_users t q sort db in
  let page k := take (Z.to_nat limit) (drop (k * Z.to_nat limit) all) in
  1 <= limit <= 100 /\
  all ≡ₚ summary db <$> select_where (searched q) (au_users (ud_auth db)) /\
  (forall k pageText, Atoi_value pageText = Z.of_nat k + 1 -> Z.of_nat k * limit < 2^63 ->
     ListAdminUsers_handler no_faults t q sort pageText limitText db
     = (db, RespondJSON StatusOK (AdminUsersBody
              (mkAdminPage (page k) (Z.of_nat (length all)) (Z.of_nat k + 1) limit)))) /\
  (forall n, (seq 0 n) ≫= page = take (n * Z.to_nat limit) all) /\
  (forall pageText, pg_offset (parsePage pageText limitText) < 0 ->
     exists e : auth_error, ListAdminUsers_handler no_faults t q sort pageText limitText db
       = (db, internal "failed to list users" e)).
Proof.
  intros [_ Hsubs] Hq limit all page. destruct (parsePage_bounds "" limitText) as (_ & Hlim & _).
  fold limit in Hlim.
  assert (forall pageText, ListAdminUsers no_faults t q sort limit
    (pg_offset (parsePage pageText limitText)) db = (db,
      if 0 <=? pg_offset (parsePage pageText limitText)
      then Ok (appended (paged limit (pg_offset (parsePage pageText limitText)) all), Z.of_nat (length all))
      else Err (while_ "list admin users" "pq: OFFSET must not be negative"))) as Hrun.
  { intros pageText. unfold ListAdminUsers. rewrite counted_page_run; [| | done | lia].
    - unfold all, admin_users. by rewrite length_order_by, length_fmap.
    - unfold text_input, demand, map_err. by rewrite Hq. }
  split_and!; [lia | lia | | | |].
  - unfold all, admin_users. rewrite order_by_perm.
    rewrite (list_fmap_ext (admin_summary db) (summary db)); [done |].
    intros _ u _. by apply admin_summary_counts.
  - intros k pageText Hk Hfit. destruct (parsePage_bounds pageText limitText) as (_ & _ & Hl & Hoff).
    fold limit in Hl. assert (pg_page (parsePage pageText limitText) = Z.of_nat k + 1) as Hpage.
    { unfold parsePage. simpl. rewrite Hk. destruct (Z.ltb_spec (Z.of_nat k + 1) 1); lia. }
    rewrite Hpage, Hl in Hoff. replace (Z.of_nat k + 1 - 1) with (Z.of_nat k) in Hoff by lia.
    specialize (Hoff Hfit). unfold ListAdminUsers_handler, answer. rewrite Hl, Hrun, Hoff.
    rewrite (proj2 (Z.leb_le 0 _)) by lia. unfold admin_page. cbn [fst snd].
    rewrite or_empty_appended, Hpage, Hl.
    unfold paged, page. do 6 f_equal. rewrite Z2Nat.inj_mul, Nat2Z.id by lia. done.
  - intros n. apply pages_join.
  - intros pageText Hneg. destruct (parsePage_bounds pageText limitText) as (_ & _ & Hl & _).
    fold limit in Hl. unfold ListAdminUsers_handler, answer. rewrite Hl, Hrun.
    rewrite (proj2 (Z.leb_gt 0 _)) by lia. by eexists.
Qed.
End AdminPages.

(** * Concrete runs *)

From S2P Require Import CatalogExamples.

Module ProfileExample.
#[local] Existing Instance AuthExample.lower_same.
#[local] Existing Instance AuthExample.plain_bcrypt.
#[local] Existing Instance AuthExample.plain_url.
#[local] Existing Instance AuthExample.one_token.
#[local] Existing Instance CatalogExample.byte_order.
#[local] Existing Instance CatalogExample.no_search.
#[local] Instance one_uuid : UuidText := fun s => if bool_decide (s = "uuid-1") then Some 1%N else None.

Definition by_text {A} (key : A -> string) (x y : A) : bool := String.leb (key x) (key y).
Definition t : ties :=
  mkTies (by_id sr_ID) (by_id sp_ID) (by_id ts_TagID) (by_text ls_LanguageKey) (by_id sm_ID) (by_id se_ID).

Definition accounts : authdb :=
  as_db (serve_all AuthExample.jm AuthExample.frontend AuthExample.confirmed empty_auth).
Definition events : gmap uuid event_row :=
  {[ 60%N := mkEventRow 51%N "code_blocked" "block" [] 5; 61%N := mkEventRow 51%N "code_blocked" "block" [] 6 ]}.
Definition judge : userdb := mkUserDb accounts CatalogExample.solved_small events.

Lemma judge_wf : user_wf judge.
Proof.
  split.
  - destruct CatalogExample.small_wf. by split.
  - split; simpl.
    + intros k s [[<- <-] | [_ [<- <-]%lookup_singleton_Some]]%lookup_insert_Some; done.
    + intros k s Hs. assert (sr_LanguageID s = 40%N) as ->.
      { revert Hs. by intros [[_ <-] | [_ [_ <-]%lookup_singleton_Some]]%lookup_insert_Some. }
      apply (bool_decide_eq_true_1 (is_Some (cd_languages CatalogExample.small !! 40%N))).
      vm_compute. reflexivity.
Qed.

(** ** Statistics *)

Lemma statistics_agree_with_the_profile_witness :
  sp_ID <$> solved_list t 1%N CatalogExample.solved_small = [10%N] /\
  exists stats, GetUserStats no_faults t 1%N judge = (judge, Ok stats) /\
    us_TotalSolved stats = 1 /\ us_SolvedByDifficulty stats !! DifficultyEasy = Some 1 /\
    (fun st => (ts_TagName st, ts_Count st)) <$> or_empty (us_SolvedByTag stats) = [("math", 1)].
Proof.
  split; [vm_compute; reflexivity |].
  destruct (statistics_agree_with_the_profile t 1%N judge (by_id_order sr_ID) judge_wf)
    as (_ & _ & _ & _ & stats & Hrun & Hdiff & _ & _ & _ & Htotal).
  exists stats. split; [exact Hrun |]. split_and!.
  - rewrite Htotal. vm_compute. reflexivity.
  - rewrite Hdiff by apply list_elem_of_here. vm_compute. reflexivity.
  - apply GetUserStats_ok in Hrun as ->. vm_compute. reflexivity.
Defined.

(** Of a user who has solved nothing yet, the lists are [nil], and so [null]
    in the response; the dashboard takes their lengths. *)
Example newcomers_get_no_lists :
  exists stats, GetUserStats no_faults t 2%N judge = (judge, Ok stats) /\
    us_SolvedByTag stats = None /\ us_RecentSubmissions stats = None /\
    ss_MostUsedLanguages (us_SubmissionStats stats) = None.
Proof. eexists. split; [apply GetUserStats_run |]. split_and!; vm_compute; reflexivity. Qed.

(** Eleven problems, each with a submission, the last of them today. *)
Definition numbered (n : nat) : problem_row :=
  mkProblemRow (N.of_nat n) "" "" "" "" 1 1 "" None VisibilityPublished DifficultyEasy None 0 0 None.
Definition eleven : catdb :=
  mkCatDb ∅ (list_to_map ((fun n => (N.of_nat n, numbered n)) <$> seq 0 11)) ∅ ∅ ∅
    {[ 40%N := mkLanguage 40%N "go" "Go" true 0 0 ]} ∅
    (list_to_map ((fun n => (N.of_nat n, mkSubRow (N.of_nat n) 1%N (N.of_nat n) 40%N None StatusAccepted
       KindSubmit None (Z.of_nat n))) <$> seq 0 11)).

(** The ten "recent" submissions are those of the ten smallest problem
    identifiers: the most recent one is not among them. *)
Example recent_submissions_miss_the_latest :
  rs_CreatedAt <$> recent_of t 1%N 10 eleven = [0; 1; 2; 3; 4; 5; 6; 7; 8; 9].
Proof. vm_compute. reflexivity. Qed.

(** ** Public profiles *)

Definition ada : User :=
  mkUser 1%N "ada" (Some "ada@x.org") true None None UserStatusActive 0 (10 * time_Second).

Lemma ada_is_there : au_users accounts = {[ 1%N := ada ]}.
Proof. vm_compute. reflexivity. Qed.

Lemma accounts_are_told_apart_witness :
  let st := serve_all AuthExample.jm AuthExample.frontend AuthExample.confirmed empty_auth in
  Register AuthExample.frontend (AuthExample.env 30 7%N 8%N 9%N "mail-2")
    (mkRegisterRequest "ada" "eve@x.org" "correct horse" None) st
  = (st, Err (Sentinel ErrUserAlreadyExists)).
Proof.
  intros st. assert (au_users (as_db st) !! 1%N = Some ada) as Hada
    by exact (eq_trans (f_equal (lookup 1%N) ada_is_there) (lookup_singleton_eq 1%N ada)).
  apply (accounts_are_told_apart AuthExample.jm AuthExample.frontend AuthExample.confirmed 1%N ada Hada);
    [reflexivity | left; reflexivity].
Defined.

Lemma profiles_show_active_users_witness :
  exists p, GetPublicProfile no_faults t " ada " judge = (judge, Ok p) /\
    GetPublicProfile no_faults t "uuid-1" judge = (judge, Ok p) /\
    sp_Slug <$> pp_SolvedProblems p = ["two-sums"] /\
    GetPublicProfile no_faults t "eve" judge = (judge, Err (Sentinel ErrUserNotFound)).
Proof.
  pose proof (fun ref => profiles_show_active_users AuthExample.jm AuthExample.frontend AuthExample.confirmed
    CatalogExample.solved_small events t ref (by_id_order sr_ID) (by_id_order sp_ID) judge_wf) as Hall.
  exists (profile_of t ada CatalogExample.solved_small). split_and!.
  - apply (proj1 (proj2 (Hall " ada ") ltac:(vm_compute; discriminate)) ada);
      [exact (eq_trans (f_equal (lookup 1%N) ada_is_there) (lookup_singleton_eq 1%N ada)) |].
    vm_compute. reflexivity.
  - apply (proj1 (proj2 (Hall "uuid-1") ltac:(vm_compute; discriminate)) ada);
      [exact (eq_trans (f_equal (lookup 1%N) ada_is_there) (lookup_singleton_eq 1%N ada)) |].
    vm_compute. reflexivity.
  - vm_compute. reflexivity.
  - apply (proj2 (proj2 (Hall "eve") ltac:(vm_compute; discriminate))). intros w Hw Hn.
    change (au_users accounts !! u_ID w = Some w) in Hw. rewrite ada_is_there in Hw.
    apply lookup_singleton_Some in Hw as [_ <-].
    vm_compute in Hn. discriminate Hn.
Defined.

(** ** Pages *)

Lemma admin_pages_tile_the_list_witness :
  ListAdminUsers_handler no_faults t "" "handle" "1" "500" judge
  = (judge, RespondJSON StatusOK (AdminUsersBody (mkAdminPage
       [mkAdminUserSummary 1%N "ada" (Some "ada@x.org") None UserStatusActive 0 2 2] 1 1 20))).
Proof.
  destruct (admin_pages_tile_the_list t "" "handle" "500" judge judge_wf eq_refl) as (_ & _ & Hpage & _).
  specialize (Hpage 0%nat "1" eq_refl ltac:(vm_compute; reflexivity)).
  etransitivity; [exact Hpage |]. vm_compute. reflexivity.
Defined.

(** A page number far enough from the first makes the product wrap around. *)
Example far_pages_are_server_errors :
  resp_status (ListAdminUsers_handler no_faults t "" "handle" "461168601842738792" "20" judge).2
  = StatusInternalServerError.
Proof. vm_compute. reflexivity. Qed.
End ProfileExample.
