(* ===== verification/AiHttp.v ===== *)
(** * AI: HTTP

    [internal/api/ai/http]: the hint handlers, with their routes of
    [cmd/api/routes.go], and the two validation handlers, which have none.
    A hint is asked for over the catalogue and the component's own tables. *)

From S2P Require Import Prelude GoStrings Sql CPHttp AuthService ApiHttp.
From S2P Require Import Driver AiDomain AiRepo AiService CatalogRepo CatalogService.

Record hintHTTPRequest := mkHintHTTPRequest {
  hb_LanguageKey : string;
  hb_Code : string;
  hb_Message : string
}.

(** The body of [ValidateCode], its identifiers as [uuid.Parse] reads them. *)
Record validateHTTPRequest := mkValidateHTTPRequest {
  vb_SubmissionID : option uuid;
  vb_UserID : option uuid;
  vb_ProblemID : option uuid;
  vb_Code : string;
  vb_LanguageID : option uuid;
  vb_LanguageKey : string
}.

(** [created_at] is kept as the instant that is formatted. *)
Record ValidationResponse := mkValidationResponse {
  vx_ID : uuid;
  vx_IsAllowed : bool;
  vx_Severity : string;
  vx_Reason : option string;
  vx_CreatedAt : Z
}.

Inductive ai_data :=
  | HintBody (user_message assistant_message : ChatMessage)
  | HintHistoryBody (messages : list ChatMessage)
  | ValidationBody (v : ValidationResponse)
  | NoBody.

Abbreviation ai_response := (api_response ai_data).
Abbreviation ai_handler := (api_handler (catdb * aidb) ai_data).

Section Handlers.
Context `{AiJSON} `{CatalogJSON} `{DbCollation} `{DbILike}.

(** ** Hints *)

(** [GetUserIDFromContext], then [uuid.Parse] of the path's problem. *)
Definition with_user_and_problem (c : caller) (problemID : option uuid)
    (k : uuid -> uuid -> ai_handler) : ai_handler :=
  match c_UserID c with
  | None => refuse StatusUnauthorized "unauthorized"
  | Some userID => with_parsed "invalid problem id" problemID (k userID)
  end.

Definition hint_problem_error (e : cat_error) : ai_response :=
  if errors_Is e ErrProblemNotFound then RespondSimpleError StatusNotFound "problem not found"
  else RespondSimpleError StatusInternalServerError "failed to fetch problem".

Definition simply {E} (message : string) (_ : E) : ai_response :=
  RespondSimpleError StatusInternalServerError message.

Definition GetHint_handler (cat : catalog_env) (env : hint_env) (c : caller)
    (problemID : option uuid) (body : option hintHTTPRequest) : ai_handler :=
  with_user_and_problem c problemID (fun userID problemID =>
    with_body body (fun req =>
      if is_empty (hb_LanguageKey req) then refuse StatusBadRequest "language_key is required"
      else if is_empty (hb_Message req) then refuse StatusBadRequest "message is required"
      else answer (problem ← map_err hint_problem_error (on_first (GetProblem cat problemID None));
                   map_err (simply "failed to generate hint") (on_second (GetHint env
                     (mkHintRequest userID problemID (pb_StatementMarkdown problem)
                        (hb_LanguageKey req) (hb_Code req) (hb_Message req)))))
             (fun hint => RespondJSON StatusOK (HintBody (hr_UserMessage hint) (hr_AssistantMessage hint)))
             id)).

Definition GetHintHistory_handler (env : hint_env) (c : caller) (problemID : option uuid)
  : ai_handler :=
  with_user_and_problem c problemID (fun userID problemID =>
    answer (on_second (GetHintHistory (he_io env) (he_tie env) userID problemID))
      (fun msgs => RespondJSON StatusOK (HintHistoryBody msgs))
      (simply "failed to get hint history")).

(** ** Validation: [http.Error] answers with the text alone *)

Definition validation_response (v : AICodeValidation) : ValidationResponse :=
  mkValidationResponse (acv_ID v) (acv_IsAllowed v) (default "" (acv_Severity v)) (acv_Reason v)
    (acv_CreatedAt v).

Definition ValidateCode_handler (env : validate_env) (body : option validateHTTPRequest)
  : ai_handler :=
  with_parsed "Invalid request body" body (fun req =>
  with_parsed "Invalid submission_id" (vb_SubmissionID req) (fun submissionID =>
  with_parsed "Invalid user_id" (vb_UserID req) (fun userID =>
  with_parsed "Invalid problem_id" (vb_ProblemID req) (fun problemID =>
  with_parsed "Invalid language_id" (vb_LanguageID req) (fun languageID =>
    answer (on_second (ValidateCodeSubmission env
              (mkValidateCodeRequest submissionID userID problemID (vb_Code req) languageID
                 (vb_LanguageKey req))))
      (fun v => RespondJSON StatusOK (ValidationBody (validation_response v)))
      (simply "Failed to validate code")))))).

(** The query parameter, and what [uuid.Parse] makes of it. *)
Definition GetValidation_handler (io : faults) (tie : validation_row -> validation_row -> bool)
    (submissionID : string) (parsed : option uuid) : ai_handler :=
  if is_empty submissionID then refuse StatusBadRequest "submission_id query parameter required"
  else
    with_parsed "Invalid submission_id" parsed (fun id =>
      answer (on_second (GetValidationBySubmission io tie id))
        (fun v => match v with
                  | None => mkApiResponse StatusNotFound (Body NoBody)
                  | Some v => RespondJSON StatusOK (ValidationBody (validation_response v))
                  end)
        (simply "Failed to get validation")).

(** ** Routes, behind [AuthMiddleware] *)

Inductive ai_request :=
  | ReqGetHint (problemID : option uuid) (body : option hintHTTPRequest)
  | ReqGetHintHistory (problemID : option uuid).

Definition handle_ai (cat : catalog_env) (env : hint_env) (c : caller) (req : ai_request)
  : ai_handler :=
  match req with
  | ReqGetHint problemID body => GetHint_handler cat env c problemID body
  | ReqGetHintHistory problemID => GetHintHistory_handler env c problemID
  end.

Definition serve_ai `{AuthCrypto} (jm : JWTManager) (now : Z) (authHeader : string)
    (cat : catalog_env) (env : hint_env) (req : ai_request) : ai_handler :=
  match AuthMiddleware jm now authHeader with
  | Err text => refuse StatusUnauthorized text
  | Ok ctx => handle_ai cat env (caller_of (Some ctx)) req
  end.
End Handlers.
