(* ===== verification/AiTheorems.v ===== *)
(** * AI: theorems

    What passes the validator, what is recorded of a verdict, and how a
    conversation of hints grows. *)

From S2P Require Import Prelude GoStrings Sql AiDomain AiPrompts AiRepo AiService.

(** ** The tables *)

(** Rows are stored under their identifiers and refer to rows that exist. *)
Record ai_wf (db : aidb) : Prop := {
  aw_validation k r : ai_validations db !! k = Some r ->
    vw_ID r = k /\ vw_SubmissionID r ∈ ai_submissions db /\ vw_UserID r ∈ ai_users db /\
    vw_ProblemID r ∈ ai_problems db /\ vw_LanguageID r ∈ ai_languages db;
  aw_log k r : ai_logs db !! k = Some r ->
    vl_ID r = k /\ is_Some (ai_validations db !! vl_ValidationID r);
  aw_hint k r : ai_hints db !! k = Some r ->
    cm_ID (hm_Message r) = k /\ hm_UserID r ∈ ai_users db /\ hm_ProblemID r ∈ ai_problems db
}.

(** Keys that JSON carries as they are. *)
Definition plain_keys (f : gmap string json) : Prop := forall k, is_Some (f !! k) -> json_text k = k.

(** What reading gives for a map that was written: nil for nil, otherwise a
    map that has its keys.  (Bytes that are no UTF-8 may have been replaced in
    the values, and numbers be written in another way.) *)
Definition reads_as (m m' : json_map) : Prop :=
  match m, m' with
  | None, None => True
  | Some f, Some f' => forall k, is_Some (f !! k) -> is_Some (f' !! k)
  | _, _ => False
  end.

(** The laws of the JSON that a theorem may need: what a JSONB column keeps
    of a map reads back as a map with its keys, and the keys of objects that
    have been read are carried as they are. *)
Class AiJSONLaws `{AiJSON} : Prop := {
  jsonb_reads_back m text :
    (forall f, m = Some f -> plain_keys f) -> ai_jsonb (json_Marshal_map m) = Ok text ->
    text <> "" /\ exists m', json_Unmarshal_map text = Ok m' /\ reads_as m m';
  parsed_keys text data : json_Unmarshal_map text = Ok (Some data) ->
    plain_keys data /\ (forall k f, data !! k = Some (JObject f) -> plain_keys f)
}.

#[export] Instance latest_verdict_order tie :
  TotalOrder vw_ID tie -> TotalOrder vw_ID (latest_verdict tie).
Proof. apply (order_then (fun a b => b <? a) Z.eqb vw_CreatedAt); intros; lia. Qed.

#[export] Instance oldest_hint_order tie :
  TotalOrder (fun r => cm_ID (hm_Message r)) tie ->
  TotalOrder (fun r => cm_ID (hm_Message r)) (oldest_hint tie).
Proof. apply (order_then Z.ltb Z.eqb (fun r => cm_CreatedAt (hm_Message r))); intros; lia. Qed.

Definition text_opt_ok (t : option string) : bool :=
  match t with None => true | Some t => text_ok t end.

Lemma nullable_text_then {S B} t (k : M S string B) s s' x :
  (_ ← nullable text_input t; k) s = (s', Ok x) <-> text_opt_ok t = true /\ k s = (s', Ok x).
Proof. unfold text_input. rewrite (nullable_demand text_ok (fun _ => bad_text)). apply demand_then_ok. Qed.

Lemma text_then {S B} t (k : M S string B) s s' x :
  (_ ← text_input t; k) s = (s', Ok x) <-> text_ok t = true /\ k s = (s', Ok x).
Proof. apply demand_then_ok. Qed.

Lemma lift_then {S E A B} (r : result E A) (k : A -> M S E B) s s' x :
  (a ← lift r; k a) s = (s', Ok x) <-> exists a, r = Ok a /\ k a s = (s', Ok x).
Proof. rewrite bind_ok. unfold lift. naive_solver. Qed.

Section Validation.
Context `{AiJSON}.
Implicit Types (env : validate_env) (req : ValidateCodeRequest) (db : aidb).

(** What a verdict's row looks like, given the JSON the column keeps. *)
Definition verdict_row (now : Z) (fresh : uuid) req (resp : ValidateCodeResponse) (kept : string)
  : validation_row :=
  mkValidationRow fresh (vr_SubmissionID req) (vr_UserID req) (vr_ProblemID req) (vr_Code req)
    (vr_LanguageID req) (vp_IsAllowed resp) (unless_empty (vp_Severity resp))
    (unless_empty (vp_Reason resp)) kept now now.

Lemma atomic_insert_validation r : atomic (insert_validation r).
Proof.
  intros s s' e. unfold insert_validation, known. rewrite !demand_then.
  repeat (destruct (bool_decide _); [| by intros [= <- <-]]). done.
Qed.

Lemma insert_validation_ok r db db' u :
  insert_validation r db = (db', Ok u) <->
  ai_validations db !! vw_ID r = None /\ vw_SubmissionID r ∈ ai_submissions db /\
  vw_UserID r ∈ ai_users db /\ vw_ProblemID r ∈ ai_problems db /\ vw_LanguageID r ∈ ai_languages db /\
  db' = set_validations db (<[vw_ID r := r]> (ai_validations db)).
Proof.
  unfold insert_validation, known, put. rewrite !demand_then_ok, !bool_decide_eq_true.
  destruct u. naive_solver.
Qed.

Lemma CreateValidation_ok io now fresh req resp db db' v :
  CreateValidation io now fresh req resp db = (db', Ok v) <->
  io 0%nat = None /\ text_ok (vr_Code req) = true /\
  text_opt_ok (unless_empty (vp_Severity resp)) = true /\
  text_opt_ok (unless_empty (vp_Reason resp)) = true /\
  exists kept, ai_jsonb (json_Marshal_map (vp_Details resp)) = Ok kept /\
    insert_validation (verdict_row now fresh req resp kept) db = (db', Ok tt) /\
    v = validation_of (vp_Details resp) (verdict_row now fresh req resp kept).
Proof.
  unfold CreateValidation, jsonb_input. cbv zeta.
  rewrite execute_ok, text_then, !nullable_text_then, lift_then.
  do 4 f_equiv. split.
  - intros (kept & Hk & (db1 & Hi & [= <- <-])%bind_ok_unit). by exists kept.
  - intros (kept & Hk & Hi & ->). exists kept. split; [done |]. rewrite bind_ok_unit.
    exists db'. by split.
Qed.

Lemma atomic_CreateValidation io now fresh req resp : atomic (CreateValidation io now fresh req resp).
Proof.
  apply atomic_execute. repeat (apply atomic_bind; [by auto with capstone | intros ?]).
  apply atomic_then, atomic_insert_validation.
Qed.

(** ** Verdicts *)

Definition reply_to env req : result string model_response :=
  ve_Generate env (validation_messages req) 1024.

Definition verdict env req : ValidateCodeResponse := (judged req (reply_to env req)).1.1.

(** The model has answered with an object that says so. *)
Definition model_allows env req : Prop :=
  exists resp data, reply_to env req = Ok resp /\
    json_Unmarshal_map (response_text resp) = Ok (Some data) /\
    data !! "is_allowed" = Some (JBool true).

Lemma verdict_allows env req : vp_IsAllowed (verdict env req) = true <-> model_allows env req.
Proof.
  unfold verdict, model_allows, judged.
  destruct (reply_to env req) as [resp | e]; [| by split; [| intros (? & ? & ? & _)]].
  destruct (json_Unmarshal_map _) as [parsed | e] eqn:Ej; simpl;
    [| split; [done | intros (? & ? & [= <-] & E1 & _); congruence]].
  unfold field_bool, json_field. destruct parsed as [m |]; simpl;
    [| split; [done | intros (? & ? & [= <-] & E1 & _); congruence]].
  split.
  - destruct (m !! "is_allowed") as [[| [] | | | |] |] eqn:El; try done. intros _. by exists resp, m.
  - intros (? & m' & [= <-] & E1 & E2). assert (m' = m) as -> by congruence. by rewrite E2.
Qed.

(** No answer, or one that is no JSON, is a refusal that blocks. *)
Lemma verdict_fails_closed env req :
  (forall resp, reply_to env req = Ok resp -> exists e, json_Unmarshal_map (response_text resp) = Err e) ->
  vp_IsAllowed (verdict env req) = false /\ vp_Severity (verdict env req) = SeverityBlock /\
  (vp_Reason (verdict env req) = "Failed to validate code" \/
   vp_Reason (verdict env req) = "Failed to parse validation response").
Proof.
  unfold verdict, judged. destruct (reply_to env req) as [resp | e]; [| by auto].
  intros Hbad. destruct (Hbad resp eq_refl) as [e ->]. auto.
Qed.

Lemma LogValidationRequest_logs io now fresh vid q a e t rt db :
  exists logs, (LogValidationRequest io now fresh vid q a e t rt db).1 = set_logs db logs.
Proof.
  destruct (LogValidationRequest _ _ _ _ _ _ _ _ _ db) as [db' [row | err]] eqn:El; simpl.
  - revert El. unfold LogValidationRequest, jsonb_input, int_column. cbv zeta.
    rewrite execute_ok, !lift_then. intros (_ & q' & _ & El). rewrite lift_then in El.
    destruct El as (a' & _ & El). rewrite nullable_text_then in El. destruct El as [_ El].
    rewrite !(nullable_demand int4_ok out_of_range), !demand_then_ok in El.
    destruct El as (_ & _ & (db1 & Hi & [= <- _])%bind_ok_unit).
    unfold insert_log, put in Hi. rewrite !demand_then_ok in Hi.
    destruct Hi as (_ & _ & [= <-]). by eexists.
  - assert (db' = db) as ->.
    { revert El. apply atomic_execute.
      repeat (apply atomic_bind; [unfold jsonb_input, int_column; by auto with capstone | intros ?]).
      apply atomic_then. intros s s' e'. unfold insert_log. rewrite !demand_then.
      repeat (destruct (bool_decide _); [| by intros [= <- <-]]). done. }
    exists (ai_logs db). by destruct db.
Qed.

(** The outcomes of a validation. *)
Lemma ValidateCodeSubmission_cases env req db db' r :
  ValidateCodeSubmission env req db = (db', r) ->
  match r with
  | Ok v => exists db1 logs,
      CreateValidation (ve_io env) (ve_now env) (ve_fresh env) req (verdict env req) db = (db1, Ok v) /\
      db' = set_logs db1 logs
  | Err e => db' = db /\ exists e', e = "create validation in db: " ++s e'
  end.
Proof.
  unfold ValidateCodeSubmission, verdict. fold (reply_to env req).
  destruct (judged req (reply_to env req)) as [[resp apiError] tokens]. simpl.
  unfold mbind, M_bind, map_err.
  destruct (CreateValidation _ _ _ _ _ db) as [db1 [v | e]] eqn:Ec.
  - unfold ignore. match goal with |- context [LogValidationRequest ?a ?b ?c ?d ?e ?f ?g ?h ?i db1] =>
      destruct (LogValidationRequest_logs a b c d e f g h i db1) as [logs ->] end.
    intros [= <- <-]. by exists db1, logs.
  - intros [= <- <-]. split; [by eapply atomic_CreateValidation | by exists e].
Qed.

Lemma of_submission_insert env req resp kept db :
  ai_validations db !! ve_fresh env = None ->
  let row := verdict_row (ve_now env) (ve_fresh env) req resp kept in
  select_where (of_submission (vr_SubmissionID req)) (<[ve_fresh env := row]> (ai_validations db)) ≡ₚ
    [row] ++ select_where (of_submission (vr_SubmissionID req)) (ai_validations db).
Proof.
  intros Hf row. rewrite select_insert by done. unfold of_submission at 1. subst row. simpl.
  by rewrite bool_decide_eq_true_2.
Qed.

(** Reading into the map that was written leaves nothing of it. *)
Lemma scan_meta_reads_back `{!AiJSONLaws} m text :
  (forall f, m = Some f -> plain_keys f) -> ai_jsonb (json_Marshal_map m) = Ok text ->
  scan_meta m text = scan_meta None text.
Proof.
  intros Hm [Hne (m' & Hu & Hr)]%jsonb_reads_back; [| done].
  unfold scan_meta, unmarshal_into. rewrite Hu.
  destruct text as [| c text]; [done |]. replace (0 <? len (String c text)) with true
    by (symmetry; apply Z.ltb_lt; unfold len; simpl; lia).
  destruct m as [f |], m' as [f' |]; simpl in *; try done. f_equal. rewrite map_union_empty.
  apply map_eq. intros k. rewrite lookup_union. destruct (f !! k) as [v |] eqn:Ef.
  - destruct (Hr k (mk_is_Some _ _ Ef)) as [v' ->]. done.
  - by destruct (f' !! k).
Qed.

Lemma singleton_keys k v : json_text k = k -> plain_keys {[k := v]}.
Proof. by intros Hk k' [v' [<- _]%lookup_singleton_Some]. Qed.

(** The details of a verdict are the model's, or name what went wrong. *)
Lemma verdict_details `{!AiJSONLaws} env req f : vp_Details (verdict env req) = Some f -> plain_keys f.
Proof.
  unfold verdict, judged. destruct (reply_to env req) as [resp | e].
  2: { intros [= <-]. by apply singleton_keys. }
  destruct (json_Unmarshal_map _) as [parsed | e] eqn:Ej; simpl.
  2: { intros [= <-]. by apply singleton_keys. }
  unfold field_object, json_field. destruct parsed as [data |]; simpl; [| done].
  destruct (parsed_keys _ _ Ej) as [Hdata Hobj].
  destruct (data !! "details") as [[] |] eqn:Ed; intros [= <-]; [done.. | by eapply Hobj | done].
Qed.

(** The latest verdict on a submission reads back as it was returned. *)
Lemma validation_reads_back `{!AiJSONLaws} env req db db' v io tie :
  ai_wf db -> ValidateCodeSubmission env req db = (db', Ok v) ->
  io 0%nat = None -> TotalOrder vw_ID tie ->
  (forall k row, ai_validations db !! k = Some row ->
     vw_SubmissionID row = vr_SubmissionID req -> vw_CreatedAt row < ve_now env) ->
  GetValidationBySubmission io tie (vr_SubmissionID req) db' = (db', Ok (Some v)).
Proof.
  intros Hdb (db1 & logs & Hc & ->)%ValidateCodeSubmission_cases Hio Htie Hnew.
  apply CreateValidation_ok in Hc as (_ & _ & _ & _ & kept & Hk & Hi & ->).
  apply insert_validation_ok in Hi as (Hf & _ & _ & _ & _ & ->). simpl in *.
  set (row := verdict_row _ _ _ _ _) in *.
  unfold GetValidationBySubmission. rewrite statement_none by done. unfold select. do 3 f_equal. simpl.
  rewrite (order_by_append vw_ID (latest_verdict tie) _ [row]
    (select_where (of_submission (vr_SubmissionID req)) (ai_validations db))).
  - rewrite order_by_one. simpl. unfold validation_of.
    by rewrite (scan_meta_reads_back _ (vw_Metadata row) (verdict_details env req) Hk).
  - apply own_keys_injective, (id_insert vw_ID). by intros k w [? _]%(aw_validation _ Hdb).
  - by apply of_submission_insert.
  - intros x y ->%list_elem_of_singleton [Hy [k Hk']]%elem_of_select_where.
    apply bool_decide_eq_true in Hy. specialize (Hnew k y Hk' Hy). unfold latest_verdict.
    apply orb_true_iff. left. apply Z.ltb_lt. exact Hnew.
Qed.

(** C38. Code passes the validator only on an explicit permission.  A
    validation allows the code exactly when the model answered with a JSON
    object whose [is_allowed] is [true]: an outage, an answer that is no JSON,
    another type or a missing field refuse it, the first two with severity
    [block].  A validation that is returned is stored as it is under a fresh
    identifier, leaving the others and the hints alone, and is what the
    submission's latest validation reads back as; one that is not returned
    has changed nothing. *)
Theorem only_an_explicit_permission_passes `{!AiJSONLaws} (env : validate_env)
    (req : ValidateCodeRequest) (db db' : aidb) (r : result string AICodeValidation)
    (Hdb : ai_wf db) (Hrun : ValidateCodeSubmission env req db = (db', r)) :
  match r with
  | Ok v =>
      (acv_IsAllowed v = true <-> model_allows env req) /\
      ((forall resp, ve_Generate env (validation_messages req) 1024 = Ok resp ->
          exists e, json_Unmarshal_map (response_text resp) = Err e) ->
       acv_Severity v = Some SeverityBlock) /\
      acv_ID v = ve_fresh env /\ ai_validations db !! ve_fresh env = None /\
      (exists row, ai_validations db' = <[ve_fresh env := row]> (ai_validations db)) /\
      (forall io tie, io 0%nat = None -> TotalOrder vw_ID tie ->
         (forall k row, ai_validations db !! k = Some row ->
            vw_SubmissionID row = vr_SubmissionID req -> vw_CreatedAt row < ve_now env) ->
         GetValidationBySubmission io tie (vr_SubmissionID req) db' = (db', Ok (Some v)))
  | Err e => db' = db
  end /\
  ai_hints db' = ai_hints db.
Proof.
  pose proof Hrun as Hcases. apply ValidateCodeSubmission_cases in Hcases.
  destruct r as [v | e]; [| by destruct Hcases as [-> _]].
  destruct Hcases as (db1 & logs & Hc & ->).
  apply CreateValidation_ok in Hc as (_ & _ & _ & _ & kept & Hk & Hi & Hv).
  apply insert_validation_ok in Hi as (Hf & _ & _ & _ & _ & ->).
  assert (acv_IsAllowed v = vp_IsAllowed (verdict env req)) as -> by by subst.
  split; [| done]. split; [apply verdict_allows |]. split.
  { intros Hbad. destruct (verdict_fails_closed env req Hbad) as (_ & E & _). subst v. simpl. by rewrite E. }
  split; [by subst |]. split; [done |]. split; [by eexists |].
  intros io tie Hio Htie Hnew. by apply (validation_reads_back env req db).
Qed.
End Validation.

(** ** Hints *)

Section Hints.
Context `{AiJSON}.
Implicit Types (env : hint_env) (req : HintRequest) (db : aidb) (tie : hint_row -> hint_row -> bool).

Abbreviation hint_id := (fun r : hint_row => cm_ID (hm_Message r)).

Lemma atomic_insert_hint r : atomic (insert_hint r).
Proof.
  intros s s' e. unfold insert_hint, known. rewrite !demand_then.
  repeat (destruct (bool_decide _); [| by intros [= <- <-]]). done.
Qed.

Lemma insert_hint_ok r db db' u :
  insert_hint r db = (db', Ok u) ->
  ai_hints db !! hint_id r = None /\ hm_UserID r ∈ ai_users db /\ hm_ProblemID r ∈ ai_problems db /\
  db' = set_hints db (<[hint_id r := r]> (ai_hints db)).
Proof.
  unfold insert_hint, known, put. rewrite !demand_then_ok, !bool_decide_eq_true. naive_solver.
Qed.

(** A message is stored, or nothing is. *)
Lemma save_hint_cases io now fresh req role content db db' r :
  save_hint io now fresh req role content db = (db', r) ->
  let msg := mkChatMessage fresh role content now in
  let row := mkHintRow (hq_UserID req) (hq_ProblemID req) msg in
  (db' = db /\ exists e, r = Err e) \/
  (r = Ok msg /\ insert_hint row db = (db', Ok tt)).
Proof.
  intros Hs msg row. revert Hs. unfold save_hint, SaveHintMessage. fold msg. cbv zeta. fold row.
  destruct (map_err _ _ db) as [d [m | e]] eqn:Em; intros [= <- <-].
  - right. rewrite map_err_ok, execute_ok, text_then in Em.
    destruct Em as (_ & _ & (d1 & Hi & [= <- <-])%bind_ok_unit). done.
  - left. split; [| by exists e]. revert Em. apply atomic_map_err, atomic_execute.
    apply atomic_bind; [by auto with capstone | intros _]. apply atomic_then, atomic_insert_hint.
Qed.

Lemma insert_hint_wf r db db' u : ai_wf db -> insert_hint r db = (db', Ok u) -> ai_wf db'.
Proof.
  intros [Hv Hl Hh] (_ & Hu & Hp & ->)%insert_hint_ok. split; simpl; [done | done |].
  intros k r' [[<- <-] | [_ Hr]]%lookup_insert_Some; [done | by apply Hh].
Qed.

Lemma hint_keys db u p : ai_wf db -> injective_on hint_id (select_where (of_conversation u p) (ai_hints db)).
Proof. intros Hdb. apply own_keys_injective. by intros k v [? _]%(aw_hint _ Hdb). Qed.

(** A message of another conversation does not show. *)
Lemma conversation_other tie u p r db db' t :
  TotalOrder hint_id tie -> ai_wf db -> insert_hint r db = (db', Ok t) ->
  of_conversation u p r = false -> conversation tie u p db' = conversation tie u p db.
Proof.
  intros Htie Hdb Hi Hr. pose proof (insert_hint_wf _ _ _ _ Hdb Hi) as Hdb'.
  apply insert_hint_ok in Hi as (Hf & _ & _ & ->). unfold conversation. f_equal.
  apply (order_by_canonical hint_id (oldest_hint tie)); [by apply hint_keys |].
  simpl. rewrite select_insert by done. by rewrite Hr.
Qed.

(** One of this conversation comes last, if it is the latest. *)
Lemma conversation_grows tie u p r db db' t :
  TotalOrder hint_id tie -> ai_wf db -> insert_hint r db = (db', Ok t) ->
  of_conversation u p r = true ->
  (forall m, m ∈ conversation tie u p db -> cm_CreatedAt m < cm_CreatedAt (hm_Message r)) ->
  conversation tie u p db' = conversation tie u p db ++ [hm_Message r].
Proof.
  intros Htie Hdb Hi Hr Hold. pose proof (insert_hint_wf _ _ _ _ Hdb Hi) as Hdb'.
  apply insert_hint_ok in Hi as (Hf & _ & _ & ->). unfold conversation.
  rewrite (order_by_append hint_id (oldest_hint tie) _
    (select_where (of_conversation u p) (ai_hints db)) [r]).
  - by rewrite order_by_one, fmap_app.
  - by apply hint_keys.
  - simpl. rewrite select_insert by done. rewrite Hr. apply Permutation_app_comm.
  - intros x y Hx ->%list_elem_of_singleton. unfold oldest_hint. apply orb_true_iff. left.
    apply Z.ltb_lt, Hold. unfold conversation. apply list_elem_of_fmap. exists x.
    by rewrite elem_of_order_by.
Qed.

(** What storing the latest message of a conversation does. *)
Lemma insert_hint_talk tie u p m db db' t :
  TotalOrder hint_id tie -> ai_wf db -> insert_hint (mkHintRow u p m) db = (db', Ok t) ->
  (forall m', m' ∈ conversation tie u p db -> cm_CreatedAt m' < cm_CreatedAt m) ->
  conversation tie u p db' = conversation tie u p db ++ [m] /\
  (forall u' p', (u', p') <> (u, p) -> conversation tie u' p' db' = conversation tie u' p' db) /\
  ai_wf db' /\ ai_validations db' = ai_validations db.
Proof.
  intros Htie Hdb Hi Hold. split; [| split; [| split]].
  - apply (conversation_grows tie u p (mkHintRow u p m) _ _ t); try done.
    unfold of_conversation. simpl. by rewrite !bool_decide_eq_true_2.
  - intros u' p' Hne. eapply conversation_other; try done. unfold of_conversation. simpl.
    apply andb_false_iff. rewrite !bool_decide_eq_false. destruct (decide (u = u')); naive_solver.
  - by eapply insert_hint_wf.
  - by apply insert_hint_ok in Hi as (_ & _ & _ & ->).
Qed.

Lemma GetHintHistory_ok io tie u p db db' msgs :
  GetHintHistory io tie u p db = (db', Ok msgs) -> db' = db /\ msgs = conversation tie u p db.
Proof. intros (_ & _ & -> & ->)%select_rows_ok. done. Qed.

(** Hints extend one conversation.  The model is told the stored
    conversation, oldest message first, between the problem and the new
    question.  A hint that is returned has put the question and the answer,
    in that order, at the conversation's end; a failure has put the question
    there, or nothing.  The conversations of other users and about other
    problems stay as they are. *)
Theorem hints_extend_the_conversation (env : hint_env) (req : HintRequest) (db db' : aidb)
    (r : result string HintResponse)
    (Htie : TotalOrder (fun row => cm_ID (hm_Message row)) (he_tie env)) (Hdb : ai_wf db)
    (Hold : forall m, m ∈ conversation (he_tie env) (hq_UserID req) (hq_ProblemID req) db ->
       cm_CreatedAt m < he_user_now env)
    (Hclock : he_user_now env < he_assistant_now env)
    (Hrun : GetHint env req db = (db', r)) :
  let talk := conversation (he_tie env) (hq_UserID req) (hq_ProblemID req) in
  let question := mkChatMessage (he_user_fresh env) ChatRoleUser (hq_Message req) (he_user_now env) in
  match r with
  | Ok resp => exists reply,
      he_Generate env (hint_messages req (talk db)) 512 = Ok reply /\
      hr_UserMessage resp = question /\
      hr_AssistantMessage resp = mkChatMessage (he_assistant_fresh env) ChatRoleAssistant
        (response_text reply) (he_assistant_now env) /\
      talk db' = talk db ++ [hr_UserMessage resp; hr_AssistantMessage resp]
  | Err _ => talk db' = talk db \/ talk db' = talk db ++ [question]
  end /\
  (forall u p, (u, p) <> (hq_UserID req, hq_ProblemID req) ->
     conversation (he_tie env) u p db' = conversation (he_tie env) u p db) /\
  ai_wf db' /\ ai_validations db' = ai_validations db.
Proof.
  cbv zeta. unfold GetHint in Hrun.
  match type of Hrun with (a ← ?m; @?k a) db = _ => set (ask := k) in Hrun; set (load := m) in Hrun end.
  assert (readonly load) as Hload by (apply readonly_map_err, readonly_select_rows).
  unfold mbind, M_bind in Hrun. destruct (load db) as [d0 [history | e]] eqn:El;
    pose proof (readonly_run _ _ _ _ Hload El) as ->; [| injection Hrun as <- <-; auto].
  unfold load in El. rewrite map_err_ok in El. apply GetHintHistory_ok in El as [_ ->]. subst ask load.
  unfold mbind, M_bind in Hrun. cbv beta in Hrun.
  destruct (save_hint _ _ _ req ChatRoleUser _ db) as [d1 r1] eqn:Eq.
  apply save_hint_cases in Eq as [(-> & e & ->) | (-> & Hq)];
    [injection Hrun as <- <-; auto |].
  destruct (insert_hint_talk _ _ _ _ _ _ _ Htie Hdb Hq Hold) as (Htalk & Hother & Hwf & Hval).
  unfold map_err, lift in Hrun.
  destruct (he_Generate env _ 512) as [reply | e] eqn:Eg; [| injection Hrun as <- <-; auto].
  destruct (save_hint _ _ _ req ChatRoleAssistant _ d1) as [d2 r2] eqn:Ea.
  apply save_hint_cases in Ea as [(-> & e & ->) | (-> & Ha)];
    [injection Hrun as <- <-; auto |].
  injection Hrun as <- <-.
  destruct (insert_hint_talk _ _ _ _ _ _ _ Htie Hwf Ha) as (Htalk2 & Hother2 & Hwf2 & Hval2).
  { rewrite Htalk. intros m [Hm | ->%list_elem_of_singleton]%elem_of_app; [| exact Hclock].
    specialize (Hold m Hm). simpl. lia. }
  split; [| split; [| split; [done | congruence]]].
  - exists reply. rewrite Htalk2, Htalk, <- app_assoc. done.
  - intros u p Hne. rewrite Hother2, Hother; done.
Qed.

(** ** Hints through Ollama *)

Lemma GetHint_reply env req db db' resp :
  GetHint env req db = (db', Ok resp) ->
  exists reply,
    he_Generate env
      (hint_messages req (conversation (he_tie env) (hq_UserID req) (hq_ProblemID req) db)) 512 = Ok reply /\
    cm_Content (hr_AssistantMessage resp) = response_text reply.
Proof.
  unfold GetHint. rewrite bind_ok. intros (d0 & history & Hh & Hrun).
  rewrite map_err_ok in Hh. apply GetHintHistory_ok in Hh as [-> ->].
  rewrite bind_ok in Hrun. destruct Hrun as (d1 & q & _ & Hrun).
  rewrite bind_ok in Hrun. destruct Hrun as (d2 & reply & Hg & Hrun).
  rewrite map_err_ok in Hg. unfold lift in Hg. injection Hg as <- Hg.
  rewrite bind_ok in Hrun. destruct Hrun as (d3 & a & Ha & [= _ <-]).
  exists reply. split; [done |]. simpl.
  by apply save_hint_cases in Ha as [(_ & e & ?) | ([= ->] & _)].
Qed.

Lemma ollama_chat history :
  (chat_message <$> history) ≫= ollama_message =
  (fun m => mkOllamaMessage (role_text (cm_Role m)) (cm_Content m)) <$> history.
Proof.
  induction history as [| m history IH]; [done |]. rewrite !fmap_cons, bind_cons, IH.
  unfold chat_message. destruct m as [i [] c t]; done.
Qed.

(** The messages of a hint, as they are posted. *)
Definition posted_hint (req : HintRequest) (history : list ChatMessage) : list ollamaMessage :=
  [mkOllamaMessage "system" hintSystemPrompt; mkOllamaMessage "user" (hint_context req);
   mkOllamaMessage "assistant" hint_acknowledgement] ++
  ((fun m => mkOllamaMessage (role_text (cm_Role m)) (cm_Content m)) <$> history) ++
  [mkOllamaMessage "user" (hq_Message req)].

Lemma ollama_hint_messages req history : hint_messages req history ≫= ollama_message = posted_hint req history.
Proof. unfold hint_messages, posted_hint. by rewrite !bind_app, ollama_chat. Qed.

Lemma Generate_ok net m messages limit resp :
  Generate net m messages limit = Ok resp ->
  exists auth reply answer choice rest,
    on_Do net (mkOllamaPost (ol_baseURL m ++s "/chat/completions") auth
      (buildRequest m messages limit)) = Ok reply /\
    rp_StatusCode reply = 200 /\ on_Unmarshal net (rp_Body reply) = Ok answer /\
    or_Choices answer = choice :: rest /\ om_Content choice <> "" /\
    response_text resp = om_Content choice.
Proof.
  unfold Generate. destruct (on_bad_url _ _); [done |].
  match goal with |- context [on_Do net ?p] => destruct (on_Do net p) as [reply | e] eqn:Ed end; [| done].
  destruct (rp_StatusCode reply =? 200) eqn:Es; simpl; [| done]. apply Z.eqb_eq in Es.
  destruct (rp_ReadError reply); [done |].
  destruct (on_Unmarshal net _) as [answer | e] eqn:Eu; [| done]. unfold first_choice.
  destruct (or_Choices answer) as [| choice rest] eqn:Ec; [done |].
  destruct (bool_decide (om_Content choice = "")) eqn:Eb; [done |].
  apply bool_decide_eq_false in Eb. intros [= <-].
  by eexists _, reply, answer, choice, rest.
Qed.

(** With an Ollama model a hint is the server's answer to the whole
    conversation.  A hint that is returned was asked for with one request,
    whose messages are the tutor's instructions, the problem with the user's
    code, the acknowledgement, every stored message in its order and under
    its role, and the question; the server answered it with 200, and the
    hint is the text of its first choice, which is not empty. *)
Theorem ollama_hints_carry_the_conversation (net : ollama_net) (m : OllamaModel) (env : hint_env)
    (req : HintRequest) (db db' : aidb) (resp : HintResponse)
    (Hmodel : he_Generate env = Generate net m) (Hrun : GetHint env req db = (db', Ok resp)) :
  exists auth reply answer choice rest,
    on_Do net (mkOllamaPost (ol_baseURL m ++s "/chat/completions") auth
      (mkOllamaChatRequest (ol_modelID m)
         (posted_hint req (conversation (he_tie env) (hq_UserID req) (hq_ProblemID req) db))
         false 512)) = Ok reply /\
    rp_StatusCode reply = 200 /\ on_Unmarshal net (rp_Body reply) = Ok answer /\
    or_Choices answer = choice :: rest /\ om_Content choice <> "" /\
    cm_Content (hr_AssistantMessage resp) = om_Content choice.
Proof.
  destruct (GetHint_reply _ _ _ _ _ Hrun) as (r & Hr & ->). rewrite Hmodel in Hr.
  destruct (Generate_ok _ _ _ _ _ Hr) as (auth & reply & answer & choice & rest & Hp & ?).
  exists auth, reply, answer, choice, rest. split; [| done].
  rewrite <- ollama_hint_messages. exact Hp.
Qed.
End Hints.
