(* ===== verification/AiSubmissions.v ===== *)
(** * Submissions and the validator

    What the submissions rely on is an interface, [Validates]: the verdicts
    of a validator are those of a predicate on requests.  The submissions'
    side is proved against it, and the AI service implements it. *)

From S2P Require Import Prelude Sql GoStrings AiDomain AiRepo AiTheorems.
From S2P Require Import CPDomain Driver SubRepo SubService SubTheorems AiService.

Class Validates (ai : AIValidator) (allows : ValidateCodeRequest -> Prop) : Prop := {
  validator_answers req : SubService.ValidateCodeSubmission ai req <> Ok None;
  validator_verdict req v :
    SubService.ValidateCodeSubmission ai req = Ok (Some v) -> av_IsAllowed v = true <-> allows req
}.

(** The request that [create] makes of the validator. *)
Definition validation_request (env : create_env) (userID problemID : uuid)
    (req : CreateSubmissionRequest) (ad : admission) : ValidateCodeRequest :=
  mkValidateCodeRequest (ce_fresh env) userID problemID (cs_SourceText req) (ad_langID ad) (ad_langKey ad).

Section Client.
Context `{GoUnicode} `{EntryJSON} (ai : AIValidator) (allows : ValidateCodeRequest -> Prop).

(** Code that is queued or published was allowed, or the validator failed. *)
Lemma queued_code_is_allowed `{!Validates ai allows} env u p req kind st st' r :
  create (Some ai) env u p req kind st = (st', r) ->
  ap_queue st' <> ap_queue st \/ (exists sub, r = Ok sub /\ sub_Status sub <> StatusBlocked) ->
  exists ad, admitted env (ap_db st) u p req kind ad /\
    (allows (validation_request env u p req ad) \/
     exists e, SubService.ValidateCodeSubmission ai (validation_request env u p req ad) = Err e).
Proof.
  intros Hrun%create_cases Hout.
  destruct Hrun as [e | ad db e Had Hst Hev | ad key v db sub evs Had Hst Hv Hid Hs _ _ _
    | ad key db r Had Hst Hv Hr]; simpl in Hout.
  - by destruct Hout as [? | (? & ? & _)].
  - by destruct Hout as [? | (? & ? & _)].
  - destruct Hout as [? | (? & [= <-] & ?)]; done.
  - exists ad. split; [done |]. unfold validate_code in Hv. simpl in Hv.
    change (mkValidateCodeRequest _ _ _ _ _ _) with (validation_request env u p req ad) in Hv.
    destruct (SubService.ValidateCodeSubmission ai _) as [[v |] | e] eqn:Ev; [| | by eauto].
    + left. apply (validator_verdict _ v Ev). by destruct (av_IsAllowed v).
    + by apply validator_answers in Ev.
Qed.

(** Code that is blocked was refused; it is shown with the validation that
    the validator gives for it then. *)
Lemma blocked_code_is_refused `{!Validates ai allows} env u p req kind st st' sub :
  create (Some ai) env u p req kind st = (st', Ok sub) -> sub_Status sub = StatusBlocked ->
  exists ad v sub0, admitted env (ap_db st) u p req kind ad /\ ap_queue st' = ap_queue st /\
    SubService.ValidateCodeSubmission ai (validation_request env u p req ad) = Ok (Some v) /\
    av_IsAllowed v = false /\ ~ allows (validation_request env u p req ad) /\
    sub_ID sub0 = ce_fresh env /\ sub = attachValidation (Some ai) sub0.
Proof.
  intros Hrun%create_cases Hb. inversion Hrun as [| | ad key v db sub' evs Had Hst Hv Hid Hs Hsub _ _
    | ad key db r Had Hst Hv Hr]; subst.
  - exists ad, v. eexists. split; [done |]. split; [done |]. unfold validate_code in Hv. simpl in Hv.
    change (mkValidateCodeRequest _ _ _ _ _ _) with (validation_request env u p req ad) in Hv.
    destruct (SubService.ValidateCodeSubmission ai _) as [[w |] | e] eqn:Ev; [| done | done].
    destruct (av_IsAllowed w) eqn:Ew; [done |]. injection Hv as ->.
    split; [done |]. split; [done |]. split; [rewrite <- (validator_verdict _ v Ev); congruence |].
    split; [| reflexivity]. done.
  - destruct (Hr sub eq_refl) as (_ & E & _). congruence.
Qed.
End Client.

(** ** The AI service as the validator *)

Section Service.
Context `{AiJSON} `{GoUnicode} `{EntryJSON}.

(** The fields the submissions read; the metadata as JSON. *)
Definition ai_view (v : AICodeValidation) : ai_validation :=
  mkAIValidation (acv_IsAllowed v) (acv_Severity v) (acv_Reason v)
    (json_Marshal_map (acv_ValidationMeta v)).

Definition viewed {A} (f : A -> option ai_validation) (r : result string A)
  : result string (option ai_validation) :=
  match r with Ok a => Ok (f a) | Err e => Err e end.

(** The service, over its tables as a request finds them ([db]) and as a
    later reading does ([later]). *)
Definition ai_validator (env : validate_env) (io : faults)
    (tie : validation_row -> validation_row -> bool) (db later : aidb) : AIValidator :=
  mkAIValidator
    (fun req => viewed (fun v => Some (ai_view v)) (AiService.ValidateCodeSubmission env req db).2)
    (fun id => viewed (fmap ai_view) (AiRepo.GetValidationBySubmission io tie id later).2).

#[export] Instance ai_validates env io tie db later :
  Validates (ai_validator env io tie db later) (model_allows env).
Proof.
  split; intros req; simpl.
  - by destruct (AiService.ValidateCodeSubmission env req db).2.
  - destruct (AiService.ValidateCodeSubmission env req db) as [db' [a | e]] eqn:Ev; simpl; [| done].
    intros v [= <-]. simpl. apply ValidateCodeSubmission_cases in Ev as (db1 & logs & Hc & _).
    apply CreateValidation_ok in Hc as (_ & _ & _ & _ & kept & _ & _ & ->).
    apply verdict_allows.
Qed.

(** C37. Code that the model does not allow is not executed unless its
    refusal is lost.  When the AI service validates a submission, a request
    is published or queued only if the model explicitly allowed the code or
    the service could not store its verdict; a blocked submission was
    refused, publishes nothing, and comes back with the stored severity,
    reason and details of the refusal. *)
Theorem refused_code_is_blocked_and_explained `{!AiJSONLaws} (cenv : create_env)
    (venv : validate_env) (io : faults) (tie : validation_row -> validation_row -> bool)
    (userID problemID : uuid) (req : CreateSubmissionRequest) (kind : SubmissionKind)
    (vreq : ValidateCodeRequest) (adb : aidb) (st st' : api) (r : result sub_error Submission)
    (Hdb : ai_wf adb) (Hio : io 0%nat = None) (Htie : TotalOrder vw_ID tie)
    (Hfresh : forall k row, ai_validations adb !! k = Some row -> vw_SubmissionID row <> ce_fresh cenv)
    (Hreq : forall ad, admitted cenv (ap_db st) userID problemID req kind ad ->
       validation_request cenv userID problemID req ad = vreq) :
  let judged := AiService.ValidateCodeSubmission venv vreq adb in
  create (Some (ai_validator venv io tie adb judged.1)) cenv userID problemID req kind st = (st', r) ->
  (ap_queue st' <> ap_queue st \/ (exists sub, r = Ok sub /\ sub_Status sub <> StatusBlocked) ->
     model_allows venv vreq \/
     judged.1 = adb /\ exists e, judged.2 = Err ("create validation in db: " ++s e)) /\
  (forall sub, r = Ok sub -> sub_Status sub = StatusBlocked ->
     ~ model_allows venv vreq /\ ap_queue st' = ap_queue st /\
     exists v, judged.2 = Ok v /\
       sub_Validation sub = Some (mkCodeValidation false (default "" (acv_Severity v))
         (default "" (acv_Reason v)) (json_Marshal_map (acv_ValidationMeta v)))).
Proof.
  intros judged Hrun. split.
  - intros Hout. destruct (queued_code_is_allowed _ (model_allows venv) _ _ _ _ _ _ _ _ Hrun Hout)
      as (ad & Had & [Hallow | [e He]]).
    + left. by rewrite <- (Hreq ad Had).
    + right. rewrite (Hreq ad Had) in He. simpl in He. fold judged in He.
      destruct judged as [db' [v | e']] eqn:Ej; [done |]. injection He as ->.
      apply ValidateCodeSubmission_cases in Ej as [-> [e' ->]]. eauto.
  - intros sub -> Hb. destruct (blocked_code_is_refused _ (model_allows venv) _ _ _ _ _ _ _ _ Hrun Hb)
      as (ad & w & sub0 & Had & Hq & Hw & Hno & Hna & Hid & ->).
    rewrite (Hreq ad Had) in Hw, Hna. split; [done |]. split; [done |]. simpl in Hw. fold judged in Hw.
    assert (vr_SubmissionID vreq = ce_fresh cenv) as Hs by by rewrite <- (Hreq ad Had).
    destruct judged as [db' [v | e']] eqn:Ej; [| done]. injection Hw as <-. exists v. split; [done |].
    unfold attachValidation, ai_validator. simpl. rewrite Hid, <- Hs.
    rewrite (validation_reads_back venv vreq adb db' v io tie Hdb Ej Hio Htie); simpl.
    + simpl in Hno. by rewrite Hno.
    + intros k row Hk Hsub. exfalso. apply (Hfresh k row Hk). congruence.
Qed.

(** While the model cannot be reached every submission that reaches the
    validator counts as a violation of its author. *)
Lemma outages_count_as_violations (cenv : create_env) (venv : validate_env) io tie adb later
    since u p req kind st st' sub :
  (forall messages limit, exists e, ve_Generate venv messages limit = Err e) ->
  create (Some (ai_validator venv io tie adb later)) cenv u p req kind st = (st', Ok sub) ->
  sub_Status sub = StatusBlocked -> (forall n, ce_io cenv n = None) -> since < ce_now cenv ->
  violation (Some (ai_validator venv io tie adb later)) since u st st'.
Proof.
  intros Hout Hrun Hb Hio Hnow. exists cenv, p, req, kind, sub. do 4 (split; [done |]).
  intros v vreq w [= <-] Hw. simpl in Hw.
  destruct (AiService.ValidateCodeSubmission venv vreq adb) as [db' [a | e]] eqn:Ev; [| done].
  simpl in Hw. injection Hw as <-. simpl.
  apply ValidateCodeSubmission_cases in Ev as (db1 & logs & Hc & _).
  apply CreateValidation_ok in Hc as (_ & _ & _ & _ & kept & _ & _ & ->). simpl.
  destruct (verdict_fails_closed venv vreq) as (_ & -> & _); [| simpl; set_solver].
  intros resp Hr. unfold reply_to in Hr. destruct (Hout (validation_messages vreq) 1024). congruence.
Qed.
End Service.
