(* ===== verification/AiExamples.v ===== *)
(** * AI: examples

    A small world in which the theorems about the validator and the hints
    apply: a model that refuses, then a conversation of two questions. *)

From S2P Require Import Prelude GoStrings Sql CPDomain AiDomain AiPrompts AiRepo AiService.
From S2P Require Import Driver SubRepo SubService SubTheorems AiTheorems AiSubmissions.
From S2P Require Import ApiHttp CatalogRepo CatalogService AiHttp.

Module AiExample.

#[export] Existing Instance ascii_tables.

(** JSON that knows the empty object, and one refusal and one permission. *)
Definition refusal : gmap string json :=
  <["is_allowed" := JBool false]> (<["reason" := JString "network access"]> {["details" := JObject ∅]}).
Definition permission : gmap string json :=
  <["is_allowed" := JBool true]> {["details" := JObject ∅]}.

#[export] Instance small_json : AiJSON := {
  json_Marshal_map m :=
    match m with Some f => match map_to_list f with [] => "{}" | _ => "{...}" end | None => "null" end;
  json_Unmarshal_map t :=
    if bool_decide (t = "{}") then Ok (Some ∅)
    else if bool_decide (t = "no") then Ok (Some refusal)
    else if bool_decide (t = "yes") then Ok (Some permission)
    else Err "invalid character";
  ai_jsonb t := if bool_decide (t = "{}") then Ok t else Err "pq: invalid input syntax for type json"
}.

Definition plain (f : gmap string json) : bool :=
  forallb (fun kv => bool_decide (json_text kv.1 = kv.1)) (map_to_list f).

Definition plain_value (v : json) : bool := match v with JObject f => plain f | _ => true end.

Lemma plain_spec f : plain f = true -> plain_keys f.
Proof.
  unfold plain. rewrite forallb_forall. intros Hf k [v Hk%elem_of_map_to_list].
  by apply (bool_decide_eq_true_1 _ (Hf (k, v) (proj1 (list_elem_of_In _ _) Hk))).
Qed.

Lemma parsed_plain data :
  plain data && forallb (fun kv => plain_value kv.2) (map_to_list data) = true ->
  plain_keys data /\ (forall k f, data !! k = Some (JObject f) -> plain_keys f).
Proof.
  rewrite andb_true_iff, forallb_forall. intros [Hk Hv]. split; [by apply plain_spec |].
  intros k f Hf%elem_of_map_to_list%list_elem_of_In. apply plain_spec. exact (Hv _ Hf).
Qed.

#[export] Instance small_json_laws : AiJSONLaws.
Proof.
  split.
  - intros m text _. unfold ai_jsonb, json_Marshal_map, json_Unmarshal_map, small_json.
    destruct m as [m |]; [| intros [= ]]. destruct (map_to_list m) as [| x l] eqn:Em; [| done].
    intros [= <-]. split; [done |]. exists (Some ∅). split; [done |].
    apply map_to_list_empty_iff in Em as ->. by intros k Hk.
  - intros text data. unfold json_Unmarshal_map, small_json.
    repeat case_bool_decide; intros [= <-]; apply parsed_plain; vm_compute; reflexivity.
Qed.

(** The user, the problem, the language and the submission of
    [SubWitness]. *)
Definition tables : aidb :=
  mkAiDb {[100%N]} {[SubWitness.user]} {[7%N]} {[1%N]} ∅ ∅ ∅.

Lemma empty_tables_wf : ai_wf tables.
Proof. split; intros k r Hk; simpl in Hk; by rewrite lookup_empty in Hk. Qed.

Definition answering (text : string) : text_generator :=
  fun _ _ => Ok (mkModelResponse [TextBlock text] 10 5).

Definition venv (text : string) : validate_env :=
  mkValidateEnv no_faults (answering text) 0 50 51 900%N 901%N.

Definition vreq : ValidateCodeRequest :=
  mkValidateCodeRequest 100%N SubWitness.user 7%N (cs_SourceText SubWitness.request) 1%N "python".

Definition refused : aidb * result string AICodeValidation :=
  AiService.ValidateCodeSubmission (venv "no") vreq tables.

(** What it returns. *)
Definition stored_refusal : AICodeValidation :=
  mkAICodeValidation 900%N 100%N SubWitness.user 7%N (cs_SourceText SubWitness.request) 1%N false
    (Some "warn") (Some "network access") (Some ∅) 50 50.

Lemma refused_run :
  AiService.ValidateCodeSubmission (venv "no") vreq tables = (refused.1, Ok stored_refusal).
Proof. vm_compute. reflexivity. Qed.

Lemma no_validations k row : ai_validations tables !! k = Some row -> vw_SubmissionID row <> 100%N.
Proof. simpl. by rewrite lookup_empty. Qed.

Lemma only_an_explicit_permission_passes_witness :
  (acv_IsAllowed stored_refusal = true <-> model_allows (venv "no") vreq) /\
  AiRepo.GetValidationBySubmission no_faults (by_id vw_ID) 100%N refused.1 =
    (refused.1, Ok (Some stored_refusal)).
Proof.
  destruct (only_an_explicit_permission_passes (venv "no") vreq tables refused.1 (Ok stored_refusal)
    empty_tables_wf refused_run) as [(Hallow & _ & _ & _ & _ & Hget) _].
  split; [exact Hallow |]. apply (Hget no_faults (by_id vw_ID)); [reflexivity | apply by_id_order |].
  intros k row Hk Hs. destruct (no_validations k row Hk Hs).
Defined.

(** The submission of [SubWitness], validated by the service. *)
Definition validator : AIValidator :=
  ai_validator (venv "no") no_faults (by_id vw_ID) tables refused.1.
Definition submitted : api * result sub_error Submission :=
  create (Some validator) (SubWitness.env_at 0 100%N) SubWitness.user 7%N SubWitness.request KindSubmit
    SubWitness.start.

Lemma asks_for_vreq ad :
  admitted (SubWitness.env_at 0 100%N) SubWitness.db0 SubWitness.user 7%N SubWitness.request KindSubmit ad ->
  validation_request (SubWitness.env_at 0 100%N) SubWitness.user 7%N SubWitness.request ad = vreq.
Proof.
  intros Had. unfold validation_request. pose proof (adm_key _ _ _ _ _ _ _ Had) as ->.
  pose proof (adm_language _ _ _ _ _ _ _ Had) as Hl. simpl in Hl.
  apply lookup_singleton_Some in Hl as [<- _]. reflexivity.
Qed.

Definition blocked : Submission :=
  mkSubmission 100%N SubWitness.user 7%N 1%N "python" (Some (cs_SourceText SubWitness.request))
    StatusBlocked KindSubmit None None
    (Some (mkCodeValidation false "warn" "network access" "{}")) 0.

Lemma submitted_run :
  create (Some validator) (SubWitness.env_at 0 100%N) SubWitness.user 7%N SubWitness.request KindSubmit
    SubWitness.start = (submitted.1, Ok blocked).
Proof. vm_compute. reflexivity. Qed.

Lemma refused_code_is_blocked_and_explained_witness :
  ~ model_allows (venv "no") vreq /\ ap_queue submitted.1 = [].
Proof.
  destruct (refused_code_is_blocked_and_explained (SubWitness.env_at 0 100%N) (venv "no") no_faults
    (by_id vw_ID) SubWitness.user 7%N SubWitness.request KindSubmit vreq tables SubWitness.start
    submitted.1 (Ok blocked) empty_tables_wf eq_refl (by_id_order vw_ID) no_validations asks_for_vreq
    submitted_run) as [_ H].
  destruct (H blocked eq_refl eq_refl) as (Hno & Hq & _). split; [exact Hno | exact Hq].
Defined.

(** ** Hints *)

Definition asked (user : uuid) (text : string) : HintRequest :=
  mkHintRequest user 7%N "Add two numbers." "python" "" text.

Definition henv (generate : text_generator) (at_ : Z) (fresh : uuid) : hint_env :=
  mkHintEnv no_faults generate (by_id (fun row => cm_ID (hm_Message row))) at_ (at_ + 1) fresh (fresh + 1)%N.

Definition first_hint : aidb * result string HintResponse :=
  GetHint (henv (answering "What is a sum?") 10 200%N) (asked SubWitness.user "Help") tables.

Definition first_answer : HintResponse :=
  mkHintResponse (mkChatMessage 200%N ChatRoleUser "Help" 10)
    (mkChatMessage 201%N ChatRoleAssistant "What is a sum?" 11).

Lemma first_run :
  GetHint (henv (answering "What is a sum?") 10 200%N) (asked SubWitness.user "Help") tables =
    (first_hint.1, Ok first_answer).
Proof. vm_compute. reflexivity. Qed.

Lemma no_messages : conversation (by_id (fun row => cm_ID (hm_Message row))) SubWitness.user 7%N tables = [].
Proof. vm_compute. reflexivity. Qed.

Lemma hints_extend_the_conversation_witness :
  conversation (by_id (fun row => cm_ID (hm_Message row))) SubWitness.user 7%N first_hint.1 =
    conversation (by_id (fun row => cm_ID (hm_Message row))) SubWitness.user 7%N tables ++
    [hr_UserMessage first_answer; hr_AssistantMessage first_answer].
Proof.
  destruct (hints_extend_the_conversation (henv (answering "What is a sum?") 10 200%N)
    (asked SubWitness.user "Help") tables first_hint.1 (Ok first_answer) (by_id_order _) empty_tables_wf)
    as [(reply & _ & _ & _ & Htalk) _]; [| reflexivity | exact first_run | exact Htalk].
  cbn [he_tie henv hq_UserID hq_ProblemID asked]. rewrite no_messages. by intros m Hm%not_elem_of_nil.
Defined.

(** The same through Ollama. *)
Definition ollama : OllamaModel := mkOllamaModel "http://ollama/v1" "llama3" "".
Definition net : ollama_net :=
  mkOllamaNet (fun _ => None) (fun _ => Ok (mkOllamaReply 200 "{...}" None))
    (fun _ => Ok (mkOllamaChatResponse [mkOllamaMessage "assistant" "Try small numbers."] 7 3 10)).

Definition second_hint : aidb * result string HintResponse :=
  GetHint (henv (AiService.Generate net ollama) 20 300%N) (asked SubWitness.user "And now?") first_hint.1.

Definition second_answer : HintResponse :=
  mkHintResponse (mkChatMessage 300%N ChatRoleUser "And now?" 20)
    (mkChatMessage 301%N ChatRoleAssistant "Try small numbers." 21).

Lemma second_run :
  GetHint (henv (AiService.Generate net ollama) 20 300%N) (asked SubWitness.user "And now?") first_hint.1 =
    (second_hint.1, Ok second_answer).
Proof. vm_compute. reflexivity. Qed.

Lemma ollama_hints_carry_the_conversation_witness :
  exists choice, cm_Content (hr_AssistantMessage second_answer) = om_Content choice /\
    om_Content choice <> "".
Proof.
  destruct (ollama_hints_carry_the_conversation net ollama (henv (AiService.Generate net ollama) 20 300%N)
    (asked SubWitness.user "And now?") first_hint.1 second_hint.1 second_answer eq_refl second_run)
    as (auth & reply & answer & choice & rest & _ & _ & _ & _ & Hne & He).
  exists choice. split; [exact He | exact Hne].
Defined.
(** What a caller may see of a problem makes no difference to its hints. *)
Lemma hints_ignore_visibility `{CatalogJSON} `{DbCollation} `{DbILike} cat env user p1 p2 id body :
  GetHint_handler cat env (mkCaller user p1) id body = GetHint_handler cat env (mkCaller user p2) id body.
Proof. done. Qed.
End AiExample.
