(* ===== verification/RateLimit.v ===== *)
(** * API: rate limiting

    [internal/api/middleware/ratelimit.go]: the sliding windows kept in a
    process-wide map, the two middlewares that consult them and the sweep
    that is meant to drop idle ones.  A window is its list of instants; the
    map holds pointers to windows, so that a request that has loaded its
    window and one that has not are told apart.  The second half proves that
    it decides as an exact log of the admitted requests. *)

From S2P Require Import Prelude GoStrings.

(** ** One window *)

(** [valid]: the entries that have not expired. *)
Definition prune (cutoff : Z) (timestamps : list Z) : list Z :=
  List.filter (fun t => cutoff <? t) timestamps.

(** [allow], with the clock's reading: the window's new timestamps and the
    answer. *)
Definition allow (limit window now : Z) (timestamps : list Z) : list Z * bool :=
  let cutoff := now - window in
  let valid := prune cutoff timestamps in
  if limit <=? Z.of_nat (length valid) then (valid, false) else (valid ++ [now], true).

(** ** The shared map *)

Record windows := mkWindows {
  ws_map : gmap string nat;
  ws_heap : gmap nat (list Z);
  ws_next : nat
}.

Definition no_windows : windows := mkWindows ∅ ∅ 0.

(** [windows.LoadOrStore(key, &slidingWindow{})] *)
Definition LoadOrStore (key : string) (ws : windows) : windows * nat :=
  match ws_map ws !! key with
  | Some p => (ws, p)
  | None =>
      let p := ws_next ws in
      (mkWindows (<[key := p]> (ws_map ws)) (<[p := []]> (ws_heap ws)) (S p), p)
  end.

Definition allow_at (limit window now : Z) (p : nat) (ws : windows) : windows * bool :=
  let '(ts, ok) := allow limit window now (default [] (ws_heap ws !! p)) in
  (mkWindows (ws_map ws) (<[p := ts]> (ws_heap ws)) (ws_next ws), ok).

(** The sweep's visit of one entry. *)
Definition sweep_entry (key : string) (ws : windows) : windows :=
  match ws_map ws !! key with
  | None => ws
  | Some p =>
      if bool_decide (default [] (ws_heap ws !! p) = []) then
        mkWindows (delete key (ws_map ws)) (ws_heap ws) (ws_next ws)
      else ws
  end.

(** A tick of the ticker: [Range] over the entries. *)
Definition sweep (ws : windows) : windows :=
  foldr sweep_entry ws ((map_to_list (ws_map ws)).*1).

(** ** The middlewares *)

(** [ip:port]; the error of [net.SplitHostPort] is [None]. *)
Record request := mkRequest {
  rq_UserID : option string;
  rq_XForwardedFor : string;
  rq_RemoteAddr : string;
  rq_host : option string;
  rq_Path : string
}.

Definition comma : ascii := Ascii.ascii_of_nat 44.

Definition clientIP (r : request) : string :=
  if negb (bool_decide (rq_XForwardedFor r = "")) then
    match Cut comma (rq_XForwardedFor r) with
    | Some (first, _) => TrimSpace first
    | None => TrimSpace (rq_XForwardedFor r)
    end
  else
    match rq_host r with
    | Some host => host
    | None => rq_RemoteAddr r
    end.

(** The keys; a request without a user is not limited per user. *)
Definition user_key (r : request) : option string :=
  (fun userID => userID ++s ":" ++s rq_Path r) <$> rq_UserID r.
Definition ip_key (r : request) : string := "ip:" ++s clientIP r ++s ":" ++s rq_Path r.

(** One request through a middleware, undisturbed: whether [next] is called. *)
Definition limit_request (limit window now : Z) (key : string) (ws : windows) : windows * bool :=
  let '(ws1, p) := LoadOrStore key ws in allow_at limit window now p ws1.

Definition SubmissionRateLimit (limit window now : Z) (r : request) (ws : windows) : windows * bool :=
  match user_key r with
  | None => (ws, true)
  | Some key => limit_request limit window now key ws
  end.

Definition IPRateLimit (limit window now : Z) (r : request) (ws : windows) : windows * bool :=
  limit_request limit window now (ip_key r) ws.

(** The refusal. *)
Record rate_limited := mkRateLimited { rl_status : Z; rl_RetryAfter : string; rl_error : string }.

Definition writeRateLimited (window : Z) : rate_limited :=
  mkRateLimited 429 (show_duration window) "rate limit exceeded, please slow down".

(** ** A process's history, one request after the other

    The map is shared by all routes; what a key's requests are allowed is that
    of its route. *)

Inductive event := Request (key : string) (now : Z) | Tick.

Section History.
Context (limit window : string -> Z).

(** The decisions, oldest first. *)
Fixpoint history (evs : list event) (ws : windows) : list (string * Z * bool) :=
  match evs with
  | [] => []
  | Tick :: evs' => history evs' (sweep ws)
  | Request key now :: evs' =>
      let '(ws', ok) := limit_request (limit key) (window key) now key ws in
      (key, now, ok) :: history evs' ws'
  end.

(** The specification: a request is let through when fewer than [limit]
    requests of its key have been let through within the window before it. *)
Definition recent (key : string) (since : Z) (accepted : list (string * Z)) : list (string * Z) :=
  List.filter (fun a => bool_decide (a.1 = key) && (since <? a.2)) accepted.

Fixpoint spec_history (evs : list event) (accepted : list (string * Z)) : list (string * Z * bool) :=
  match evs with
  | [] => []
  | Tick :: evs' => spec_history evs' accepted
  | Request key now :: evs' =>
      let ok := Z.of_nat (length (recent key (now - window key) accepted)) <? limit key in
      (key, now, ok) :: spec_history evs' (if ok then accepted ++ [(key, now)] else accepted)
  end.
End History.

Definition event_time (e : event) : option Z := match e with Request _ now => Some now | Tick => None end.

(** The clock does not go back. *)
Fixpoint ordered (last : Z) (evs : list event) : Prop :=
  match evs with
  | [] => True
  | Request _ now :: evs' => last <= now /\ ordered now evs'
  | Tick :: evs' => ordered last evs'
  end.

(** * What the rate limiter guarantees *)

Lemma prune_prune c c' ts : c <= c' -> prune c' (prune c ts) = prune c' ts.
Proof.
  intros Hc. induction ts as [| t ts IH]; simpl; [done |].
  destruct (Z.ltb_spec c t); simpl; rewrite IH; [done |].
  destruct (Z.ltb_spec c' t); [lia | done].
Qed.

Lemma prune_app c ts ts' : prune c (ts ++ ts') = prune c ts ++ prune c ts'.
Proof. apply List.filter_app. Qed.

(** ** The window a key has *)

Definition window_of (key : string) (ws : windows) : list Z :=
  default [] (ws_map ws !! key ≫= fun p => ws_heap ws !! p).

(** Each key has a window of its own. *)
Record separate (ws : windows) : Prop := {
  sep_fresh : forall k p, ws_map ws !! k = Some p -> (p < ws_next ws)%nat;
  sep_inj : forall k k' p, ws_map ws !! k = Some p -> ws_map ws !! k' = Some p -> k = k'
}.

Lemma separate_none : separate no_windows.
Proof. by split. Qed.

Lemma LoadOrStore_spec key ws :
  separate ws ->
  let '(ws1, p) := LoadOrStore key ws in
  separate ws1 /\ ws_map ws1 !! key = Some p /\ default [] (ws_heap ws1 !! p) = window_of key ws /\
  forall k, window_of k ws1 = window_of k ws.
Proof.
  intros [Hf Hi]. unfold LoadOrStore. destruct (ws_map ws !! key) as [p |] eqn:E.
  - split; [by split |]. split; [done |]. split; [| done]. unfold window_of. by rewrite E.
  - split; [split; simpl |].
    + intros k p. rewrite lookup_insert. case_decide; [intros [= <-]; lia |].
      intros Hk. apply Hf in Hk. lia.
    + intros k k' p. rewrite !lookup_insert. do 2 case_decide; intros; simplify_eq; try done.
      * match goal with Hk : ws_map ws !! k' = Some _ |- _ => apply Hf in Hk; lia end.
      * match goal with Hk : ws_map ws !! k = Some _ |- _ => apply Hf in Hk; lia end.
      * by eapply Hi.
    + unfold window_of. simpl. rewrite lookup_insert_eq, E. split; [done |].
      split; [by rewrite lookup_insert_eq |].
      intros k. rewrite lookup_insert. case_decide as Hk.
      * subst. rewrite E. simpl. by rewrite lookup_insert_eq.
      * destruct (ws_map ws !! k) as [q |] eqn:Eq; simpl; [| done].
        apply Hf in Eq. by rewrite lookup_insert_ne by lia.
Qed.

Lemma limit_request_spec limit window now key ws :
  separate ws ->
  let '(ws', ok) := limit_request limit window now key ws in
  separate ws' /\ (window_of key ws', ok) = allow limit window now (window_of key ws) /\
  is_Some (ws_map ws' !! key) /\ forall k, k <> key -> window_of k ws' = window_of k ws.
Proof.
  intros Hs. unfold limit_request. pose proof (LoadOrStore_spec key ws Hs) as H.
  destruct (LoadOrStore key ws) as [ws1 p]. destruct H as ([Hf Hi] & Hp & Hw & Hall).
  unfold allow_at. rewrite Hw. destruct (allow limit window now (window_of key ws)) as [ts ok].
  split; [by split |]. unfold window_of at 1. simpl. rewrite Hp. simpl. rewrite lookup_insert_eq.
  split; [done |]. split; [done |]. intros k Hk. rewrite <- Hall. unfold window_of. simpl.
  destruct (ws_map ws1 !! k) as [q |] eqn:Eq; simpl; [| done].
  rewrite lookup_insert_ne; [done |]. intros <-. apply Hk. by eapply Hi.
Qed.

Lemma sweep_entry_spec key ws :
  separate ws ->
  separate (sweep_entry key ws) /\ forall k, window_of k (sweep_entry key ws) = window_of k ws.
Proof.
  intros [Hf Hi]. unfold sweep_entry. destruct (ws_map ws !! key) as [p |] eqn:E; [| by repeat split].
  case_bool_decide as Hd; [| by repeat split]. split; [split; simpl |].
  - intros k q. rewrite lookup_delete. case_decide; [done |]. apply Hf.
  - intros k k' q. rewrite !lookup_delete. do 2 (case_decide; [done |]). apply Hi.
  - intros k. unfold window_of. simpl. rewrite lookup_delete. case_decide as Hk; [| done].
    subst. rewrite E. simpl. by rewrite Hd.
Qed.

Lemma sweep_spec ws :
  separate ws -> separate (sweep ws) /\ forall k, window_of k (sweep ws) = window_of k ws.
Proof.
  intros Hs. unfold sweep. induction ((map_to_list (ws_map ws)).*1) as [| key keys IH]; [done |].
  destruct IH as [IH1 IH2]. simpl. destruct (sweep_entry_spec key _ IH1) as [H1 H2].
  split; [done |]. intros k. by rewrite H2.
Qed.

(** ** The sliding log is exact *)

Lemma recent_app key since a b : recent key since (a ++ b) = recent key since a ++ recent key since b.
Proof. apply List.filter_app. Qed.

Lemma recent_le key c c' acc :
  c <= c' -> (length (recent key c' acc) <= length (recent key c acc))%nat.
Proof.
  intros Hc. unfold recent. induction acc as [| a acc IH]; simpl; [lia |].
  destruct (bool_decide (a.1 = key)); simpl; [| lia].
  destruct (Z.ltb_spec c' a.2), (Z.ltb_spec c a.2); simpl; lia.
Qed.

(** The windows agree with what has been let through, as far as any later
    request can tell. *)
Definition tracks (window : string -> Z) (last : Z) (ws : windows) (accepted : list (string * Z)) : Prop :=
  separate ws /\
  forall key since, last - window key <= since ->
    prune since (window_of key ws) = (recent key since accepted).*2.

Lemma tracks_request (limit window : string -> Z) last now key ws acc :
  tracks window last ws acc -> last <= now ->
  let ok := Z.of_nat (length (recent key (now - window key) acc)) <? limit key in
  let '(ws', ok') := limit_request (limit key) (window key) now key ws in
  ok' = ok /\ tracks window now ws' (if ok then acc ++ [(key, now)] else acc).
Proof.
  intros [Hs Ht] Hnow. cbn zeta. pose proof (limit_request_spec (limit key) (window key) now key ws Hs) as H.
  destruct (limit_request (limit key) (window key) now key ws) as [ws' ok'].
  destruct H as (Hs' & Ha & _ & Ho). unfold allow in Ha.
  rewrite (Ht key (now - window key)) in Ha by lia. rewrite length_fmap in Ha.
  destruct (Z.leb_spec (limit key) (Z.of_nat (length (recent key (now - window key) acc))));
    destruct (Z.ltb_spec (Z.of_nat (length (recent key (now - window key) acc))) (limit key)); try lia;
    injection Ha as Hw ->; (split; [done |]); (split; [done |]); intros k since Hsince.
  - destruct (decide (k = key)) as [-> | Hk]; [| rewrite Ho by done; apply Ht; lia].
    rewrite Hw, <- (Ht key (now - window key)), prune_prune by lia. apply Ht. lia.
  - rewrite recent_app, fmap_app. destruct (decide (k = key)) as [-> | Hk].
    + rewrite Hw, <- (Ht key (now - window key)), prune_app, prune_prune by lia.
      rewrite Ht by lia. f_equal. simpl. rewrite bool_decide_eq_true_2 by done. simpl.
      by destruct (since <? now).
    + rewrite Ho, Ht by (done || lia). simpl. rewrite bool_decide_eq_false_2 by done. simpl.
      by rewrite app_nil_r.
Qed.

Lemma history_spec limit window evs : forall last ws acc,
  tracks window last ws acc -> ordered last evs ->
  history limit window evs ws = spec_history limit window evs acc.
Proof.
  induction evs as [| [key now |] evs IH]; intros last ws acc Ht Hord; [done | |]; simpl in *.
  - destruct Hord as [Hnow Hord].
    pose proof (tracks_request limit window last now key ws acc Ht Hnow) as H. cbn zeta in H.
    destruct (limit_request (limit key) (window key) now key ws) as [ws' ok]. destruct H as [-> Ht'].
    f_equal. by eapply IH.
  - eapply IH; [| done]. destruct Ht as [Hs Ht]. destruct (sweep_spec ws Hs) as [Hs' Hw].
    split; [done |]. intros k since Hk. by rewrite Hw, Ht.
Qed.

(** The requests a history lets through. *)
Definition let_through (h : list (string * Z * bool)) : list (string * Z) :=
  omap (fun d => if d.2 : bool then Some d.1 else None) h.

(** Those of one key in the window that ends at [t]. *)
Definition in_window (key : string) (window t : Z) (acc : list (string * Z)) : list (string * Z) :=
  List.filter (fun a => bool_decide (a.1 = key) && (t - window <? a.2) && (a.2 <=? t)) acc.

Lemma in_window_app key window t a b :
  in_window key window t (a ++ b) = in_window key window t a ++ in_window key window t b.
Proof. apply List.filter_app. Qed.

Lemma in_window_recent key window t acc :
  (length (in_window key window t acc) <= length (recent key (t - window) acc))%nat.
Proof.
  unfold in_window, recent. induction acc as [| a acc IH]; simpl; [lia |].
  destruct (bool_decide (a.1 = key)); simpl; [| lia].
  destruct (t - window <? a.2); simpl; [| lia]. destruct (a.2 <=? t); simpl; lia.
Qed.

Lemma spec_history_bounded limit window evs : forall acc,
  (forall key t, Z.of_nat (length (in_window key (window key) t acc)) <= limit key) ->
  forall key t,
  Z.of_nat (length (in_window key (window key) t (acc ++ let_through (spec_history limit window evs acc)))) <= limit key.
Proof.
  induction evs as [| [key now |] evs IH]; intros acc Hacc k t.
  - simpl. by rewrite app_nil_r.
  - cbn [spec_history let_through omap list_omap]. cbn [snd fst].
    destruct (Z.ltb_spec (Z.of_nat (length (recent key (now - window key) acc))) (limit key)) as [Hlt | _]; [| by apply IH].
    rewrite cons_middle, app_assoc. apply IH. clear k t. intros k t.
    rewrite in_window_app, length_app. simpl.
    destruct (bool_decide (key = k)) eqn:Ek; simpl; [| specialize (Hacc k t); lia].
    apply bool_decide_eq_true in Ek. subst k.
    destruct (Z.ltb_spec (t - window key) now); simpl; [| specialize (Hacc key t); lia].
    destruct (Z.leb_spec now t); simpl; [| specialize (Hacc key t); lia].
    pose proof (in_window_recent key (window key) t acc).
    pose proof (recent_le key (now - window key) (t - window key) acc ltac:(lia)). lia.
  - by apply IH.
Qed.

(** ** The routes

    The limited routes of [cmd/api/routes.go], with the path a request of the
    route has. *)

Inductive limited_route :=
  | Register
  | Login
  | Refresh
  | VerifyEmail
  | Submit (problemID : string)
  | Run (problemID : string)
  | Hint (problemID : string).

Definition route_path (r : limited_route) : string :=
  match r with
  | Register => "/api/v1/auth/register"
  | Login => "/api/v1/auth/login"
  | Refresh => "/api/v1/auth/refresh"
  | VerifyEmail => "/api/v1/auth/verify-email"
  | Submit p => "/api/v1/problems/" ++s p ++s "/submit"
  | Run p => "/api/v1/problems/" ++s p ++s "/run"
  | Hint p => "/api/v1/problems/" ++s p ++s "/hint"
  end.

Definition route_limit (r : limited_route) : Z :=
  match r with
  | Register => 5 | Login => 10 | Refresh => 20 | VerifyEmail => 10
  | Submit _ => 5 | Run _ => 15 | Hint _ => 10
  end.

Definition route_window : Z := 60 * time_Second.

(** By address or by user; without a user there is no key. *)
Definition by_address (r : limited_route) : bool :=
  match r with Register | Login | Refresh | VerifyEmail => true | _ => false end.

Definition route_key (r : limited_route) (req : request) : option string :=
  if by_address r then Some (ip_key req) else user_key req.

(** A request through its route's middleware. *)
Definition through (r : limited_route) (now : Z) (req : request) (ws : windows) : windows * bool :=
  (if by_address r then IPRateLimit else SubmissionRateLimit)
    (route_limit r) route_window now req ws.

(** The requests that one process of the API serves on these routes, with the
    sweeps, and what becomes of them. *)
Inductive api_event := Arrives (r : limited_route) (req : request) (now : Z) | Swept.

Fixpoint api_history (evs : list api_event) (ws : windows) : list (option string * Z * bool) :=
  match evs with
  | [] => []
  | Swept :: evs' => api_history evs' (sweep ws)
  | Arrives r req now :: evs' =>
      let '(ws', ok) := through r now req ws in
      (route_key r req, now, ok) :: api_history evs' ws'
  end.

Fixpoint api_ordered (last : Z) (evs : list api_event) : Prop :=
  match evs with
  | [] => True
  | Arrives r req now :: evs' => rq_Path req = route_path r /\ last <= now /\ api_ordered now evs'
  | Swept :: evs' => api_ordered last evs'
  end.

(** The limit is found again in the last four bytes of a key. *)
Definition limit_of_key (key : string) : Z :=
  let tail := sdrop (String.length key - 4) key in
  if bool_decide (tail = "ster") then 5 else if bool_decide (tail = "ogin") then 10
  else if bool_decide (tail = "resh") then 20 else if bool_decide (tail = "mail") then 10
  else if bool_decide (tail = "bmit") then 5 else if bool_decide (tail = "/run") then 15
  else 10.

Lemma last_four s tail : String.length tail = 4%nat -> sdrop (String.length (s ++s tail) - 4) (s ++s tail) = tail.
Proof.
  intros Ht. rewrite length_sapp, Ht, Nat.add_sub. apply sdrop_app.
Qed.

Lemma limit_of_route_key r req key :
  rq_Path req = route_path r -> route_key r req = Some key -> limit_of_key key = route_limit r.
Proof.
  intros Hpath Hkey.
  assert (exists s tail, key = s ++s tail /\ String.length tail = 4%nat /\
    limit_of_key ("" ++s tail) = route_limit r) as (s & tail & -> & Hlen & <-).
  { assert (exists s, key = s ++s route_path r) as [s ->].
    { revert Hkey. unfold route_key, ip_key, user_key. rewrite Hpath.
      destruct (by_address r).
      - intros [= <-]. exists ("ip:" ++s clientIP req ++s ":"). by rewrite !sapp_assoc.
      - intros (u & _ & ->)%fmap_Some. exists (u ++s ":"). by rewrite sapp_assoc. }
    destruct r; cbn [route_path].
    1: exists (s ++s "/api/v1/auth/regi"), "ster".
    2: exists (s ++s "/api/v1/auth/l"), "ogin".
    3: exists (s ++s "/api/v1/auth/ref"), "resh".
    4: exists (s ++s "/api/v1/auth/verify-e"), "mail".
    5: exists (s ++s "/api/v1/problems/" ++s problemID ++s "/su"), "bmit".
    6: exists (s ++s "/api/v1/problems/" ++s problemID), "/run".
    7: exists (s ++s "/api/v1/problems/" ++s problemID ++s "/"), "hint".
    all: by rewrite !sapp_assoc. }
  unfold limit_of_key. by rewrite (last_four s tail Hlen), (last_four "" tail Hlen).
Qed.

(** Requests of a key that is limited, as the shared map sees them. *)
Definition event_of (e : api_event) : option event :=
  match e with
  | Swept => Some Tick
  | Arrives r req now => (fun key => Request key now) <$> route_key r req
  end.

Definition keyed (h : list (option string * Z * bool)) : list (string * Z * bool) :=
  omap (fun d => (fun key => (key, d.1.2, d.2)) <$> d.1.1) h.

Lemma api_history_keyed evs : forall last ws,
  api_ordered last evs ->
  keyed (api_history evs ws) = history limit_of_key (fun _ => route_window) (omap event_of evs) ws /\
  ordered last (omap event_of evs).
Proof.
  induction evs as [| [r req now |] evs IH]; intros last ws Hord; [done | | by apply IH].
  destruct Hord as (Hpath & Hnow & Hord). cbn [api_history omap list_omap event_of].
  assert (through r now req ws =
    match route_key r req with
    | None => (ws, true)
    | Some key => limit_request (limit_of_key key) route_window now key ws
    end) as ->.
  { unfold through. pose proof (limit_of_route_key r req) as Hl. unfold route_key in *.
    destruct (by_address r); [by rewrite (Hl _ Hpath eq_refl) |].
    unfold SubmissionRateLimit. destruct (user_key req); [by rewrite (Hl _ Hpath eq_refl) | done]. }
  destruct (route_key r req) as [key |] eqn:Ekey; cbn [fmap option_fmap option_map].
  - cbn [history ordered]. destruct (limit_request _ _ now key ws) as [ws' ok].
    destruct (IH now ws' Hord) as [IH1 IH2]. unfold keyed in *. cbn.
    split; [by rewrite IH1 | done].
  - unfold keyed in *. cbn. destruct (IH now ws Hord) as [IH1 IH2].
    split; [exact IH1 |]. clear -IH2 Hnow. revert IH2.
    induction (omap event_of evs) as [| [k t |] l IHl]; cbn; [done | intros [? ?]; split; [lia | done] | done].
Qed.

(** C24. The limiter is exact, per key, on the map that all limited routes of
    the API share: for requests of any of them whose clock readings do not
    decrease, with sweeps anywhere between them, a request is let through
    exactly when fewer than its route's limit have been let through for its
    key within the minute before it.  So in no minute do more than ten sign-in
    attempts from one address reach the passwords, more than five
    submissions of one user to one problem the judge, and so on, whatever is
    asked on the other routes. *)
Theorem requests_are_limited_per_window (evs : list api_event) (start : Z) (Hord : api_ordered start evs) :
  keyed (api_history evs no_windows) =
    spec_history limit_of_key (fun _ => route_window) (omap event_of evs) [] /\
  forall r req key t, rq_Path req = route_path r -> route_key r req = Some key ->
    Z.of_nat (length (in_window key route_window t (let_through (keyed (api_history evs no_windows)))))
    <= route_limit r.
Proof.
  destruct (api_history_keyed evs start no_windows Hord) as [-> Hord'].
  assert (history limit_of_key (fun _ => route_window) (omap event_of evs) no_windows =
    spec_history limit_of_key (fun _ => route_window) (omap event_of evs) []) as ->.
  { apply history_spec with (last := start); [| done]. split; [apply separate_none |]. done. }
  split; [done |]. intros r req key t Hpath Hkey. rewrite <- (limit_of_route_key r req key Hpath Hkey).
  apply (spec_history_bounded limit_of_key (fun _ => route_window) (omap event_of evs) []).
  clear. intros key t. simpl. unfold limit_of_key. repeat case_bool_decide; lia.
Qed.

(** ** What the sweep and the keys do not do *)

Definition no_idle (ws : windows) : Prop :=
  forall k, is_Some (ws_map ws !! k) -> window_of k ws <> [].

Lemma allow_nonempty limit window now ts :
  0 < limit -> (allow limit window now ts).1 <> [].
Proof.
  intros Hl. unfold allow.
  destruct (Z.leb_spec limit (Z.of_nat (length (prune (now - window) ts)))); simpl.
  - destruct (prune _ _); simpl in *; [lia | done].
  - by destruct (prune _ _).
Qed.

(** Between requests no window is idle: each keeps the instant of its last
    accepted request until the next request prunes it.  So the sweep never
    removes anything, and the map grows by one entry per key for ever. *)
Lemma sweep_removes_nothing ws : no_idle ws -> sweep ws = ws.
Proof.
  intros Hn. unfold sweep. induction ((map_to_list (ws_map ws)).*1) as [| key keys IH]; [done |].
  simpl. rewrite IH. unfold sweep_entry. destruct (ws_map ws !! key) as [p |] eqn:E; [| done].
  rewrite bool_decide_eq_false_2; [done |].
  specialize (Hn key). unfold window_of in Hn. rewrite E in Hn. by apply Hn.
Qed.

Lemma no_idle_request limit window now key ws :
  0 < limit -> separate ws -> no_idle ws -> no_idle (limit_request limit window now key ws).1.
Proof.
  intros Hl Hs Hn k Hk. pose proof (limit_request_spec limit window now key ws Hs) as H.
  assert (forall k', k' <> key ->
    ws_map (limit_request limit window now key ws).1 !! k' = ws_map ws !! k') as Hmap.
  { clear H Hk. intros k' Hne. unfold limit_request, LoadOrStore, allow_at.
    destruct (ws_map ws !! key); [by destruct (allow limit window now _) |].
    destruct (allow limit window now _). simpl. by rewrite lookup_insert_ne. }
  destruct (limit_request limit window now key ws) as [ws' ok]. simpl in *.
  destruct H as (_ & Ha & _ & Ho).
  destruct (decide (k = key)) as [-> | Hne].
  - pose proof (allow_nonempty limit window now (window_of key ws) Hl) as Hne.
    rewrite <- Ha in Hne. done.
  - rewrite Ho by done. apply Hn. by rewrite <- Hmap.
Qed.

(** A sweep between the two halves of a first request drops the window that
    request is about to use: with a limit of one, two are let through at the
    same instant. *)
Lemma sweep_race_exceeds_the_limit :
  let '(ws1, p1) := LoadOrStore "key" no_windows in
  let ws2 := sweep ws1 in
  let '(ws3, p2) := LoadOrStore "key" ws2 in
  let '(ws4, ok1) := allow_at 1 time_Minute 0 p1 ws3 in
  let '(_, ok2) := allow_at 1 time_Minute 0 p2 ws4 in
  (ok1, ok2) = (true, true).
Proof. vm_compute. reflexivity. Qed.

(** A key not seen before is let through; the client chooses the first entry
    of X-Forwarded-For, and with it the key. *)
Lemma new_keys_are_let_through limit window now key ws :
  0 < limit -> ws_map ws !! key = None -> (limit_request limit window now key ws).2 = true.
Proof.
  intros Hl E. unfold limit_request, LoadOrStore. rewrite E. unfold allow_at. simpl.
  rewrite lookup_insert_eq. unfold allow. simpl. change (Z.of_nat 0) with 0. by rewrite (proj2 (Z.leb_gt limit 0)) by lia.
Qed.

Lemma forwarded_address_is_the_clients host addr path spoofed rest :
  clientIP (mkRequest None ("1.2.3.4" ++s "," ++s rest) addr host path) = "1.2.3.4" /\
  (spoofed <> "" -> Cut comma spoofed = None ->
   clientIP (mkRequest None spoofed addr host path) = TrimSpace spoofed).
Proof.
  split; [done |]. intros Hne Hc. unfold clientIP. simpl.
  rewrite bool_decide_eq_false_2 by done. by rewrite Hc.
Qed.

(** The path holds the problem, and so the window is the problem's: who has
    used up a problem's five submissions goes on with the next problem. *)
Lemma each_problem_has_its_own_window p p' u addr host ws :
  p <> p' ->
  ws_map ws !! (u ++s ":" ++s route_path (Submit p')) = None ->
  user_key (mkRequest (Some u) "" addr host (route_path (Submit p))) <>
    user_key (mkRequest (Some u) "" addr host (route_path (Submit p'))) /\
  forall now, (through (Submit p') now (mkRequest (Some u) "" addr host (route_path (Submit p'))) ws).2 = true.
Proof.
  intros Hp Hws. split.
  - unfold user_key. intros [= Heq%sapp_inv_head]. injection Heq as Heq.
    by apply sapp_inj in Heq as [Heq _].
  - intros now. by apply new_keys_are_let_through.
Qed.

(** ** Witness *)

Definition sign_in (now : Z) : api_event :=
  Arrives Login (mkRequest None "" "10.0.0.1:4711" (Some "10.0.0.1") "/api/v1/auth/login") now.

Definition guesses : list api_event :=
  [sign_in 0; sign_in 1; sign_in 2; sign_in 3; sign_in 4; sign_in 5; Swept; sign_in 6; sign_in 7; sign_in 8;
   sign_in 9; sign_in 10; sign_in 11; sign_in route_window].

Lemma eleven_guesses :
  (fun d => d.2) <$> api_history guesses no_windows =
    [true; true; true; true; true; true; true; true; true; true; false; false; true].
Proof. vm_compute. reflexivity. Qed.

Lemma requests_are_limited_per_window_witness :
  Z.of_nat (length (in_window "ip:10.0.0.1:/api/v1/auth/login" route_window (30 * time_Second)
    (let_through (keyed (api_history guesses no_windows))))) <= 10.
Proof.
  assert (api_ordered 0 guesses) as Hord
    by (cbn; unfold route_window, time_Second; repeat (split; [reflexivity || lia |]); done || lia).
  exact (proj2 (requests_are_limited_per_window guesses 0 Hord) Login
    (mkRequest None "" "10.0.0.1:4711" (Some "10.0.0.1") "/api/v1/auth/login") _ (30 * time_Second)
    eq_refl eq_refl).
Defined.
