(* ===== verification/Amqp.v ===== *)
(** * The message broker's clients

    [pkg/rabbitmq]: [NewPublisher], [Publish] and [Close] of [publisher.go],
    [NewConsumer], [Run] and [Close] of [consumer.go], and the publishers of
    [job_submission.go] and [email_verification.go].

    The broker and the AMQP package are not part of the repository.  What a
    process asks of them is kept as the list of its calls, in order; which
    calls fail, and what a subscription delivers and when, are arguments.  A
    handler works on a state of its own beside that list. *)

From S2P Require Import Prelude GoStrings CPDomain AuthService.

(** ** The calls of the AMQP package *)

Record Publishing := mkPublishing {
  pub_ContentType : string;
  pub_Persistent : bool;
  pub_Body : string
}.

(** A delivery, told apart by its tag. *)
Record Delivery := mkDelivery {
  dl_Tag : N;
  dl_Body : string
}.

#[export] Instance Delivery_eq_dec : EqDecision Delivery.
Proof. solve_decision. Defined.

Inductive amqp_call :=
  | Dial (url : string)
  | OpenChannel
  | ExchangeDeclare (name kind : string) (durable autoDelete internal noWait : bool)
  | QueueDeclare (name : string) (durable autoDelete exclusive noWait : bool)
  | QueueBind (name key exchange : string) (noWait : bool)
  | Qos (prefetchCount prefetchSize : Z) (global : bool)
  | Subscribe (queue consumer : string) (autoAck exclusive noLocal noWait : bool)
  | CancelSubscription (consumer : string) (noWait : bool)
  | PublishWithContext (exchange key : string) (mandatory immediate : bool) (msg : Publishing)
  | Ack (d : Delivery) (multiple : bool)
  | Nack (d : Delivery) (multiple requeue : bool)
  | CloseChannel
  | CloseConnection.

(** [context.Canceled] is the only sentinel a caller looks for. *)
Inductive ctx_sentinel := Canceled.
#[export] Instance ctx_sentinel_eq_dec : EqDecision ctx_sentinel.
Proof. solve_decision. Defined.

#[export] Instance ctx_sentinel_text : SentinelText ctx_sentinel := fun _ => "context canceled".

Definition amqp_error : Type := goerr ctx_sentinel.

Definition wire : Type := list amqp_call.

(** [io] is what the [n]-th call of the process answers. *)
Definition amqp (io : faults) (c : amqp_call) : M wire amqp_error () := logged io c.

(** [if err := call; err != nil { _ = ch.Close(); ...; return nil, Errorf(pre %w) }] *)
Definition or_release (io : faults) (closers : list amqp_call) (pre : string) (c : amqp_call)
  : M wire amqp_error () := fun log =>
  match amqp io c log with
  | (log', Ok _) => (log', Ok tt)
  | (log', Err e) => (log' ++ closers, Err (Wrapf pre e ""))
  end.

Definition release_all : list amqp_call := [CloseChannel; CloseConnection].

(** [ch.ExchangeDeclare(exchange, "topic", true, false, false, false, nil)] *)
Definition declare_exchange (exchange : string) : amqp_call :=
  ExchangeDeclare exchange "topic" true false false false.

(** The shared beginning of both constructors: dial, open a channel, declare
    the exchange. *)
Definition connect (io : faults) (url exchange : string) : M wire amqp_error () :=
  _ ← or_release io [] "rabbitmq dial: " (Dial url);
  _ ← or_release io [CloseConnection] "rabbitmq channel: " OpenChannel;
  or_release io release_all "rabbitmq declare exchange: " (declare_exchange exchange).

(** ** Publisher: whether its pointers are set, and its exchange *)

Record Publisher := mkPublisher {
  pb_conn : bool;
  pb_ch : bool;
  pb_exchange : string
}.

Definition NewPublisher (io : faults) (amqpURL exchange : string) : M wire amqp_error Publisher :=
  if bool_decide (exchange = "") then fail (Opaque "rabbitmq: exchange name is required")
  else
    _ ← connect io amqpURL exchange;
    mret (mkPublisher true true exchange).

Definition Publish (io : faults) (p : Publisher) (routingKey body : string)
  : M wire amqp_error () :=
  if pb_ch p then
    amqp io (PublishWithContext (pb_exchange p) routingKey false false
               (mkPublishing "application/json" true body))
  else fail (Opaque "rabbitmq: publisher is closed").

(** [if x != nil { if err := x.Close(); err != nil { errs = append(errs, err) } }] *)
Definition close_if (io : faults) (set : bool) (c : amqp_call) : M wire amqp_error (list amqp_error) :=
  if set then
    r ← attempt (amqp io c);
    mret match r with Ok _ => [] | Err e => [e] end
  else mret [].

(** [errors.Join(errs...)]: nil for none, else the texts on lines of their
    own; none of the errors joined here is a sentinel. *)
Definition errors_Join (errs : list amqp_error) : M wire amqp_error () :=
  match errs with
  | [] => mret tt
  | _ => fail (Opaque (String.concat nl (error_text <$> errs)))
  end.

(** Both Close methods: the object with its pointers reset, whatever fails. *)
Definition close_both (io : faults) (ch conn : bool) : M wire amqp_error () :=
  errs ← close_if io ch CloseChannel;
  errs' ← close_if io conn CloseConnection;
  errors_Join (errs ++ errs').

Definition Publisher_Close (io : faults) (p : Publisher) (log : wire)
  : wire * (Publisher * result amqp_error ()) :=
  let '(log', r) := close_both io (pb_ch p) (pb_conn p) log in
  (log', (mkPublisher false false (pb_exchange p), r)).

(** ** The publishers of jobs and of verification mails

    [marshal] is [json.Marshal] of the message. *)

Inductive MessagePublisher :=
  | Noop
  | AmqpPublisher (pub : Publisher) (routingKey : string).

Definition NewJobPublisher (pub : Publisher) (routingKey : string) : MessagePublisher :=
  AmqpPublisher pub (if bool_decide (routingKey = "") then "jobs.create" else routingKey).

Definition NewEmailVerificationPublisher (pub : Publisher) (routingKey : string)
  : MessagePublisher :=
  AmqpPublisher pub (if bool_decide (routingKey = "") then "email.verification" else routingKey).

Definition marshalled (what : string) (r : result string string) : result amqp_error string :=
  match r with
  | Ok body => Ok body
  | Err e => Err (Wrapf ("marshal " ++s what ++s ": ") (Opaque e) "")
  end.

Definition PublishJobCreation (io : faults) (marshal : CreateJobRequest -> result string string)
    (p : MessagePublisher) (req : CreateJobRequest) : M wire amqp_error () :=
  match p with
  | Noop => mret tt
  | AmqpPublisher pub key =>
      body ← lift (marshalled "job creation request" (marshal req));
      Publish io pub key body
  end.

Definition EventTypeEmailVerification : string := "email.verification".

Record mail_message := mkMailMessage {
  mm_Type : string;
  mm_UserID : uuid;
  mm_Email : string;
  mm_VerificationURL : string
}.

Definition mail_message_of (ev : EmailVerificationEvent) : mail_message :=
  mkMailMessage EventTypeEmailVerification (vev_UserID ev) (vev_Email ev) (vev_VerificationURL ev).

Definition PublishEmailVerification (io : faults)
    (marshal : mail_message -> result string string) (p : MessagePublisher)
    (ev : EmailVerificationEvent) : M wire amqp_error () :=
  match p with
  | Noop => mret tt
  | AmqpPublisher pub key =>
      body ← lift (marshalled "email verification event" (marshal (mail_message_of ev)));
      Publish io pub key body
  end.

(** The publishers that [cmd/api] gives to its services: without a URL,
    publishing does nothing and reports success. *)
Record api_broker_config := mkApiBrokerConfig {
  bc_RabbitMQURL : string;
  bc_RabbitMQExchange : string;
  bc_RabbitMQEmailVerificationRoutingKey : string;
  bc_RabbitMQJobsRoutingKey : string
}.

Definition start_publishers (io : faults) (cfg : api_broker_config)
  : M wire amqp_error (MessagePublisher * MessagePublisher) :=
  if bool_decide (bc_RabbitMQURL cfg = "") then mret (Noop, Noop)
  else
    pub ← NewPublisher io (bc_RabbitMQURL cfg) (bc_RabbitMQExchange cfg);
    mret (NewEmailVerificationPublisher pub (bc_RabbitMQEmailVerificationRoutingKey cfg),
          NewJobPublisher pub (bc_RabbitMQJobsRoutingKey cfg)).

(** ** Consumer *)

Record ConsumerConfig := mkConsumerConfig {
  cc_URL : string;
  cc_Exchange : string;
  cc_Queue : string;
  cc_RoutingKey : string;
  cc_ConsumerTag : string
}.

Record Consumer := mkConsumer {
  cs_conn : bool;
  cs_ch : bool;
  cs_queue : string;
  cs_consumerTag : string
}.

Definition missing_field (cfg : ConsumerConfig) : option string :=
  if bool_decide (cc_URL cfg = "") then Some "rabbitmq: consumer URL is required"
  else if bool_decide (cc_Exchange cfg = "") then Some "rabbitmq: exchange name is required"
  else if bool_decide (cc_Queue cfg = "") then Some "rabbitmq: queue name is required"
  else if bool_decide (cc_RoutingKey cfg = "") then Some "rabbitmq: routing key is required"
  else None.

Definition NewConsumer (io : faults) (cfg : ConsumerConfig) : M wire amqp_error Consumer :=
  match missing_field cfg with
  | Some why => fail (Opaque why)
  | None =>
      let tag := if bool_decide (cc_ConsumerTag cfg = "") then "capstone-consumer"
                 else cc_ConsumerTag cfg in
      _ ← connect io (cc_URL cfg) (cc_Exchange cfg);
      _ ← or_release io release_all "rabbitmq declare queue: "
            (QueueDeclare (cc_Queue cfg) true false false false);
      _ ← or_release io release_all "rabbitmq queue bind: "
            (QueueBind (cc_Queue cfg) (cc_RoutingKey cfg) (cc_Exchange cfg) false);
      _ ← or_release io release_all "rabbitmq qos: " (Qos 1 0 false);
      mret (mkConsumer true true (cc_Queue cfg) tag)
  end.

Definition Consumer_Close (io : faults) (c : Consumer) (log : wire)
  : wire * (Consumer * result amqp_error ()) :=
  let '(log', r) := close_both io (cs_ch c) (cs_conn c) log in
  (log', (mkConsumer false false (cs_queue c) (cs_consumerTag c), r)).

(** ** Run

    [X] is the state the handler works on, [E] what the outside decides
    while it runs, [O] what others do to [X] meanwhile.  A run of the loop is
    given the turns in which the outside moves it on. *)

Section Run.
Context {X E O H : Type}.
Context (io : faults) (handler : E -> string -> M X H ()) (exec : O -> X -> X).

Inductive turn :=
  (** ctx is cancelled. *)
  | Interrupt
  (** The goroutine that waits for ctx sends Cancel. *)
  | Watcher
  (** [case <-ctx.Done()] is taken; possible once ctx is cancelled. *)
  | TakeDone
  (** [case d, ok := <-deliveries] is taken: a delivery, or not ok. *)
  | TakeDelivery (env : E) (d : Delivery)
  | TakeClosed
  (** The others change the state. *)
  | Others (o : O).

(** Where the loop is: whether ctx is cancelled, whether the goroutine is
    still waiting. *)
Record loop := mkLoop { lp_done : bool; lp_waiting : bool }.

(** [handler(ctx, d.Body)], then [d.Nack(false, true)] whose error is dropped
    or [d.Ack(false)]. *)
Definition settle (env : E) (d : Delivery) : M (wire * X) amqp_error () := fun st =>
  match handler env (dl_Body d) st.2 with
  | (x, Err _) => (((amqp io (Nack d false true) st.1).1, x), Ok tt)
  | (x, Ok _) => on_first (map_err (fun e => Wrapf "rabbitmq ack: " e "") (amqp io (Ack d false)))
                   (st.1, x)
  end.

(** The error that Run returns, or nothing while it waits. *)
Fixpoint serve (consumerTag : string) (l : loop) (turns : list turn) (st : wire * X)
  : (wire * X) * option amqp_error :=
  match turns with
  | [] => (st, None)
  | Interrupt :: ts => serve consumerTag (mkLoop true (lp_waiting l)) ts st
  | Watcher :: ts =>
      if lp_done l && lp_waiting l then
        serve consumerTag (mkLoop true false) ts
          ((amqp io (CancelSubscription consumerTag false) st.1).1, st.2)
      else serve consumerTag l ts st
  | TakeDone :: ts =>
      if lp_done l then (st, Some (Sentinel Canceled)) else serve consumerTag l ts st
  | TakeDelivery env d :: ts =>
      match settle env d st with
      | (st', Ok _) => serve consumerTag l ts st'
      | (st', Err e) => (st', Some e)
      end
  | TakeClosed :: _ => (st, Some (Opaque "rabbitmq: deliveries channel closed"))
  | Others o :: ts => serve consumerTag l ts (st.1, exec o st.2)
  end.

Definition Run (c : Consumer) (turns : list turn) (st : wire * X)
  : (wire * X) * option amqp_error :=
  if cs_ch c then
    match amqp io (Subscribe (cs_queue c) (cs_consumerTag c) false false false false) st.1 with
    | (log, Err e) => ((log, st.2), Some (Wrapf "rabbitmq consume: " e ""))
    | (log, Ok _) => serve (cs_consumerTag c) (mkLoop false true) turns (log, st.2)
    end
  else (st, Some (Opaque "rabbitmq: consumer is closed")).

End Run.
Arguments turn : clear implicits.
Arguments Interrupt {E O}.
Arguments Watcher {E O}.
Arguments TakeDone {E O}.
Arguments TakeDelivery {E O} env d.
Arguments TakeClosed {E O}.
Arguments Others {E O} o.
