(* ===== verification/AmqpTheorems.v ===== *)
(** * The message broker's clients: theorems

    Which connections and channels a history of calls leaves open, which
    deliveries it has settled, and the abstract consumer that every run of the
    loop refines; connections and channels are released on every path, and a
    closed client does nothing more. *)

From S2P Require Import Prelude GoStrings CPDomain AuthService Amqp.

(** ** Open connections and channels *)

Definition weigh (held : Z * Z) (ans : option string) (c : amqp_call) : Z * Z :=
  match c, ans with
  | Dial _, None => (held.1 + 1, held.2)
  | OpenChannel, None => (held.1, held.2 + 1)
  | CloseChannel, _ => (held.1, held.2 - 1)
  | CloseConnection, _ => (held.1 - 1, held.2)
  | _, _ => held
  end.

(** How many connections and channels are open after a history; a close
    that reports an error has closed. *)
Definition held (io : faults) (log : wire) : Z * Z := history weigh io 0 (0, 0) log.

Definition holds (n : bool) : Z := if n then 1 else 0.

Lemma held_snoc io log c : held io (log ++ [c]) = weigh (held io log) (io (length log)) c.
Proof. apply history_snoc. Qed.

(** The calls that open and close nothing. *)
Definition neutral (c : amqp_call) : Prop := forall h ans, weigh h ans c = h.

Lemma held_neutral io log c : neutral c -> held io (log ++ [c]) = held io log.
Proof. intros Hc. rewrite held_snoc. apply Hc. Qed.

(** A step of a constructor: on an error everything is closed again. *)
Lemma or_release_spec io closers pre c log :
  or_release io closers pre c log =
    match io (length log) with
    | None => (log ++ [c], Ok tt)
    | Some e => ((log ++ [c]) ++ closers, Err (Wrapf pre (Opaque e) ""))
    end.
Proof. unfold or_release, amqp, logged. by destruct (io (length log)). Qed.

Lemma held_release_all io log :
  held io (log ++ release_all) = ((held io log).1 - 1, (held io log).2 - 1).
Proof.
  unfold release_all. change [CloseChannel; CloseConnection] with ([CloseChannel] ++ [CloseConnection]).
  by rewrite app_assoc, !held_snoc.
Qed.

(** What a computation that opens [n] connections and channels leaves open,
    if it starts with [k] of its own. *)
Definition opens {A} (k n : Z) (io : faults) (m : M wire amqp_error A) : Prop :=
  forall log, let '(log', r) := m log in
  let more := match r with Ok _ => n | Err _ => - k end in
  held io log' = ((held io log).1 + more, (held io log).2 + more).

Lemma opens_neutral io pre c : neutral c -> opens 1 0 io (or_release io release_all pre c).
Proof.
  intros Hc log. rewrite or_release_spec. destruct (io (length log)); simpl.
  - rewrite held_release_all, held_neutral by done. f_equal; lia.
  - rewrite held_neutral by done. destruct (held io log); simpl. f_equal; lia.
Qed.

Lemma opens_bind {A B} k n n' io (m : M wire amqp_error A) (f : A -> M wire amqp_error B) :
  opens k n io m -> (forall a, opens (k + n) n' io (f a)) -> opens k (n + n') io (m ≫= f).
Proof.
  intros Hm Hf log. specialize (Hm log). mrun.
  destruct (m log) as [log1 [a | e]]; [| done].
  specialize (Hf a log1). destruct (f a log1) as [log2 [b | e]]; rewrite Hf, Hm; simpl; f_equal; lia.
Qed.

Lemma opens_ret {A} k io (a : A) : opens k 0 io (mret a).
Proof. intros log. mrun. destruct (held io log); simpl. f_equal; lia. Qed.

Lemma opens_fail {A} n io e : opens (A := A) 0 n io (fail e).
Proof. intros log. mrun. destruct (held io log); simpl. f_equal; lia. Qed.

Lemma opens_connect io url exchange : opens 0 1 io (connect io url exchange).
Proof.
  intros log. unfold connect. mrun. rewrite or_release_spec.
  destruct (io (length log)) eqn:E1; simpl.
  - rewrite app_nil_r, held_snoc, E1. simpl. destruct (held io log); simpl. f_equal; lia.
  - rewrite or_release_spec. destruct (io (length (log ++ [Dial url]))) eqn:E2.
    + rewrite !held_snoc, E1, E2. simpl. destruct (held io log); simpl. f_equal; lia.
    + pose proof (opens_neutral io "rabbitmq declare exchange: " (declare_exchange exchange)) as Hn.
      specialize (Hn ltac:(done) ((log ++ [Dial url]) ++ [OpenChannel])).
      destruct (or_release _ _ _ _ _) as [log' [[] | e]]; rewrite Hn, !held_snoc, E1, E2; simpl;
        f_equal; lia.
Qed.

Lemma opens_NewPublisher io url exchange : opens 0 1 io (NewPublisher io url exchange).
Proof.
  unfold NewPublisher. case_bool_decide; [apply opens_fail |].
  apply (opens_bind 0 1 0); [apply opens_connect | intros ?; apply opens_ret].
Qed.

Lemma opens_NewConsumer io cfg : opens 0 1 io (NewConsumer io cfg).
Proof.
  unfold NewConsumer. case_match; [apply opens_fail |].
  apply (opens_bind 0 1 0); [apply opens_connect | intros []].
  repeat (apply (opens_bind 1 0 0); [by apply opens_neutral | intros []]). apply opens_ret.
Qed.

(** Close releases what the object has, whatever the calls answer. *)
Lemma close_both_held io ch conn log :
  held io (close_both io ch conn log).1 = ((held io log).1 - holds conn, (held io log).2 - holds ch).
Proof.
  unfold close_both, close_if, amqp, logged, errors_Join. destruct ch, conn; mrun;
    repeat case_match; simplify_eq/=; rewrite ?held_snoc; simpl;
    destruct (held io log); simpl; f_equal; lia.
Qed.

(** ** Settled deliveries *)

Definition settlement (c : amqp_call) : option (Delivery * bool) :=
  match c with
  | Ack d _ => Some (d, true)
  | Nack d _ _ => Some (d, false)
  | _ => None
  end.

(** The deliveries settled, in order, and whether each was acknowledged. *)
Definition settlements (log : wire) : list (Delivery * bool) := omap settlement log.

Lemma settlements_app log log' : settlements (log ++ log') = settlements log ++ settlements log'.
Proof. apply omap_app. Qed.

(** A rejected delivery goes back to the queue. *)
Definition requeues (c : amqp_call) : Prop :=
  match c with Nack _ multiple requeue => multiple = false /\ requeue = true | _ => True end.

(** ** The abstract consumer

    It handles one delivery after the other, each as a whole, and others act
    in between. *)

Section Served.
Context {X E O H : Type}.
Context (handler : E -> string -> M X H ()) (exec : O -> X -> X) (allowed : O -> Prop).

Definition handled {A} (r : result H A) : bool := match r with Ok _ => true | Err _ => false end.

Inductive served : X -> list (Delivery * bool) -> X -> Prop :=
  | served_nil x : served x [] x
  | served_others x o settled x' :
      allowed o -> served (exec o x) settled x' -> served x settled x'
  | served_one x env d settled x' :
      served (handler env (dl_Body d) x).1 settled x' ->
      served x ((d, handled (handler env (dl_Body d) x).2) :: settled) x'.

(** The turns in which others do only what is allowed. *)
Definition allowed_turn (t : turn E O) : Prop := match t with Others o => allowed o | _ => True end.

Lemma settle_spec io env d log x :
  (settle io handler env d (log, x)).1 =
    (log ++ [if handled (handler env (dl_Body d) x).2 then Ack d false else Nack d false true],
     (handler env (dl_Body d) x).1).
Proof.
  unfold settle. simpl. destruct (handler env (dl_Body d) x) as [x' [[] | e]]; simpl; [| done].
  unfold on_first, map_err, amqp, logged. simpl. by destruct (io (length log)).
Qed.

(** What has happened since [log] and [x] is a run of the abstract consumer;
    every rejected delivery went back, and nothing was opened or closed. *)
Definition progress (log : wire) (x : X) (st : wire * X) : Prop :=
  exists log', st.1 = log ++ log' /\ Forall requeues log' /\ Forall neutral log' /\
    served x (settlements log') st.2.

Lemma progress_refl log x : progress log x (log, x).
Proof. exists []. rewrite app_nil_r. repeat constructor. Qed.

Lemma progress_call log c x st :
  neutral c -> requeues c -> settlement c = None ->
  progress (log ++ [c]) x st -> progress log x st.
Proof.
  intros Hn Hq Hc (log' & Hst & Hqs & Hns & Hserved). exists (c :: log').
  rewrite Hst, <- app_assoc. split_and!; [done | by constructor | by constructor |].
  unfold settlements. simpl. by rewrite Hc.
Qed.

Lemma progress_others log x o st : allowed o -> progress log (exec o x) st -> progress log x st.
Proof.
  intros Ho (log' & Hst & Hqs & Hns & Hserved). exists log'. split_and!; try done.
  by econstructor.
Qed.

Lemma progress_settle log env d x st :
  let '(x', r) := handler env (dl_Body d) x in
  progress (log ++ [if handled r then Ack d false else Nack d false true]) x' st ->
  progress log x st.
Proof.
  destruct (handler env (dl_Body d) x) as [x' r] eqn:E1.
  intros (log' & Hst & Hqs & Hns & Hserved).
  pose proof (served_one x env d) as Hone. rewrite E1 in Hone. simpl in Hone.
  eexists (_ :: log'). rewrite Hst, <- app_assoc. split_and!; [done | | |].
  - constructor; [by destruct (handled r) | done].
  - constructor; [by destruct (handled r) | done].
  - unfold settlements in *. simpl. destruct (handled r); by apply Hone.
Qed.

(** The loop refines the abstract consumer, wherever it stops. *)
Lemma serve_refines io tag l turns log x :
  Forall allowed_turn turns -> progress log x (serve io handler exec tag l turns (log, x)).1.
Proof.
  intros Hall. revert l log x.
  induction Hall as [| t turns Ht Hall IH]; intros l log x; simpl; [apply progress_refl |].
  destruct t as [| | | env d | | o]; simpl.
  - apply IH.
  - destruct (lp_done l && lp_waiting l); [| apply IH].
    eapply (progress_call _ (CancelSubscription tag false)); [done.. | apply IH].
  - destruct (lp_done l); [apply progress_refl | apply IH].
  - pose proof (settle_spec io env d log x) as Hspec.
    pose proof (progress_settle log env d x) as Hsettle.
    destruct (handler env (dl_Body d) x) as [x' r].
    destruct (settle io handler env d (log, x)) as [st [[] | e]]; simpl in Hspec; subst st;
      apply Hsettle; [apply IH | apply progress_refl].
  - apply progress_refl.
  - by apply (progress_others _ _ o), IH.
Qed.

Lemma Run_refines io c turns log x :
  Forall allowed_turn turns -> progress log x (Run io handler exec c turns (log, x)).1.
Proof.
  intros Hall. unfold Run. destruct (cs_ch c); [| apply progress_refl].
  unfold amqp, logged. simpl. eapply (progress_call _ (Subscribe _ _ _ _ _ _)); [done.. |].
  destruct (io (length log)); [apply progress_refl | by apply serve_refines].
Qed.

End Served.

(** ** Theorems on whole lives of clients *)

(** A publisher's life between its creation and its end. *)
Definition publish_all (io : faults) (p : Publisher) (msgs : list (string * string)) (log : wire)
  : wire := foldl (fun log m => (Publish io p m.1 m.2 log).1) log msgs.

Lemma Publish_held io p key body log : held io (Publish io p key body log).1 = held io log.
Proof. unfold Publish. destruct (pb_ch p); [by apply held_neutral | done]. Qed.

Lemma publish_all_held io p msgs log : held io (publish_all io p msgs log) = held io log.
Proof.
  revert log. induction msgs as [| m msgs IH]; intros log; simpl; [done |].
  unfold publish_all in *. simpl. by rewrite IH, Publish_held.
Qed.

Lemma held_app_neutral io log log' : Forall neutral log' -> held io (log ++ log') = held io log.
Proof.
  intros Hn. revert log. induction Hn as [| c log' Hc Hn IH]; intros log; [by rewrite app_nil_r |].
  by rewrite cons_middle, app_assoc, IH, held_neutral.
Qed.

Lemma Run_held {X E O H} io (handler : E -> string -> M X H ()) (exec : O -> X -> X) c turns log x :
  held io (Run io handler exec c turns (log, x)).1.1 = held io log.
Proof.
  destruct (Run_refines handler exec (fun _ => True) io c turns log x) as (log' & -> & _ & Hn & _).
  - apply Forall_true. by intros [].
  - by apply held_app_neutral.
Qed.

Lemma Close_held io ch conn log log' r :
  close_both io ch conn log = (log', r) ->
  held io log' = ((held io log).1 - holds conn, (held io log).2 - holds ch).
Proof. intros E. by rewrite <- close_both_held, E. Qed.

(** What the constructors return has both pointers set. *)
Lemma NewConsumer_Ok io cfg log log' c :
  NewConsumer io cfg log = (log', Ok c) -> cs_conn c = true /\ cs_ch c = true.
Proof.
  unfold NewConsumer. destruct (missing_field cfg); [done |].
  rewrite !bind_ok_unit. intros (l1 & _ & H1). apply bind_ok_unit in H1 as (l2 & _ & H2).
  apply bind_ok_unit in H2 as (l3 & _ & H3). apply bind_ok_unit in H3 as (l4 & _ & H4).
  by injection H4 as _ <-.
Qed.

Lemma NewPublisher_Ok io url exchange log log' p :
  NewPublisher io url exchange log = (log', Ok p) -> pb_conn p = true /\ pb_ch p = true.
Proof.
  unfold NewPublisher. case_bool_decide; [done |].
  rewrite bind_ok_unit. intros (l1 & _ & H1). by injection H1 as _ <-.
Qed.

(** C39. Whatever call fails, a constructor that returns an error has closed
    all that it opened; otherwise one connection and one channel are open,
    and Close closes both after any use of the object, even when closing
    reports errors.  A closed consumer or publisher refuses to work without a
    call to the broker, and closing it again does nothing. *)
Theorem connections_are_released io cfg amqpURL exchange log :
  match NewConsumer io cfg log with
  | (log', Err _) => held io log' = held io log
  | (log', Ok c) =>
      held io log' = ((held io log).1 + 1, (held io log).2 + 1) /\
      forall X E O H (handler : E -> string -> M X H ()) (exec : O -> X -> X) turns x,
        let '(log2, (c', _)) :=
          Consumer_Close io c (Run io handler exec c turns (log', x)).1.1 in
        held io log2 = held io log /\
        Consumer_Close io c' log2 = (log2, (c', Ok tt)) /\
        forall turns' x', exists e,
          Run io handler exec c' turns' (log2, x') = ((log2, x'), Some e)
  end /\
  match NewPublisher io amqpURL exchange log with
  | (log', Err _) => held io log' = held io log
  | (log', Ok p) =>
      held io log' = ((held io log).1 + 1, (held io log).2 + 1) /\
      forall msgs,
        let '(log2, (p', _)) := Publisher_Close io p (publish_all io p msgs log') in
        held io log2 = held io log /\
        Publisher_Close io p' log2 = (log2, (p', Ok tt)) /\
        forall key body, exists e, Publish io p' key body log2 = (log2, Err e)
  end.
Proof.
  split.
  - pose proof (opens_NewConsumer io cfg log) as Hopen.
    destruct (NewConsumer io cfg log) as [log' [c | e]] eqn:Ec.
    + split; [done |]. intros X E O H handler exec turns x. unfold Consumer_Close.
      destruct (close_both _ _ _ _) as [log2 r] eqn:Eclose.
      apply Close_held in Eclose. apply NewConsumer_Ok in Ec as [Hconn Hch].
      rewrite Run_held, Hopen, Hconn, Hch in Eclose. simpl in Eclose.
      split_and!; [| done | by eexists].
      rewrite Eclose. destruct (held io log); simpl; f_equal; lia.
    + rewrite Hopen. destruct (held io log); simpl; f_equal; lia.
  - pose proof (opens_NewPublisher io amqpURL exchange log) as Hopen.
    destruct (NewPublisher io amqpURL exchange log) as [log' [p | e]] eqn:Ep.
    + split; [done |]. intros msgs. unfold Publisher_Close.
      destruct (close_both _ _ _ _) as [log2 r] eqn:Eclose.
      apply Close_held in Eclose. apply NewPublisher_Ok in Ep as [Hconn Hch].
      rewrite publish_all_held, Hopen, Hconn, Hch in Eclose. simpl in Eclose.
      split_and!; [| done | by eexists].
      rewrite Eclose. destruct (held io log); simpl; f_equal; lia.
    + rewrite Hopen. destruct (held io log); simpl; f_equal; lia.
Qed.

(** Without a broker the API reports every job as published, and sends
    nothing. *)
Lemma jobs_are_dropped_without_a_broker io cfg marshal req log :
  bc_RabbitMQURL cfg = "" ->
  exists mailer jobs, start_publishers io cfg log = (log, Ok (mailer, jobs)) /\
    PublishJobCreation io marshal jobs req log = (log, Ok tt).
Proof.
  intros Hurl. exists Noop, Noop. unfold start_publishers. by rewrite bool_decide_eq_true_2.
Qed.

(** With one, a published request is one persistent message to the exchange,
    under a key that is never empty. *)
Lemma published_jobs_are_persistent io pub key marshal req log log' :
  PublishJobCreation io marshal (NewJobPublisher pub key) req log = (log', Ok tt) ->
  exists key' body, key' <> "" /\ marshal req = Ok body /\ (key <> "" -> key' = key) /\
    log' = log ++ [PublishWithContext (pb_exchange pub) key' false false
                     (mkPublishing "application/json" true body)].
Proof.
  unfold PublishJobCreation, NewJobPublisher, Publish. mrun.
  destruct (marshal req) as [body | e]; [| done]. simpl.
  destruct (pb_ch pub); [| done]. unfold amqp, logged.
  destruct (io (length log)); [done |]. intros [= <-].
  exists (if bool_decide (key = "") then "jobs.create" else key), body.
  case_bool_decide; by split_and!.
Qed.
