(* ===== verification/JobIntake.v ===== *)
(** * Control plane: job intake

    [internal/controlplane/consumer/job_consumer.go] around the handler
    [CPService.handle], and the part of [cmd/control-plane/main.go] that
    starts it: the consumer runs in a goroutine beside the HTTP server and the
    sweeps, which change the same database meanwhile.  The theorems tell what
    the acknowledged messages amount to in the database, and what a message
    that cannot be handled does to those behind it. *)

From S2P Require Import Prelude Sql GoStrings CPDomain JobRepo WorkerRepo JobRepoFacts.
From S2P Require Import CPService CPSystem CPPollTheorems Amqp AmqpTheorems.

(** What the outside decides while a message is handled: the statement's
    fault, the database's clock, the identifier it draws. *)
Record intake_env := mkIntakeEnv {
  ie_io : faults;
  ie_now : Z;
  ie_fresh : uuid
}.

(** The settings of [internal/controlplane/config.go] that intake reads. *)
Record intake_config := mkIntakeConfig {
  ic_RabbitMQURL : string;
  ic_RabbitMQExchange : string;
  ic_RabbitMQJobsQueue : string;
  ic_RabbitMQJobsRoutingKey : string
}.

Definition consumer_config (cfg : intake_config) : ConsumerConfig :=
  mkConsumerConfig (ic_RabbitMQURL cfg) (ic_RabbitMQExchange cfg) (ic_RabbitMQJobsQueue cfg)
    (ic_RabbitMQJobsRoutingKey cfg) "control-plane-jobs".

Definition NewJobConsumer (io : faults) (cfg : ConsumerConfig) : M wire amqp_error Consumer :=
  map_err (fun e => Wrapf "job consumer: " e "") (NewConsumer io cfg).

(** Start-up: no consumer without a URL; an error ends the process. *)
Definition start_intake (io : faults) (cfg : intake_config) : M wire amqp_error (option Consumer) :=
  if bool_decide (ic_RabbitMQURL cfg = "") then mret None
  else c ← NewJobConsumer io (consumer_config cfg); mret (Some c).

Section Intake.
Context `{TestCaseJSON} `{GoUnicode}.
Context (io : faults) (decode : string -> result string CreateJobRequest).

Definition handle_message (env : intake_env) (body : string) : M cpdb cp_error () :=
  handle decode (ie_io env) (ie_now env) (ie_fresh env) body.

Definition JobConsumer_Run (c : Consumer) (turns : list (turn intake_env cp_op))
    (st : wire * cpdb) : (wire * cpdb) * option amqp_error :=
  Run io handle_message exec_op c turns st.

(** The goroutine logs what Run returns unless it is [context.Canceled]; in
    both cases the process goes on without a consumer. *)
Definition logs_stop (err : option amqp_error) : bool :=
  match err with Some e => negb (errors_Is e Canceled) | None => false end.

End Intake.

(** ** What the messages become *)

Definition creates (op : cp_op) : Prop := match op with OpCreate _ _ _ _ => True | _ => False end.

Section Statements.
Context `{TestCaseJSON} `{GoUnicode}.

(** Only a creation adds a job. *)
Lemma exec_op_new_jobs op db id :
  db_wf db -> ~ creates op -> is_Some (db_jobs (exec_op op db) !! id) -> is_Some (db_jobs db !! id).
Proof.
  intros Hwf Hop.
  assert (forall guard f k db' res, guarded_update guard f k db db' res ->
    is_Some (db_jobs db' !! id) -> is_Some (db_jobs db !! id)) as Hguarded.
  { intros guard f k db' res [(x & Hx & _ & _ & ->) | [-> _]]; [| done]. simpl.
    rewrite lookup_insert. case_decide; naive_solver. }
  destruct op; cbn [exec_op].
  - by destruct Hop.
  - destruct (AssignNext_cases io tie locked now w langs d db)
      as [[-> _] | (x & wk & _ & Hs & _ & ->)]; [done |]. simpl.
    apply select_next_Some in Hs as ((k & Hk) & _).
    rewrite (wf_id _ _ _ _ (wf_jobs db Hwf k x Hk)), lookup_insert. case_decide; naive_solver.
  - eapply Hguarded, MarkRunning_cases.
  - eapply Hguarded, RenewLease_cases.
  - destruct (Complete_cases io now id0 w req db) as [(x & (Hx & _) & ->) | [e ->]]; [| done].
    simpl. rewrite lookup_insert. case_decide; naive_solver.
  - unfold RequeueExpiredLeases. destruct (io 0%nat); [done |]. simpl.
    rewrite lookup_update_where. by intros ?%fmap_is_Some.
  - unfold Upsert. by repeat case_match.
  - unfold IncrementActiveJobs. by repeat case_match.
  - unfold MarkStaleOffline. by repeat case_match.
Qed.

Lemma exec_op_keeps_jobs op db id :
  db_wf db -> is_Some (db_jobs db !! id) -> is_Some (db_jobs (exec_op op db) !! id).
Proof.
  intros Hwf [r Hr]. destruct (request_part_step op db id r Hwf Hr) as (r' & Hr' & _). eauto.
Qed.

End Statements.

Section Intake.
Context `{TestCaseJSON} `{GoUnicode}.
Context (decode : string -> result string CreateJobRequest).

(** The row [id] carries the request that the message spells. *)
Definition request_stored (db : cpdb) (d : Delivery) (id : uuid) : Prop :=
  exists req tcJSON row, decode (dl_Body d) = Ok req /\
    validateCreateJobRequest req = None /\
    marshalTestCases (cr_TestCases req) = Ok tcJSON /\
    db_jobs db !! id = Some row /\
    request_part row = request_part (new_row 0 id req tcJSON (max_retries_of req)).

(** A delivery and the job it became, if it was acknowledged. *)
Definition outcome_mark (o : Delivery * option uuid) : Delivery * bool :=
  (o.1, bool_decide (is_Some o.2)).

Definition jobs_of (outcomes : list (Delivery * option uuid)) : list uuid := omap snd outcomes.

(** ** Lemmas *)

Lemma scanJob_new_row now id req tcJSON :
  json_round_trips -> marshalTestCases (cr_TestCases req) = Ok tcJSON ->
  exists job, scanJob (Some (new_row now id req tcJSON (max_retries_of req))) = Ok job.
Proof.
  intros Hjson Hm. simpl. destruct (cr_TestCases req) as [| tc tcs]; simpl in Hm.
  - injection Hm as <-. eauto.
  - destruct (json_Marshal_tcs (tc :: tcs)) as [s | e] eqn:Es; [| done]. injection Hm as <-.
    apply Hjson in Es as [Hne ->]. rewrite bool_decide_eq_false_2 by done. eauto.
Qed.

(** A message either becomes one new job or leaves the database alone. *)
Lemma handle_message_cases env body db :
  json_round_trips ->
  (exists e, handle_message decode env body db = (db, Err e)) \/
  (exists req tcJSON,
     decode body = Ok req /\ validateCreateJobRequest req = None /\
     marshalTestCases (cr_TestCases req) = Ok tcJSON /\
     db_jobs db !! ie_fresh env = None /\
     handle_message decode env body db =
       (set_jobs db (<[ie_fresh env :=
          new_row (ie_now env) (ie_fresh env) req tcJSON (max_retries_of req)]> (db_jobs db)), Ok tt)).
Proof.
  intros Hjson. unfold handle_message, handle. destruct (decode body) as [req | e]; [| left; eexists; reflexivity].
  unfold CreateJob. destruct (validateCreateJobRequest req) eqn:Ev; [left; eexists; reflexivity |].
  destruct (Create_cases (ie_io env) (ie_now env) (ie_fresh env) req db)
    as [[Hdb [e He]] | (tcJSON & Hio & Hm & Hck & Hf & Hc)].
  - left. mrun. destruct (Create _ _ _ _ _) as [db1 r]; simpl in *; subst. eexists; reflexivity.
  - right. exists req, tcJSON. split_and!; try done.
    destruct (scanJob_new_row (ie_now env) (ie_fresh env) req tcJSON Hjson Hm) as [job Hjob].
    mrun. by rewrite Hc, Hjob.
Qed.

Lemma handle_message_op env body db :
  exists ops, run cp_step db ops (handle_message decode env body db).1.
Proof.
  unfold handle_message, handle. destruct (decode body) as [req | e]; [| exists []; constructor].
  unfold CreateJob. destruct (validateCreateJobRequest req); [exists []; constructor |].
  exists [OpCreate (ie_io env) (ie_now env) (ie_fresh env) req]. econstructor; [| constructor].
  pose proof (cp_step_op db (OpCreate (ie_io env) (ie_now env) (ie_fresh env) req)) as Hstep.
  simpl in Hstep. mrun. by destruct (Create _ _ _ _ db) as [db' [job | e]].
Qed.

Lemma served_run allowed db settled db' :
  served (handle_message decode) exec_op allowed db settled db' -> exists ops, run cp_step db ops db'.
Proof.
  induction 1 as [db | db o settled db' Ho Hs [ops IH] | db env d settled db' Hs [ops IH]].
  - exists []. constructor.
  - exists (o :: ops). econstructor; [constructor | done].
  - destruct (handle_message_op env (dl_Body d) db) as [ops0 Hops].
    exists (ops0 ++ ops). by eapply run_app.
Qed.

Lemma handle_message_wf env body db : db_wf db -> db_wf (handle_message decode env body db).1.
Proof using All.
  intros Hwf. destruct (handle_message_op env body db) as [ops Hrun].
  eapply run_preserves; [| done | done]. intros x l y []. apply exec_op_wf.
Qed.

(** What a run of the abstract consumer has done. *)
Record taken_in (db db' : cpdb) (outcomes : list (Delivery * option uuid)) : Prop := {
  ti_distinct : NoDup (jobs_of outcomes);
  ti_new : forall id, id ∈ jobs_of outcomes -> db_jobs db !! id = None;
  ti_stored : forall d id, (d, Some id) ∈ outcomes -> request_stored db' d id
}.

Lemma served_taken_in allowed db settled db' :
  json_round_trips -> served (handle_message decode) exec_op allowed db settled db' -> db_wf db ->
  exists outcomes, settled = outcome_mark <$> outcomes /\ taken_in db db' outcomes /\
    ((forall op, allowed op -> ~ creates op) ->
     forall id, is_Some (db_jobs db' !! id) <-> is_Some (db_jobs db !! id) \/ id ∈ jobs_of outcomes).
Proof.
  intros Hjson. induction 1 as [db | db o settled db' Ho Hs IH | db env d settled db' Hs IH]; intros Hwf.
  - exists []. split; [done |]. split; [split; [constructor | set_solver..] |].
    intros _ id. set_solver.
  - destruct (IH (exec_op_wf o db Hwf)) as (outcomes & Hset & [Hd Hn Hst] & Hdom).
    exists outcomes. split; [done |]. split; [split; [done | | done] |].
    + intros id Hid%Hn. apply eq_None_not_Some. intros Hsome%(exec_op_keeps_jobs o _ _ Hwf).
      rewrite Hid in Hsome. by destruct Hsome.
    + intros Hall id. rewrite (Hdom Hall). split; (intros [Hid | Hid]; [left | by right]).
      * by eapply exec_op_new_jobs; eauto.
      * by apply exec_op_keeps_jobs.
  - destruct (IH (handle_message_wf env (dl_Body d) db Hwf)) as (outcomes & -> & [Hd Hn Hst] & Hdom).
    pose proof (handle_message_wf env (dl_Body d) db Hwf) as Hwf1.
    destruct (handle_message_cases env (dl_Body d) db Hjson)
      as [[e He] | (req & tcJSON & Hdec & Hv & Hm & Hf & He)]; rewrite He in *; cbn [fst snd handled] in *.
    + exists ((d, None) :: outcomes). split; [done |]. split; [| done].
      split; [done | done |]. intros d' id [[=] | Hin]%elem_of_cons. by apply Hst.
    + exists ((d, Some (ie_fresh env)) :: outcomes). split; [done |].
      assert (forall id, id ∈ jobs_of outcomes -> ie_fresh env <> id /\ db_jobs db !! id = None) as Hn'.
      { intros id Hid%Hn. simpl in Hid. by apply lookup_insert_None in Hid as [? ?]. }
      split; [split |].
      * change (NoDup (ie_fresh env :: jobs_of outcomes)). constructor; [| done].
        intros Hin%Hn'. naive_solver.
      * intros id Hid. change (id ∈ ie_fresh env :: jobs_of outcomes) in Hid.
        apply elem_of_cons in Hid as [-> | Hid]; [done | by apply Hn'].
      * intros d' id [[= -> ->] | Hin]%elem_of_cons; [| by apply Hst].
        destruct (served_run _ _ _ _ Hs) as [ops Hrun].
        destruct (request_part_run _ _ _ (ie_fresh env)
          (new_row (ie_now env) (ie_fresh env) req tcJSON (max_retries_of req)) Hrun Hwf1)
          as (row & Hrow & Hpart); [simpl; by rewrite lookup_insert_eq |].
        exists req, tcJSON, row. by split_and!.
      * intros Hall id. rewrite (Hdom Hall). simpl. rewrite lookup_insert_is_Some'.
        change (id ∈ jobs_of ((d, Some (ie_fresh env)) :: outcomes))
          with (id ∈ ie_fresh env :: jobs_of outcomes).
        rewrite elem_of_cons. naive_solver.
Qed.

(** A message that cannot be handled is rejected and delivered again each
    time: as long as the broker puts it in front, nothing behind it is
    handled, and nothing limits the rounds. *)
Lemma rejected_messages_never_leave io tag l d env db log n :
  (forall db', exists e, handle_message decode env (dl_Body d) db' = (db', Err e)) ->
  serve io (handle_message decode) exec_op tag l (replicate n (TakeDelivery env d)) (log, db) =
    ((log ++ replicate n (Nack d false true), db), None).
Proof.
  intros Hrej. revert log. induction n as [| n IH]; intros log; simpl; [by rewrite app_nil_r |].
  unfold settle. simpl. destruct (Hrej db) as [e ->]. unfold amqp, logged. simpl.
  by rewrite IH, <- app_assoc.
Qed.

(** A message that does not parse, or whose request is invalid, is rejected
    whatever the state. *)
Lemma unusable_messages_are_rejected env body db :
  match decode body with Ok req => is_Some (validateCreateJobRequest req) | Err _ => True end ->
  exists e, handle_message decode env body db = (db, Err e).
Proof.
  unfold handle_message, handle, CreateJob. destruct (decode body) as [req | e]; [| eexists; reflexivity].
  intros [why Hwhy]. rewrite Hwhy. eexists. reflexivity.
Qed.

(** ** Theorems *)

(** C11. Whatever the broker delivers and answers, and whatever other
    requests and sweeps do meanwhile: the acknowledged messages are, one to
    one, jobs with identifiers of their own that did not exist before, and
    each job's row carries the request of its message to the end; every
    rejected message went back to the queue, and if nobody else creates jobs
    there are no others, so a rejected message has left none. *)
Theorem acknowledged_messages_are_jobs io c turns log db :
  json_round_trips -> db_wf db ->
  exists log' outcomes,
    let st := (JobConsumer_Run io decode c turns (log, db)).1 in
    st.1 = log ++ log' /\ Forall requeues log' /\
    settlements log' = outcome_mark <$> outcomes /\
    NoDup (jobs_of outcomes) /\
    (forall id, id ∈ jobs_of outcomes -> db_jobs db !! id = None) /\
    (forall d id, (d, Some id) ∈ outcomes -> request_stored st.2 d id) /\
    (Forall (allowed_turn (fun op => ~ creates op)) turns ->
     forall id, is_Some (db_jobs st.2 !! id) <-> is_Some (db_jobs db !! id) \/ id ∈ jobs_of outcomes).
Proof.
  intros Hjson Hwf.
  set (allowed := fun op => Forall (allowed_turn (fun op => ~ creates op)) turns -> ~ creates op).
  assert (Forall (allowed_turn allowed) turns) as Hall.
  { apply Forall_forall. intros t Ht. destruct t as [| | | | | o]; try done.
    intros Hturns. rewrite Forall_forall in Hturns. apply (Hturns _ Ht). }
  destruct (Run_refines (handle_message decode) exec_op allowed io c turns log db Hall)
    as (log' & Hlog & Hq & _ & Hserved).
  destruct (served_taken_in allowed _ _ _ Hjson Hserved Hwf) as (outcomes & Hset & [Hd Hn Hst] & Hdom).
  exists log', outcomes. split_and!; try done.
  intros Hturns. apply Hdom. intros op Hop. by apply Hop.
Qed.

End Intake.
