(* ===== verification/MailWorker.v ===== *)
(** * The e-mail worker

    [internal/email/sender.go], the settings of [internal/email/config.go] and
    the message handler of [cmd/email/main.go].

    The SMTP server is a list of the commands sent to it, in order, of what
    the client gets to see of its answers and of the commands it has carried
    out although the client saw an error.  [smtp.SendMail] of the standard library is written out
    in those commands.  The renderers of [html/template], [net/mail], [mime]
    and [mime/quotedprintable] are the functions of [MailText].  The theorems
    tell which mails the server has taken over after a history of commands,
    and how they correspond to the messages the worker has acknowledged. *)

From stdpp Require Import pretty.
From S2P Require Import Prelude GoStrings CPDomain AuthService Amqp AmqpTheorems.

(** ** Settings and sender *)

Record mail_config := mkMailConfig {
  mc_RabbitMQURL : string;
  mc_RabbitMQExchange : string;
  mc_RabbitMQRoutingKey : string;
  mc_RabbitMQQueue : string;
  mc_SMTPHost : string;
  mc_SMTPPort : Z;
  mc_SMTPUsername : string;
  mc_SMTPPassword : string;
  mc_SMTPFrom : string
}.

Record Sender := mkSender {
  sd_host : string;
  sd_port : Z;
  sd_username : string;
  sd_password : string;
  sd_from : string
}.

Definition NewSender (cfg : mail_config) : Sender :=
  mkSender (mc_SMTPHost cfg) (mc_SMTPPort cfg) (mc_SMTPUsername cfg) (mc_SMTPPassword cfg)
    (mc_SMTPFrom cfg).

(** ** The text of a mail *)

Class MailText := {
  template_Execute : string -> result string string;
  format_RFC1123Z : Z -> string;
  Address_String : string -> string;
  QEncoding_Encode : string -> string -> string;
  quotedprintable_Encode : string -> string
}.

Definition crlf : string := String (Ascii.ascii_of_nat 13) nl.

Section Text.
Context `{MailText}.

(** Writing to a [bytes.Buffer] does not fail. *)
Definition raw_message (now : Z) (from to subject html : string) : string :=
  "MIME-Version: 1.0" ++s crlf ++s
  "Date: " ++s format_RFC1123Z now ++s crlf ++s
  "From: " ++s Address_String from ++s crlf ++s
  "To: " ++s Address_String to ++s crlf ++s
  "Subject: " ++s QEncoding_Encode "utf-8" subject ++s crlf ++s
  "Content-Type: text/html; charset=UTF-8" ++s crlf ++s
  "Content-Transfer-Encoding: quoted-printable" ++s crlf ++s
  crlf ++s quotedprintable_Encode html.

End Text.

(** ** SMTP *)

Inductive smtp_call :=
  | DialTCP (addr : string)
  | DialTLS (addr serverName : string)
  | NewClient (host : string)
  | Hello
  | StartTLS (serverName : string)
  | AuthPlain (username password host : string)
  | MailFrom (from : string)
  | RcptTo (to : string)
  | Data
  | WriteBody (msg : string)
  | CloseData
  | Quit
  | CloseClient.

Definition smtp_error : Type := goerr ctx_sentinel.

Definition smtp (io : faults) (c : smtp_call) : M (list smtp_call) smtp_error () := logged io c.

(** [if err := call; err != nil { return fmt.Errorf(pre + "%w", err) }] *)
Definition smtp_step (io : faults) (pre : string) (c : smtp_call)
  : M (list smtp_call) smtp_error () :=
  map_err (fun e => Wrapf pre e "") (smtp io c).

(** What the server announces to the greeting: STARTTLS, and AUTH among its
    extensions when it has any. *)
Record smtp_server := mkSmtpServer {
  sv_STARTTLS : bool;
  sv_AUTH : option bool
}.

(** [defer client.Close()], whose error is dropped. *)
Definition closing (io : faults) (m : M (list smtp_call) smtp_error ())
  : M (list smtp_call) smtp_error () :=
  with_defer (fun log => (smtp io CloseClient log).1) m.

(** [validateLine]: an address with a line break is refused unsent. *)
Definition has_line_break (line : string) : bool :=
  existsb (fun a => bool_decide (Ascii.nat_of_ascii a = 10%nat) || bool_decide (Ascii.nat_of_ascii a = 13%nat))
    (String.list_ascii_of_string line).

Definition bad_line : smtp_error := Opaque "smtp: A line must not contain CR or LF".

(** [client.Mail] and [client.Rcpt] look at the address first. *)
Definition address_step (io : faults) (pre address : string) (c : smtp_call)
  : M (list smtp_call) smtp_error () :=
  if has_line_break address then fail (Wrapf pre bad_line "") else smtp_step io pre c.

(** From MAIL to QUIT, the same commands on both ways. *)
Definition transaction (io : faults) (pre : string -> string) (from to msg : string)
  : M (list smtp_call) smtp_error () :=
  _ ← address_step io (pre "smtp MAIL FROM: ") from (MailFrom from);
  _ ← address_step io (pre "smtp RCPT TO: ") to (RcptTo to);
  _ ← smtp_step io (pre "smtp DATA: ") Data;
  _ ← smtp_step io (pre "smtp write body: ") (WriteBody msg);
  _ ← smtp_step io (pre "smtp close data: ") CloseData;
  smtp io Quit.

Section Send.
Context (io : faults) (server : smtp_server) (s : Sender).

Definition auth_call : smtp_call := AuthPlain (sd_username s) (sd_password s) (sd_host s).

Definition sendImplicitTLS (addr to msg : string) : M (list smtp_call) smtp_error () :=
  _ ← smtp_step io "tls dial: " (DialTLS addr (sd_host s));
  _ ← smtp_step io "smtp client: " (NewClient (sd_host s));
  closing io
    (_ ← smtp_step io "smtp auth: " auth_call;
     transaction io (fun pre => pre) (sd_from s) to msg).

Definition SendMail (addr to msg : string) : M (list smtp_call) smtp_error () :=
  if has_line_break (sd_from s) || has_line_break to then
    fail bad_line
  else
    _ ← smtp io (DialTCP addr);
    closing io
      (_ ← smtp io Hello;
       _ ← (if sv_STARTTLS server then smtp io (StartTLS (sd_host s)) else mret tt);
       _ ← match sv_AUTH server with
           | Some true => smtp io auth_call
           | Some false => fail (Opaque "smtp: server doesn't support AUTH")
           | None => mret tt
           end;
       transaction io (fun _ => "") (sd_from s) to msg).

(** ** sendHTML, SendVerificationEmail *)

Context `{MailText}.

(** Port 465 uses implicit TLS; all others use [smtp.SendMail]. *)
Definition sendHTML (now : Z) (to subject html : string) : M (list smtp_call) smtp_error () :=
  let raw := raw_message now (sd_from s) to subject html in
  let addr := sd_host s ++s ":" ++s pretty (sd_port s) in
  if (sd_port s =? 465)%Z then sendImplicitTLS addr to raw else SendMail addr to raw.

Definition SendVerificationEmail (now : Z) (toEmail verificationURL : string)
  : M (list smtp_call) smtp_error () :=
  match template_Execute verificationURL with
  | Err e => fail (Wrapf "render verification template: " (Opaque e) "")
  | Ok html => sendHTML now toEmail "Verify your email address" html
  end.

(** ** The handler of cmd/email

    [decode] is [json.Unmarshal] into the fields that the worker reads. *)

Record mail_event := mkMailEvent {
  me_Type : string;
  me_Email : string;
  me_VerificationURL : string
}.

Context (decode : string -> result string mail_event).

Definition handle_mail (now : Z) (body : string) : M (list smtp_call) smtp_error () :=
  match decode body with
  | Err e => fail (Opaque e)
  | Ok msg =>
      if bool_decide (me_Type msg = EventTypeEmailVerification) then
        SendVerificationEmail now (me_Email msg) (me_VerificationURL msg)
      else mret tt
  end.

End Send.

(** ** The process *)

Definition mail_consumer_config (cfg : mail_config) : ConsumerConfig :=
  mkConsumerConfig (mc_RabbitMQURL cfg) (mc_RabbitMQExchange cfg) (mc_RabbitMQQueue cfg)
    (mc_RabbitMQRoutingKey cfg) "capstone-email".

Section Worker.
Context `{MailText} (broker_io smtp_io : faults) (server : smtp_server).
Context (decode : string -> result string mail_event).

(** Nothing else changes the mail server's state in this process. *)
Definition mail_run (cfg : mail_config) (c : Consumer) (turns : list (turn Z Empty_set))
    (st : wire * list smtp_call) : (wire * list smtp_call) * option amqp_error :=
  Run broker_io (handle_mail smtp_io server (NewSender cfg) decode)
    (fun (o : Empty_set) _ => match o with end) c turns st.

(** [if err != nil && err != context.Canceled { log.Fatal(...) }] *)
Definition fatal (err : option amqp_error) : bool :=
  match err with
  | Some e => negb (match e with Sentinel Canceled => true | _ => false end)
  | None => false
  end.

(** [main]: connect, run, and close whatever happens, unless [log.Fatal] ends
    the process first. *)
Definition email_main (cfg : mail_config) (turns : list (turn Z Empty_set))
    (st : wire * list smtp_call) : (wire * list smtp_call) * option amqp_error :=
  match NewConsumer broker_io (mail_consumer_config cfg) st.1 with
  | (log, Err e) => ((log, st.2), Some e)
  | (log, Ok c) =>
      match mail_run cfg c turns (log, st.2) with
      | (st', None) => (st', None)
      | (st', Some e) =>
          if fatal (Some e) then (st', Some e)
          else (((Consumer_Close broker_io c st'.1).1, st'.2), Some e)
      end
  end.

End Worker.

(** * What the server has accepted *)

(** ** Mails the server has accepted

    The server takes a mail over when it has received the end of its data,
    whether or not its answer arrives: [lost n] says that it has carried out
    the command of number [n] although the client was told of an error.  A
    command that the client was not told an error of has been carried out. *)

Record mail := mkMail { ml_from : string; ml_to : string; ml_text : string }.

Record mailbox := mkMailbox {
  bx_from : option string;
  bx_to : option string;
  bx_body : option string;
  bx_mails : list mail
}.

Definition no_mail (ms : list mail) : mailbox := mkMailbox None None None ms.

(** One command, with the error that kept the server from carrying it out. *)
Definition accept (b : mailbox) (refused : option string) (c : smtp_call) : mailbox :=
  match c, refused with
  | (DialTCP _ | DialTLS _ _), None => no_mail (bx_mails b)
  | MailFrom from, None => mkMailbox (Some from) None None (bx_mails b)
  | RcptTo to, None => mkMailbox (bx_from b) (Some to) None (bx_mails b)
  | WriteBody msg, None => mkMailbox (bx_from b) (bx_to b) (Some msg) (bx_mails b)
  | CloseData, None =>
      match bx_from b, bx_to b, bx_body b with
      | Some from, Some to, Some msg => no_mail (bx_mails b ++ [mkMail from to msg])
      | _, _, _ => b
      end
  | _, _ => b
  end.

Section Server.
Context (io : faults) (lost : nat -> bool).

Definition at_server : faults := fun n => if lost n then None else io n.

Definition box (log : list smtp_call) : mailbox := history accept at_server 0 (no_mail []) log.

Definition mails (log : list smtp_call) : list mail := bx_mails (box log).

Definition told_error (n : nat) : bool := bool_decide (is_Some (io n)).

(** Among these commands, the first of which has number [n], is a QUIT that
    the client was told an error of, or the end of a mail's data that the
    server has taken while the client was told an error. *)
Fixpoint slipped (n : nat) (calls : list smtp_call) : bool :=
  match calls with
  | [] => false
  | c :: calls =>
      match c with
      | Quit => told_error n
      | CloseData => told_error n && lost n
      | _ => false
      end || slipped (S n) calls
  end.

(** ** Lemmas *)

Lemma box_snoc log c : box (log ++ [c]) = accept (box log) (at_server (length log)) c.
Proof. apply history_snoc. Qed.

Lemma slipped_app n calls calls' :
  slipped n (calls ++ calls') = slipped n calls || slipped (n + length calls) calls'.
Proof.
  revert n. induction calls as [| c calls IH]; intros n; simpl; [by rewrite Nat.add_0_r |].
  by rewrite IH, orb_assoc, Nat.add_succ_r.
Qed.

(** [m] is the command [c], its error wrapped in some way. *)
Definition sends (c : smtp_call) (m : M (list smtp_call) smtp_error ()) : Prop :=
  forall log, match io (length log) with
    | None => m log = (log ++ [c], Ok tt)
    | Some _ => exists e, m log = (log ++ [c], Err e)
    end.

Lemma sends_smtp c : sends c (smtp io c).
Proof. intros log. unfold smtp, logged. by destruct (io (length log)); [eexists |]. Qed.

Lemma sends_step pre c : sends c (smtp_step io pre c).
Proof.
  intros log. unfold smtp_step, map_err, smtp, logged.
  by destruct (io (length log)); [eexists |].
Qed.

(** Whether a mail has been handed over, by what the computation returns and
    the commands it has sent. *)
Definition handed (start : nat) (calls : list smtp_call) (ok : bool) (m : mail) : list mail :=
  if ok || slipped start calls then [m] else [].

(** The computation hands the mail over when it succeeds; when it fails, only
    if its own commands have slipped.  [P] is what the server has been told
    before. *)
Definition delivers (P : mailbox -> Prop) (mail : mail)
    (m : M (list smtp_call) smtp_error ()) : Prop :=
  forall log, P (box log) -> exists calls,
    (m log).1 = log ++ calls /\
    mails (log ++ calls) = mails log ++ handed (length log) calls (handled (m log).2) mail.

Definition anything (_ : mailbox) : Prop := True.

(** A command that neither completes a mail nor ends the session. *)
Definition quiet (c : smtp_call) : bool := match c with CloseData | Quit => false | _ => true end.

Lemma accept_quiet c b ans : quiet c = true -> bx_mails (accept b ans c) = bx_mails b.
Proof. intros Hc. by destruct c, ans. Qed.

Lemma mails_quiet log c : quiet c = true -> mails (log ++ [c]) = mails log.
Proof. intros Hc. unfold mails. rewrite box_snoc. by apply accept_quiet. Qed.

Lemma slipped_quiet n c : quiet c = true -> slipped n [c] = false.
Proof. by destruct c. Qed.

Lemma delivers_then (P P' : mailbox -> Prop) mail c m1 m :
  sends c m1 -> quiet c = true -> (forall b, P b -> P' (accept b None c)) ->
  delivers P' mail m -> delivers P mail (_ ← m1; m).
Proof.
  intros Hsends Hc HP Hm log Hlog. mrun. specialize (Hsends log).
  destruct (io (length log)) eqn:Hio.
  - destruct Hsends as [e ->]. exists [c]. split; [done |]. rewrite (mails_quiet log c Hc).
    unfold handed. simpl handled. rewrite (slipped_quiet _ _ Hc). by rewrite app_nil_r.
  - rewrite Hsends. destruct (Hm (log ++ [c])) as (calls & Hlog' & Hmails).
    { rewrite box_snoc. unfold at_server. rewrite Hio. destruct (lost _); by apply HP. }
    exists (c :: calls). rewrite Hlog', <- app_assoc. split; [done |].
    rewrite <- app_assoc, (mails_quiet log c Hc), length_app, Nat.add_1_r in Hmails.
    change (c :: calls) with ([c] ++ calls). rewrite Hmails. unfold handed.
    rewrite (slipped_app _ [c]), (slipped_quiet _ _ Hc). simpl. by rewrite Nat.add_1_r.
Qed.

Lemma nothing_sent P mail (m : M (list smtp_call) smtp_error ()) :
  (forall log, exists e, m log = (log, Err e)) -> delivers P mail m.
Proof.
  intros Hm log _. destruct (Hm log) as [e ->]. exists []. by rewrite !app_nil_r.
Qed.

Lemma delivers_address (P P' : mailbox -> Prop) mail pre address c m :
  quiet c = true -> (forall b, P b -> P' (accept b None c)) ->
  delivers P' mail m -> delivers P mail (_ ← address_step io pre address c; m).
Proof.
  intros Hc HP Hm. unfold address_step. destruct (has_line_break address).
  - apply nothing_sent. intros log. by eexists.
  - eapply delivers_then; [apply sends_step | done | exact HP | done].
Qed.

Lemma delivers_closing P mail m : delivers P mail m -> delivers P mail (closing io m).
Proof.
  intros Hm log Hlog. unfold closing, with_defer. destruct (Hm log Hlog) as (calls & Hlog' & Hmails).
  destruct (m log) as [log' r]. simpl in *. subst log'. exists (calls ++ [CloseClient]).
  unfold smtp, logged. rewrite app_assoc. split; [done |].
  rewrite mails_quiet by done. rewrite Hmails. unfold handed. rewrite slipped_app. simpl.
  by rewrite !orb_false_r.
Qed.

(** The end of the data, and QUIT. *)
Lemma delivers_end pre from to msg :
  delivers (fun b => bx_from b = Some from /\ bx_to b = Some to /\ bx_body b = Some msg)
    (mkMail from to msg) (_ ← smtp_step io pre CloseData; smtp io Quit).
Proof.
  intros log (Hf & Ht & Hb).
  assert (mails (log ++ [CloseData]) = mails log ++
            match at_server (length log) with None => [mkMail from to msg] | Some _ => [] end) as Hm.
  { unfold mails. rewrite box_snoc. destruct (at_server _); simpl; [by rewrite app_nil_r |].
    by rewrite Hf, Ht, Hb. }
  mrun. unfold smtp_step, smtp, map_err, logged, handed, told_error in *.
  destruct (io (length log)) as [e |] eqn:E1.
  - exists [CloseData]. split; [done |]. rewrite Hm. unfold at_server. simpl. unfold told_error. rewrite E1.
    by destruct (lost (length log)).
  - exists [CloseData; Quit]. rewrite length_app, Nat.add_1_r.
    replace (log ++ [CloseData; Quit]) with ((log ++ [CloseData]) ++ [Quit]) by by rewrite <- app_assoc.
    assert (mails ((log ++ [CloseData]) ++ [Quit]) = mails (log ++ [CloseData])) as ->.
    { unfold mails. rewrite box_snoc. by destruct (at_server _). }
    rewrite Hm. unfold at_server. simpl. unfold told_error. rewrite E1.
    assert ((if lost (length log) then None else @None string) = None) as -> by by destruct (lost _).
    by destruct (io (S (length log))).
Qed.

Lemma delivers_transaction pre from to msg :
  delivers anything (mkMail from to msg) (transaction io pre from to msg).
Proof.
  unfold transaction.
  eapply (delivers_address _ (fun b => bx_from b = Some from)); [done | done |].
  eapply (delivers_address _ (fun b => bx_from b = Some from /\ bx_to b = Some to)); [done | done |].
  eapply (delivers_then _ (fun b => bx_from b = Some from /\ bx_to b = Some to));
    [apply sends_step | done | done |].
  eapply (delivers_then _ (fun b => bx_from b = Some from /\ bx_to b = Some to /\ bx_body b = Some msg));
    [apply sends_step | done | naive_solver | apply delivers_end].
Qed.

Lemma anything_next c b : anything b -> anything (accept b None c).
Proof. done. Qed.

(** Commands before the transaction. *)
Ltac before_transaction :=
  repeat match goal with
  | |- delivers _ _ (mbind _ _) =>
      eapply delivers_then; [apply sends_step || apply sends_smtp | done | apply anything_next |]
  end.

Lemma delivers_sendImplicitTLS s addr to msg :
  delivers anything (mkMail (sd_from s) to msg) (sendImplicitTLS io s addr to msg).
Proof.
  unfold sendImplicitTLS. before_transaction. apply delivers_closing. before_transaction.
  apply delivers_transaction.
Qed.

Lemma delivers_SendMail server s addr to msg :
  delivers anything (mkMail (sd_from s) to msg) (SendMail io server s addr to msg).
Proof.
  unfold SendMail. destruct (_ || _); [apply nothing_sent; by eexists |].
  before_transaction. apply delivers_closing. before_transaction.
  assert (forall x, delivers anything (mkMail (sd_from s) to msg)
    (_ ← match x with
         | Some true => smtp io (auth_call s)
         | Some false => fail (Opaque "smtp: server doesn't support AUTH")
         | None => mret tt
         end;
     transaction io (fun _ => "") (sd_from s) to msg)) as Hauth.
  { intros [[] |]; [| apply nothing_sent; by eexists | apply delivers_transaction].
    before_transaction. apply delivers_transaction. }
  destruct (sv_STARTTLS server); [before_transaction |]; apply Hauth.
Qed.

End Server.

(** ** The worker *)

Section Worker.
Context `{MailText} (broker_io smtp_io : faults) (lost : nat -> bool) (server : smtp_server).
Context (decode : string -> result string mail_event) (cfg : mail_config).

(** The mail that a message asks for, rendered at [now]. *)
Definition verification_mail (now : Z) (ev : mail_event) (html : string) : mail :=
  mkMail (mc_SMTPFrom cfg) (me_Email ev)
    (raw_message now (mc_SMTPFrom cfg) (me_Email ev) "Verify your email address" html).

(** What one delivery has come to: whether it was acknowledged, the commands
    sent for it, and the mails the server took over meanwhile. *)
Record outcome := mkOutcome {
  oc_delivery : Delivery;
  oc_acked : bool;
  oc_calls : list smtp_call;
  oc_mails : list mail
}.

(** The commands of the delivery begin with number [start]. *)
Definition outcome_of (start : nat) (o : outcome) : Prop :=
  let nothing (acked : bool) := oc_acked o = acked /\ oc_calls o = [] /\ oc_mails o = [] in
  match decode (dl_Body (oc_delivery o)) with
  | Err _ => nothing false
  | Ok ev =>
      if bool_decide (me_Type ev = EventTypeEmailVerification) then
        match template_Execute (me_VerificationURL ev) with
        | Err _ => nothing false
        | Ok html => exists now,
            oc_mails o = handed smtp_io lost start (oc_calls o) (oc_acked o) (verification_mail now ev html)
        end
      else nothing true
  end.

Fixpoint outcomes_of (start : nat) (os : list outcome) : Prop :=
  match os with
  | [] => True
  | o :: os => outcome_of start o /\ outcomes_of (start + length (oc_calls o)) os
  end.

Abbreviation handler := (handle_mail smtp_io server (NewSender cfg) decode).

Lemma handle_mail_spec now d log : exists o,
  outcome_of (length log) o /\ oc_delivery o = d /\ oc_acked o = handled (handler now (dl_Body d) log).2 /\
  (handler now (dl_Body d) log).1 = log ++ oc_calls o /\
  mails smtp_io lost (log ++ oc_calls o) = mails smtp_io lost log ++ oc_mails o.
Proof.
  unfold handle_mail, outcome_of. destruct (decode (dl_Body d)) as [ev | e] eqn:Hdec.
  2: { exists (mkOutcome d false [] []). simpl. by rewrite Hdec, !app_nil_r. }
  destruct (bool_decide _) eqn:Htype.
  2: { exists (mkOutcome d true [] []). simpl. by rewrite Hdec, Htype, !app_nil_r. }
  unfold SendVerificationEmail. destruct (template_Execute (me_VerificationURL ev)) as [html | e] eqn:Hhtml.
  2: { exists (mkOutcome d false [] []). simpl. by rewrite Hdec, Htype, Hhtml, !app_nil_r. }
  assert (delivers smtp_io lost anything (verification_mail now ev html)
    (sendHTML smtp_io server (NewSender cfg) now (me_Email ev) "Verify your email address" html)) as Hd.
  { unfold sendHTML. destruct (_ =? _); [apply delivers_sendImplicitTLS | apply delivers_SendMail]. }
  destruct (Hd log I) as (calls & Hlog & Hmails).
  eexists (mkOutcome d _ calls _). simpl. rewrite Hdec, Htype, Hhtml. split_and!; eauto.
Qed.

(** ** Theorems *)

Lemma served_mails log settled log' :
  served handler (fun (o : Empty_set) _ => match o with end) (fun _ => True) log settled log' ->
  exists outcomes : list outcome,
    settled = (fun o => (oc_delivery o, oc_acked o)) <$> outcomes /\
    log' = log ++ concat (oc_calls <$> outcomes) /\
    mails smtp_io lost log' = mails smtp_io lost log ++ concat (oc_mails <$> outcomes) /\
    outcomes_of (length log) outcomes.
Proof.
  induction 1 as [log | log [] | log now d settled log' Hs (outcomes & -> & Hlog & Hm & Hall)].
  - exists []. simpl. by rewrite !app_nil_r.
  - destruct (handle_mail_spec now d log) as (o & Ho & <- & <- & Hlog1 & Hm1).
    rewrite Hlog1 in *. exists (o :: outcomes). simpl. rewrite length_app in Hall.
    split_and!; [done | by rewrite Hlog, app_assoc | by rewrite Hm, Hm1, app_assoc | done | done].
Qed.

(** C40. Whatever the broker delivers, whatever the mail server answers and
    whichever of its answers are lost: every message the worker has settled
    is accounted for, with the commands sent for it.  An acknowledged
    verification message has handed over exactly one mail, to its address and
    with its link.  One that was rejected, and goes back to the queue, has
    handed that mail over exactly when its own QUIT failed after the server
    had accepted the mail, or the answer to the end of its own data was lost;
    otherwise none.  Messages of other types are dropped and unreadable ones
    rejected without a command, and nothing else is sent. *)
Theorem acknowledged_mails_were_accepted c turns log smtp_log :
  exists log' (outcomes : list outcome),
    let st := (mail_run broker_io smtp_io server decode cfg c turns (log, smtp_log)).1 in
    st.1 = log ++ log' /\ Forall requeues log' /\
    settlements log' = (fun o => (oc_delivery o, oc_acked o)) <$> outcomes /\
    st.2 = smtp_log ++ concat (oc_calls <$> outcomes) /\
    mails smtp_io lost st.2 = mails smtp_io lost smtp_log ++ concat (oc_mails <$> outcomes) /\
    outcomes_of (length smtp_log) outcomes.
Proof.
  destruct (Run_refines handler (fun (o : Empty_set) _ => match o with end) (fun _ => True)
    broker_io c turns log smtp_log) as (log' & Hlog & Hq & _ & Hserved).
  { apply Forall_true. intros []; done. }
  destruct (served_mails _ _ _ Hserved) as (outcomes & Hset & Hcalls & Hm & Hall).
  exists log', outcomes. by split_and!.
Qed.

End Worker.
