(* ===== verification/MessageExamples.v ===== *)
(** * Messages: examples

    Concrete runs of the job consumer and of the e-mail worker. *)

From S2P Require Import Prelude Sql GoStrings CPDomain JobRepo WorkerRepo CPService CPSystem.
From S2P Require Import CPTheorems CPPollTheorems AuthService Amqp AmqpTheorems JobIntake.
From S2P Require Import MailWorker.

Module IntakeExample.
#[local] Existing Instance char_json.
#[export] Instance tables : GoUnicode := ascii_tables.

(** One body is a request; all others are malformed. *)
Definition read_request (body : string) : result string CreateJobRequest :=
  if bool_decide (body = "job") then Ok QueueWitness.req else Err "unexpected end of JSON input".

Definition consumer : Consumer := mkConsumer true true "cp.jobs.create" "control-plane-jobs".
Definition env (id : uuid) : intake_env := mkIntakeEnv no_faults 1 id.
Definition job (tag : N) : Delivery := mkDelivery tag "job".

(** A malformed message, a sweep, a request, a cancellation. *)
Definition turns : list (turn intake_env cp_op) :=
  [TakeDelivery (env 8%N) (mkDelivery 1%N "{"); Others (OpSweep no_faults 2);
   TakeDelivery (env 9%N) (job 2%N); Interrupt; Watcher; TakeDone].

Lemma acknowledged_messages_are_jobs_witness :
  json_round_trips /\ db_wf empty_db /\
  exists log' outcomes,
    let st := (JobConsumer_Run no_faults read_request consumer turns ([], empty_db)).1 in
    st.1 = [] ++ log' /\ settlements log' = outcome_mark <$> outcomes /\
    (forall d id, (d, Some id) ∈ outcomes -> request_stored read_request st.2 d id) /\
    settlements st.1 = [(mkDelivery 1%N "{", false); (job 2%N, true)].
Proof.
  assert (json_round_trips (H := char_json)) as Hjson.
  { intros [| t [| t' tcs]] s; simpl; try discriminate.
    case_bool_decide; [| discriminate]. subst. intros [= <-]. by split. }
  split; [exact Hjson |]. split; [exact empty_db_wf |].
  destruct (acknowledged_messages_are_jobs read_request no_faults consumer turns [] empty_db
    Hjson empty_db_wf) as (log' & outcomes & Hlog & _ & Hset & _ & _ & Hst & _).
  exists log', outcomes. split; [exact Hlog |]. split; [exact Hset |]. split; [exact Hst |].
  vm_compute. reflexivity.
Defined.

(** The acknowledgement of a created job is lost: the broker delivers the
    message again, to a consumer that has been started anew, and a second job
    for the same submission is created. *)
Definition lossy : faults := fun n => if bool_decide (n = 1%nat) then Some "connection lost" else None.

Definition first_run := JobConsumer_Run lossy read_request consumer [TakeDelivery (env 9%N) (job 1%N)] ([], empty_db).
Definition second_run :=
  JobConsumer_Run lossy read_request consumer [TakeDelivery (env 10%N) (job 1%N)] first_run.1.

Example lost_acknowledgements_duplicate_jobs :
  (exists e, first_run.2 = Some (Wrapf "rabbitmq ack: " e "")) /\
  (r_SubmissionID <$> db_jobs second_run.1.2 !! 9%N, r_SubmissionID <$> db_jobs second_run.1.2 !! 10%N)
  = (Some 7%N, Some 7%N).
Proof. split; [eexists |]; vm_compute; reflexivity. Qed.

(** The process stays up: what Run returned is logged, and no later delivery
    finds a consumer. *)
Example the_stop_is_only_logged : logs_stop first_run.2 = true.
Proof. vm_compute. reflexivity. Qed.
End IntakeExample.

Module MailExample.
#[export] Instance text : MailText := {|
  template_Execute url := Ok ("<a>" ++s url ++s "</a>");
  format_RFC1123Z _ := "Thu, 01 Jan 1970 00:00:00 +0000";
  Address_String a := "<" ++s a ++s ">";
  QEncoding_Encode _ s := s;
  quotedprintable_Encode s := s |}.

(** The settings of the comment in [config.go], over implicit TLS. *)
Definition cfg : mail_config :=
  mkMailConfig "amqp://broker" "capstone.events" "email.verification" "capstone.email.verification"
    "mail.example.com" 465 "user" "secret" "Capstone <no-reply@example.com>".

Definition read_event (body : string) : result string mail_event :=
  Ok (mkMailEvent EventTypeEmailVerification body "https://example.com/verify").

Definition server : smtp_server := mkSmtpServer true (Some true).
Definition consumer : Consumer := mkConsumer true true (mc_RabbitMQQueue cfg) "capstone-email".
Definition message : Delivery := mkDelivery 1%N "ann@example.com".

(** The server hangs up instead of answering the first QUIT. *)
Definition hangs_up : faults := fun n => if bool_decide (n = 8%nat) then Some "EOF" else None.

Definition mail_rounds (io : faults) :=
  mail_run no_faults io server read_event cfg consumer
    [TakeDelivery 0 message; TakeDelivery 5 message] ([], []).

Example a_failed_quit_sends_the_mail_twice :
  settlements (mail_rounds hangs_up).1.1 = [(message, false); (message, true)] /\
  ml_to <$> mails hangs_up (fun _ => false) (mail_rounds hangs_up).1.2 =
    ["ann@example.com"; "ann@example.com"].
Proof. split; vm_compute; reflexivity. Qed.

(** The connection breaks after the end of the first mail's data: whether the
    server has taken the mail then cannot be seen from here, and it is sent
    again in either case. *)
Definition breaks : faults := fun n => if bool_decide (n = 7%nat) then Some "EOF" else None.

Example a_lost_answer_sends_the_mail_twice :
  settlements (mail_rounds breaks).1.1 = [(message, false); (message, true)] /\
  ml_to <$> mails breaks (fun n => bool_decide (n = 7%nat)) (mail_rounds breaks).1.2 =
    ["ann@example.com"; "ann@example.com"] /\
  ml_to <$> mails breaks (fun _ => false) (mail_rounds breaks).1.2 = ["ann@example.com"].
Proof. split_and!; vm_compute; reflexivity. Qed.

(** The configured From, with its display name, is the envelope's sender as
    it stands. *)
Example the_envelope_sender_is_verbatim :
  MailFrom "Capstone <no-reply@example.com>" ∈ (mail_rounds hangs_up).1.2.
Proof. vm_compute. repeat constructor. Qed.
End MailExample.
