(* ===== verification/Judge.v ===== *)
(** * The judge: the API, the broker and the control plane together

    The components of the submission's way, composed: [SubService] creates
    submissions and publishes their jobs, [JobIntake] takes the messages in,
    the statements of [CPSystem] move the jobs, and [SubService] reads the
    outcome back through the handlers of [CPHttp].  The API serves its
    requests one after the other; the control plane moves at any time, also
    between the two questions that one reading of a submission asks it.  The
    broker delivers only what was published. *)

From S2P Require Import Prelude Sql GoStrings CPDomain JobRepo WorkerRepo JobRepoFacts.
From S2P Require Import CPService CPHttp CPSystem CPTheorems CPServiceTheorems CPPollTheorems.
From S2P Require Import Driver AiDomain SubRepo SubService SubTheorems SubViewTheorems.
From S2P Require Import Amqp AmqpTheorems JobIntake.

Record judge := mkJudge { jd_api : api; jd_cp : cpdb }.

(** What moves the control plane: a message, or any statement of another
    request or sweep. *)
Inductive cp_event :=
  | Delivered (env : intake_env) (d : Delivery)
  | Moved (op : cp_op).

Inductive judge_event :=
  | Submitted (env : create_env) (userID problemID : uuid) (req : CreateSubmissionRequest)
      (kind : SubmissionKind)
  | Controlled (e : cp_event)
  | Viewed (env : view_env) (id callerUserID : uuid) (callerIsAdmin : bool) (between : list cp_event).

Section Judge.
Context `{TestCaseJSON} `{GoUnicode} `{EntryJSON} (ai : option AIValidator).
Context (marshal : CreateJobRequest -> result string string).
Context (decode : string -> result string CreateJobRequest).

Inductive cp_move (queue : list CreateJobRequest) : cpdb -> cp_event -> cpdb -> Prop :=
  | move_delivered env d req cp :
      req ∈ queue -> marshal req = Ok (dl_Body d) ->
      cp_move queue cp (Delivered env d) (handle_message decode env (dl_Body d) cp).1
  | move_op op cp : ~ creates op -> cp_move queue cp (Moved op) (exec_op op cp).

(** A question that got no proper answer. *)
Definition refused (rep : reply) : Prop :=
  match rep with NoReply _ => True | Reply r => 400 <= status r end.

(** The replies to the two questions of [GetSubmission], the second of which
    asks for the job that the first one has found. *)
Definition job_reply (cp : cpdb) (id : uuid) (rep : reply) : Prop :=
  refused rep \/ exists io tie, rep = Reply (GetJobBySubmission_handler io tie (Some id) cp).2.

Definition result_reply (cp : cpdb) (env : view_env) (rep : reply) : Prop :=
  refused rep \/ exists io collate job,
    CPClient_GetJobBySubmission (ve_bad_request env) (ve_job env) = Ok job /\
    rep = Reply (GetJobResult_handler io collate (Some (j_ID job)) cp).2.

Inductive judge_step : judge -> judge_event -> judge -> Prop :=
  | step_submitted env u p req kind j :
      judge_step j (Submitted env u p req kind)
        (mkJudge (create ai env u p req kind (jd_api j)).1 (jd_cp j))
  | step_controlled e j cp :
      cp_move (ap_queue (jd_api j)) (jd_cp j) e cp ->
      judge_step j (Controlled e) (mkJudge (jd_api j) cp)
  | step_viewed env id caller admin between j cp :
      run (cp_move (ap_queue (jd_api j))) (jd_cp j) between cp ->
      job_reply (jd_cp j) id (ve_job env) -> result_reply cp env (ve_job_result env) ->
      judge_step j (Viewed env id caller admin between)
        (mkJudge (mkApi (GetSubmission ai env id caller admin (ap_db (jd_api j))).1
                    (ap_queue (jd_api j))) cp).

(** The start: any catalogue, no submission's result, nothing published, and
    an empty control plane. *)
Record initial (j : judge) : Prop := {
  in_queue : ap_queue (jd_api j) = [];
  in_results : sd_results (ap_db (jd_api j)) = ∅;
  in_keys : forall k row, sd_submissions (ap_db (jd_api j)) !! k = Some row -> sr_ID row = k;
  in_cp : jd_cp j = empty_db
}.

(** The documented behaviour of [encoding/json] on the message: the strings
    of the request arrive as a JSON text carries them. *)
Definition message_round_trips : Prop :=
  forall req body, marshal req = Ok body -> decode body = Ok (via_json req).

(** The request [q] was published by an admitted submission of this history,
    which the validator had not refused. *)
Definition published_by (j0 : judge) (evs : list judge_event) (env : create_env)
    (userID problemID : uuid) (req : CreateSubmissionRequest) (kind : SubmissionKind)
    (ad : admission) (q : CreateJobRequest) : Prop :=
  exists before after j1 sub,
    evs = before ++ Submitted env userID problemID req kind :: after /\
    run judge_step j0 before j1 /\
    admitted env (ap_db (jd_api j1)) userID problemID req kind ad /\
    validate_code ai userID problemID req ad sub = None /\
    sub_ID sub = ce_fresh env /\ q = creation_request ad sub.

(** The result [w] stored for submission [sid] is the result that the control
    plane has stored for a job of that submission, which has completed, as it
    arrives over JSON. *)
Definition result_of_a_job (cp : cpdb) (sid : uuid) (w : sres_row) : Prop :=
  exists jid row stored jr collate,
    db_jobs cp !! jid = Some row /\ r_SubmissionID row = sid /\ r_State row = JobStateCompleted /\
    (JobRepo.GetResult no_faults collate jid cp).2 = Ok stored /\ jr = via_json stored /\
    sw_OverallVerdict w = jr_OverallVerdict jr /\ sw_TotalTimeMs w = jr_TotalTimeMs jr /\
    sw_MaxMemoryKb w = jr_MaxMemoryKb jr /\ sw_WallTimeMs w = jr_WallTimeMs jr /\
    sw_CompilerOutput w = jr_CompilerOutput jr /\
    json_Marshal_entries (entry_of_tc <$> jr_TestcaseResults jr) = Ok (sw_TestcaseResults w).

(** Every job carries a published request, as its message delivered it. *)
Definition jobs_from (queue : list CreateJobRequest) (cp : cpdb) : Prop :=
  forall id row, db_jobs cp !! id = Some row -> exists q tcJSON,
    q ∈ queue /\ marshalTestCases (cr_TestCases (via_json q)) = Ok tcJSON /\
    request_part row = request_part (new_row 0 id (via_json q) tcJSON (max_retries_of (via_json q))).

(** ** The control plane's moves *)

Lemma cp_move_run queue cp e cp' : cp_move queue cp e cp' -> exists ops, run cp_step cp ops cp'.
Proof.
  intros [env d req cp0 _ _ | op cp0 _]; [apply handle_message_op |].
  exists [op]. econstructor; constructor.
Qed.

Lemma cp_moves_run queue cp evs cp' :
  run (cp_move queue) cp evs cp' -> exists ops, run cp_step cp ops cp'.
Proof.
  induction 1 as [cp | cp e cp1 evs cp' Hmove Hrun [ops' IH]]; [exists []; constructor |].
  destruct (cp_move_run _ _ _ _ Hmove) as [ops Hops]. exists (ops ++ ops'). by eapply run_app.
Qed.

Lemma run_wf cp ops cp' : run cp_step cp ops cp' -> db_wf cp -> db_wf cp'.
Proof. apply run_preserves. intros x l y []. apply exec_op_wf. Qed.

Lemma jobs_from_move queue cp e cp' :
  json_round_trips -> message_round_trips -> cp_move queue cp e cp' -> db_wf cp ->
  jobs_from queue cp -> jobs_from queue cp'.
Proof.
  intros Hjson Hmsg [env d q cp0 Hq Hbody | op cp0 Hop] Hwf Hfrom id row.
  - destruct (handle_message_cases decode env (dl_Body d) cp0 Hjson)
      as [[err ->] | (req & tcJSON & Hdec & _ & Hm & _ & ->)]; [apply Hfrom |].
    rewrite (Hmsg _ _ Hbody) in Hdec. injection Hdec as <-. simpl.
    intros [[<- <-] | [_ Hrow]]%lookup_insert_Some; [by exists q, tcJSON | by eapply Hfrom].
  - intros Hrow.
    destruct (exec_op_new_jobs op cp0 id Hwf Hop) as [row0 Hrow0]; [by rewrite Hrow |].
    destruct (request_part_step op cp0 id row0 Hwf Hrow0) as (row1 & Hrow1 & Hpart).
    rewrite Hrow in Hrow1. injection Hrow1 as <-.
    destruct (Hfrom id row0 Hrow0) as (q & tcJSON & ? & ? & ?). exists q, tcJSON.
    split_and!; [done | done | congruence].
Qed.

Lemma jobs_from_moves queue cp evs cp' :
  json_round_trips -> message_round_trips -> run (cp_move queue) cp evs cp' -> db_wf cp ->
  jobs_from queue cp -> jobs_from queue cp'.
Proof.
  intros Hjson Hmsg. induction 1 as [cp | cp e cp1 evs cp' Hmove Hrun IH]; [done |].
  intros Hwf Hfrom. destruct (cp_move_run _ _ _ _ Hmove) as [ops Hops].
  apply IH; [by eapply run_wf | by eapply jobs_from_move].
Qed.

Lemma jobs_from_queue queue queue' cp :
  (forall q, q ∈ queue -> q ∈ queue') -> jobs_from queue cp -> jobs_from queue' cp.
Proof. intros Hq Hfrom id row Hrow. destruct (Hfrom id row Hrow) as (q & ? & ? & ?). eauto. Qed.

(** *** A result that has been read stays *)

Lemma GetResult_frozen collate jid cp cp' :
  frozen cp cp' jid ->
  (JobRepo.GetResult no_faults collate jid cp').2 = (JobRepo.GetResult no_faults collate jid cp).2.
Proof.
  intros (_ & Hres & Htc). unfold JobRepo.GetResult, no_faults. rewrite Hres.
  destruct (db_results cp !! jid); [| done]. simpl.
  assert (filter (fun kv : (uuid * string) * TestcaseResult => kv.1.1 = jid) (db_tc_results cp') =
          filter (fun kv : (uuid * string) * TestcaseResult => kv.1.1 = jid) (db_tc_results cp)) as ->; [| done].
  apply map_eq. intros [k t]. apply option_eq. intros x.
  rewrite !map_lookup_filter_Some. simpl.
  split; intros [Hx ->]; split; congruence || rewrite <- Hx; by rewrite Htc.
Qed.

Lemma result_of_a_job_run cp ops cp' sid w :
  run cp_step cp ops cp' -> db_wf cp -> result_of_a_job cp sid w -> result_of_a_job cp' sid w.
Proof.
  intros Hrun Hwf (jid & row & stored & jr & collate & Hrow & Hsid & Hst & Hres & Hw).
  assert (frozen cp cp' jid) as Hfrozen.
  { eapply frozen_run; [done | done | exact Hrow |]. rewrite Hst. reflexivity. }
  exists jid, row, stored, jr, collate. rewrite (GetResult_frozen _ _ _ _ Hfrozen).
  destruct Hfrozen as (Hj & _). rewrite Hj. by destruct_and?; split_and!.
Qed.

(** What a client makes of a reply, if it succeeds. *)
Lemma get_Ok {A} bad (dec : payload -> result string A) rep a :
  get bad dec rep = Ok a -> exists r, rep = Reply r /\ status r < 400 /\ dec (via_json (body r)) = Ok a.
Proof.
  unfold get. destruct bad; [done |]. destruct rep as [e | r]; [done |].
  destruct (Z.leb_spec 400 (status r)); [done |].
  destruct (dec (via_json (body r))) as [a' | e] eqn:E; [| done]. intros [= <-]. by exists r.
Qed.

Lemma refused_get {A} bad (dec : payload -> result string A) rep a :
  refused rep -> get bad dec rep <> Ok a.
Proof. intros Hr (r & -> & Hs & _)%get_Ok. simpl in Hr. lia. Qed.

Lemma asked_job cp id bad rep job :
  db_wf cp -> job_reply cp id rep -> CPClient_GetJobBySubmission bad rep = Ok job ->
  exists row, db_jobs cp !! j_ID job = Some row /\ r_SubmissionID row = id.
Proof.
  unfold CPClient_GetJobBySubmission, prefixed.
  intros Hwf Hrep Hget. destruct (get bad decode_job rep) as [job' | e] eqn:Eg; [| done].
  injection Hget as ->.
  destruct Hrep as [Hr | (io & tie & ->)]; [by apply refused_get with (a := job) (bad := bad) (dec := decode_job) in Hr |].
  apply get_Ok in Eg as (r & [= <-] & Hst & Hdec). revert Hst Hdec.
  unfold GetJobBySubmission_handler, finish, GetJobBySubmission, GetBySubmissionID.
  destruct (io 0%nat).
  { unfold respondError, respondJSON. by destruct (errors_Is _ _). }
  destruct (not_found_as _ _) as [j | e] eqn:Ej;
    [| unfold respondError, respondJSON; by destruct (errors_Is _ _)].
  simpl. intros _ [= <-]. apply not_found_as_Ok in Ej.
  destruct (min_by _ _ _) as [r |] eqn:Er; [| done]. apply min_by_elem in Er.
  apply elem_of_select_where in Er as [Hsub%bool_decide_eq_true [k Hk]].
  apply scanJob_Ok in Ej as [tcs ->]. simpl.
  exists r. rewrite (wf_id _ _ _ _ (wf_jobs cp Hwf k r Hk)). done.
Qed.

Lemma asked_result cp env job jr :
  CPClient_GetJobBySubmission (ve_bad_request env) (ve_job env) = Ok job ->
  result_reply cp env (ve_job_result env) ->
  CPClient_GetJobResult (ve_bad_request env) (ve_job_result env) = Ok jr ->
  is_Some (db_results cp !! j_ID job) /\
  exists collate stored, (JobRepo.GetResult no_faults collate (j_ID job) cp).2 = Ok stored /\
    jr = via_json stored.
Proof.
  unfold CPClient_GetJobResult, prefixed.
  intros Hjob Hrep Hget. destruct (get _ decode_job_result _) as [jr' | e] eqn:Eg; [| done].
  injection Hget as ->.
  destruct Hrep as [Hr | (io & collate & job' & Hjob' & Hrep)].
  { by apply refused_get with (a := jr) (bad := ve_bad_request env) (dec := decode_job_result) in Hr. }
  rewrite Hjob in Hjob'. injection Hjob' as <-.
  apply get_Ok in Eg as (r & Hr & Hst & Hdec). rewrite Hrep in Hr. injection Hr as <-.
  revert Hst Hdec. unfold GetJobResult_handler, finish, GetJobResult, JobRepo.GetResult, no_faults.
  destruct (io 0%nat); [done |].
  destruct (db_results cp !! j_ID job) as [res |]; [| done].
  destruct (io 1%nat); [done |]. destruct (io 2%nat); [done |].
  simpl. intros _ [= <-]. split; [by eexists | by exists collate; eexists].
Qed.

Lemma stored_completed cp id row :
  db_wf cp -> db_jobs cp !! id = Some row -> is_Some (db_results cp !! id) ->
  r_State row = JobStateCompleted.
Proof.
  intros Hwf Hrow Hres. pose proof (wf_state _ _ _ _ (wf_jobs cp Hwf id row Hrow)) as Hs.
  unfold state_wf in Hs. by destruct (r_State row); destruct_and?.
Qed.

(** A result that the API has read from the control plane is one of a job of
    the submission, whatever has happened between the two questions. *)
Lemma read_result cp env id job jr text queue evs cp' :
  db_wf cp -> run (cp_move queue) cp evs cp' ->
  job_reply cp id (ve_job env) -> result_reply cp' env (ve_job_result env) ->
  CPClient_GetJobBySubmission (ve_bad_request env) (ve_job env) = Ok job ->
  CPClient_GetJobResult (ve_bad_request env) (ve_job_result env) = Ok jr ->
  json_Marshal_entries (entry_of_tc <$> jr_TestcaseResults jr) = Ok text ->
  result_of_a_job cp' id (result_row_of env jr text).
Proof.
  intros Hwf Hrun Hjob Hres Hgot Hread Htext.
  destruct (asked_job _ _ _ _ _ Hwf Hjob Hgot) as (row & Hrow & Hsid).
  destruct (asked_result _ _ _ _ Hgot Hres Hread) as (Hstored & collate & stored & Hr & Hjr).
  destruct (cp_moves_run _ _ _ _ Hrun) as [ops Hops].
  destruct (request_part_run _ _ _ _ _ Hops Hwf Hrow) as (row' & Hrow' & Hpart).
  exists (j_ID job), row', stored, jr, collate. split_and!; try done.
  - unfold request_part in Hpart. congruence.
  - eapply stored_completed; [by eapply run_wf | done | done].
Qed.

(** ** The API's database *)

(** The rows are the same but for their status. *)
Definition statuses_only (db db' : subdb) : Prop :=
  forall k row', sd_submissions db' !! k = Some row' ->
  exists row s, sd_submissions db !! k = Some row /\ row' = with_status s row.

Lemma statuses_only_refl db db' : sd_submissions db' = sd_submissions db -> statuses_only db db'.
Proof.
  intros Heq k row Hrow. rewrite Heq in Hrow. exists row, (sr_Status row).
  by rewrite with_status_same.
Qed.

Lemma statuses_only_trans db1 db2 db3 :
  statuses_only db1 db2 -> statuses_only db2 db3 -> statuses_only db1 db3.
Proof.
  intros H12 H23 k row3 Hrow3. destruct (H23 k row3 Hrow3) as (row2 & s & Hrow2 & ->).
  destruct (H12 k row2 Hrow2) as (row1 & s' & Hrow1 & ->). eauto.
Qed.

Definition rows_keyed (db : subdb) : Prop :=
  forall k row, sd_submissions db !! k = Some row -> sr_ID row = k.

Lemma statuses_only_keyed db db' : statuses_only db db' -> rows_keyed db -> rows_keyed db'.
Proof. intros Hst Hk k row' Hrow. destruct (Hst k row' Hrow) as (row & s & Hrow0 & ->). exact (Hk _ _ Hrow0). Qed.

Lemma set_status_only id s db : statuses_only db (set_status id s db).1.
Proof.
  intros k row'. unfold set_status. simpl.
  destruct (update_key_cases id (fun _ => true) (with_status s) (sd_submissions db))
    as [(row & E & _ & ->) | [_ ->]].
  - simpl. intros [[<- <-] | [_ Hrow]]%lookup_insert_Some; [by exists row, s |].
    exists row', (sr_Status row'). by rewrite with_status_same.
  - intros Hrow. exists row', (sr_Status row'). by rewrite with_status_same.
Qed.

Lemma UpdateStatus_only io id s db :
  statuses_only db (UpdateStatus io id s db).1 /\
  sd_results (UpdateStatus io id s db).1 = sd_results db.
Proof.
  unfold UpdateStatus, statement. destruct (io 0%nat); [split; [by apply statuses_only_refl | done] |].
  split; [apply set_status_only | done].
Qed.

Lemma LogSecurityEvent_only io now id c s d db :
  sd_submissions (LogSecurityEvent io now id c s d db).1 = sd_submissions db /\
  sd_results (LogSecurityEvent io now id c s d db).1 = sd_results db.
Proof. unfold LogSecurityEvent, statement. destruct (io 0%nat); [done |]. by destruct (andb _ _). Qed.

(** What one reading may have added to the results of submission [id]. *)
Definition adds_result (env : view_env) (id : uuid) (jr : JobResult) (db db' : subdb) : Prop :=
  sd_results db' = sd_results db \/
  exists text, json_Marshal_entries (entry_of_tc <$> jr_TestcaseResults jr) = Ok text /\
    sd_results db' = <[id := result_row_of env jr text]> (sd_results db).

Lemma insert_result_cases now id jr text db :
  let result := cpResultToSubmissionResult id jr in
  (exists e, SubRepo.insert_result now result text db = (db, Err e)) \/
  SubRepo.insert_result now result text db = (db, Ok tt) \/
  SubRepo.insert_result now result text db =
    (set_results db (<[id := mkSresRow (jr_OverallVerdict jr) (jr_TotalTimeMs jr)
       (jr_MaxMemoryKb jr) (jr_WallTimeMs jr) (jr_CompilerOutput jr) text now]> (sd_results db)), Ok tt).
Proof.
  unfold SubRepo.insert_result. simpl. destruct (andb _ _); [| left; by eexists].
  destruct (sd_results db !! id); [by right; left | by right; right].
Qed.

Lemma SaveResult_only env io id jr s db :
  let db' := (SaveResult io (ve_now env) (cpResultToSubmissionResult id jr) s db).1 in
  statuses_only db db' /\ adds_result env id jr db db'.
Proof.
  unfold SaveResult, adds_result.
  change (sres_TestcaseResults (cpResultToSubmissionResult id jr))
    with (entry_of_tc <$> jr_TestcaseResults jr).
  assert (statuses_only db db) as Hrefl by by apply statuses_only_refl.
  destruct (json_Marshal_entries _) as [text | e]; [| by split; [| left]].
  unfold Sql.transaction, statement. mrun.
  destruct (io 0%nat); [by split; [| left] |].
  destruct (shift_faults 1 io 0%nat); [by split; [| left] |].
  destruct (insert_result_cases (ve_now env) id jr text db) as [[e ->] | [-> | ->]];
    [by split; [| left] | |];
    (destruct (shift_faults 2 io 0%nat); [by split; [| left] |]);
    (destruct (shift_faults 3 io 0%nat); [by split; [| left] |]).
  - split; [apply set_status_only | by left].
  - split; [| right; by exists text].
    eapply statuses_only_trans; [| apply set_status_only]. by apply statuses_only_refl.
Qed.

Lemma adds_result_before env id jr db db1 db2 :
  sd_results db1 = sd_results db -> adds_result env id jr db1 db2 -> adds_result env id jr db db2.
Proof. unfold adds_result. by intros ->. Qed.

(** What a settlement leaves: the event of a violation may be logged, then
    the result is saved. *)
Lemma settle_db env sub jr db :
  exists db1, sd_submissions db1 = sd_submissions db /\ sd_results db1 = sd_results db /\
    (SubService.settle ai env sub jr db).1 =
      (SaveResult (shift_faults 3 (ve_io env)) (ve_now env)
         (cpResultToSubmissionResult (sub_ID sub) jr)
         (verdictToStatus (jr_OverallVerdict jr)) db1).1.
Proof.
  unfold SubService.settle, mbind, M_bind.
  set (m := if bool_decide (jr_OverallVerdict jr = _) then _ else _).
  assert (exists db1, m db = (db1, Ok tt) /\ sd_submissions db1 = sd_submissions db /\
    sd_results db1 = sd_results db) as (db1 & -> & Hsub & Hres).
  { unfold m. destruct (bool_decide _); [| by exists db]. eexists. split; [reflexivity |].
    apply LogSecurityEvent_only. }
  exists db1. split_and!; [done | done |]. unfold ignore at 1.
  set (db2 := (SaveResult _ _ _ _ db1).1).
  pose proof (enrichResult_readonly env (sub_ProblemID sub) (cpResultToSubmissionResult (sub_ID sub) jr) db2) as Hro.
  destruct (enrichResult env (sub_ProblemID sub) _ db2) as [db3 [res | e]]; exact Hro.
Qed.

Lemma settle_only env sub jr db :
  let db' := (SubService.settle ai env sub jr db).1 in
  statuses_only db db' /\ adds_result env (sub_ID sub) jr db db'.
Proof.
  destruct (settle_db env sub jr db) as (db1 & Hsub & Hres & ->).
  destruct (SaveResult_only env (shift_faults 3 (ve_io env)) (sub_ID sub) jr
    (verdictToStatus (jr_OverallVerdict jr)) db1) as [Hst Hadd].
  split; [| by eapply adds_result_before].
  eapply statuses_only_trans; [by apply statuses_only_refl | done].
Qed.

(** A reading changes statuses, and adds at most the result it was answered. *)
Lemma GetSubmission_only env id caller admin db :
  rows_keyed db ->
  let db' := (GetSubmission ai env id caller admin db).1 in
  statuses_only db db' /\
  (sd_results db' = sd_results db \/
   exists job jr, CPClient_GetJobBySubmission (ve_bad_request env) (ve_job env) = Ok job /\
     CPClient_GetJobResult (ve_bad_request env) (ve_job_result env) = Ok jr /\
     adds_result env id jr db db').
Proof.
  intros Hkeyed. assert (statuses_only db db) as Hrefl by by apply statuses_only_refl.
  unfold GetSubmission, mbind, M_bind.
  pose proof (GetByID_readonly (ve_io env) id db) as Hro.
  destruct (SubRepo.GetByID (ve_io env) id db) as [db1 [sub | e]] eqn:E; simpl in Hro; subst db1;
    [| by split; [| left]].
  destruct (GetByID_ok _ _ _ _ E) as (row & key & Hrow & ->). pose proof (Hkeyed _ _ Hrow) as Hid.
  destruct (negb _ && negb _); [by split; [| left] |].
  destruct (IsTerminal _).
  { rewrite get_terminal_readonly. by split; [| left]. }
  destruct (CPClient_GetJobBySubmission _ _) as [job | e]; [| by split; [| left]].
  unfold refresh, mbind, M_bind.
  set (m := if bool_decide (_ = sub_Status _) then _ else _).
  assert (exists db1, m db = (db1, Ok tt) /\ statuses_only db db1 /\ sd_results db1 = sd_results db)
    as (db1 & -> & Hst & Hres).
  { unfold m. destruct (bool_decide _); [by exists db |]. eexists. split; [reflexivity |].
    apply UpdateStatus_only. }
  destruct (_ || _); [| by split; [| left]].
  destruct (CPClient_GetJobResult _ _) as [jr | e]; [| by split; [| left]].
  destruct (settle_only env (sub_with_status (jobStateToStatus (j_State job)) (submission_of row key)) jr db1)
    as [Hst' Hadd].
  split; [by eapply statuses_only_trans |]. right. exists job, jr. split_and!; [done | done |].
  eapply adds_result_before; [exact Hres |]. simpl in Hadd. by rewrite Hid in Hadd.
Qed.

(** A creation stores its row under its own identifier, and adds no result. *)
Lemma create_only env u p req kind st :
  rows_keyed (ap_db st) ->
  let st' := (create ai env u p req kind st).1 in
  rows_keyed (ap_db st') /\ sd_results (ap_db st') = sd_results (ap_db st) /\
  (ap_queue st' = ap_queue st \/
   exists ad sub, admitted env (ap_db st) u p req kind ad /\
     validate_code ai u p req ad sub = None /\ sub_ID sub = ce_fresh env /\
     ap_queue st' = ap_queue st ++ [creation_request ad sub]).
Proof.
  intros Hkeyed. destruct (create ai env u p req kind st) as [st' r] eqn:E. simpl.
  apply create_cases in E.
  assert (forall ad db, stored (fresh_row env u p req kind ad) (ap_db st) db ->
    rows_keyed db /\ sd_results db = sd_results (ap_db st)) as Hst.
  { intros ad db Hs. split; [| apply Hs]. intros k row Hrow.
    destruct (decide (k = ce_fresh env)) as [-> | Hne].
    - destruct (stored_row _ _ _ Hs) as [s Hs']. simpl in Hs'. rewrite Hs' in Hrow.
      by injection Hrow as <-.
    - rewrite (stored_other _ _ _ _ Hs) in Hrow by done. by apply Hkeyed. }
  destruct E as [e | ad db e Had Hs _ | ad key v db sub evs Had Hs _ _ _ _ _ _ | ad key db r Had Hs Hv _];
    simpl; [by split_and!; [| | left] | destruct (Hst ad db Hs).. ].
  - by split_and!; [| | left].
  - by split_and!; [| | left].
  - split_and!; [done | done |]. destruct (pb_delivered _); [right | by left].
    exists ad, (submission_of (fresh_row env u p req kind ad) key). by split_and!.
Qed.

(** ** The invariant of every history *)

Lemma published_later j0 evs e env u p req kind ad q :
  published_by j0 evs env u p req kind ad q -> published_by j0 (evs ++ [e]) env u p req kind ad q.
Proof.
  intros (before & after & j1 & sub & -> & Hrest). exists before, (after ++ [e]), j1, sub.
  split; [by rewrite <- app_assoc | done].
Qed.

Record judge_inv (j0 : judge) (evs : list judge_event) (j : judge) : Prop := {
  ji_keyed : rows_keyed (ap_db (jd_api j));
  ji_wf : db_wf (jd_cp j);
  ji_jobs : jobs_from (ap_queue (jd_api j)) (jd_cp j);
  ji_queue : forall q, q ∈ ap_queue (jd_api j) ->
    exists env u p req kind ad, published_by j0 evs env u p req kind ad q;
  ji_results : forall sid w, sd_results (ap_db (jd_api j)) !! sid = Some w ->
    result_of_a_job (jd_cp j) sid w
}.

Lemma initial_inv j : initial j -> judge_inv j [] j.
Proof.
  intros [Hq Hr Hk Hcp]. split; rewrite ?Hq, ?Hr, ?Hcp.
  - exact Hk.
  - apply empty_db_wf.
  - intros id row. simpl. by rewrite lookup_empty.
  - intros q. by intros ?%not_elem_of_nil.
  - intros sid w. by rewrite lookup_empty.
Qed.

(** The control plane has moved and the API has not. *)
Lemma moved_inv j0 evs e j queue cp_evs cp :
  json_round_trips -> message_round_trips -> queue = ap_queue (jd_api j) ->
  run (cp_move queue) (jd_cp j) cp_evs cp -> judge_inv j0 evs j ->
  judge_inv j0 (evs ++ [e]) (mkJudge (jd_api j) cp).
Proof.
  intros Hjson Hmsg -> Hrun [Hk Hwf Hjobs Hqueue Hres].
  destruct (cp_moves_run _ _ _ _ Hrun) as [ops Hops]. split; simpl.
  - done.
  - by eapply run_wf.
  - by eapply jobs_from_moves.
  - intros q Hq. destruct (Hqueue q Hq) as (env & u & p & req & kind & ad & Hpub).
    exists env, u, p, req, kind, ad. by apply published_later.
  - intros sid w Hw. eapply result_of_a_job_run; [done | done | by apply Hres].
Qed.

Lemma judge_step_inv j0 evs j e j' :
  json_round_trips -> message_round_trips -> run judge_step j0 evs j ->
  judge_inv j0 evs j -> judge_step j e j' -> judge_inv j0 (evs ++ [e]) j'.
Proof.
  intros Hjson Hmsg Hrun Hinv Hstep.
  destruct Hstep as [env u p req kind j | e j cp Hmove | env id caller admin between j cp Hmoves Hjr Hrr].
  - destruct Hinv as [Hk Hwf Hjobs Hqueue Hres].
    destruct (create_only env u p req kind (jd_api j) Hk) as (Hk' & Hres' & Hq').
    assert (forall q, q ∈ ap_queue (jd_api j) ->
      exists env' u' p' req' kind' ad', published_by j0 (evs ++ [Submitted env u p req kind])
        env' u' p' req' kind' ad' q) as Hold.
    { intros q Hq. destruct (Hqueue q Hq) as (env' & u' & p' & req' & kind' & ad' & Hpub).
      exists env', u', p', req', kind', ad'. by apply published_later. }
    split; simpl; [done | done | | | by rewrite Hres'].
    + eapply jobs_from_queue; [| done]. intros q Hq.
      destruct Hq' as [-> | (ad & sub & _ & _ & _ & ->)]; [done |]. apply elem_of_app. by left.
    + intros q. destruct Hq' as [-> | (ad & sub & Had & Hv & Hid & ->)]; [apply Hold |].
      intros [Hq | ->%list_elem_of_singleton]%elem_of_app; [by apply Hold |].
      exists env, u, p, req, kind, ad, evs, [], (j), sub. by split_and!.
  - eapply moved_inv; [done | done | reflexivity | | done]. econstructor; [done | constructor].
  - pose proof (moved_inv j0 evs (Viewed env id caller admin between) j _ between cp Hjson Hmsg
      eq_refl Hmoves Hinv) as [Hk Hwf Hjobs Hqueue Hres]. simpl in *.
    destruct (GetSubmission_only env id caller admin (ap_db (jd_api j)) Hk) as [Hst Hadd].
    split; simpl; [by eapply statuses_only_keyed | done | done | done |].
    intros sid w. destruct Hadd as [-> | (job & jr & Hgot & Hread & [-> | (text & Htext & ->)])];
      [apply Hres | apply Hres |].
    intros [[<- <-] | [_ Hw]]%lookup_insert_Some; [| by apply Hres].
    eapply read_result; [apply Hinv | done..].
Qed.

Lemma judge_run_inv j0 evs j :
  json_round_trips -> message_round_trips -> initial j0 -> run judge_step j0 evs j ->
  judge_inv j0 evs j.
Proof.
  intros Hjson Hmsg Hinit Hrun. revert evs j Hrun. apply run_history; [by apply initial_inv |].
  intros. by eapply judge_step_inv.
Qed.

(** An assignment carries the submission: its identifier and language, the
    user's source wrapped with the problem's driver, the problem's limits and
    the test cases; in the strings, JSON has replaced what is no UTF-8. *)
Definition carries_submission (env : create_env) (req : CreateSubmissionRequest) (ad : admission)
    (a : Assignment) : Prop :=
  a_SubmissionID a = ce_fresh env /\ a_Language a = json_text (cs_LanguageKey req) /\
  (exists spec source, pv_FunctionSpec (ad_problem ad) = Some spec /\
     Wrap spec (cs_LanguageKey req) (cs_SourceText req) = Ok source /\
     a_SourceText a = Some (json_text source)) /\
  a_TimeLimitMs a = pv_TimeLimitMs (ad_problem ad) /\
  a_MemoryLimitMb a = pv_MemoryLimitMb (ad_problem ad) /\
  a_TestCases a = via_json (cp_test_case <$> ad_testCases ad).

Lemma published_assignment j0 evs env u p req kind ad q id lease a :
  published_by j0 evs env u p req kind ad q -> a = requested id (via_json q) lease ->
  carries_submission env req ad a.
Proof.
  intros (before & after & j1 & sub & _ & _ & Had & _ & Hid & ->) ->.
  destruct (adm_wrapped _ _ _ _ _ _ _ Had) as (spec & Hspec & Hwrap).
  pose proof (adm_key _ _ _ _ _ _ _ Had) as Hkey. rewrite Hkey in Hwrap.
  unfold carries_submission. rewrite <- Hid, <- Hkey in *. split_and!; try done.
  - by exists spec, (ad_sourceToSend ad).
  - apply (via_json_idemp (cp_test_case <$> ad_testCases ad)).
Qed.

(** What was decoded from a message goes to the worker unchanged. *)
Lemma requested_via_json id q lease :
  via_json (requested id (via_json q) lease) = requested id (via_json q) lease.
Proof.
  unfold requested, via_json at 1, Assignment_via_json. simpl. by rewrite !via_json_idemp.
Qed.

(** ** Theorems *)

(** C1. From the API to the worker: whatever happens in between, and in any
    order, an assignment that a poll hands out is the job of a submission of
    this history that the API had admitted (language, test cases, suspension)
    and the validator had not refused: it carries that submission's
    identifier and language, the user's source wrapped with the problem's
    driver, the limits of the problem, and its test cases (for a run, only
    visible ones), with the bytes that are no UTF-8 replaced, as encoding/json
    does; and the worker's client reads this assignment out of the reply. *)
Theorem submitted_code_reaches_the_worker j0 evs j cfg io tie locked now preq db a :
  json_round_trips -> message_round_trips -> initial j0 -> run judge_step j0 evs j ->
  PollJob cfg io tie locked now preq (jd_cp j) = (db, Ok a) ->
  exists env userID problemID req kind ad q,
    published_by j0 evs env userID problemID req kind ad q /\
    a = requested (a_JobID a) (via_json q) (now + interval (cfg_LeaseDuration cfg)) /\
    carries_submission env req ad a /\
    Client_Poll (Reply (respondJSON StatusOK (AssignmentBody a))) = Ok (Some a).
Proof.
  intros Hjson Hmsg Hinit Hrun Hpoll.
  destruct (judge_run_inv _ _ _ Hjson Hmsg Hinit Hrun) as [_ Hwf Hjobs Hqueue _].
  assert (exists r, db_jobs (jd_cp j) !! a_JobID a = Some r) as [r Hr].
  { apply PollJob_Ok in Hpoll as (wk & db1 & job & _ & _ & _ & Hclaim & _ & Ha).
    apply AssignNext_Ok in Hclaim as (r & wk0 & tcs & Hs & _ & _ & _ & ->).
    apply select_next_Some in Hs as ((k & Hk) & _). injection Ha as <-. simpl.
    exists r. by rewrite (wf_id _ _ _ _ (wf_jobs _ Hwf k r Hk)). }
  destruct (Hjobs _ _ Hr) as (q & tcJSON & Hq & Hm & Hpart).
  pose proof (PollJob_carries _ _ _ _ _ _ _ _ _ _ _ _ Hjson Hwf Hpoll Hr Hm Hpart) as Ha.
  destruct (Hqueue q Hq) as (env & u & p & req & kind & ad & Hpub).
  exists env, u, p, req, kind, ad, q. split_and!; [done | done | by eapply published_assignment |].
  change (Ok (Some (via_json a)) = Ok (Some a) :> result string _). rewrite Ha.
  by rewrite requested_via_json.
Qed.

(** From the worker back to the reader: whatever happens, a result that
    the API has stored for a submission is, column by column and test case by
    test case, the result that the control plane has stored for a completed
    job of that same submission, although a job may be requeued, duplicated by
    a redelivered message, or completed between the reader's two questions. *)
Theorem verdicts_come_from_the_submissions_jobs j0 evs j sid w :
  json_round_trips -> message_round_trips -> initial j0 -> run judge_step j0 evs j ->
  sd_results (ap_db (jd_api j)) !! sid = Some w -> result_of_a_job (jd_cp j) sid w.
Proof.
  intros Hjson Hmsg Hinit Hrun Hw. by eapply (ji_results _ _ _ (judge_run_inv _ _ _ Hjson Hmsg Hinit Hrun)).
Qed.

End Judge.

(** ** Witnesses *)

Module JudgeExample.
Import SubWitness.

#[local] Instance request_eq_dec : EqDecision CreateJobRequest.
Proof. solve_decision. Defined.

(** The request that the example run of [SubWitness] publishes, and codecs
    that read back what they are used on. *)
Definition sample : TestCase := mkTestCase "sample" "[1,2]" "3".
Definition the_request : CreateJobRequest :=
  match ap_queue accepted.1 with
  | q :: _ => q
  | [] => mkCreateJobRequest 0%N "" None None None 0 0 [] 0
  end.

#[local] Instance sample_json : TestCaseJSON := {|
  json_Marshal_tcs tcs := if bool_decide (tcs = [sample]) then Ok "[...]" else Err "unsupported";
  json_Unmarshal_tcs _ := Ok [sample] |}.
#[local] Instance entries_text : EntryJSON := {|
  json_Marshal_entries _ := Ok "[...]";
  json_Unmarshal_entries _ := Ok [] |}.

Definition write (q : CreateJobRequest) : result string string :=
  if bool_decide (q = the_request) then Ok "{...}" else Err "unsupported".
Definition read (_ : string) : result string CreateJobRequest := Ok the_request.

Lemma sample_round_trips : json_round_trips.
Proof. intros tcs text. simpl. case_bool_decide as Etcs; [subst | done]. by intros [= <-]. Qed.

Lemma published_round_trips : message_round_trips write read.
Proof. intros q text. unfold write, read. case_bool_decide; [by subst | done]. Qed.

Definition open_judge : judge := mkJudge start empty_db.
Definition message : Delivery := mkDelivery 1%N "{...}".
Definition taking : intake_env := mkIntakeEnv no_faults 1 9%N.
Definition beat : cp_op := OpHeartbeat no_faults 2 (mkHeartbeatRequest "w1" ["python"] 1 0 "healthy").
Definition minutes : Config := mkConfig time_Minute time_Minute.
Definition fifo (_ _ : job_row) : bool := true.
Definition asks : PollRequest := mkPollRequest "w1" ["python"].

(** Submitted, delivered, and a worker has registered. *)
Definition submitted : judge :=
  mkJudge (create None (env_at 0 100%N) user 7%N request KindRun start).1 empty_db.
Definition delivered : judge :=
  mkJudge (jd_api submitted) (handle_message read taking (dl_Body message) (jd_cp submitted)).1.
Definition registered : judge := mkJudge (jd_api delivered) (exec_op beat (jd_cp delivered)).

Definition morning : list judge_event :=
  [Submitted (env_at 0 100%N) user 7%N request KindRun; Controlled (Delivered taking message);
   Controlled (Moved beat)].

Lemma the_request_is_queued : ap_queue (jd_api submitted) = [the_request].
Proof. vm_compute. reflexivity. Qed.

Lemma morning_run : run (judge_step None write read) open_judge morning registered.
Proof.
  eapply run_cons; [exact (step_submitted _ _ _ (env_at 0 100%N) user 7%N request KindRun open_judge) |].
  eapply run_cons.
  { apply (step_controlled _ _ _ (Delivered taking message) submitted).
    apply (move_delivered _ _ _ taking message the_request).
    - change (the_request ∈ ap_queue (jd_api submitted)). rewrite the_request_is_queued. by constructor.
    - unfold write. by rewrite bool_decide_eq_true_2. }
  eapply run_cons; [| apply run_nil].
  apply (step_controlled _ _ _ (Moved beat) delivered). apply move_op. by intros [].
Qed.

Lemma catalogue_initial : initial open_judge.
Proof. split; try reflexivity. intros k row. simpl. by rewrite lookup_empty. Qed.

Definition given : Assignment := requested 9%N the_request (3 + interval time_Minute).

Lemma the_poll :
  (PollJob minutes no_faults fifo ∅ 3 asks (jd_cp registered)).2 = Ok given.
Proof. vm_compute. reflexivity. Qed.

Lemma submitted_code_reaches_the_worker_witness :
  a_SubmissionID given = 100%N /\
  exists env userID problemID req kind ad q,
    published_by None write read open_judge morning env userID problemID req kind ad q /\
    given = requested 9%N (via_json q) (3 + interval time_Minute).
Proof.
  split; [vm_compute; reflexivity |].
  assert (PollJob minutes no_faults fifo ∅ 3 asks (jd_cp registered) =
    ((PollJob minutes no_faults fifo ∅ 3 asks (jd_cp registered)).1, Ok given)) as Hpoll.
  { rewrite (surjective_pairing (PollJob _ _ _ _ _ _ _)) at 1. by rewrite the_poll. }
  destruct (submitted_code_reaches_the_worker None write read open_judge morning registered minutes
    no_faults fifo ∅ 3 asks _ given sample_round_trips published_round_trips catalogue_initial
    morning_run Hpoll) as (env & u & p & req & kind & ad & q & Hpub & Hq & _).
  exists env, u, p, req, kind, ad, q. split; [exact Hpub | exact Hq].
Defined.

(** The worker claims the job and reports; the user looks. *)
Definition claim : cp_op := OpClaim no_faults fifo ∅ 3 "w1" ["python"] time_Minute.
Definition report : cp_op := OpComplete no_faults 4 9%N "w1"
  (mkReportResultRequest "w1" "Accepted" (Some 5) None None None []).
Definition claimed : judge := mkJudge (jd_api registered) (exec_op claim (jd_cp registered)).

(** The report has arrived before the reader asks. *)
Definition reported : judge := mkJudge (jd_api claimed) (exec_op report (jd_cp claimed)).

Definition looking : view_env :=
  mkViewEnv no_faults 5 (fun _ _ => true) None
    (Reply (GetJobBySubmission_handler no_faults fifo (Some 100%N) (jd_cp reported)).2)
    (Reply (GetJobResult_handler no_faults String.leb (Some 9%N) (jd_cp reported)).2).
Definition looked : judge :=
  mkJudge (mkApi (GetSubmission None looking 100%N user false (ap_db (jd_api reported))).1
             (ap_queue (jd_api reported))) (jd_cp reported).

Definition day : list judge_event :=
  morning ++ [Controlled (Moved claim); Controlled (Moved report); Viewed looking 100%N user false []].

Lemma the_job_is_found :
  exists job, CPClient_GetJobBySubmission None (ve_job looking) = Ok job /\ j_ID job = 9%N.
Proof. eexists. split; vm_compute; reflexivity. Qed.

Lemma day_run : run (judge_step None write read) open_judge day looked.
Proof.
  eapply run_app; [exact morning_run |].
  eapply run_cons.
  { apply (step_controlled _ _ _ (Moved claim) registered). apply move_op. by intros []. }
  eapply run_cons.
  { apply (step_controlled _ _ _ (Moved report) claimed). apply move_op. by intros []. }
  eapply run_cons; [| apply run_nil].
  apply (step_viewed _ _ _ looking 100%N user false [] reported).
  - apply run_nil.
  - right. by exists no_faults, fifo.
  - right. destruct the_job_is_found as (job & Hjob & Hid).
    exists no_faults, String.leb, job. split; [exact Hjob | by rewrite Hid].
Qed.

Definition stored_verdict : option string :=
  sw_OverallVerdict <$> sd_results (ap_db (jd_api looked)) !! 100%N.

Lemma verdict_is_stored : stored_verdict = Some "Accepted".
Proof. vm_compute. reflexivity. Qed.

Lemma verdicts_come_from_the_submissions_jobs_witness :
  exists w, sw_OverallVerdict w = "Accepted" /\ result_of_a_job (jd_cp looked) 100%N w.
Proof.
  pose proof verdict_is_stored as Hv. unfold stored_verdict in Hv.
  apply fmap_Some in Hv as (w & Hw & Hv). exists w. split; [by symmetry |].
  apply (verdicts_come_from_the_submissions_jobs None write read open_judge day looked 100%N w
    sample_round_trips published_round_trips catalogue_initial day_run Hw).
Defined.
End JudgeExample.
