(* ===== verification/EndToEnd.v ===== *)
(** * The platform: the judge and its workers

    [Judge] composed with the worker processes of [WorkerLoop]: a process is
    handed what the control plane claimed for it, its goroutines execute the
    jobs, and its reports are what completes them.  Processes start and die at
    any time, several may carry the same identifier, answers and reports may
    be lost or arrive late, and everything goes on while a reader's request is
    being served.  An executor is anything with an [Execute]; at the end it is
    the Docker executor. *)

From S2P Require Import Prelude Sql GoStrings HostFiles WorkerConfig RunnerOutput RunnerTheorems.
From S2P Require Import DockerExec FirecrackerExec WorkerLoop.
From S2P Require Import CPDomain JobRepo WorkerRepo JobRepoFacts CPService CPHttp CPSystem.
From S2P Require Import CPTheorems CPServiceTheorems CPPollTheorems.
From S2P Require Import Driver AiDomain SubRepo SubService SubTheorems SubViewTheorems.
From S2P Require Import Amqp AmqpTheorems JobIntake Judge.

(** ** State and events *)

(** Behind the API: the control plane's database, the running processes, the
    assignments that were claimed with the worker they were claimed for, and
    the requests the processes have sent. *)
Record backend := mkBackend {
  be_cp : cpdb;
  be_workers : gmap nat worker;
  be_claimed : list (string * Assignment);
  be_sent : list WorkerLoop.request
}.

Inductive backend_event :=
  | AtControlPlane (e : cp_event)
  | AtWorker (p : nat) (e : WorkerLoop.event)
  | WorkerStarts (p : nat) (cfg : FirecrackerExec.Config) (fresh : string)
  | WorkerDies (p : nat).

Record platform := mkPlatform { pf_api : api; pf_back : backend }.

Inductive platform_event :=
  | Submits (env : create_env) (userID problemID : uuid) (req : CreateSubmissionRequest)
      (kind : SubmissionKind)
  | Behind (e : backend_event)
  | Views (env : view_env) (id callerUserID : uuid) (callerIsAdmin : bool)
      (between : list backend_event).

(** What the control plane and the judge see of it. *)
Definition seen_by_cp (e : backend_event) : option cp_event :=
  match e with AtControlPlane e => Some e | _ => None end.

Definition seen_by_judge (e : platform_event) : option judge_event :=
  match e with
  | Submits env u p req kind => Some (Submitted env u p req kind)
  | Behind e => Controlled <$> seen_by_cp e
  | Views env id caller admin between =>
      Some (Viewed env id caller admin (omap seen_by_cp between))
  end.

Definition judge_of (p : platform) : judge := mkJudge (pf_api p) (be_cp (pf_back p)).

Section Platform.
Context `{TestCaseJSON} `{GoUnicode} `{EntryJSON} (ai : option AIValidator).
Context (marshal : CreateJobRequest -> result string string).
Context (decode : string -> result string CreateJobRequest).
(** [Execute] of the executor: what it may return for a job. *)
Context (executed : Assignment -> result string (option ExecutionResult) -> Prop).

(** The assignment that a claim makes, and for which worker. *)
Definition claim_of (e : cp_event) (cp : cpdb) : list (string * Assignment) :=
  match e with
  | Moved (OpClaim io tie locked now w langs d) =>
      match (job ← AssignNext io tie locked now w langs d; lift (assignment_of job)) cp with
      | (_, Ok a) => [(w, a)]
      | _ => []
      end
  | _ => []
  end.

(** A report that a goroutine is sending, or has sent. *)
Definition in_flight (b : backend) (id : uuid) (req : ReportResultRequest) : Prop :=
  (exists p w t th, be_workers b !! p = Some w /\ wk_threads w !! t = Some th /\
     a_JobID (th_job th) = id /\ th_phase th = Reporting req) \/
  exists t, SendReport t id req ∈ be_sent b.

(** Only workers report: the endpoints ask for the internal key.  The control
    plane is given the report as its JSON text carries it. *)
Definition from_a_worker (b : backend) (e : cp_event) : Prop :=
  match e with
  | Moved (OpComplete _ _ id w req) =>
      w = rr_WorkerID req /\ exists rep, in_flight b id rep /\ req = via_json rep
  | _ => True
  end.

(** The answer to a poll of the worker [id], whose identifier has come over
    JSON too. *)
Definition poll_answer (claimed : list (string * Assignment)) (id : string) (rep : reply) : Prop :=
  match rep with
  | NoReply _ => True
  | Reply r =>
      status r = StatusNoContent \/ 400 <= status r \/
      exists a, (via_json id, a) ∈ claimed /\ r = respondJSON StatusOK (AssignmentBody a)
  end.

(** What the process is told is what the others did. *)
Definition answered (b : backend) (w : worker) (e : WorkerLoop.event) : Prop :=
  match e with
  | PollReply answer =>
      exists rep, poll_answer (be_claimed b) (wk_id w) rep /\ answer = Client_Poll rep
  | Executed t outcome => forall th, wk_threads w !! t = Some th -> executed (th_job th) outcome
  | _ => True
  end.

Inductive backend_step (queue : list CreateJobRequest) : backend -> backend_event -> backend -> Prop :=
  | step_cp e b cp :
      cp_move marshal decode queue (be_cp b) e cp -> from_a_worker b e ->
      backend_step queue b (AtControlPlane e)
        (mkBackend cp (be_workers b) (be_claimed b ++ claim_of e (be_cp b)) (be_sent b))
  | step_worker p w e w' out b :
      be_workers b !! p = Some w -> answered b w e -> WorkerLoop.step w e = Some (w', out) ->
      backend_step queue b (AtWorker p e)
        (mkBackend (be_cp b) (<[p := w']> (be_workers b)) (be_claimed b) (be_sent b ++ out))
  | step_starts p cfg fresh b :
      be_workers b !! p = None ->
      backend_step queue b (WorkerStarts p cfg fresh)
        (mkBackend (be_cp b) (<[p := WorkerLoop.New cfg fresh]> (be_workers b)) (be_claimed b)
           (be_sent b))
  | step_dies p b :
      backend_step queue b (WorkerDies p)
        (mkBackend (be_cp b) (delete p (be_workers b)) (be_claimed b) (be_sent b)).

Inductive platform_step : platform -> platform_event -> platform -> Prop :=
  | step_submits env u p req kind a b :
      platform_step (mkPlatform a b) (Submits env u p req kind)
        (mkPlatform (create ai env u p req kind a).1 b)
  | step_behind e a b b' :
      backend_step (ap_queue a) b e b' ->
      platform_step (mkPlatform a b) (Behind e) (mkPlatform a b')
  | step_views env id caller admin between a b b' :
      run (backend_step (ap_queue a)) b between b' ->
      job_reply (be_cp b) id (ve_job env) -> result_reply (be_cp b') env (ve_job_result env) ->
      platform_step (mkPlatform a b) (Views env id caller admin between)
        (mkPlatform (mkApi (GetSubmission ai env id caller admin (ap_db a)).1 (ap_queue a)) b').

Record platform_initial (p : platform) : Prop := {
  pi_judge : initial (judge_of p);
  pi_workers : be_workers (pf_back p) = ∅;
  pi_claimed : be_claimed (pf_back p) = [];
  pi_sent : be_sent (pf_back p) = []
}.

(** ** The judge's part of a history *)

Lemma backend_run_cp queue b evs b' :
  run (backend_step queue) b evs b' ->
  run (cp_move marshal decode queue) (be_cp b) (omap seen_by_cp evs) (be_cp b').
Proof.
  induction 1 as [b | b e b1 evs b' Hstep _ IH]; [constructor |].
  by destruct Hstep; simpl; [econstructor | ..].
Qed.

Lemma platform_run_judge p evs p' :
  run platform_step p evs p' ->
  run (judge_step ai marshal decode) (judge_of p) (omap seen_by_judge evs) (judge_of p').
Proof.
  induction 1 as [p | p e p1 evs p' Hstep _ IH]; [constructor |].
  destruct Hstep as [env u pr req kind a b | e a b b' Hb | env id caller admin between a b b' Hrun Hj Hr].
  - econstructor; [| exact IH]. apply (step_submitted ai marshal decode env u pr req kind (mkJudge a (be_cp b))).
  - destruct Hb; [| exact IH..]. econstructor; [| exact IH]. by constructor.
  - econstructor; [| exact IH]. apply backend_run_cp in Hrun.
    by apply (step_viewed ai marshal decode env id caller admin _ (mkJudge a (be_cp b)) (be_cp b')).
Qed.

(** ** Records of the control plane

    Only an accepted report adds a result; it brings exactly the report's
    entries. *)

Lemma exec_op_records op db :
  (db_results (exec_op op db) = db_results db /\ db_tc_results (exec_op op db) = db_tc_results db) \/
  exists io now id w req r, op = OpComplete io now id w req /\ acceptable w id req db r /\
    exec_op op db = completed_db now id req r db.
Proof.
  destruct op; simpl; try (left; done).
  - left. by destruct (Create_cases io now fresh req db) as [[-> _] | (tc & _ & _ & _ & _ & ->)].
  - left. by destruct (AssignNext_cases io tie locked now w langs d db) as [[-> _] | (r & wk & _ & _ & _ & ->)].
  - left. by destruct (MarkRunning_cases io now id w db) as [(r & _ & _ & _ & ->) | [-> _]].
  - left. by destruct (RenewLease_cases io now id w d db) as [(r & _ & _ & _ & ->) | [-> _]].
  - destruct (Complete_cases io now id w req db) as [(r & Hacc & ->) | [e ->]]; [| by left].
    right. by exists io, now, id, w, req, r.
  - left. unfold RequeueExpiredLeases. by destruct (io 0%nat).
  - left. unfold Upsert. by repeat case_match.
  - left. unfold IncrementActiveJobs. by repeat case_match.
  - left. unfold MarkStaleOffline. by repeat case_match.
Qed.

(** The entries stored for the job [id] are those of the report. *)
Definition entries_of (cp : cpdb) (id : uuid) (req : ReportResultRequest) : Prop :=
  NoDup (ti_TestcaseID <$> rr_TestcaseResults req) /\
  forall t x, db_tc_results cp !! (id, t) = Some x <->
    exists tc, tc ∈ rr_TestcaseResults req /\ ti_TestcaseID tc = t /\ x = tc_row tc.

Lemma same_id_same_entry (tcs : list TestcaseResultInput) tc tc' :
  NoDup (ti_TestcaseID <$> tcs) -> tc ∈ tcs -> tc' ∈ tcs -> ti_TestcaseID tc = ti_TestcaseID tc' ->
  tc = tc'.
Proof.
  intros Hnd [i Hi]%list_elem_of_lookup [k Hk]%list_elem_of_lookup Heq.
  assert (i = k) as ->.
  { eapply NoDup_lookup; [exact Hnd | |]; rewrite list_lookup_fmap; [by rewrite Hi |].
    rewrite Hk, Heq. done. }
  congruence.
Qed.

Lemma completed_entries now w id req r db :
  db_wf db -> acceptable w id req db r -> entries_of (completed_db now id req r db) id req.
Proof.
  intros Hwf (_ & _ & Hnone & _ & Hnd & _). split; [done |]. intros t x. simpl. rewrite lookup_insert_all.
  destruct (List.find _ _) as [tc |] eqn:E.
  - apply find_some in E as [Hin [_ Ht]%bool_decide_eq_true].
    apply list_elem_of_In in Hin. rewrite elem_of_reverse in Hin. split.
    + intros [= <-]. eauto.
    + intros (tc' & Hin' & Ht' & ->). by rewrite (same_id_same_entry _ tc tc' Hnd) by congruence.
  - split.
    + intros Hx. apply (wf_tcs db Hwf) in Hx as [[res Hres] _]. congruence.
    + intros (tc & Hin & Ht & _). exfalso.
      assert (List.In tc (reverse (rr_TestcaseResults req))) as Hin'
        by (apply list_elem_of_In; by rewrite elem_of_reverse).
      apply (find_none _ _ E) in Hin'. by rewrite bool_decide_eq_true_2 in Hin'.
Qed.

(** ** What is handed out, executed and reported *)

(** An assignment of a published request, whose job is that submission's. *)
Definition carried (queue : list CreateJobRequest) (cp : cpdb) (a : Assignment) : Prop :=
  exists q lease row, q ∈ queue /\ a = requested (a_JobID a) (via_json q) lease /\
    db_jobs cp !! a_JobID a = Some row /\ r_SubmissionID row = cr_SubmissionID q.

(** A report of what an executor made of such an assignment. *)
Definition report_of_execution (queue : list CreateJobRequest) (cp : cpdb) (id : uuid)
    (req : ReportResultRequest) : Prop :=
  exists a workerID outcome, a_JobID a = id /\ carried queue cp a /\ executed a outcome /\
    req = buildReportRequest workerID outcome.

Lemma carried_later queue queue' cp ops cp' a :
  db_wf cp -> run cp_step cp ops cp' -> (forall q, q ∈ queue -> q ∈ queue') ->
  carried queue cp a -> carried queue' cp' a.
Proof.
  intros Hwf Hrun Hqueue (q & lease & row & Hq & Ha & Hrow & Hsid).
  destruct (request_part_run _ _ _ _ _ Hrun Hwf Hrow) as (row' & Hrow' & Hpart).
  exists q, lease, row'. split_and!; [auto | done | done |].
  unfold request_part in Hpart. congruence.
Qed.

Lemma report_later queue queue' cp ops cp' id req :
  db_wf cp -> run cp_step cp ops cp' -> (forall q, q ∈ queue -> q ∈ queue') ->
  report_of_execution queue cp id req -> report_of_execution queue' cp' id req.
Proof.
  intros Hwf Hrun Hqueue (a & workerID & outcome & Hid & Ha & Hex & Hreq).
  exists a, workerID, outcome. split_and!; [done | by eapply carried_later | done..].
Qed.

(** A claim hands out the published request behind the row it takes. *)
Lemma claim_carried queue cp e cp' w a :
  json_round_trips -> cp_move marshal decode queue cp e cp' -> db_wf cp -> jobs_from queue cp ->
  (w, a) ∈ claim_of e cp -> carried queue cp a.
Proof.
  intros Hjson Hmove Hwf Hfrom. destruct Hmove as [env d q cp _ _ | op cp _]; [by intros ?%not_elem_of_nil |].
  destruct op; simpl; try by intros ?%not_elem_of_nil. unfold mbind, M_bind.
  destruct (AssignNext io tie locked now w0 langs d cp) as [db1 [job | e]] eqn:E; [| by intros ?%not_elem_of_nil].
  apply AssignNext_Ok in E as (r & wk & tcs & Hs & _ & _ & Hscan & ->). simpl.
  intros [= -> ->]%list_elem_of_singleton.
  apply select_next_Some in Hs as ((k & Hk) & _).
  pose proof (wf_id _ _ _ _ (wf_jobs cp Hwf k r Hk)) as Hid.
  destruct (Hfrom k r Hk) as (q & tcJSON & Hq & Hm & Hpart).
  unfold request_part in Hpart. simpl in Hpart. injection Hpart as Hp1 Hp2 Hp3 Hp4 Hp5 Hp6 Hp7 Hp8 Hp9 _.
  eapply scanJob_marshalled in Hscan; [| done | exact Hm | exact Hp9].
  exists q, (now + interval d), r. split_and!; [done | | simpl; by rewrite Hid | done].
  injection Hscan as ->. unfold requested. simpl. by f_equal.
Qed.

(** ** The invariant behind the API *)

(** Every goroutine of a process runs a carried assignment, and what it
    reports is what an executor returned for it. *)
Definition honest (queue : list CreateJobRequest) (cp : cpdb) (w : worker) : Prop :=
  forall t th, wk_threads w !! t = Some th -> carried queue cp (th_job th) /\
    forall req, th_phase th = Reporting req ->
      report_of_execution queue cp (a_JobID (th_job th)) req.

Record backend_inv (queue : list CreateJobRequest) (b : backend) : Prop := {
  bi_wf : db_wf (be_cp b);
  bi_jobs : jobs_from queue (be_cp b);
  bi_claimed : forall w a, (w, a) ∈ be_claimed b -> carried queue (be_cp b) a;
  bi_workers : forall p w, be_workers b !! p = Some w -> honest queue (be_cp b) w;
  bi_sent : forall t id req, SendReport t id req ∈ be_sent b ->
    report_of_execution queue (be_cp b) id req;
  bi_results : forall id res, db_results (be_cp b) !! id = Some res ->
    exists req now, report_of_execution queue (be_cp b) id req /\
      res = report_row now (via_json req) /\ entries_of (be_cp b) id (via_json req)
}.

Lemma honest_later queue queue' cp ops cp' w :
  db_wf cp -> run cp_step cp ops cp' -> (forall q, q ∈ queue -> q ∈ queue') ->
  honest queue cp w -> honest queue' cp' w.
Proof.
  intros Hwf Hrun Hqueue Hw t th Hth. destruct (Hw t th Hth) as [Ha Hrep].
  split; [by eapply carried_later | intros req Hreq; eapply report_later; eauto].
Qed.

(** The publications of the API change nothing behind it. *)
Lemma backend_inv_queue queue queue' b :
  (forall q, q ∈ queue -> q ∈ queue') -> backend_inv queue b -> backend_inv queue' b.
Proof using H H0 executed.
  intros Hqueue [Hwf Hjobs Hcl Hw Hs Hr].
  assert (run cp_step (be_cp b) [] (be_cp b)) as Hrun by constructor.
  split; [done | by eapply jobs_from_queue | eauto using carried_later | eauto using honest_later |
          eauto using report_later |].
  intros id res Hres. destruct (Hr id res Hres) as (req & now & Hrep & ? & ?).
  exists req, now. split; [by eapply report_later | done].
Qed.

Lemma honest_new queue cp cfg fresh : honest queue cp (WorkerLoop.New cfg fresh).
Proof. intros t th. simpl. by rewrite lookup_empty. Qed.

Lemma honest_thread queue cp w t th p :
  wk_threads w !! t = Some th -> honest queue cp w ->
  (forall req, p = Reporting req -> report_of_execution queue cp (a_JobID (th_job th)) req) ->
  honest queue cp (set_thread w t th p).
Proof.
  intros Hth Hw Hp t' th'. simpl. intros [[<- <-] | [_ Hth']]%lookup_insert_Some; [| exact (Hw _ _ Hth')].
  simpl. split; [by apply (Hw t th Hth) | done].
Qed.

Lemma honest_fewer queue cp w w' :
  wk_threads w' ⊆ wk_threads w -> honest queue cp w -> honest queue cp w'.
Proof. intros Hsub Hw t th Hth. apply (Hw t th). by eapply lookup_weaken. Qed.

(** A job that a poll brings was claimed for this worker. *)
Lemma polled claimed id rep a :
  poll_answer claimed id rep -> Client_Poll rep = Ok (Some a) ->
  exists a', (via_json id, a') ∈ claimed /\ a = via_json a'.
Proof.
  unfold Client_Poll, post. destruct rep as [e | r]; simpl; [done |].
  intros [Hst | [Hst | (a' & Hin & ->)]].
  - by rewrite Hst.
  - destruct (Z.eqb_spec (status r) StatusNoContent); [done |].
    destruct (Z.leb_spec 400 (status r)); [done | lia].
  - simpl. intros [= <-]. by exists a'.
Qed.

(** What was claimed arrives unchanged: it has been through JSON before. *)
Lemma carried_via_json queue cp a : carried queue cp a -> via_json a = a.
Proof. intros (q & lease & row & _ & -> & _). apply requested_via_json. Qed.

Lemma honest_register queue b w answer :
  backend_inv queue b -> answered b w (PollReply answer) -> honest queue (be_cp b) w ->
  honest queue (be_cp b) (tryPoll_end w answer).
Proof.
  intros Hinv (rep & Hrep & ->) Hw. destruct (Client_Poll rep) as [[a |] | e] eqn:E; [| exact Hw..].
  intros t th. simpl. intros [[<- <-] | [_ Hth]]%lookup_insert_Some; [| exact (Hw _ _ Hth)].
  simpl. split; [| done]. destruct (polled _ _ _ _ Hrep E) as (a' & Hin & ->).
  apply (bi_claimed _ _ Hinv) in Hin. by rewrite (carried_via_json _ _ _ Hin).
Qed.

(** A step of a process keeps it honest, and what it sends was executed. *)
Lemma honest_step queue b p w e w' out :
  backend_inv queue b -> be_workers b !! p = Some w -> answered b w e ->
  WorkerLoop.step w e = Some (w', out) ->
  honest queue (be_cp b) w' /\
  forall t id req, SendReport t id req ∈ out -> report_of_execution queue (be_cp b) id req.
Proof.
  intros Hinv Hp Hans Hs. pose proof (bi_workers _ _ Hinv p w Hp) as Hw.
  step_cases; try (injection Hs as Hs; destruct (tryPoll_begin_cases w) as [[_ Heq] | [_ Heq]];
    rewrite Heq in Hs; injection Hs as <- <-);
    (split; [try exact Hw | try (by intros ??? ?%not_elem_of_nil);
       try (by intros ??? ?%list_elem_of_singleton)]).
  - by apply honest_register.
  - apply honest_thread; [done | done |]. by destruct ok.
  - apply honest_thread; [done | done |]. intros req [= <-].
    exists (th_job t0), (wk_id w), outcome. split_and!; [done | by apply (Hw t t0) | by apply Hans | done].
  - by apply honest_thread.
  - intros t' id req' [= -> -> ->]%list_elem_of_singleton. by apply (Hw t t0).
  - apply honest_fewer with w; [apply delete_subseteq | done].
Qed.

(** A report under way was executed. *)
Lemma flying_report queue b id req :
  backend_inv queue b -> in_flight b id req -> report_of_execution queue (be_cp b) id req.
Proof.
  intros Hinv [(p & w & t & th & Hp & Hth & <- & Hph) | [t Hsent]].
  - by eapply (bi_workers _ _ Hinv p w Hp t th Hth).
  - by eapply (bi_sent _ _ Hinv).
Qed.

(** Every result in the database after a move was there, with the same
    entries, or is the one that a report under way has just brought. *)
Lemma results_step queue b e cp :
  json_round_trips -> backend_inv queue b -> cp_move marshal decode queue (be_cp b) e cp ->
  from_a_worker b e -> forall id res, db_results cp !! id = Some res ->
  exists req now, report_of_execution queue (be_cp b) id req /\ res = report_row now (via_json req) /\
    entries_of cp id (via_json req).
Proof.
  intros Hjson Hinv Hmove Hfrom id res.
  pose proof (bi_wf _ _ Hinv) as Hwf. pose proof (bi_results _ _ Hinv) as Hresults.
  destruct b as [cp0 ws cl sent]. simpl in *.
  destruct Hmove as [env d q cp0 _ _ | op cp0 _].
  - destruct (handle_message_cases decode env (dl_Body d) cp0 Hjson)
      as [[err ->] | (req & tcJSON & _ & _ & _ & _ & ->)]; exact (Hresults id res).
  - destruct (exec_op_records op cp0) as [[Hr Ht] | (io & now & jid & w & req & r & -> & Hacc & ->)].
    + rewrite Hr. intros Hres. destruct (Hresults id res Hres) as (req & now & Hrep & Hrow & Hent).
      exists req, now. split_and!; [done.. |]. unfold entries_of. by rewrite Ht.
    + destruct Hfrom as (_ & rep & Hfly & ->). simpl.
      intros [[<- <-] | [Hne Hres]]%lookup_insert_Some.
      * exists rep, now. split_and!; [exact (flying_report _ _ _ _ Hinv Hfly) | done | by eapply completed_entries].
      * destruct (Hresults id res Hres) as (req' & now' & Hrep & Hrow & Hent).
        exists req', now'. split_and!; [done.. |].
        destruct Hent as [Hnd Hent]. split; [done |]. intros t x. simpl.
        rewrite insert_all_other by done. apply Hent.
Qed.

Lemma backend_step_inv queue b e b' :
  json_round_trips -> message_round_trips marshal decode ->
  backend_step queue b e b' -> backend_inv queue b -> backend_inv queue b'.
Proof.
  intros Hjson Hmsg Hstep Hinv.
  destruct Hstep as [e b cp Hmove Hfrom | p w e w' out b Hp Hans Hs | p cfg fresh b Hp | p b].
  - pose proof (results_step _ _ _ _ Hjson Hinv Hmove Hfrom) as Hres.
    destruct (cp_move_run _ _ _ _ _ _ Hmove) as [ops Hops].
    pose proof Hinv as [Hwf Hjobs Hcl Hw Hsent _].
    split; simpl.
    + by eapply run_wf.
    + by eapply jobs_from_move.
    + intros w a [Hin | Hin]%elem_of_app; eapply carried_later; [exact Hwf | exact Hops | done | eauto ..].
      by eapply claim_carried.
    + intros p w Hp. eapply honest_later; [exact Hwf | exact Hops | done | eauto].
    + intros t id req Hin. eapply report_later; [exact Hwf | exact Hops | done | eauto].
    + intros id res Hr. destruct (Hres id res Hr) as (req & now & Hrep & ? & ?).
      exists req, now. split; [by eapply report_later | done].
  - destruct (honest_step _ _ _ _ _ _ _ Hinv Hp Hans Hs) as [Hw' Hout].
    destruct Hinv as [Hwf Hjobs Hcl Hw Hsent Hres]. split; simpl; try done.
    + intros p' x. intros [[<- <-] | [_ Hx]]%lookup_insert_Some; [done | by eapply Hw].
    + intros t id req [Hin | Hin]%elem_of_app; eauto.
  - destruct Hinv as [Hwf Hjobs Hcl Hw Hsent Hres]. split; simpl; try done.
    intros p' x. intros [[<- <-] | [_ Hx]]%lookup_insert_Some; [apply honest_new | by eapply Hw].
  - destruct Hinv as [Hwf Hjobs Hcl Hw Hsent Hres]. split; simpl; try done.
    intros p' x. intros [_ Hx]%lookup_delete_Some. by eapply Hw.
Qed.

(** ** The platform's histories *)

Lemma platform_run_inv p0 evs p :
  json_round_trips -> message_round_trips marshal decode -> platform_initial p0 ->
  run platform_step p0 evs p -> backend_inv (ap_queue (pf_api p)) (pf_back p).
Proof.
  intros Hjson Hmsg [Hinit Hw Hcl Hs] Hrun. revert evs p Hrun. apply run_history.
  - destruct p0 as [a [cp ws cl sent]]. simpl in *. subst.
    pose proof (initial_inv ai marshal decode _ Hinit) as [_ Hwf Hjobs _ _]. simpl in *.
    destruct Hinit as [_ _ _ Hcp]. simpl in Hcp. subst cp.
    split; simpl; [done | done | by intros ?? ?%not_elem_of_nil | intros p w; by rewrite lookup_empty
                  | by intros ??? ?%not_elem_of_nil | intros id res; by rewrite lookup_empty].
  - intros evs p e p' Hrun Hinv Hstep.
    apply platform_run_judge in Hrun. eapply judge_run_inv in Hrun as [Hkeyed _ _ _ _]; [| done..].
    destruct Hstep as [env u pr req kind a b | e a b b' Hb | env id caller admin between a b b' Hb _ _];
      simpl in *.
    + destruct (create_only ai env u pr req kind a Hkeyed) as (_ & _ & Hq).
      eapply backend_inv_queue; [| exact Hinv]. intros q Hin.
      destruct Hq as [-> | (ad & sub & _ & _ & _ & ->)]; [done |]. apply elem_of_app. by left.
    + by eapply backend_step_inv.
    + revert Hinv. revert Hb. apply run_preserves. intros x l y. by apply backend_step_inv.
Qed.

(** The columns of a stored result are those of a report, and its entries are
    the report's entries, each once. *)
Definition tells (w : sres_row) (rep : ReportResultRequest) : Prop :=
  sw_OverallVerdict w = rr_OverallVerdict rep /\ sw_TotalTimeMs w = rr_TotalTimeMs rep /\
  sw_MaxMemoryKb w = rr_MaxMemoryKb rep /\ sw_WallTimeMs w = rr_WallTimeMs rep /\
  sw_CompilerOutput w = rr_CompilerOutput rep /\
  exists tcs, tcs ≡ₚ tc_row <$> rr_TestcaseResults rep /\
    json_Marshal_entries (entry_of_tc <$> tcs) = Ok (sw_TestcaseResults w).

Lemma via_json_tc_row t : tc_row (via_json t) = via_json (tc_row t).
Proof. done. Qed.

Lemma via_json_tc_rows rep :
  via_json (tc_row <$> rr_TestcaseResults (via_json rep)) = tc_row <$> rr_TestcaseResults (via_json rep).
Proof.
  unfold via_json at 1, list_via_json. rewrite <- list_fmap_compose.
  change (rr_TestcaseResults (via_json rep)) with (via_json <$> rr_TestcaseResults rep).
  rewrite <- !list_fmap_compose. apply list_fmap_ext. intros i t _. simpl.
  by rewrite via_json_tc_row, via_json_idemp.
Qed.

Lemma stored_entries collate cp id req :
  entries_of cp id req ->
  order_by (fun x y => collate (tr_TestcaseID x) (tr_TestcaseID y))
    (rows (filter (fun kv : (uuid * string) * TestcaseResult => kv.1.1 = id) (db_tc_results cp)))
  ≡ₚ tc_row <$> rr_TestcaseResults req.
Proof.
  intros [Hnd Hent]. rewrite order_by_perm. apply NoDup_Permutation.
  - apply NoDup_fmap_2_strong; [| apply NoDup_map_to_list].
    intros [[i t] x] [[i' t'] x'] Hx Hx' Heq. simpl in Heq. subst x'.
    apply elem_of_map_to_list, map_lookup_filter_Some in Hx as [Hx Hi], Hx' as [Hx' Hi'].
    simpl in Hi, Hi'. subst.
    apply Hent in Hx as (tc & _ & <- & ->), Hx' as (tc' & _ & <- & Heq).
    apply (f_equal tr_TestcaseID) in Heq. simpl in Heq. by rewrite Heq.
  - apply (NoDup_fmap_1 tr_TestcaseID). rewrite <- list_fmap_compose. exact Hnd.
  - intros x. rewrite elem_of_rows, list_elem_of_fmap. split.
    + intros [[i t] Hx]. apply map_lookup_filter_Some in Hx as [Hx Hi]. simpl in Hi. subst.
      apply Hent in Hx as (tc & Hin & _ & ->). by exists tc.
    + intros (tc & -> & Hin). exists (id, ti_TestcaseID tc). apply map_lookup_filter_Some.
      split; [apply Hent; by exists tc | done].
Qed.

(** Over JSON they are the same: they have been through it. *)
Lemma stored_entries_arrive collate cp id rep :
  entries_of cp id (via_json rep) ->
  via_json (order_by (fun x y => collate (tr_TestcaseID x) (tr_TestcaseID y))
    (rows (filter (fun kv : (uuid * string) * TestcaseResult => kv.1.1 = id) (db_tc_results cp))))
  ≡ₚ tc_row <$> rr_TestcaseResults (via_json rep).
Proof.
  intros Hent. rewrite <- via_json_tc_rows. by apply (fmap_Permutation via_json), stored_entries.
Qed.

(** A result of a job of the submission [sid] tells what an execution of a
    carried assignment made of it. *)
Lemma job_result_executed queue b sid w :
  backend_inv queue b -> result_of_a_job (be_cp b) sid w ->
  exists a workerID outcome q lease, q ∈ queue /\ a = requested (a_JobID a) (via_json q) lease /\
    cr_SubmissionID q = sid /\ executed a outcome /\
    tells w (via_json (buildReportRequest workerID outcome)).
Proof.
  intros Hinv (jid & row & stored & jr & collate & Hrow & <- & _ & Hgot & -> & Hv & Ht & Hm & Hwt & Hc & Hent).
  unfold JobRepo.GetResult, no_faults in Hgot.
  destruct (db_results (be_cp b) !! jid) as [res |] eqn:Eres; [| done]. injection Hgot as <-.
  destruct (bi_results _ _ Hinv jid res Eres) as (req & now & Hrep & -> & Hentries).
  destruct Hrep as (a & workerID & outcome & Hid & Ha & Hex & ->).
  destruct Ha as (q & lease & row' & Hq & Ha & Hrow' & Hsid). rewrite Hid in Hrow'.
  exists a, workerID, outcome, q, lease. split_and!; [done | done | congruence | done |].
  simpl in Hv, Hc, Hent. rewrite via_json_idemp in Hv.
  rewrite (via_json_idemp (rr_CompilerOutput (buildReportRequest workerID outcome))) in Hc.
  split_and!; [done.. |]. eexists. split; [| exact Hent].
  apply stored_entries_arrive, Hentries.
Qed.

(** Where a stored result comes from. *)
Lemma stored_result_executed p0 evs p sid w :
  json_round_trips -> message_round_trips marshal decode -> platform_initial p0 ->
  run platform_step p0 evs p -> sd_results (ap_db (pf_api p)) !! sid = Some w ->
  exists env userID problemID req kind ad q a workerID outcome,
    published_by ai marshal decode (judge_of p0) (omap seen_by_judge evs)
      env userID problemID req kind ad q /\
    ce_fresh env = sid /\ carries_submission env req ad a /\
    executed a outcome /\ tells w (via_json (buildReportRequest workerID outcome)).
Proof.
  intros Hjson Hmsg Hinit Hrun Hw.
  pose proof (platform_run_inv _ _ _ Hjson Hmsg Hinit Hrun) as Hinv.
  apply platform_run_judge in Hrun.
  destruct (judge_run_inv _ _ _ _ _ _ Hjson Hmsg (pi_judge _ Hinit) Hrun) as [_ _ _ Hqueue Hres].
  destruct (job_result_executed _ _ _ _ Hinv (Hres sid w Hw))
    as (a & workerID & outcome & q & lease & Hq & Ha & Hsid & Hex & Htells).
  destruct (Hqueue q Hq) as (env & u & pr & req & kind & ad & Hpub).
  pose proof (published_assignment _ _ _ _ _ _ _ _ _ _ _ _ _ _ _ Hpub Ha) as Hcarries.
  exists env, u, pr, req, kind, ad, q, a, workerID, outcome. split_and!; try done.
  destruct Hcarries as [<- _]. by rewrite Ha.
Qed.

End Platform.

(** ** Theorems *)

Section Theorems.
Context `{TestCaseJSON} `{GoUnicode} `{EntryJSON} (ai : option AIValidator).
Context (marshal : CreateJobRequest -> result string string).
Context (decode : string -> result string CreateJobRequest).

(** C2. Full circle: whatever the users, the broker, the control plane and any
    number of worker processes do, in any order and with any losses, a result
    that the API has stored for a submission tells what an executor returned
    for an assignment that carries that submission, which was admitted and
    not refused: the wrapped source of its user, with its limits and its test
    cases.  Verdict, times, compiler output and the entries, each once, are
    the executor's; in the strings, the bytes that are no UTF-8 have been
    replaced, as encoding/json does on the way. *)
Theorem verdicts_are_executions executed p0 evs p sid w :
  json_round_trips -> message_round_trips marshal decode -> platform_initial p0 ->
  run (platform_step ai marshal decode executed) p0 evs p ->
  sd_results (ap_db (pf_api p)) !! sid = Some w ->
  exists env userID problemID req kind ad q a workerID outcome,
    published_by ai marshal decode (judge_of p0) (omap seen_by_judge evs)
      env userID problemID req kind ad q /\
    ce_fresh env = sid /\ carries_submission env req ad a /\
    executed a outcome /\ tells w (via_json (buildReportRequest workerID outcome)).
Proof. apply stored_result_executed. Qed.

(** *** With the Docker executor *)

Context `{RunnerJSON} (languages : gmap string LangConfig) (runtime : string).

(** What the Docker executor returns for a job, on some host. *)
Definition docker_executed (a : Assignment) (outcome : result string (option ExecutionResult)) : Prop :=
  exists denv h,
    outcome = match (docker_Execute denv languages runtime a h).2 with
              | Ok r => Ok (Some r)
              | Err e => Err e
              end.





End Theorems.

(** ** Witnesses: one submission, one worker with Docker *)

Module EndToEndExample.
Import SubWitness JudgeExample.
#[local] Existing Instance sample_json.
#[local] Existing Instance entries_text.

(** The runner prints one accepted result. *)
#[local] Instance printed : RunnerJSON :=
  {| json_Unmarshal_runner _ := Ok [mkRunnerResult "sample" "Accepted" 4 "3" "3" ""] |}.
Definition languages : gmap string LangConfig := DockerWitness.langs.
Definition executed := docker_executed languages "runc".
Definition outcome : result string (option ExecutionResult) :=
  match (docker_Execute DockerWitness.env languages "runc" given DockerWitness.idle).2 with
  | Ok r => Ok (Some r)
  | Err e => Err e
  end.

Lemma outcome_executed : executed given outcome.
Proof. by exists DockerWitness.env, DockerWitness.idle. Qed.

(** The events, and the states they lead through. *)
Definition settings : FirecrackerExec.Config :=
  FirecrackerExec.mkConfig "dev" "info" "w1" "python" 1 "http://control-plane" "key" 10 500 20
    false "docker" "" "" "" "" [] [] [] 0 0 1 128.

Definition act (e : backend_event) (b : backend) : backend :=
  match e with
  | AtControlPlane e =>
      mkBackend
        match e with
        | Delivered env d => (handle_message read env (dl_Body d) (be_cp b)).1
        | Moved op => exec_op op (be_cp b)
        end
        (be_workers b) (be_claimed b ++ claim_of e (be_cp b)) (be_sent b)
  | AtWorker p e =>
      match be_workers b !! p with
      | Some w =>
          match WorkerLoop.step w e with
          | Some (w', out) =>
              mkBackend (be_cp b) (<[p := w']> (be_workers b)) (be_claimed b) (be_sent b ++ out)
          | None => b
          end
      | None => b
      end
  | WorkerStarts p cfg fresh =>
      mkBackend (be_cp b) (<[p := WorkerLoop.New cfg fresh]> (be_workers b)) (be_claimed b) (be_sent b)
  | WorkerDies p => mkBackend (be_cp b) (delete p (be_workers b)) (be_claimed b) (be_sent b)
  end.

Definition verdict : ReportResultRequest := buildReportRequest "w1" outcome.
Definition reporting : cp_op := OpComplete no_faults 4 9%N "w1" (via_json verdict).

Definition before_report : list backend_event :=
  [AtControlPlane (Delivered taking message); AtControlPlane (Moved beat);
   WorkerStarts 0 settings "fresh"; AtWorker 0 PollTick; AtControlPlane (Moved claim);
   AtWorker 0 (PollReply (Ok (Some given))); AtWorker 0 (MarkedRunning 0 true);
   AtWorker 0 (Executed 0 outcome)].

Definition has_sent : api := (create None (env_at 0 100%N) user 7%N request KindRun start).1.
Definition nobody : backend := mkBackend empty_db ∅ [] [].
Definition after (n : nat) : backend := fold_left (fun b e => act e b) (take n before_report) nobody.
Definition finished : backend := act (AtControlPlane (Moved reporting)) (after 8).

(** An event that is possible does what [act] says. *)
Definition possible (b : backend) (e : backend_event) : Prop :=
  match e with
  | AtControlPlane e =>
      match e with
      | Delivered _ d => write the_request = Ok (dl_Body d)
      | Moved op => ~ creates op /\ from_a_worker b (Moved op)
      end
  | AtWorker p e =>
      exists w, be_workers b !! p = Some w /\ answered executed b w e /\ is_Some (WorkerLoop.step w e)
  | WorkerStarts p _ _ => be_workers b !! p = None
  | WorkerDies _ => True
  end.

Lemma act_step b e :
  possible b e -> backend_step write read executed [the_request] b e (act e b).
Proof.
  destruct e as [[env d | op] | p e | p cfg fresh | p].
  - intros Hd. apply (step_cp _ _ _ _ (Delivered env d) b); [| done].
    by apply (move_delivered _ _ _ _ _ the_request); [constructor |].
  - intros [Hop Hfrom]. apply (step_cp _ _ _ _ (Moved op) b); [by apply move_op | done].
  - intros (w & Hp & Hans & [[w' out] Hs]). simpl. rewrite Hp, Hs. by eapply step_worker.
  - intros Hp. by apply (step_starts _ _ _ _ p cfg fresh b).
  - intros _. apply (step_dies _ _ _ _ p b).
Qed.

Definition worker_at (n : nat) : worker :=
  default (WorkerLoop.New settings "") (be_workers (after n) !! 0%nat).

Lemma executing : wk_threads (worker_at 7) = {[0%nat := mkThread given Executing]}.
Proof. vm_compute. reflexivity. Qed.

Lemma claimed_for_w1 : be_claimed (after 5) = [("w1", given)].
Proof. vm_compute. reflexivity. Qed.

Lemma steps_possible n e : before_report !! n = Some e -> possible (after n) e.
Proof.
  destruct n as [| [| [| [| [| [| [| [| n]]]]]]]]; intros He; [.. | done]; injection He as <-.
  - simpl. unfold write. by rewrite bool_decide_eq_true_2.
  - by split; [intros [] |].
  - vm_compute. reflexivity.
  - exists (worker_at 3). split_and!; [vm_compute; reflexivity | done | vm_compute; by eexists].
  - by split; [intros [] |].
  - exists (worker_at 5). split_and!; [vm_compute; reflexivity | | vm_compute; by eexists].
    exists (Reply (respondJSON StatusOK (AssignmentBody given))). split; [| vm_compute; reflexivity].
    right. right. exists given. split; [| reflexivity]. rewrite claimed_for_w1.
    apply list_elem_of_singleton. reflexivity.
  - exists (worker_at 6). split_and!; [vm_compute; reflexivity | done | vm_compute; by eexists].
  - exists (worker_at 7). split_and!; [vm_compute; reflexivity | | vm_compute; by eexists].
    intros th. rewrite executing. intros [_ <-]%lookup_singleton_Some. exact outcome_executed.
Qed.

Lemma run_after n :
  (n <= 8)%nat -> run (backend_step write read executed [the_request]) nobody (take n before_report) (after n).
Proof.
  induction n as [| n IH]; intros Hn; [constructor |].
  destruct (lookup_lt_is_Some_2 before_report n) as [e He]; [simpl; lia |].
  unfold after. rewrite (take_S_r _ _ _ He), fold_left_app.
  eapply run_app; [apply IH; lia |]. econstructor; [| constructor].
  by apply act_step, steps_possible.
Qed.

Lemma reporting_thread : wk_threads (worker_at 8) = {[0%nat := mkThread given (Reporting verdict)]}.
Proof. vm_compute. reflexivity. Qed.

Lemma the_report_flies : in_flight (after 8) 9%N verdict.
Proof.
  left. exists 0%nat, (worker_at 8), 0%nat, (mkThread given (Reporting verdict)).
  rewrite reporting_thread. split_and!; [vm_compute; reflexivity | done | vm_compute; reflexivity | done].
Qed.

(** The report has arrived; the worker learns it while the user looks. *)
Definition looking : view_env :=
  mkViewEnv no_faults 5 (fun _ _ => true) None
    (Reply (GetJobBySubmission_handler no_faults fifo (Some 100%N) (be_cp finished)).2)
    (Reply (GetJobResult_handler no_faults String.leb (Some 9%N) (be_cp finished)).2).
Definition learned : backend := act (AtWorker 0 (Reported 0 true)) finished.
Definition done_with : platform :=
  mkPlatform (mkApi (GetSubmission None looking 100%N user false (ap_db has_sent)).1
                (ap_queue has_sent)) learned.

Definition day : list platform_event :=
  Submits (env_at 0 100%N) user 7%N request KindRun ::
  (Behind <$> before_report ++ [AtControlPlane (Moved reporting)]) ++
  [Views looking 100%N user false [AtWorker 0 (Reported 0 true)]].

Lemma behind_run a b evs b' :
  run (backend_step write read executed (ap_queue a)) b evs b' ->
  run (platform_step None write read executed) (mkPlatform a b) (Behind <$> evs) (mkPlatform a b').
Proof. induction 1; [constructor |]. econstructor; [by constructor | done]. Qed.

Lemma sent_queue : ap_queue has_sent = [the_request].
Proof. exact the_request_is_queued. Qed.

Lemma learning : possible finished (AtWorker 0 (Reported 0 true)).
Proof. exists (worker_at 8). split_and!; [vm_compute; reflexivity | done | vm_compute; by eexists]. Qed.

Lemma job_of_the_day_found :
  exists job, CPClient_GetJobBySubmission None (ve_job looking) = Ok job /\ j_ID job = 9%N.
Proof. eexists. split; vm_compute; reflexivity. Qed.

Lemma whole_day_run : run (platform_step None write read executed) (mkPlatform start nobody) day done_with.
Proof.
  apply (run_cons _ _ _ (mkPlatform has_sent nobody)).
  { apply (step_submits _ _ _ _ (env_at 0 100%N) user 7%N request KindRun). }
  eapply run_app; [apply behind_run | econstructor; [| constructor]].
  - rewrite sent_queue. eapply run_app; [apply (run_after 8); lia |].
    econstructor; [| constructor]. apply act_step. split; [by intros [] |].
    split; [reflexivity | exists verdict; split; [exact the_report_flies | reflexivity]].
  - apply (step_views _ _ _ _ looking 100%N user false [AtWorker 0 (Reported 0 true)] has_sent finished learned).
    + rewrite sent_queue. econstructor; [| constructor]. apply act_step, learning.
    + right. by exists no_faults, fifo.
    + right. destruct job_of_the_day_found as (job & Hjob & Hid).
      exists no_faults, String.leb, job. split; [exact Hjob | by rewrite Hid].
Qed.

Lemma beginning : platform_initial (mkPlatform start nobody).
Proof. split; [exact catalogue_initial | reflexivity..]. Qed.

Lemma verdict_of_the_day :
  sw_OverallVerdict <$> sd_results (ap_db (pf_api done_with)) !! 100%N = Some "Accepted".
Proof. vm_compute. reflexivity. Qed.

Lemma verdicts_are_executions_witness :
  exists w a workerID result, sw_OverallVerdict w = "Accepted" /\ executed a result /\
    tells w (via_json (buildReportRequest workerID result)).
Proof.
  pose proof verdict_of_the_day as Hv. apply fmap_Some in Hv as (w & Hw & Hv).
  destruct (verdicts_are_executions None write read executed (mkPlatform start nobody) day done_with
    100%N w sample_round_trips published_round_trips beginning whole_day_run Hw)
    as (env & u & pr & req & kind & ad & q & a & workerID & result & _ & _ & _ & Hex & Ht).
  exists w, a, workerID, result. by split_and!.
Defined.

End EndToEndExample.
