(* ===== verification/Startup.v ===== *)
(** * Start-up and shutdown of the servers

    [main] of [cmd/api/main.go] and of [cmd/control-plane/main.go], with
    [pkg/database], [pkg/migrations] and the configurations: what a server has
    done before it answers its first request, what it leaves behind when it
    ends, and which settings it starts with.  A process is the state of what
    it has opened; [log.Fatal] ends it without its deferred calls.  Reading
    the environment ([envconfig]), the drivers and the migrations themselves
    are decided by the environment of a run. *)

From S2P Require Import Prelude Sql GoStrings CPHttp ApiHttp.
From S2P Require Import AuthRepo AuthService AuthFacts AuthTheorems RbacRepo RbacService RbacFacts RbacSeed.
From S2P Require Import HostFiles FirecrackerExec WorkerLoop MailWorker.
From S2P Require Import CPService Amqp AmqpTheorems JobIntake AiDomain AiService.

(** ** Processes *)

(** A call that [defer] has set up. *)
Inductive deferred :=
  | SyncLog
  | StopSignals
  | CloseDB
  | ClosePublisher (pub : Publisher)
  | CloseConsumer (c : Consumer)
  | CancelShutdown.

(** [D] are the tables that start-up writes to, [S] what a server answers
    with; once it serves, with the tables it found then. *)
Record process (D S : Type) := mkProcess {
  ps_pool : bool;
  ps_migrated : option string;
  ps_wire : wire;
  ps_tables : D;
  ps_deferred : list deferred;
  ps_served : option (S * D)
}.
Arguments mkProcess {D S}.
Arguments ps_pool {D S}.
Arguments ps_migrated {D S}.
Arguments ps_wire {D S}.
Arguments ps_tables {D S}.
Arguments ps_deferred {D S}.
Arguments ps_served {D S}.

Definition fatal_at (msg e : string) : string := msg ++s ": " ++s e.

(** What ends the two phases of a server. *)
Inductive listening :=
  | BindFails (e : string)
  | AcceptFails (e : string)
  | Signalled.

(** [sql.Open] and [Ping]; [migrate]'s driver, source and [Up]. *)
Record db_answers := mkDbAnswers { dn_Open : option string; dn_Ping : option string }.

Inductive up_answer := UpDone | ErrNoChange | UpFails (e : string).
Record migrate_answers := mkMigrateAnswers {
  mg_WithInstance : option string;
  mg_NewWithDatabaseInstance : string -> option string;
  mg_Up : up_answer
}.

Section Process.
Context {D S : Type}.
Implicit Types p : process D S.

Definition set_pool (b : bool) : M (process D S) string () := fun p =>
  (mkProcess b (ps_migrated p) (ps_wire p) (ps_tables p) (ps_deferred p) (ps_served p), Ok tt).

Definition defer (d : deferred) : M (process D S) string () := fun p =>
  (mkProcess (ps_pool p) (ps_migrated p) (ps_wire p) (ps_tables p) (d :: ps_deferred p) (ps_served p),
   Ok tt).

Definition on_wire {E A} (m : M wire E A) : M (process D S) E A := fun p =>
  let '(w, r) := m (ps_wire p) in
  (mkProcess (ps_pool p) (ps_migrated p) w (ps_tables p) (ps_deferred p) (ps_served p), r).

Definition on_tables {E A} (m : M D E A) : M (process D S) E A := fun p =>
  let '(d, r) := m (ps_tables p) in
  (mkProcess (ps_pool p) (ps_migrated p) (ps_wire p) d (ps_deferred p) (ps_served p), r).

(** *** [pkg/database] *)

Definition Connect (env : db_answers) : M (process D S) string () :=
  match dn_Open env with
  | Some e => fail ("failed to open database: " ++s e)
  | None =>
      _ ← set_pool true;
      match dn_Ping env with
      | Some e => _ ← set_pool false; fail ("failed to ping database: " ++s e)
      | None => mret tt
      end
  end.

Definition MustConnect (env : db_answers) : M (process D S) string () :=
  map_err (fatal_at "Database connection failed") (Connect env).

(** *** [pkg/migrations] *)

Definition RunMigrations (env : migrate_answers) (migrationsPath : string)
  : M (process D S) string () := fun p =>
  match mg_WithInstance env with
  | Some e => (p, Err ("could not create database driver: " ++s e))
  | None =>
      let source := "file://" ++s migrationsPath in
      match mg_NewWithDatabaseInstance env source with
      | Some e => (p, Err ("could not create migrate instance: " ++s e))
      | None =>
          match mg_Up env with
          | UpFails e => (p, Err ("could not run migrations: " ++s e))
          | UpDone | ErrNoChange =>
              (mkProcess (ps_pool p) (Some source) (ps_wire p) (ps_tables p) (ps_deferred p)
                 (ps_served p), Ok tt)
          end
      end
  end.

(** The connection, and the migrations on it. *)
Definition open_database (db : db_answers) (abs : string -> result string string)
    (mg : migrate_answers) (no_path no_migrations migrationsPath : string)
  : M (process D S) string () :=
  _ ← MustConnect db;
  _ ← defer CloseDB;
  absPath ← map_err (fatal_at no_path) (lift (abs migrationsPath));
  map_err (fatal_at no_migrations) (RunMigrations mg absPath).

(** *** Serving until a signal *)

(** [meanwhile] is what the requests do to the tables and the wire. *)
Definition serves (srv : S) (meanwhile : wire * D -> wire * D) : M (process D S) string () := fun p =>
  let '(w, d) := meanwhile (ps_wire p, ps_tables p) in
  (mkProcess (ps_pool p) (ps_migrated p) w d (ps_deferred p) (Some (srv, ps_tables p)), Ok tt).

Definition ListenAndServe (msg : string) (srv : S) (meanwhile : wire * D -> wire * D)
    (outcome : listening) : M (process D S) string () :=
  match outcome with
  | BindFails e => fail (fatal_at msg e)
  | AcceptFails e => _ ← serves srv meanwhile; fail (fatal_at msg e)
  | Signalled => serves srv meanwhile
  end.

(** *** The end of a process *)

Definition run_one (io : faults) (d : deferred) (p : process D S) : process D S :=
  match d with
  | CloseDB =>
      mkProcess false (ps_migrated p) (ps_wire p) (ps_tables p) (ps_deferred p) (ps_served p)
  | ClosePublisher pub =>
      mkProcess (ps_pool p) (ps_migrated p) (Publisher_Close io pub (ps_wire p)).1 (ps_tables p)
        (ps_deferred p) (ps_served p)
  | CloseConsumer c =>
      mkProcess (ps_pool p) (ps_migrated p) (Consumer_Close io c (ps_wire p)).1 (ps_tables p)
        (ps_deferred p) (ps_served p)
  | SyncLog | StopSignals | CancelShutdown => p
  end.

(** The deferred calls, last one first. *)
Definition run_deferred (io : faults) (p : process D S) : process D S :=
  let p' := fold_left (fun p d => run_one io d p) (ps_deferred p) p in
  mkProcess (ps_pool p') (ps_migrated p') (ps_wire p') (ps_tables p') [] (ps_served p').

(** Whether [main] returns: [log.Fatal] and a panic end the process without
    its deferred calls. *)
Definition exits (io : faults) (main : M (process D S) string ()) (p : process D S)
  : process D S * bool :=
  match main p with
  | (p', Ok _) => (run_deferred io p', true)
  | (p', Err _) => (p', false)
  end.

End Process.

(** ** The API server *)

(** [api.Config], without the log level. *)
Record ApiConfig := mkApiConfig {
  ac_Environment : string;
  ac_ServerPort : Z;
  ac_ServerHost : string;
  ac_AllowedOrigins : string;
  ac_SecureCookies : bool;
  ac_FrontendURL : string;
  ac_broker : api_broker_config;
  ac_DatabaseURL : string;
  ac_MigrationsPath : string;
  ac_ControlPlaneURL : string;
  ac_ControlPlaneKey : string;
  ac_JWTSecret : string;
  ac_JWTAccessTokenDuration : Z;
  ac_JWTRefreshTokenDuration : Z;
  ac_AIProvider : string;
  ac_AIModel : string;
  ac_AIAPIKey : string;
  ac_AIAPIBaseURL : string
}.

(** The defaults in the tags, and the variables without one. *)
Definition default_api_config (databaseURL controlPlaneURL jwtSecret aiAPIKey : string) : ApiConfig :=
  mkApiConfig "development" 9090 "0.0.0.0" "*" false "http://localhost:5173"
    (mkApiBrokerConfig "" "capstone.events" "email.verification" "jobs.create")
    databaseURL "./internal/api/migrations" controlPlaneURL "" jwtSecret 900 604800
    "anthropic" "claude-opus-4-1" aiAPIKey "".

Definition api_LoadConfig (Process : result string ApiConfig) : result string ApiConfig :=
  match Process with
  | Ok cfg => Ok cfg
  | Err e => Err ("failed to load config: " ++s e)
  end.

Inductive language_model :=
  | Ollama (m : OllamaModel)
  | OpenAI (modelID : string)
  | Anthropic (modelID : string).

(** [switch cfg.AIProvider] *)
Definition ai_model (cfg : ApiConfig) : language_model :=
  if bool_decide (ac_AIProvider cfg = "openai") then
    if bool_decide (ac_AIAPIBaseURL cfg = "") then OpenAI (ac_AIModel cfg)
    else Ollama (mkOllamaModel (ac_AIAPIBaseURL cfg) (ac_AIModel cfg) (ac_AIAPIKey cfg))
  else Anthropic (ac_AIModel cfg).

Definition jwt_manager (cfg : ApiConfig) : JWTManager :=
  mkJWTManager (ac_JWTSecret cfg) (wrap64 (ac_JWTAccessTokenDuration cfg * time_Second))
    (wrap64 (ac_JWTRefreshTokenDuration cfg * time_Second)).

Definition address (host : string) (port : Z) : string := host ++s ":" ++s show_int port.

(** What the handlers are built from. *)
Record api_server := mkApiServer {
  as_addr : string;
  as_jwt : JWTManager;
  as_mails : MessagePublisher;
  as_jobs : MessagePublisher;
  as_model : language_model;
  as_secureCookies : bool;
  as_frontendURL : string;
  as_controlPlane : string * string;
  as_origins : list string
}.

Definition the_broker_failed : string := "Failed to connect to RabbitMQ".

Section Api.
Context `{GoUnicode}.

Definition allowed_origins (cfg : ApiConfig) : list string :=
  if negb (bool_decide (ac_AllowedOrigins cfg = "")) && negb (bool_decide (ac_AllowedOrigins cfg = "*"))
  then TrimSpace <$> Split "," (ac_AllowedOrigins cfg)
  else ["*"].

Definition api_server_of (cfg : ApiConfig) (mails jobs : MessagePublisher) : api_server :=
  mkApiServer (address (ac_ServerHost cfg) (ac_ServerPort cfg)) (jwt_manager cfg) mails jobs
    (ai_model cfg) (ac_SecureCookies cfg) (ac_FrontendURL cfg)
    (ac_ControlPlaneURL cfg, ac_ControlPlaneKey cfg) (allowed_origins cfg).

(** What the outside answers during one run of the API server. *)
Record api_env := mkApiEnv {
  ae_Process : result string ApiConfig;
  ae_db : db_answers;
  ae_Abs : string -> result string string;
  ae_migrate : migrate_answers;
  ae_seed : rbac_env;
  ae_draw : nat -> uuid;
  ae_io : faults;
  ae_listen : listening;
  ae_meanwhile : wire * rbacdb -> wire * rbacdb;
  ae_Shutdown : option string
}.

(** The publishers, and the deferred end of their connection. *)
Definition api_publishers (env : api_env) (cfg : ApiConfig)
  : M (process rbacdb api_server) string (MessagePublisher * MessagePublisher) :=
  pubs ← map_err (fun e => fatal_at the_broker_failed (error_text e))
           (on_wire (start_publishers (ae_io env) (ac_broker cfg)));
  _ ← match pubs.2 with
      | AmqpPublisher pub _ => defer (ClosePublisher pub)
      | Noop => mret tt
      end;
  mret pubs.

Definition api_shutdown (env : api_env) : M (process rbacdb api_server) string () :=
  _ ← defer CancelShutdown;
  match ae_Shutdown env with
  | Some e => fail (fatal_at "Server shutdown failed" e)
  | None => mret tt
  end.

(** [main] up to the handlers, and all of it. *)
Definition api_prepare (env : api_env)
  : M (process rbacdb api_server) string (ApiConfig * (MessagePublisher * MessagePublisher)) :=
  cfg ← map_err (fatal_at "Failed to load config") (lift (api_LoadConfig (ae_Process env)));
  _ ← defer SyncLog;
  _ ← defer StopSignals;
  _ ← open_database (ae_db env) (ae_Abs env) (ae_migrate env)
        "Failed to get absolute path for migrations" "Failed to run migrations"
        (ac_MigrationsPath cfg);
  _ ← map_err (fun e => fatal_at "Failed to seed RBAC data" (error_text e))
        (on_tables (SeedCoreRBAC (ae_seed env) (ae_draw env)));
  pubs ← api_publishers env cfg;
  mret (cfg, pubs).

Definition api_main (env : api_env) : M (process rbacdb api_server) string () :=
  ready ← api_prepare env;
  let '(cfg, (mails, jobs)) := ready in
  _ ← ListenAndServe "Server error" (api_server_of cfg mails jobs) (ae_meanwhile env) (ae_listen env);
  api_shutdown env.

End Api.

(** ** The control plane *)

(** [controlplane.Config], without the log level. *)
Record CPConfig := mkCPConfig {
  cp_Environment : string;
  cp_ServerHost : string;
  cp_ServerPort : Z;
  cp_DatabaseURL : string;
  cp_MigrationsPath : string;
  cp_InternalKey : string;
  cp_intake : intake_config;
  cp_LeaseDurationSec : Z;
  cp_LeaseCheckIntervalSec : Z;
  cp_HeartbeatTimeoutSec : Z;
  cp_WorkerSweepIntervalSec : Z
}.

Definition default_cp_config (databaseURL : string) : CPConfig :=
  mkCPConfig "development" "0.0.0.0" 9091 databaseURL "./internal/controlplane/migrations" ""
    (mkIntakeConfig "" "capstone.events" "cp.jobs.create" "jobs.create") 60 10 30 15.

Definition cp_LoadConfig (Process : result string CPConfig) : result string CPConfig :=
  match Process with
  | Ok cfg => Ok cfg
  | Err e => Err ("failed to load control-plane config: " ++s e)
  end.

(** What the control plane's handlers and sweeps are built from: without a
    key there is no check. *)
Record cp_server := mkCPServer {
  cv_addr : string;
  cv_service : CPService.Config;
  cv_internalKey : string;
  cv_consumes : bool
}.

Definition cp_server_of (cfg : CPConfig) (consumer : option Consumer) : cp_server :=
  mkCPServer (address (cp_ServerHost cfg) (cp_ServerPort cfg))
    (New (mkConfig (LeaseDuration (cp_LeaseDurationSec cfg)) (HeartbeatTimeout (cp_HeartbeatTimeoutSec cfg))))
    (cp_InternalKey cfg) (bool_decide (is_Some consumer)).

(** What the outside answers during one run; [ce_sweeps_first] tells whether
    the sweeps' goroutines run before the server's. *)
Record cp_env := mkCPEnv {
  ce_Process : result string CPConfig;
  ce_db : db_answers;
  ce_Abs : string -> result string string;
  ce_migrate : migrate_answers;
  ce_wire_io : faults;
  ce_sweeps_first : bool;
  ce_listen : listening;
  ce_meanwhile : wire * () -> wire * ();
  ce_Shutdown : option string
}.

Definition cp_consumer (env : cp_env) (cfg : CPConfig)
  : M (process () cp_server) string (option Consumer) :=
  consumer ← map_err (fun e => fatal_at "failed to create job consumer" (error_text e))
               (on_wire (start_intake (ce_wire_io env) (cp_intake cfg)));
  _ ← match consumer with Some c => defer (CloseConsumer c) | None => mret tt end;
  mret consumer.

(** [time.NewTicker] panics unless the interval is positive; the panic of a
    goroutine ends the process. *)
Definition NewTicker (d : Z) : option string :=
  if d <=? 0 then Some "panic: non-positive interval for NewTicker" else None.

Definition sweeps_panic (cfg : CPConfig) : option string :=
  match NewTicker (LeaseCheckInterval (cp_LeaseCheckIntervalSec cfg)) with
  | Some e => Some e
  | None => NewTicker (WorkerSweepInterval (cp_WorkerSweepIntervalSec cfg))
  end.

Definition cp_serve (env : cp_env) (cfg : CPConfig) (consumer : option Consumer)
  : M (process () cp_server) string () :=
  let serving := ListenAndServe "server error" (cp_server_of cfg consumer) (ce_meanwhile env) in
  match sweeps_panic cfg with
  | Some e =>
      if ce_sweeps_first env then fail e
      else _ ← serving (ce_listen env); fail e
  | None => serving (ce_listen env)
  end.

(** [main] up to the handlers, and all of it: a failed shutdown is only
    logged. *)
Definition cp_prepare (env : cp_env)
  : M (process () cp_server) string (CPConfig * option Consumer) :=
  cfg ← map_err (fatal_at "failed to load config") (lift (cp_LoadConfig (ce_Process env)));
  _ ← defer SyncLog;
  _ ← defer StopSignals;
  _ ← open_database (ce_db env) (ce_Abs env) (ce_migrate env)
        "failed to resolve migrations path" "migrations failed" (cp_MigrationsPath cfg);
  consumer ← cp_consumer env cfg;
  mret (cfg, consumer).

Definition cp_main (env : cp_env) : M (process () cp_server) string () :=
  ready ← cp_prepare env;
  let '(cfg, consumer) := ready in
  _ ← cp_serve env cfg consumer;
  defer CancelShutdown.

(** ** The other two configurations *)

Definition default_worker_config (controlPlaneURL : string) : FirecrackerExec.Config :=
  FirecrackerExec.mkConfig "development" "info" "" "python,javascript,go" 1 controlPlaneURL "" 10 100 20
    false "docker" "runc" "/usr/bin/firecracker" "/usr/bin/jailer" "/var/lib/fc/vmlinux"
    ["var"; "lib"; "fc"; "rootfs"] ["var"; "lib"; "fc"; "snapshots"] ["srv"; "jailer"] 900 900 1 256.

Definition default_mail_config (brokerURL host username password from : string) : mail_config :=
  mkMailConfig brokerURL "capstone.events" "email.verification" "capstone.email.verification"
    host 587 username password from.

(** * What start-up guarantees *)

(** ** Before the first request

    [quiet]: a part of start-up that serves nobody. *)

Section Quiet.
Context {D S : Type}.
Implicit Types p : process D S.

Definition quiet {A} (m : M (process D S) string A) : Prop :=
  forall p, ps_served (m p).1 = ps_served p.

(** Who serves in the end has been through the first part, which succeeded. *)
Lemma served_bind {A B} (m : M (process D S) string A) (k : A -> M (process D S) string B) p x :
  quiet m -> ps_served p = None -> ps_served ((a ← m; k a) p).1 = Some x ->
  exists a p', m p = (p', Ok a) /\ ps_served p' = None /\ ps_served (k a p').1 = Some x.
Proof.
  intros Hq Hp. unfold mbind, M_bind. specialize (Hq p).
  destruct (m p) as [p' [a | e]]; simpl in *; [| congruence].
  intros Hs. exists a, p'. split_and!; [done | congruence | done].
Qed.

(** What comes after serving does not change who was served. *)
Lemma served_before {A B} (m : M (process D S) string A) (k : A -> M (process D S) string B) p :
  (forall a, quiet (k a)) -> ps_served ((a ← m; k a) p).1 = ps_served (m p).1.
Proof.
  intros Hk. unfold mbind, M_bind. destruct (m p) as [p' [a | e]]; [apply Hk | done].
Qed.

Lemma quiet_lift {A} (r : result string A) : quiet (lift r).
Proof. by intros p. Qed.

Lemma quiet_ret {A} (a : A) : quiet (mret a).
Proof. by intros p. Qed.

Lemma quiet_defer d : quiet (defer d).
Proof. by intros p. Qed.

Lemma quiet_map_err {A} f (m : M (process D S) string A) : quiet m -> quiet (map_err f m).
Proof. intros Hm p. specialize (Hm p). unfold map_err. by destruct (m p) as [p' [a | e]]. Qed.

Lemma quiet_seq {A B} (m : M (process D S) string A) (k : A -> M (process D S) string B) :
  quiet m -> (forall a, quiet (k a)) -> quiet (a ← m; k a).
Proof.
  intros Hm Hk p. specialize (Hm p). unfold mbind, M_bind.
  destruct (m p) as [p' [a | e]]; simpl in *; [| done]. by rewrite Hk.
Qed.

Lemma quiet_on_wire {E A} f (m : M wire E A) : quiet (map_err f (on_wire m)).
Proof. intros p. unfold map_err, on_wire. by destruct (m (ps_wire p)) as [w [a | e]]. Qed.

Lemma quiet_on_tables {E A} f (m : M D E A) : quiet (map_err f (on_tables m)).
Proof. intros p. unfold map_err, on_tables. by destruct (m (ps_tables p)) as [w [a | e]]. Qed.

Lemma quiet_open_database db abs mg a b path :
  quiet (open_database (D := D) (S := S) db abs mg a b path).
Proof.
  unfold open_database, MustConnect. apply quiet_seq; [apply quiet_map_err |].
  - intros p. unfold Connect, set_pool. mrun. by repeat case_match; simplify_eq.
  - intros _. apply quiet_seq; [apply quiet_defer |]. intros _.
    apply quiet_seq; [apply quiet_map_err, quiet_lift |]. intros x. apply quiet_map_err.
    intros p. unfold RunMigrations. by repeat case_match.
Qed.

(** What an opened database is: reachable, and migrated from the path the
    configuration names. *)
Lemma open_database_Ok db abs mg a b path p p' :
  open_database db abs mg a b path p = (p', Ok tt) ->
  dn_Open db = None /\ dn_Ping db = None /\
  exists absPath, abs path = Ok absPath /\
    (mg_Up mg = UpDone \/ mg_Up mg = ErrNoChange) /\
    p' = mkProcess true (Some ("file://" ++s absPath)) (ps_wire p) (ps_tables p)
           (CloseDB :: ps_deferred p) (ps_served p).
Proof.
  unfold open_database, MustConnect, Connect, set_pool, defer, map_err, RunMigrations. mrun.
  destruct (dn_Open db); [done |]. destruct (dn_Ping db); [done |].
  destruct (abs path) as [absPath | e]; [| done].
  destruct (mg_WithInstance mg); [done |]. destruct (mg_NewWithDatabaseInstance mg _); [done |].
  intros Hup. split_and!; [done | done |]. exists absPath.
  destruct (mg_Up mg); try done; injection Hup as <-; by split_and!; [| auto |].
Qed.

Lemma run_deferred_served io p : ps_served (run_deferred io p) = ps_served p.
Proof.
  unfold run_deferred. simpl.
  assert (forall l q, ps_served (fold_left (fun p d => run_one io d p) l q) = ps_served q) as Hall.
  { induction l as [| d l IH]; intros q; simpl; [done |]. rewrite IH. by destruct d. }
  apply Hall.
Qed.

(** A process has served if its [main] has. *)
Lemma exits_served io main p : ps_served (exits io main p).1 = ps_served (main p).1.
Proof. unfold exits. destruct (main p) as [p' [[] | e]]; [apply run_deferred_served | done]. Qed.

Lemma served_by_listening msg srv meanwhile outcome p x :
  ps_served p = None -> ps_served (ListenAndServe msg srv meanwhile outcome p).1 = Some x ->
  x = (srv, ps_tables p).
Proof.
  intros Hp. unfold ListenAndServe, serves. mrun. destruct outcome; simpl; [congruence | |];
    destruct (meanwhile _); simpl; congruence.
Qed.

End Quiet.

#[export] Hint Resolve quiet_lift quiet_ret quiet_defer quiet_map_err quiet_on_wire quiet_on_tables
  quiet_open_database : capstone.

(** ** The API *)

Section ApiTheorems.
Context `{GoUnicode}.

(** The deferred end of the publishers. *)
Definition closers (jobs : MessagePublisher) : list deferred :=
  match jobs with AmqpPublisher pub _ => [ClosePublisher pub] | Noop => [] end.

Lemma api_prepare_Ok env p p' cfg mails jobs :
  api_prepare env p = (p', Ok (cfg, (mails, jobs))) ->
  exists absPath w tables,
    ae_Process env = Ok cfg /\ dn_Open (ae_db env) = None /\ dn_Ping (ae_db env) = None /\
    ae_Abs env (ac_MigrationsPath cfg) = Ok absPath /\
    (mg_Up (ae_migrate env) = UpDone \/ mg_Up (ae_migrate env) = ErrNoChange) /\
    SeedCoreRBAC (ae_seed env) (ae_draw env) (ps_tables p) = (tables, Ok tt) /\
    start_publishers (ae_io env) (ac_broker cfg) (ps_wire p) = (w, Ok (mails, jobs)) /\
    p' = mkProcess true (Some ("file://" ++s absPath)) w tables
           (closers jobs ++ CloseDB :: StopSignals :: SyncLog :: ps_deferred p) (ps_served p).
Proof.
  unfold api_prepare. rewrite bind_ok. intros (p1 & cfg0 & E1 & E).
  assert (ae_Process env = Ok cfg0 /\ p1 = p) as [Hcfg ->].
  { revert E1. unfold map_err, lift, api_LoadConfig. by destruct (ae_Process env); intros [= <- <-]. }
  rewrite bind_ok in E. destruct E as (? & [] & [= <-] & E).
  rewrite bind_ok in E. destruct E as (? & [] & [= <-] & E).
  rewrite bind_ok in E.
  destruct E as (? & [] & (Hopen & Hping & absPath & Habs & Hup & ->)%open_database_Ok & E).
  rewrite bind_ok in E. destruct E as (p5 & [] & E5 & E). revert E5.
  unfold map_err at 1, on_tables. simpl.
  destruct (SeedCoreRBAC _ _ _) as [d [[] | e]] eqn:Eseed; [intros [= <-] | done]. revert E.
  unfold api_publishers, map_err, on_wire, defer. mrun. simpl.
  destruct (start_publishers _ _ _) as [w [[mails0 jobs0] | e]] eqn:Epubs; [| done]. simpl.
  destruct jobs0; intros [= <- <- <- <-]; exists absPath, w, d; by split_and!.
Qed.

Lemma quiet_api_publishers env cfg : quiet (api_publishers env cfg).
Proof.
  apply quiet_seq; [apply quiet_on_wire |]. intros [mails jobs].
  apply quiet_seq; [by destruct jobs; auto with capstone | auto with capstone].
Qed.

Lemma quiet_api_prepare env : quiet (api_prepare env).
Proof.
  unfold api_prepare. repeat (apply quiet_seq; [auto using quiet_api_publishers with capstone | intros ?]).
  auto with capstone.
Qed.

(** The API answers requests only after it has reached its database, brought
    its tables to the newest version, completed the core permissions and
    roles, and, when a broker is configured, connected to it: the tables that
    the first request finds are the seeded ones.  Nothing that fails on the
    way is passed over. *)
Theorem api_serves_only_when_ready io env p srv tables :
  ps_served p = None -> ps_served (exits io (api_main env) p).1 = Some (srv, tables) ->
  exists cfg absPath mails jobs w,
    ae_Process env = Ok cfg /\ dn_Open (ae_db env) = None /\ dn_Ping (ae_db env) = None /\
    ae_Abs env (ac_MigrationsPath cfg) = Ok absPath /\
    (mg_Up (ae_migrate env) = UpDone \/ mg_Up (ae_migrate env) = ErrNoChange) /\
    SeedCoreRBAC (ae_seed env) (ae_draw env) (ps_tables p) = (tables, Ok tt) /\
    start_publishers (ae_io env) (ac_broker cfg) (ps_wire p) = (w, Ok (mails, jobs)) /\
    srv = api_server_of cfg mails jobs.
Proof.
  intros Hp. rewrite exits_served. unfold api_main.
  intros ([cfg [mails jobs]] & p1 & E & Hp1 & Hs)%served_bind; [| apply quiet_api_prepare | done].
  apply api_prepare_Ok in E as (absPath & w & d & ? & ? & ? & ? & ? & Hseed & ? & ->).
  rewrite served_before in Hs.
  - apply served_by_listening in Hs as [= -> ->]; [| done].
    exists cfg, absPath, mails, jobs, w. by split_and!.
  - intros _. apply quiet_seq; [auto with capstone |]. intros _. by destruct (ae_Shutdown env).
Qed.

Lemma start_publishers_Ok io cfg log log' mails jobs :
  bc_RabbitMQURL cfg <> "" -> start_publishers io cfg log = (log', Ok (mails, jobs)) ->
  exists pub key, jobs = AmqpPublisher pub key /\ pb_conn pub = true /\ pb_ch pub = true.
Proof.
  intros Hurl. unfold start_publishers. rewrite bool_decide_eq_false_2 by done.
  rewrite bind_ok. intros (log1 & pub & Hpub & [= _ _ <-]).
  eexists pub, _. split; [reflexivity | by eapply NewPublisher_Ok].
Qed.

Lemma close_both_calls io log : (close_both io true true log).1 = log ++ release_all.
Proof.
  unfold close_both, close_if, amqp, logged, errors_Join. mrun. simpl. rewrite <- app_assoc.
  by destruct (app _ _).
Qed.

(** When [main] returns, everything it has opened is closed: the signal has
    come, the server has shut down, and with a broker the channel and the
    connection have been closed, in this order.  (A fatal error runs none of
    the deferred calls, not even after a failed shutdown.) *)
Theorem api_returns_clean io env p p' :
  ps_deferred p = [] -> exits io (api_main env) p = (p', true) ->
  ae_listen env = Signalled /\ ae_Shutdown env = None /\
  ps_pool p' = false /\ ps_deferred p' = [] /\
  exists cfg, ae_Process env = Ok cfg /\
    (bc_RabbitMQURL (ac_broker cfg) <> "" -> exists log, ps_wire p' = log ++ release_all).
Proof.
  intros Hp. unfold exits.
  destruct (api_main env p) as [p1 [[] | e]] eqn:E; [| done]. intros [= <-]. revert E.
  unfold api_main. rewrite bind_ok. intros (p2 & [cfg [mails jobs]] & E & Hs).
  apply api_prepare_Ok in E as (absPath & w & d & Hcfg & _ & _ & _ & _ & _ & Hpubs & ->). revert Hs.
  unfold ListenAndServe, serves, api_shutdown, defer. mrun.
  destruct (ae_listen env); [done | by destruct (ae_meanwhile _ _) |].
  destruct (ae_meanwhile _ _) as [w' d']. destruct (ae_Shutdown env); [done |]. simpl.
  intros [= <-]. rewrite Hp. simpl.
  split_and!; [done | done | by destruct jobs | done |]. exists cfg. split; [done |].
  intros Hurl. apply (start_publishers_Ok _ _ _ _ _ _ Hurl) in Hpubs as (pub & key & -> & Hconn & Hch).
  simpl. unfold Publisher_Close. rewrite Hconn, Hch.
  exists w'. rewrite <- (close_both_calls io w').
  by destruct (close_both io true true w').
Qed.

End ApiTheorems.

(** ** The control plane *)

Lemma cp_prepare_Ok env p p' cfg consumer :
  cp_prepare env p = (p', Ok (cfg, consumer)) ->
  exists absPath w,
    ce_Process env = Ok cfg /\ dn_Open (ce_db env) = None /\ dn_Ping (ce_db env) = None /\
    ce_Abs env (cp_MigrationsPath cfg) = Ok absPath /\
    (mg_Up (ce_migrate env) = UpDone \/ mg_Up (ce_migrate env) = ErrNoChange) /\
    start_intake (ce_wire_io env) (cp_intake cfg) (ps_wire p) = (w, Ok consumer) /\
    ps_served p' = ps_served p.
Proof.
  unfold cp_prepare. rewrite bind_ok. intros (p1 & cfg0 & E1 & E).
  assert (ce_Process env = Ok cfg0 /\ p1 = p) as [Hcfg ->].
  { revert E1. unfold map_err, lift, cp_LoadConfig. by destruct (ce_Process env); intros [= <- <-]. }
  rewrite bind_ok in E. destruct E as (? & [] & [= <-] & E).
  rewrite bind_ok in E. destruct E as (? & [] & [= <-] & E).
  rewrite bind_ok in E.
  destruct E as (? & [] & (Hopen & Hping & absPath & Habs & Hup & ->)%open_database_Ok & E).
  revert E. unfold cp_consumer, map_err, on_wire, defer. mrun. simpl.
  destruct (start_intake _ _ _) as [w [c | e]] eqn:Eintake; [| done]. simpl.
  destruct c; intros [= <- <- <-]; exists absPath, w; by split_and!.
Qed.

Lemma quiet_cp_prepare env : quiet (cp_prepare env).
Proof.
  assert (forall cfg, quiet (cp_consumer env cfg)) as Hconsumer.
  { intros cfg. apply quiet_seq; [apply quiet_on_wire |]. intros [c |];
      (apply quiet_seq; [auto with capstone |]; auto with capstone). }
  unfold cp_prepare. repeat (apply quiet_seq; [auto with capstone | intros ?]); auto with capstone.
Qed.

(** The control plane serves only with its database migrated and, when a
    broker is configured, with its consumer subscribed; the handlers check
    the key it was configured with. *)
Theorem cp_serves_only_when_ready io env p srv tables :
  ps_served p = None -> ps_served (exits io (cp_main env) p).1 = Some (srv, tables) ->
  exists cfg absPath consumer w,
    ce_Process env = Ok cfg /\ dn_Open (ce_db env) = None /\ dn_Ping (ce_db env) = None /\
    ce_Abs env (cp_MigrationsPath cfg) = Ok absPath /\
    (mg_Up (ce_migrate env) = UpDone \/ mg_Up (ce_migrate env) = ErrNoChange) /\
    start_intake (ce_wire_io env) (cp_intake cfg) (ps_wire p) = (w, Ok consumer) /\
    srv = cp_server_of cfg consumer.
Proof.
  intros Hp. rewrite exits_served. unfold cp_main.
  intros ([cfg consumer] & p1 & E & Hp1 & Hs)%served_bind; [| apply quiet_cp_prepare | done].
  apply cp_prepare_Ok in E as (absPath & w & ? & ? & ? & ? & ? & ? & _).
  exists cfg, absPath, consumer, w. split_and!; try done.
  rewrite served_before in Hs by (intros; apply quiet_defer). revert Hs. unfold cp_serve.
  destruct (sweeps_panic cfg); [destruct (ce_sweeps_first env); [simpl; congruence |] |].
  - rewrite served_before by (intros _ q; done). by intros [= ->]%served_by_listening.
  - by intros [= ->]%served_by_listening.
Qed.

(** A sweep interval that is not positive, be it by configuration or because
    the product with a second wraps around, ends the control plane. *)
Theorem sweeps_need_intervals io env p cfg :
  ce_Process env = Ok cfg ->
  LeaseCheckInterval (cp_LeaseCheckIntervalSec cfg) <= 0 \/
  WorkerSweepInterval (cp_WorkerSweepIntervalSec cfg) <= 0 ->
  (exits io (cp_main env) p).2 = false.
Proof.
  intros Hcfg Hint. unfold exits, cp_main.
  destruct (cp_prepare env p) as [p1 [[cfg' consumer] | e]] eqn:E; unfold mbind, M_bind; rewrite E; [| done].
  apply cp_prepare_Ok in E as (absPath & w & Hcfg' & _). rewrite Hcfg in Hcfg'. injection Hcfg' as <-.
  assert (exists e, sweeps_panic cfg = Some e) as [e He].
  { unfold sweeps_panic, NewTicker.
    destruct (Z.leb_spec (LeaseCheckInterval (cp_LeaseCheckIntervalSec cfg)) 0); [by eexists |].
    destruct (Z.leb_spec (WorkerSweepInterval (cp_WorkerSweepIntervalSec cfg)) 0); [by eexists | lia]. }
  unfold cp_serve. rewrite He. destruct (ce_sweeps_first env); [done |].
  unfold mbind, M_bind. by destruct (ListenAndServe _ _ _ _ _) as [p2 [[] | e']].
Qed.

(** ** The defaults fit together

    The programs find each other on the broker, and the periods that have to
    be shorter than others are: a worker beats before it is taken for dead and
    renews before its lease ends, the sweeps run, and a session outlives its
    access tokens. *)
Theorem defaults_fit_together api_db cp_db cpURL secret key brokerURL host username password from :
  let api := default_api_config api_db cpURL secret key in
  let cp := default_cp_config cp_db in
  let worker := default_worker_config cpURL in
  let mail := default_mail_config brokerURL host username password from in
  let '(heartbeat, poll, renewal) := tickers worker in
  bc_RabbitMQExchange (ac_broker api) = ic_RabbitMQExchange (cp_intake cp) /\
  bc_RabbitMQJobsRoutingKey (ac_broker api) = ic_RabbitMQJobsRoutingKey (cp_intake cp) /\
  bc_RabbitMQExchange (ac_broker api) = mc_RabbitMQExchange mail /\
  bc_RabbitMQEmailVerificationRoutingKey (ac_broker api) = mc_RabbitMQRoutingKey mail /\
  ic_RabbitMQJobsQueue (cp_intake cp) <> mc_RabbitMQQueue mail /\
  ac_ServerPort api <> cp_ServerPort cp /\
  0 < poll /\
  0 < heartbeat < HeartbeatTimeout (cp_HeartbeatTimeoutSec cp) /\
  0 < renewal < LeaseDuration (cp_LeaseDurationSec cp) /\
  sweeps_panic cp = None /\
  0 < jm_accessTokenDuration (jwt_manager api) < jm_refreshTokenDuration (jwt_manager api).
Proof. vm_compute. done. Qed.

(** ** Shutdown

    Every request's context derives from the one that the signal ends
    ([BaseContext]), so the signal, which starts the 30 seconds of the
    graceful shutdown, also makes every statement that a request in flight
    still has to send fail. *)
Definition interrupted (n : nat) (io : faults) : faults := fun k =>
  if (k <? n)%nat then io k else Some "context canceled".

Module StartupExample.
#[local] Existing Instance AuthExample.lower_same.
#[local] Existing Instance AuthExample.plain_bcrypt.
#[local] Existing Instance AuthExample.one_token.
#[local] Existing Instance AuthExample.plain_url.

Definition stopping (env : auth_env) (n : nat) : auth_env :=
  mkAuthEnv (interrupted n (an_io env)) (an_clock env) (an_now env) (an_id1 env) (an_id2 env)
    (an_db_id env) (an_token env) (an_delivered env) (an_permissions env).

(** A signal between the two writes of a verification: the link is spent, and
    the address stays unverified. *)
Example shutdown_loses_a_link :
  let st := serve_all AuthExample.jm AuthExample.frontend AuthExample.registered empty_auth in
  exists st' e, VerifyEmail AuthExample.frontend (stopping AuthExample.verify 3) "mail-1" st = (st', Err e) /\
    (VerifyEmail AuthExample.frontend AuthExample.verify "mail-1" st').2
      = Err (Sentinel ErrInvalidVerificationToken) /\
    (exists user, au_users (as_db st') !! 1%N = Some user /\ u_EmailVerified user = false).
Proof.
  eexists _, _. split; [vm_compute; reflexivity |]. split; [vm_compute; reflexivity |].
  eexists. split; vm_compute; reflexivity.
Qed.

(** A run of the API: it finds an empty database, and serves until the
    signal. *)
Definition config : ApiConfig :=
  let cfg := default_api_config "postgres://db" "http://localhost:9091" "secret" "key" in
  mkApiConfig (ac_Environment cfg) (ac_ServerPort cfg) (ac_ServerHost cfg) "https://a.example, https://b.example"
    (ac_SecureCookies cfg) (ac_FrontendURL cfg)
    (mkApiBrokerConfig "amqp://broker" "capstone.events" "email.verification" "jobs.create")
    (ac_DatabaseURL cfg) (ac_MigrationsPath cfg) (ac_ControlPlaneURL cfg) (ac_ControlPlaneKey cfg)
    (ac_JWTSecret cfg) (ac_JWTAccessTokenDuration cfg) (ac_JWTRefreshTokenDuration cfg)
    (ac_AIProvider cfg) (ac_AIModel cfg) (ac_AIAPIKey cfg) (ac_AIAPIBaseURL cfg).
Definition running : api_env :=
  mkApiEnv (Ok config) (mkDbAnswers None None) (fun path => Ok ("/srv/" ++s path))
    (mkMigrateAnswers None (fun _ => None) UpDone) (RbacExample.renv 0%N) RbacExample.draw no_faults
    Signalled (fun st => st) None.
Definition fresh : process rbacdb api_server := mkProcess false None [] (empty_rbac ∅) [] None.

#[local] Existing Instance ascii_tables.

Example origins_are_trimmed :
  allowed_origins config = ["https://a.example"; "https://b.example"].
Proof. vm_compute. reflexivity. Qed.

Lemma api_serves_only_when_ready_witness :
  exists srv tables, ps_served (exits no_faults (api_main running) fresh).1 = Some (srv, tables) /\
    SeedCoreRBAC (RbacExample.renv 0%N) RbacExample.draw (empty_rbac ∅) = (tables, Ok tt).
Proof.
  destruct (ps_served (exits no_faults (api_main running) fresh).1) as [[srv tables] |] eqn:E.
  - exists srv, tables. split; [reflexivity |].
    destruct (api_serves_only_when_ready no_faults running fresh srv tables eq_refl E)
      as (cfg & absPath & mails & jobs & w & _ & _ & _ & _ & _ & Hseed & _). exact Hseed.
  - exfalso. revert E. vm_compute. discriminate.
Defined.

Lemma api_returns_clean_witness :
  exists p', exits no_faults (api_main running) fresh = (p', true) /\ ps_pool p' = false /\
    ps_deferred p' = [].
Proof.
  exists (exits no_faults (api_main running) fresh).1.
  assert (exits no_faults (api_main running) fresh =
    ((exits no_faults (api_main running) fresh).1, true)) as E.
  { rewrite (surjective_pairing (exits _ _ _)) at 1. f_equal. }
  destruct (api_returns_clean no_faults running fresh _ eq_refl E) as (_ & _ & Hpool & Hdef & _).
  split_and!; [exact E | exact Hpool | exact Hdef].
Defined.

(** A control plane whose lease check is switched off with 0 does not stay
    up. *)
Definition without_sweep : CPConfig :=
  let cfg := default_cp_config "postgres://cp" in
  mkCPConfig (cp_Environment cfg) (cp_ServerHost cfg) (cp_ServerPort cfg) (cp_DatabaseURL cfg)
    (cp_MigrationsPath cfg) "key" (cp_intake cfg) (cp_LeaseDurationSec cfg) 0
    (cp_HeartbeatTimeoutSec cfg) (cp_WorkerSweepIntervalSec cfg).
Definition cp_running (cfg : CPConfig) : cp_env :=
  mkCPEnv (Ok cfg) (mkDbAnswers None None) Ok (mkMigrateAnswers None (fun _ => None) ErrNoChange)
    no_faults false Signalled (fun st => st) None.
Definition cp_fresh : process () cp_server := mkProcess false None [] () [] None.

Lemma sweeps_need_intervals_witness :
  (exits no_faults (cp_main (cp_running without_sweep)) cp_fresh).2 = false.
Proof.
  apply (sweeps_need_intervals no_faults (cp_running without_sweep) cp_fresh without_sweep eq_refl).
  left. vm_compute. discriminate.
Defined.

Lemma cp_serves_only_when_ready_witness :
  exists srv, ps_served (exits no_faults (cp_main (cp_running (default_cp_config "postgres://cp"))) cp_fresh).1
    = Some (srv, ()) /\ cv_consumes srv = false.
Proof.
  destruct (ps_served (exits no_faults (cp_main (cp_running (default_cp_config "postgres://cp"))) cp_fresh).1)
    as [[srv []] |] eqn:E.
  - exists srv. split; [reflexivity |].
    destruct (cp_serves_only_when_ready no_faults _ cp_fresh srv () eq_refl E)
      as (cfg & absPath & consumer & w & [= <-] & _ & _ & _ & _ & Hintake & ->).
    vm_compute in Hintake. injection Hintake as <- <-. reflexivity.
  - exfalso. revert E. vm_compute. discriminate.
Defined.

End StartupExample.
